(** * CPQ trace analyzer: a shallow embedding of its core algorithms

    The development follows the TypeScript sources:
    - the expression tokenizer and recursive-descent parser ([Expression]),
    - the line-oriented trace parser of [lib/trace-parser.ts] ([TraceParser]),
    - the behavioural comparator of the same file ([Regression]),
    - the baseline library of [lib/baseline-storage.ts] ([BaselineStorage]).

    JavaScript strings are modelled by [string]; a character stands for the
    UTF-16 code unit of the same number, so the model covers the code units
    below 256.  JavaScript [Map]s are association lists in insertion order. *)

From Stdlib Require Import Bool Arith List String Ascii ZArith Lia Permutation Sorted.
From Stdlib Require Import Floats.SpecFloat.
Import ListNotations.
Open Scope string_scope.
Open Scope list_scope.
Open Scope nat_scope.
Set Warnings "-register-all".

(** ** Strings as the sources use them *)

Module JsString.

Definition chars (s : string) : list ascii := list_ascii_of_string s.
Definition ofChars (cs : list ascii) : string := string_of_list_ascii cs.

Definition code (c : ascii) : nat := nat_of_ascii c.

Definition dquote : ascii := ascii_of_nat 34.
Definition squote : ascii := ascii_of_nat 39.

(** [/\s/]: white space and line terminators among the code units below 256. *)
Definition isSpace (c : ascii) : bool :=
  let n := code c in
  (n =? 9) || (n =? 10) || (n =? 11) || (n =? 12) || (n =? 13) || (n =? 32) || (n =? 160).

(** [/[0-9]/] *)
Definition isDigit (c : ascii) : bool :=
  let n := code c in (48 <=? n) && (n <=? 57).

Definition isUpper (c : ascii) : bool :=
  let n := code c in (65 <=? n) && (n <=? 90).

Definition isLower (c : ascii) : bool :=
  let n := code c in (97 <=? n) && (n <=? 122).

(** [/[a-zA-Z_]/] *)
Definition isIdentStart (c : ascii) : bool :=
  isUpper c || isLower c || (code c =? 95).

(** [/[a-zA-Z0-9_]/], which is also [\w] *)
Definition isWord (c : ascii) : bool :=
  isIdentStart c || isDigit c.

(** The line terminators that [.] refuses. *)
Definition isLineTerminator (c : ascii) : bool :=
  let n := code c in (n =? 10) || (n =? 13).

Definition upperChar (c : ascii) : ascii :=
  if isLower c then ascii_of_nat (code c - 32) else c.

(** Lower case of a Latin-1 code unit: the ASCII capitals and the accented
    capitals 192-222 (the multiplication sign 215 apart). *)
Definition lowerChar (c : ascii) : ascii :=
  let n := code c in
  if isUpper c then ascii_of_nat (n + 32)
  else if (192 <=? n) && (n <=? 222) && negb (n =? 215) then ascii_of_nat (n + 32)
  else c.

(** [toUpperCase] on the strings the expression parser applies it to
    (operators and identifiers, all ASCII). *)
Definition toUpperCase (s : string) : string := ofChars (map upperChar (chars s)).
Definition toLowerCase (s : string) : string := ofChars (map lowerChar (chars s)).

Fixpoint dropWhile {A} (p : A -> bool) (l : list A) : list A :=
  match l with
  | [] => []
  | x :: r => if p x then dropWhile p r else l
  end.

Fixpoint takeWhile {A} (p : A -> bool) (l : list A) : list A :=
  match l with
  | [] => []
  | x :: r => if p x then x :: takeWhile p r else []
  end.

(** [String.prototype.trim] *)
Definition trimChars (cs : list ascii) : list ascii :=
  rev (dropWhile isSpace (rev (dropWhile isSpace cs))).
Definition trim (s : string) : string := ofChars (trimChars (chars s)).

Definition startsWith (s p : string) : bool := String.prefix p s.

(** Membership in a list of strings, [Array.prototype.includes]. *)
Definition includes (l : list string) (s : string) : bool :=
  existsb (String.eqb s) l.

(** Decimal text of a natural number, as a template literal prints a count. *)
Fixpoint digitsOf (fuel n : nat) (acc : list ascii) : list ascii :=
  match fuel with
  | 0 => acc
  | S f =>
      let acc' := ascii_of_nat (48 + n mod 10) :: acc in
      if n / 10 =? 0 then acc' else digitsOf f (n / 10) acc'
  end.
Definition ofNat (n : nat) : string := ofChars (digitsOf (S n) n []).

(** [Array.prototype.join] *)
Fixpoint join (sep : string) (l : list string) : string :=
  match l with
  | [] => EmptyString
  | [x] => x
  | x :: r => (x ++ sep ++ join sep r)%string
  end.

End JsString.

(** ** Regular expressions

    The patterns of the trace parser are written as values of [regex] and
    run by a backtracking matcher with the semantics of JavaScript's
    [RegExp.prototype.exec] (no flags): leftmost match, alternatives in
    order, greedy and lazy repetition, numbered capture groups. *)

Module RegExp.
Import JsString.

Inductive regex :=
| Eps
| Chr (c : ascii)
| Cls (p : ascii -> bool)
| Seq (r1 r2 : regex)
| Alt (r1 r2 : regex)
| Star (r : regex)
| LazyStar (r : regex)
| Group (i : nat) (r : regex)
| Bol
| Eol.

Definition captures := list (nat * string).

Record MatchResult := {
  index : nat;
  lastIndex : nat;
  groups : captures
}.

Section Matcher.
Context {R : Type}.

(** [run r cs pos caps k]: match [r] against [cs], the input from [pos] on,
    and hand what is left to the continuation [k]; [None] makes the caller
    backtrack.  An iteration of a repetition that consumes nothing is
    refused, so [S (length cs)] iterations exhaust the input. *)
Fixpoint run (r : regex) (cs : list ascii) (pos : nat) (caps : captures)
  (k : list ascii -> nat -> captures -> option R) {struct r} : option R :=
  match r with
  | Eps => k cs pos caps
  | Chr c =>
      match cs with
      | x :: rest => if Ascii.eqb x c then k rest (S pos) caps else None
      | [] => None
      end
  | Cls p =>
      match cs with
      | x :: rest => if p x then k rest (S pos) caps else None
      | [] => None
      end
  | Seq r1 r2 => run r1 cs pos caps (fun cs' pos' caps' => run r2 cs' pos' caps' k)
  | Alt r1 r2 =>
      match run r1 cs pos caps k with
      | Some x => Some x
      | None => run r2 cs pos caps k
      end
  | Star r1 =>
      (fix star (n : nat) (cs : list ascii) (pos : nat) (caps : captures) {struct n} : option R :=
         match n with
         | 0 => k cs pos caps
         | S n' =>
             match run r1 cs pos caps
                     (fun cs' pos' caps' =>
                        if pos' =? pos then None else star n' cs' pos' caps') with
             | Some x => Some x
             | None => k cs pos caps
             end
         end) (S (List.length cs)) cs pos caps
  | LazyStar r1 =>
      (fix star (n : nat) (cs : list ascii) (pos : nat) (caps : captures) {struct n} : option R :=
         match n with
         | 0 => k cs pos caps
         | S n' =>
             match k cs pos caps with
             | Some x => Some x
             | None =>
                 run r1 cs pos caps
                   (fun cs' pos' caps' =>
                      if pos' =? pos then None else star n' cs' pos' caps')
             end
         end) (S (List.length cs)) cs pos caps
  | Group i r1 =>
      run r1 cs pos caps
        (fun cs' pos' caps' => k cs' pos' ((i, ofChars (firstn (pos' - pos) cs)) :: caps'))
  | Bol => if pos =? 0 then k cs pos caps else None
  | Eol => match cs with [] => k cs pos caps | _ :: _ => None end
  end.

End Matcher.

(** The leftmost match from position [pos] on. *)
Fixpoint search (r : regex) (cs : list ascii) (pos : nat) : option MatchResult :=
  match run r cs pos []
          (fun _ pos' caps => Some {| index := pos; lastIndex := pos'; groups := caps |}) with
  | Some m => Some m
  | None =>
      match cs with
      | [] => None
      | _ :: rest => search r rest (S pos)
      end
  end.

(** [regex.exec(s)], also [s.match(regex)] *)
Definition exec (r : regex) (s : string) : option MatchResult := search r (chars s) 0.

(** [regex.test(s)] *)
Definition test (r : regex) (s : string) : bool :=
  match exec r s with Some _ => true | None => false end.

(** [match[i]], for a group that took part in the match *)
Definition group (i : nat) (m : MatchResult) : string :=
  match find (fun c => fst c =? i) (groups m) with
  | Some (_, s) => s
  | None => EmptyString
  end.

(** [s.replace(regex, by)] for a pattern without the [g] flag *)
Definition replace (r : regex) (by_ : string) (s : string) : string :=
  match exec r s with
  | Some m =>
      (ofChars (firstn (index m) (chars s)) ++ by_
       ++ ofChars (skipn (lastIndex m) (chars s)))%string
  | None => s
  end.

(** Pattern syntax *)
Fixpoint seq (rs : list regex) : regex :=
  match rs with
  | [] => Eps
  | [r] => r
  | r :: rest => Seq r (seq rest)
  end.

Fixpoint alt (rs : list regex) : regex :=
  match rs with
  | [] => Cls (fun _ => false)
  | [r] => r
  | r :: rest => Alt r (alt rest)
  end.

Definition lit (s : string) : regex := seq (map Chr (chars s)).
Definition plus (r : regex) : regex := Seq r (Star r).
Definition lazyPlus (r : regex) : regex := Seq r (LazyStar r).
Definition opt (r : regex) : regex := Alt r Eps.
Fixpoint times (n : nat) (r : regex) : regex :=
  match n with
  | 0 => Eps
  | S n' => Seq r (times n' r)
  end.
(** [r{n,}] *)
Definition atLeast (n : nat) (r : regex) : regex := Seq (times n r) (Star r).

Definition space : regex := Cls isSpace.                       (* \s *)
Definition nonSpace : regex := Cls (fun c => negb (isSpace c)). (* \S *)
Definition digit : regex := Cls isDigit.                       (* \d *)
Definition word : regex := Cls isWord.                         (* \w *)
Definition dot : regex := Cls (fun c => negb (isLineTerminator c)). (* . *)
Definition notChar (c : ascii) : regex := Cls (fun x => negb (Ascii.eqb x c)). (* [^c] *)

End RegExp.

(** ** JavaScript [Map]s and [Set]s keyed by strings, in insertion order *)

Module JsMap.

Definition t (V : Type) := list (string * V).

Definition empty {V} : t V := [].

Fixpoint get {V} (m : t V) (k : string) : option V :=
  match m with
  | [] => None
  | (k', v) :: r => if String.eqb k' k then Some v else get r k
  end.

Definition has {V} (m : t V) (k : string) : bool :=
  match get m k with Some _ => true | None => false end.

(** [set] keeps the place of a key that is present and appends a new one. *)
Fixpoint set {V} (m : t V) (k : string) (v : V) : t V :=
  match m with
  | [] => [(k, v)]
  | (k', v') :: r => if String.eqb k' k then (k, v) :: r else (k', v') :: set r k v
  end.

Definition keys {V} (m : t V) : list string := map fst m.
Definition values {V} (m : t V) : list V := map snd m.
Definition entries {V} (m : t V) : list (string * V) := m.
Definition size {V} (m : t V) : nat := List.length m.

(** [new Map(entries)] *)
Definition ofEntries {V} (l : list (string * V)) : t V :=
  fold_left (fun m kv => set m (fst kv) (snd kv)) l empty.

(** The keys of a [Map] are pairwise distinct. *)
Definition wf {V} (m : t V) : Prop := NoDup (keys m).

End JsMap.

Module JsSet.

Definition t := list string.

Definition has (s : t) (x : string) : bool := existsb (String.eqb x) s.
Definition add (s : t) (x : string) : t := if has s x then s else s ++ [x].
(** [new Set(values)] *)
Definition ofList (l : list string) : t := fold_left add l [].
Definition size (s : t) : nat := List.length s.

End JsSet.

(** ** The data model of [lib/trace-parser.ts]

    One module per interface, so that the fields keep their names.  The
    interfaces that hold a [Map] take the container as a parameter [C]: it is
    [JsMap.t] in a parsed trace, and a plain object in a stored one (see
    [BaselineStorage]). *)

Module ConfigurationMetadata.
Record t := {
  instance : string;
  application : string;
  configurationId : string;
  partNumber : string;
  partNamespace : string;
  configurationMode : string;
  headerID : string
}.
End ConfigurationMetadata.

Module FeatureData.
Record t := {
  name : string;
  caption : string;
  selectedValue : option string;
  options : list string;
  optionListId : option string;
  optionListGroup : option string;
  lineNumber : nat
}.
End FeatureData.

Module RuleStats.
Record t := {
  ruleId : string;
  ruleName : string;
  ruleType : string;
  ruleset : string;
  executionCount : nat
}.
End RuleStats.

Module RulesetSummary.
Record t (C : Type -> Type) := {
  name : string;
  namespace : string;
  executionCount : nat;
  rules : C RuleStats.t
}.
Arguments name {C} _.
Arguments namespace {C} _.
Arguments executionCount {C} _.
Arguments rules {C} _.
End RulesetSummary.

Module RuleExecutionSummary.
Record t (C : Type -> Type) := {
  totalExecutions : nat;
  uniqueRules : nat;
  rulesets : C (RulesetSummary.t C);
  topRules : list RuleStats.t;
  ruleTypeBreakdown : C nat
}.
Arguments totalExecutions {C} _.
Arguments uniqueRules {C} _.
Arguments rulesets {C} _.
Arguments topRules {C} _.
Arguments ruleTypeBreakdown {C} _.
End RuleExecutionSummary.

(** A property value of an integration row: [string | number | null]. *)
Inductive PropertyValue :=
| PString (s : string)
| PNumber (x : spec_float)
| PNull.

Module IntegrationOutputRow.
Record t (C : Type -> Type) := {
  id : string;
  properties : C PropertyValue;
  lineNumber : nat
}.
Arguments id {C} _.
Arguments properties {C} _.
Arguments lineNumber {C} _.
End IntegrationOutputRow.

Module IntegrationTemplate.
Record t (C : Type -> Type) := {
  name : string;
  columns : list string;
  rows : list (IntegrationOutputRow.t C)
}.
Arguments name {C} _.
Arguments columns {C} _.
Arguments rows {C} _.
End IntegrationTemplate.

Module IntegrationOutputSummary.
Record t (C : Type -> Type) := {
  templates : C (IntegrationTemplate.t C);
  totalRows : nat
}.
Arguments templates {C} _.
Arguments totalRows {C} _.
End IntegrationOutputSummary.

Module VariableAssignment.
Record t := {
  variableName : string;
  displayName : string;
  assignmentExpression : string;
  previousValue : option string;
  resultValue : option string;
  lineNumber : nat;
  ruleType : string;
  ruleName : string;
  ruleset : string
}.
End VariableAssignment.

Module VariableSummary.
Record t := {
  name : string;
  rawName : string;
  assignments : list VariableAssignment.t;
  finalValue : option string;
  assignmentCount : nat;
  firstAssignmentLine : nat;
  lastAssignmentLine : nat;
  hasChanges : bool
}.
End VariableSummary.

Module VariableTrackingSummary.
Record t (C : Type -> Type) := {
  variables : C VariableSummary.t;
  totalAssignments : nat;
  uniqueVariables : nat
}.
Arguments variables {C} _.
Arguments totalAssignments {C} _.
Arguments uniqueVariables {C} _.
End VariableTrackingSummary.

Module ConditionEvaluation.
Record t := {
  ruleId : string;
  ruleName : string;
  ruleType : string;
  ruleset : string;
  expression : string;
  trace : string;
  result : bool;
  lineNumber : nat
}.
End ConditionEvaluation.

Module ConditionSummary.
Record t := {
  totalConditions : nat;
  firedCount : nat;
  skippedCount : nat;
  conditions : list ConditionEvaluation.t
}.
End ConditionSummary.

Module Duration.
Record t := { startLine : nat; endLine : nat }.
End Duration.

Module RuleExecution.
Record t := {
  executionId : nat;
  ruleId : string;
  ruleName : string;
  ruleType : string;
  ruleset : string;
  lineNumber : nat;
  depth : nat;
  parentExecutionId : option nat;
  childExecutionIds : list nat;
  duration : Duration.t
}.
End RuleExecution.

Module Hotspot.
Record t := {
  startExecution : nat;
  endExecution : nat;
  ruleCount : nat;
  ruleset : string
}.
End Hotspot.

Module RuleExecutionTimeline.
Record t := {
  executions : list RuleExecution.t;
  totalExecutions : nat;
  maxDepth : nat;
  rulesetOrder : list string;
  hotspots : list Hotspot.t
}.
End RuleExecutionTimeline.

Module DetectedIssue.
Inductive IssueSeverity := error | warning | info.
Inductive IssueCategory := performance | logic | data | configuration.
Record Context := {
  ruleName : option string;
  ruleset : option string;
  variableName : option string;
  expression : option string;
  count : option nat
}.
Record t := {
  id : string;
  severity : IssueSeverity;
  category : IssueCategory;
  title : string;
  description : string;
  lineNumber : nat;
  context : Context
}.
End DetectedIssue.

Module IssuesSummary.
Record t := {
  issues : list DetectedIssue.t;
  errorCount : nat;
  warningCount : nat;
  infoCount : nat
}.
End IssuesSummary.

Module ParsedTrace.
Record t (C : Type -> Type) := {
  metadata : ConfigurationMetadata.t;
  features : C FeatureData.t;
  rulesSummary : RuleExecutionSummary.t C;
  integrationOutputs : IntegrationOutputSummary.t C;
  variableTracking : VariableTrackingSummary.t C;
  conditionTracking : ConditionSummary.t;
  issues : IssuesSummary.t;
  timeline : RuleExecutionTimeline.t;
  rulesExecuted : nat;
  rollbackPoints : nat;
  parseErrors : list string
}.
Arguments metadata {C} _.
Arguments features {C} _.
Arguments rulesSummary {C} _.
Arguments integrationOutputs {C} _.
Arguments variableTracking {C} _.
Arguments conditionTracking {C} _.
Arguments issues {C} _.
Arguments timeline {C} _.
Arguments rulesExecuted {C} _.
Arguments rollbackPoints {C} _.
Arguments parseErrors {C} _.
End ParsedTrace.

(** A stable sort, as [Array.prototype.sort] is: [before a b] says that [a]
    may stay in front of [b] (the comparator is not positive). *)
Fixpoint insertSorted {A} (before : A -> A -> bool) (x : A) (l : list A) : list A :=
  match l with
  | [] => [x]
  | y :: r => if before x y then x :: l else y :: insertSorted before x r
  end.

Definition stableSort {A} (before : A -> A -> bool) (l : list A) : list A :=
  fold_right (insertSorted before) [] l.

(** ** The trace parser *)

Module TraceParser.
Import JsString RegExp.

(** [traceContent.split(/\r?\n/)] *)
Fixpoint splitLines_from (cs : list ascii) (line : list ascii) : list string :=
  match cs with
  | [] => [ofChars (rev line)]
  | c :: rest =>
      if code c =? 10 then ofChars (rev line) :: splitLines_from rest []
      else
        match rest with
        | n :: rest' =>
            if (code c =? 13) && (code n =? 10)
            then ofChars (rev line) :: splitLines_from rest' []
            else splitLines_from rest (c :: line)
        | [] => splitLines_from rest (c :: line)
        end
  end.

Definition splitLines (traceContent : string) : list string :=
  splitLines_from (chars traceContent) [].

(** *** Patterns *)

Definition q : regex := Chr dquote.

(* /<InputParameters Instance=Q([^Q]+)Q Application=Q([^Q]+)Q>/, where Q is
   the double quote *)
Definition instancePattern : regex :=
  seq [lit "<InputParameters Instance="; q; Group 1 (plus (notChar dquote)); q;
       lit " Application="; q; Group 2 (plus (notChar dquote)); q; lit ">"].
(* /<ConfigurationID>(\d+)<\/ConfigurationID>/ *)
Definition configIdPattern : regex :=
  seq [lit "<ConfigurationID>"; Group 1 (plus digit); lit "</ConfigurationID>"].
(* /<PartNumber>([^<]+)<\/PartNumber>/ *)
Definition partNumberPattern : regex :=
  seq [lit "<PartNumber>"; Group 1 (plus (notChar "<")); lit "</PartNumber>"].
(* /<PartNamespace>([^<]+)<\/PartNamespace>/ *)
Definition partNamespacePattern : regex :=
  seq [lit "<PartNamespace>"; Group 1 (plus (notChar "<")); lit "</PartNamespace>"].
(* /<ConfigurationMode>([^<]+)<\/ConfigurationMode>/ *)
Definition configModePattern : regex :=
  seq [lit "<ConfigurationMode>"; Group 1 (plus (notChar "<")); lit "</ConfigurationMode>"].
(* /<HeaderID>([^<]+)<\/HeaderID>/ *)
Definition headerIdPattern : regex :=
  seq [lit "<HeaderID>"; Group 1 (plus (notChar "<")); lit "</HeaderID>"].

(* /^-{10,}/ *)
Definition sectionDivider : regex := seq [Bol; atLeast 10 (Chr "-")].

(* /^Ruleset: (\S+) Rule: (\d+) (.+?) \(Ruleset:/ *)
Definition rulesetPattern : regex :=
  seq [Bol; lit "Ruleset: "; Group 1 (plus nonSpace); lit " Rule: ";
       Group 2 (plus digit); Chr " "; Group 3 (lazyPlus dot); lit " (Ruleset:"].

(** The rule types that [parseRuleExecutions] and [parseVariableAssignments]
    list in their [ruleTypePattern]. *)
Definition ruleTypes : list string :=
  ["ConditionRule"; "VariableRule"; "LoadRulesetRule"; "CreateComponentRule";
   "CreateDynamicOptionListRule"; "CreateDynamicOptionListGroupRule";
   "ScreenDisplayRule"; "ForEachRule"; "LoopRule"].

(** The rule types that [parseConditions] and [parseRuleExecutionTimeline]
    list in theirs. *)
Definition ruleTypesWithClear : list string := ruleTypes ++ ["ClearUserValueRule"].

(* /^(ConditionRule|...|LoopRule)/ *)
Definition ruleTypePattern (types : list string) : regex :=
  seq [Bol; Group 1 (alt (map lit types))].

(** [field name] is [/^\s+name\s+:\s+(.+)/]. *)
Definition field (name : string) : regex :=
  seq [Bol; plus space; lit name; plus space; Chr ":"; plus space; Group 1 (plus dot)].

Definition variablePattern : regex := field "Variable".
Definition assignmentPattern : regex := field "Assignment".
Definition previousPattern : regex := field "Previous".
Definition resultPattern : regex := field "Result".

(* /^(\w+)\[(\w+)\]$/ *)
Definition indexedPattern : regex :=
  seq [Bol; Group 1 (plus word); Chr "["; Group 2 (plus word); Chr "]"; Eol].
(* /\[.*\]/ *)
Definition bracketPattern : regex := seq [Chr "["; Star dot; Chr "]"].
(* The pattern of [parseVariableValue]: at the start of the text a double
   quote, a captured greedy run of any characters, and a double quote. *)
Definition quotedPattern : regex := seq [Bol; q; Group 1 (Star dot); q].

(** *** The header fields of [parseTrace]

    The part of the second pass that fills [metadata]; it reads nothing that
    the rest of the loop body writes. *)

Import ConfigurationMetadata.

Definition emptyMetadata : ConfigurationMetadata.t :=
  {| instance := EmptyString; application := EmptyString;
     configurationId := EmptyString; partNumber := EmptyString;
     partNamespace := EmptyString; configurationMode := EmptyString;
     headerID := EmptyString |}.

(** The assignments to [metadata] in one round of the loop, given what
    each pattern matched on the line. *)
Definition metadataUpdate (metadata : ConfigurationMetadata.t)
  (instanceMatch configIdMatch partNumMatch partNsMatch configModeMatch headerIdMatch
     : option MatchResult) : ConfigurationMetadata.t :=
  let metadata :=
    match instanceMatch with
    | Some instanceMatch =>
        {| instance := group 1 instanceMatch;
           application := group 2 instanceMatch;
           configurationId := configurationId metadata;
           partNumber := partNumber metadata;
           partNamespace := partNamespace metadata;
           configurationMode := configurationMode metadata;
           headerID := headerID metadata |}
    | None => metadata
    end in
  let metadata :=
    match configIdMatch with
    | Some configIdMatch =>
        {| instance := instance metadata;
           application := application metadata;
           configurationId := group 1 configIdMatch;
           partNumber := partNumber metadata;
           partNamespace := partNamespace metadata;
           configurationMode := configurationMode metadata;
           headerID := headerID metadata |}
    | None => metadata
    end in
  let metadata :=
    match partNumMatch with
    | Some partNumMatch =>
        if String.eqb (partNumber metadata) EmptyString then
          {| instance := instance metadata;
             application := application metadata;
             configurationId := configurationId metadata;
             partNumber := group 1 partNumMatch;
             partNamespace := partNamespace metadata;
             configurationMode := configurationMode metadata;
             headerID := headerID metadata |}
        else metadata
    | None => metadata
    end in
  let metadata :=
    match partNsMatch with
    | Some partNsMatch =>
        {| instance := instance metadata;
           application := application metadata;
           configurationId := configurationId metadata;
           partNumber := partNumber metadata;
           partNamespace := group 1 partNsMatch;
           configurationMode := configurationMode metadata;
           headerID := headerID metadata |}
    | None => metadata
    end in
  let metadata :=
    match configModeMatch with
    | Some configModeMatch =>
        {| instance := instance metadata;
           application := application metadata;
           configurationId := configurationId metadata;
           partNumber := partNumber metadata;
           partNamespace := partNamespace metadata;
           configurationMode := group 1 configModeMatch;
           headerID := headerID metadata |}
    | None => metadata
    end in
  match headerIdMatch with
  | Some headerIdMatch =>
      {| instance := instance metadata;
         application := application metadata;
         configurationId := configurationId metadata;
         partNumber := partNumber metadata;
         partNamespace := partNamespace metadata;
         configurationMode := configurationMode metadata;
         headerID := group 1 headerIdMatch |}
  | None => metadata
  end.

(** One round of [while (i < lines.length)], for [metadata]. *)
Definition metadataStep (metadata : ConfigurationMetadata.t) (line : string)
  : ConfigurationMetadata.t :=
  metadataUpdate metadata
    (exec instancePattern line) (exec configIdPattern line)
    (exec partNumberPattern line) (exec partNamespacePattern line)
    (exec configModePattern line) (exec headerIdPattern line).

Definition parseMetadata (lines : list string) : ConfigurationMetadata.t :=
  fold_left metadataStep lines emptyMetadata.

(** *** [parseRuleExecutions] *)

(** The rule type read from the line after a firing line. *)
Definition ruleTypeAfter (types : list string) (next : option string) : option string :=
  match next with
  | Some nextLine =>
      match exec (ruleTypePattern types) nextLine with
      | Some typeMatch => Some (group 1 typeMatch)
      | None => None
      end
  | None => None
  end.

(** [rulesetName.split('.')[0]] *)
Definition firstSegment (s : string) : string :=
  ofChars (takeWhile (fun c => negb (Ascii.eqb c "."%char)) (chars s)).

Definition bumpRule (r : RuleStats.t) : RuleStats.t :=
  {| RuleStats.ruleId := RuleStats.ruleId r;
     RuleStats.ruleName := RuleStats.ruleName r;
     RuleStats.ruleType := RuleStats.ruleType r;
     RuleStats.ruleset := RuleStats.ruleset r;
     RuleStats.executionCount := RuleStats.executionCount r + 1 |}.

(** [if (!map.has(key)) map.set(key, fresh); map.get(key)!.executionCount++] *)
Definition countRule (m : JsMap.t RuleStats.t) (ruleKey : string) (fresh : RuleStats.t)
  : JsMap.t RuleStats.t :=
  let m := if JsMap.has m ruleKey then m else JsMap.set m ruleKey fresh in
  match JsMap.get m ruleKey with
  | Some r => JsMap.set m ruleKey (bumpRule r)
  | None => m
  end.

Record RuleExecutionsState := {
  rulesets : JsMap.t (RulesetSummary.t JsMap.t);
  ruleTypeBreakdown : JsMap.t nat;
  ruleExecutionCounts : JsMap.t RuleStats.t;
  totalExecutions : nat
}.

(** The body of the [for] loop of [parseRuleExecutions] at [line], with
    [next] the line after it, if any. *)
Definition ruleExecutionsStep (st : RuleExecutionsState) (line : string) (next : option string)
  : RuleExecutionsState :=
  match exec rulesetPattern line with
  | None => st
  | Some ruleMatch =>
      let rulesetName := group 1 ruleMatch in
      let ruleId := group 2 ruleMatch in
      let ruleName := trim (group 3 ruleMatch) in
      let ruleType :=
        match ruleTypeAfter ruleTypes next with
        | Some t => t
        | None => "Unknown"
        end in
      let namespace := firstSegment rulesetName in
      let rulesets1 :=
        if JsMap.has (rulesets st) rulesetName then rulesets st
        else JsMap.set (rulesets st) rulesetName
               {| RulesetSummary.name := rulesetName;
                  RulesetSummary.namespace := namespace;
                  RulesetSummary.executionCount := 0;
                  RulesetSummary.rules := JsMap.empty |} in
      let ruleKey := (rulesetName ++ ":" ++ ruleId)%string in
      let fresh :=
        {| RuleStats.ruleId := ruleId; RuleStats.ruleName := ruleName;
           RuleStats.ruleType := ruleType; RuleStats.ruleset := rulesetName;
           RuleStats.executionCount := 0 |} in
      let rulesets2 :=
        match JsMap.get rulesets1 rulesetName with
        | Some rulesetSummary =>
            JsMap.set rulesets1 rulesetName
              {| RulesetSummary.name := RulesetSummary.name rulesetSummary;
                 RulesetSummary.namespace := RulesetSummary.namespace rulesetSummary;
                 RulesetSummary.executionCount :=
                   RulesetSummary.executionCount rulesetSummary + 1;
                 RulesetSummary.rules :=
                   countRule (RulesetSummary.rules rulesetSummary) ruleKey fresh |}
        | None => rulesets1
        end in
      {| rulesets := rulesets2;
         ruleTypeBreakdown :=
           JsMap.set (ruleTypeBreakdown st) ruleType
             (match JsMap.get (ruleTypeBreakdown st) ruleType with
              | Some n => n
              | None => 0
              end + 1);
         ruleExecutionCounts := countRule (ruleExecutionCounts st) ruleKey fresh;
         totalExecutions := totalExecutions st + 1 |}
  end.

Fixpoint ruleExecutionsLoop (lines : list string) (st : RuleExecutionsState)
  : RuleExecutionsState :=
  match lines with
  | [] => st
  | line :: rest => ruleExecutionsLoop rest (ruleExecutionsStep st line (hd_error rest))
  end.

Definition parseRuleExecutions (lines : list string) : RuleExecutionSummary.t JsMap.t :=
  let st :=
    ruleExecutionsLoop lines
      {| rulesets := JsMap.empty; ruleTypeBreakdown := JsMap.empty;
         ruleExecutionCounts := JsMap.empty; totalExecutions := 0 |} in
  let topRules :=
    firstn 20
      (stableSort
         (fun a b => RuleStats.executionCount b <=? RuleStats.executionCount a)
         (JsMap.values (ruleExecutionCounts st))) in
  {| RuleExecutionSummary.totalExecutions := totalExecutions st;
     RuleExecutionSummary.uniqueRules := JsMap.size (ruleExecutionCounts st);
     RuleExecutionSummary.rulesets := rulesets st;
     RuleExecutionSummary.topRules := topRules;
     RuleExecutionSummary.ruleTypeBreakdown := ruleTypeBreakdown st |}.

(** *** [parseVariableAssignments] *)

(** [parseVariableValue]: the two sentinels pass through, one layer of
    quotes is removed. *)
Definition parseVariableValue (value : string) : string :=
  if String.eqb value "null" || String.eqb value "(unassigned)" then value
  else
    match exec quotedPattern value with
    | Some quotedMatch => group 1 quotedMatch
    | None => value
    end.

(** [resolveVariableName] *)
Definition resolveVariableName (rawName : string) (variableValues : JsMap.t string) : string :=
  match exec indexedPattern rawName with
  | Some m =>
      let baseName := toLowerCase (group 1 m) in
      let indexVar := toLowerCase (group 2 m) in
      match JsMap.get variableValues indexVar with
      | Some (String c r) => (baseName ++ "." ++ String c r)%string
      | _ => (baseName ++ "[" ++ group 2 m ++ "]")%string
      end
  | None => rawName
  end.

(** What the look-ahead after a [Variable :] line has found so far. *)
Record VariableFields := {
  assignmentExpr : string;
  previousValue : option string;
  resultValue : option string
}.

(** The look-ahead loop over [window], the lines [i+1 .. min(i+10, length) - 1]. *)
Fixpoint scanVariableFields (window : list string) (found : VariableFields) : VariableFields :=
  match window with
  | [] => found
  | nextLine :: rest =>
      if test variablePattern nextLine || test sectionDivider nextLine
         || test rulesetPattern nextLine
      then found
      else
        let found :=
          match exec assignmentPattern nextLine with
          | Some assignMatch =>
              {| assignmentExpr := trim (group 1 assignMatch);
                 previousValue := previousValue found;
                 resultValue := resultValue found |}
          | None => found
          end in
        let found :=
          match exec previousPattern nextLine with
          | Some prevMatch =>
              {| assignmentExpr := assignmentExpr found;
                 previousValue := Some (parseVariableValue (trim (group 1 prevMatch)));
                 resultValue := resultValue found |}
          | None => found
          end in
        match exec resultPattern nextLine with
        | Some resMatch =>
            {| assignmentExpr := assignmentExpr found;
               previousValue := previousValue found;
               resultValue := Some (parseVariableValue (trim (group 1 resMatch))) |}
        | None => scanVariableFields rest found
        end
  end.

Record VariableState := {
  assignments : list VariableAssignment.t;
  variableValues : JsMap.t string;
  currentRuleset : string;
  currentRuleName : string;
  currentRuleType : string
}.

(** The body of the first loop of [parseVariableAssignments] at line [i]
    (0-based), with [rest] the lines after it. *)
Definition variableStep (st : VariableState) (i : nat) (line : string) (rest : list string)
  : VariableState :=
  let st :=
    match exec rulesetPattern line with
    | Some ruleMatch =>
        {| assignments := assignments st;
           variableValues := variableValues st;
           currentRuleset := group 1 ruleMatch;
           currentRuleName := trim (group 3 ruleMatch);
           currentRuleType :=
             match ruleTypeAfter ruleTypes (hd_error rest) with
             | Some t => t
             | None => currentRuleType st
             end |}
    | None => st
    end in
  match exec variablePattern line with
  | None => st
  | Some varMatch =>
      let rawVariableName := trim (group 1 varMatch) in
      let found :=
        scanVariableFields (firstn 9 rest)
          {| assignmentExpr := EmptyString; previousValue := None; resultValue := None |} in
      let displayName := resolveVariableName rawVariableName (variableValues st) in
      let assignment :=
        {| VariableAssignment.variableName := rawVariableName;
           VariableAssignment.displayName := displayName;
           VariableAssignment.assignmentExpression := assignmentExpr found;
           VariableAssignment.previousValue := previousValue found;
           VariableAssignment.resultValue := resultValue found;
           VariableAssignment.lineNumber := i + 1;
           VariableAssignment.ruleType := currentRuleType st;
           VariableAssignment.ruleName := currentRuleName st;
           VariableAssignment.ruleset := currentRuleset st |} in
      let variableValues' :=
        match resultValue found with
        | Some result =>
            let values := JsMap.set (variableValues st) (toLowerCase rawVariableName) result in
            let simpleName := toLowerCase (replace bracketPattern EmptyString rawVariableName) in
            if JsMap.has values simpleName then values
            else JsMap.set values simpleName result
        | None => variableValues st
        end in
      {| assignments := assignments st ++ [assignment];
         variableValues := variableValues';
         currentRuleset := currentRuleset st;
         currentRuleName := currentRuleName st;
         currentRuleType := currentRuleType st |}
  end.

Fixpoint variableLoop (lines : list string) (i : nat) (st : VariableState) : VariableState :=
  match lines with
  | [] => st
  | line :: rest => variableLoop rest (S i) (variableStep st i line rest)
  end.

(** The test that sets [hasChanges]. *)
Definition valueChanged (assignment : VariableAssignment.t) : bool :=
  match VariableAssignment.previousValue assignment,
        VariableAssignment.resultValue assignment with
  | Some previous, Some result =>
      negb (String.eqb previous result) && negb (String.eqb previous "(unassigned)")
  | _, _ => false
  end.

(** The body of the grouping loop. *)
Definition groupStep (variablesMap : JsMap.t VariableSummary.t)
  (assignment : VariableAssignment.t) : JsMap.t VariableSummary.t :=
  let key := VariableAssignment.displayName assignment in
  let variablesMap :=
    if JsMap.has variablesMap key then variablesMap
    else JsMap.set variablesMap key
           {| VariableSummary.name := VariableAssignment.displayName assignment;
              VariableSummary.rawName := VariableAssignment.variableName assignment;
              VariableSummary.assignments := [];
              VariableSummary.finalValue := None;
              VariableSummary.assignmentCount := 0;
              VariableSummary.firstAssignmentLine := VariableAssignment.lineNumber assignment;
              VariableSummary.lastAssignmentLine := VariableAssignment.lineNumber assignment;
              VariableSummary.hasChanges := false |} in
  match JsMap.get variablesMap key with
  | Some summary =>
      JsMap.set variablesMap key
        {| VariableSummary.name := VariableSummary.name summary;
           VariableSummary.rawName := VariableSummary.rawName summary;
           VariableSummary.assignments := VariableSummary.assignments summary ++ [assignment];
           VariableSummary.finalValue := VariableAssignment.resultValue assignment;
           VariableSummary.assignmentCount := VariableSummary.assignmentCount summary + 1;
           VariableSummary.firstAssignmentLine := VariableSummary.firstAssignmentLine summary;
           VariableSummary.lastAssignmentLine := VariableAssignment.lineNumber assignment;
           VariableSummary.hasChanges :=
             if valueChanged assignment then true else VariableSummary.hasChanges summary |}
  | None => variablesMap
  end.

Definition groupAssignments (assignments : list VariableAssignment.t)
  : JsMap.t VariableSummary.t :=
  fold_left groupStep assignments JsMap.empty.

Definition parseVariableAssignments (lines : list string) : VariableTrackingSummary.t JsMap.t :=
  let st :=
    variableLoop lines 0
      {| assignments := []; variableValues := JsMap.empty;
         currentRuleset := EmptyString; currentRuleName := EmptyString;
         currentRuleType := EmptyString |} in
  let variablesMap := groupAssignments (assignments st) in
  {| VariableTrackingSummary.variables := variablesMap;
     VariableTrackingSummary.totalAssignments := List.length (assignments st);
     VariableTrackingSummary.uniqueVariables := JsMap.size variablesMap |}.

(** *** [parseRuleExecutionTimeline] *)

Record StackEntry := { stackRuleset : string; stackExecutionId : nat }.

Record TimelineState := {
  executions : list RuleExecution.t;
  rulesetOrder : list string;
  seenRulesets : JsSet.t;
  rulesetStack : list StackEntry;
  currentDepth : nat;
  executionId : nat
}.

(** [rulesetStack[rulesetStack.length - 1]], if the stack is not empty *)
Definition topOf (stack : list StackEntry) : option StackEntry :=
  last (map Some stack) None.

(** [rulesetStack.findIndex(s => s.ruleset === ruleset)] *)
Fixpoint findIndex (stack : list StackEntry) (ruleset : string) : option nat :=
  match stack with
  | [] => None
  | s :: rest =>
      if String.eqb (stackRuleset s) ruleset then Some 0
      else option_map S (findIndex rest ruleset)
  end.

(** [parent.childExecutionIds.push(child)] on the first execution with the
    id [parentId]. *)
Fixpoint addChild (executions : list RuleExecution.t) (parentId child : nat)
  : list RuleExecution.t :=
  match executions with
  | [] => []
  | e :: rest =>
      if RuleExecution.executionId e =? parentId then
        {| RuleExecution.executionId := RuleExecution.executionId e;
           RuleExecution.ruleId := RuleExecution.ruleId e;
           RuleExecution.ruleName := RuleExecution.ruleName e;
           RuleExecution.ruleType := RuleExecution.ruleType e;
           RuleExecution.ruleset := RuleExecution.ruleset e;
           RuleExecution.lineNumber := RuleExecution.lineNumber e;
           RuleExecution.depth := RuleExecution.depth e;
           RuleExecution.parentExecutionId := RuleExecution.parentExecutionId e;
           RuleExecution.childExecutionIds := RuleExecution.childExecutionIds e ++ [child];
           RuleExecution.duration := RuleExecution.duration e |} :: rest
      else e :: addChild rest parentId child
  end.

(** The body of the first loop of [parseRuleExecutionTimeline] at line [i]. *)
Definition timelineStep (st : TimelineState) (i : nat) (line : string) (next : option string)
  : TimelineState :=
  match exec rulesetPattern line with
  | None => st
  | Some ruleMatch =>
      let ruleset := group 1 ruleMatch in
      let ruleId := group 2 ruleMatch in
      let ruleName := trim (group 3 ruleMatch) in
      let ruleType :=
        match ruleTypeAfter ruleTypesWithClear next with
        | Some t => t
        | None => "Unknown"
        end in
      let '(seen, order) :=
        if JsSet.has (seenRulesets st) ruleset then (seenRulesets st, rulesetOrder st)
        else (JsSet.add (seenRulesets st) ruleset, rulesetOrder st ++ [ruleset]) in
      (* the [while] loop runs its body at most once: both branches break *)
      let '(stack, depth) :=
        match topOf (rulesetStack st) with
        | Some top =>
            if negb (String.eqb (stackRuleset top) ruleset) then
              match findIndex (rulesetStack st) ruleset with
              | Some stackIndex =>
                  let stack := firstn (stackIndex + 1) (rulesetStack st) in
                  (stack, List.length stack)
              | None => (rulesetStack st, currentDepth st)
              end
            else (rulesetStack st, currentDepth st)
        | None => (rulesetStack st, currentDepth st)
        end in
      let parentExecutionId :=
        match topOf stack with
        | Some parent =>
            if negb (String.eqb (stackRuleset parent) ruleset)
            then Some (stackExecutionId parent) else None
        | None => None
        end in
      let execution :=
        {| RuleExecution.executionId := executionId st;
           RuleExecution.ruleId := ruleId;
           RuleExecution.ruleName := ruleName;
           RuleExecution.ruleType := ruleType;
           RuleExecution.ruleset := ruleset;
           RuleExecution.lineNumber := i + 1;
           RuleExecution.depth := depth;
           RuleExecution.parentExecutionId := parentExecutionId;
           RuleExecution.childExecutionIds := [];
           RuleExecution.duration :=
             {| Duration.startLine := i + 1; Duration.endLine := i + 1 |} |} in
      let executions1 := executions st ++ [execution] in
      let '(stack, depth) :=
        if String.eqb ruleType "LoadRulesetRule" then
          (stack ++ [ {| stackRuleset := ruleset; stackExecutionId := executionId st |} ],
           depth + 1)
        else (stack, depth) in
      let executions2 :=
        match parentExecutionId with
        | Some parentId => addChild executions1 parentId (executionId st)
        | None => executions1
        end in
      {| executions := executions2; rulesetOrder := order; seenRulesets := seen;
         rulesetStack := stack; currentDepth := depth; executionId := executionId st + 1 |}
  end.

Fixpoint timelineLoop (lines : list string) (i : nat) (st : TimelineState) : TimelineState :=
  match lines with
  | [] => st
  | line :: rest => timelineLoop rest (S i) (timelineStep st i line (hd_error rest))
  end.

(** The second loop: each execution but the last ends where the next starts. *)
Fixpoint setDurations (executions : list RuleExecution.t) : list RuleExecution.t :=
  match executions with
  | e :: ((e' :: _) as rest) =>
      {| RuleExecution.executionId := RuleExecution.executionId e;
         RuleExecution.ruleId := RuleExecution.ruleId e;
         RuleExecution.ruleName := RuleExecution.ruleName e;
         RuleExecution.ruleType := RuleExecution.ruleType e;
         RuleExecution.ruleset := RuleExecution.ruleset e;
         RuleExecution.lineNumber := RuleExecution.lineNumber e;
         RuleExecution.depth := RuleExecution.depth e;
         RuleExecution.parentExecutionId := RuleExecution.parentExecutionId e;
         RuleExecution.childExecutionIds := RuleExecution.childExecutionIds e;
         RuleExecution.duration :=
           {| Duration.startLine := RuleExecution.lineNumber e;
              Duration.endLine := RuleExecution.lineNumber e' - 1 |} |}
        :: setDurations rest
  | _ => executions
  end.

Definition HOTSPOT_THRESHOLD : nat := 10.

Record CurrentHotspot := { hsRuleset : string; hsStart : nat; hsCount : nat }.

(** The third loop, from index [i] on. *)
Fixpoint hotspotLoop (executions : list RuleExecution.t) (i : nat)
  (currentHotspot : option CurrentHotspot) (hotspots : list Hotspot.t)
  : option CurrentHotspot * list Hotspot.t :=
  match executions with
  | [] => (currentHotspot, hotspots)
  | exec_ :: rest =>
      match currentHotspot with
      | Some h =>
          if String.eqb (hsRuleset h) (RuleExecution.ruleset exec_) then
            hotspotLoop rest (S i)
              (Some {| hsRuleset := hsRuleset h; hsStart := hsStart h;
                       hsCount := hsCount h + 1 |}) hotspots
          else
            hotspotLoop rest (S i)
              (Some {| hsRuleset := RuleExecution.ruleset exec_; hsStart := i; hsCount := 1 |})
              (if HOTSPOT_THRESHOLD <=? hsCount h then
                 hotspots ++ [ {| Hotspot.startExecution := hsStart h;
                                  Hotspot.endExecution := i - 1;
                                  Hotspot.ruleCount := hsCount h;
                                  Hotspot.ruleset := hsRuleset h |} ]
               else hotspots)
      | None =>
          hotspotLoop rest (S i)
            (Some {| hsRuleset := RuleExecution.ruleset exec_; hsStart := i; hsCount := 1 |})
            hotspots
      end
  end.

Definition parseRuleExecutionTimeline (lines : list string) : RuleExecutionTimeline.t :=
  let st :=
    timelineLoop lines 0
      {| executions := []; rulesetOrder := []; seenRulesets := [];
         rulesetStack := []; currentDepth := 0; executionId := 0 |} in
  let executions := setDurations (executions st) in
  let '(currentHotspot, hotspots) := hotspotLoop executions 0 None [] in
  let hotspots :=
    match currentHotspot with
    | Some h =>
        if HOTSPOT_THRESHOLD <=? hsCount h then
          hotspots ++ [ {| Hotspot.startExecution := hsStart h;
                           Hotspot.endExecution := List.length executions - 1;
                           Hotspot.ruleCount := hsCount h;
                           Hotspot.ruleset := hsRuleset h |} ]
        else hotspots
    | None => hotspots
    end in
  let maxDepth := fold_left (fun max e => Nat.max max (RuleExecution.depth e)) executions 0 in
  {| RuleExecutionTimeline.executions := executions;
     RuleExecutionTimeline.totalExecutions := List.length executions;
     RuleExecutionTimeline.maxDepth := maxDepth;
     RuleExecutionTimeline.rulesetOrder := rulesetOrder st;
     RuleExecutionTimeline.hotspots := hotspots |}.

(** *** [parseTrace]

    The fields of its result that the parsers above compute: the line array
    is shared by all of them. *)
Record ParseTraceResult := {
  metadata : ConfigurationMetadata.t;
  rulesSummary : RuleExecutionSummary.t JsMap.t;
  variableTracking : VariableTrackingSummary.t JsMap.t;
  timeline : RuleExecutionTimeline.t
}.

Definition parseTrace (traceContent : string) : ParseTraceResult :=
  let lines := splitLines traceContent in
  {| metadata := parseMetadata lines;
     rulesSummary := parseRuleExecutions lines;
     variableTracking := parseVariableAssignments lines;
     timeline := parseRuleExecutionTimeline lines |}.

End TraceParser.

(** ** The behavioural comparator, [compareBehavior] *)

Module Regression.
Import JsString.

Inductive BehavioralIssueType :=
| options_changed
| integration_changed
| condition_changed
| feature_missing
| feature_added.

Inductive Severity := error | warning | info.

Definition Severity_eqb (a b : Severity) : bool :=
  match a, b with
  | error, error | warning, warning | info, info => true
  | _, _ => false
  end.

(** [{ error: 0, warning: 1, info: 2 }] *)
Definition severityOrder (s : Severity) : nat :=
  match s with error => 0 | warning => 1 | info => 2 end.

(** [string | string[] | boolean | null] *)
Inductive IssueValue :=
| VString (s : string)
| VStrings (l : list string)
| VBoolean (b : bool)
| VNull.

Definition ofNullable (v : option string) : IssueValue :=
  match v with Some s => VString s | None => VNull end.

Module BehavioralIssue.
Record t := {
  type : BehavioralIssueType;
  featureName : string;
  lineNumber : nat;
  selection : option string;
  baseline : IssueValue;
  test : IssueValue;
  severity : Severity;
  details : option string
}.
End BehavioralIssue.

Module SelectionComparison.
Record t := {
  featureName : string;
  baselineValue : option string;
  testValue : option string;
  isMatch : bool
}.
End SelectionComparison.

Module Summary.
Record t := {
  totalFeaturesCompared : nat;
  behavioralIssuesFound : nat;
  userChoicesDiverged : nat;
  errors : nat;
  warnings : nat;
  infos : nat
}.
End Summary.

Module BaselineInfo.
Record t := { id : string; name : string; matchScore : spec_float }.
End BaselineInfo.

Module RegressionResult.
Record t := {
  matchedBaselineName : string;
  matchedBaselineId : string;
  matchScore : spec_float;
  matchingSelections : list SelectionComparison.t;
  divergentSelections : list SelectionComparison.t;
  issues : list BehavioralIssue.t;
  summary : Summary.t
}.
End RegressionResult.

(** [a === b] on [string | null] *)
Definition nullableEqb (a b : option string) : bool :=
  match a, b with
  | Some x, Some y => String.eqb x y
  | None, None => true
  | _, _ => false
  end.

(** [setsEqual] *)
Definition setsEqual (a b : JsSet.t) : bool :=
  if negb (JsSet.size a =? JsSet.size b) then false
  else forallb (fun item => JsSet.has b item) a.

Definition inQuotes (s : string) : string :=
  (String dquote EmptyString ++ s ++ String dquote EmptyString)%string.

Section Comparator.

(** [String(x)] on a number, which this development does not spell out. *)
Variable numberToString : spec_float -> string.

(** [String(v)] for what [Map.get] returns: a property value or [undefined]. *)
Definition String_ (v : option PropertyValue) : string :=
  match v with
  | Some (PString s) => s
  | Some (PNumber x) => numberToString x
  | Some PNull => "null"
  | None => "undefined"
  end.

(** [rows[0]?.lineNumber || 0] *)
Definition firstLineNumber (rows : list (IntegrationOutputRow.t JsMap.t)) : nat :=
  match rows with
  | r :: _ => IntegrationOutputRow.lineNumber r
  | [] => 0
  end.

Definition rowsById (rows : list (IntegrationOutputRow.t JsMap.t))
  : JsMap.t (IntegrationOutputRow.t JsMap.t) :=
  JsMap.ofEntries (map (fun r => (IntegrationOutputRow.id r, r)) rows).

Definition integrationIssue (featureName : string) (lineNumber : nat)
  (baseline test : string) (details : string) : BehavioralIssue.t :=
  {| BehavioralIssue.type := integration_changed;
     BehavioralIssue.featureName := featureName;
     BehavioralIssue.lineNumber := lineNumber;
     BehavioralIssue.selection := None;
     BehavioralIssue.baseline := VString baseline;
     BehavioralIssue.test := VString test;
     BehavioralIssue.severity := warning;
     BehavioralIssue.details := Some details |}.

(** The issues of one row of the baseline, inside a template both have. *)
Definition rowIssues (templateName : string)
  (testRowsById : JsMap.t (IntegrationOutputRow.t JsMap.t))
  (entry : string * IntegrationOutputRow.t JsMap.t) : list BehavioralIssue.t :=
  let '(id, baselineRow) := entry in
  match JsMap.get testRowsById id with
  | None =>
      [ integrationIssue (templateName ++ "[" ++ id ++ "]")
          (IntegrationOutputRow.lineNumber baselineRow) id "Row missing"
          ("Integration row " ++ id ++ " missing from template " ++ templateName) ]
  | Some testRow =>
      flat_map
        (fun property : string * PropertyValue =>
           let '(prop, baseValue) := property in
           let testValue := JsMap.get (IntegrationOutputRow.properties testRow) prop in
           if negb (String.eqb (String_ (Some baseValue)) (String_ testValue)) then
             [ integrationIssue (templateName ++ "[" ++ id ++ "]." ++ prop)
                 (IntegrationOutputRow.lineNumber testRow)
                 (String_ (Some baseValue)) (String_ testValue)
                 "Property value changed in integration output" ]
           else [])
        (JsMap.entries (IntegrationOutputRow.properties baselineRow))
  end.

(** The issues of one template name. *)
Definition templateIssues (baseline test : IntegrationOutputSummary.t JsMap.t)
  (templateName : string) : list BehavioralIssue.t :=
  match JsMap.get (IntegrationOutputSummary.templates baseline) templateName,
        JsMap.get (IntegrationOutputSummary.templates test) templateName with
  | Some baselineTemplate, None =>
      [ integrationIssue templateName
          (firstLineNumber (IntegrationTemplate.rows baselineTemplate))
          (ofNat (List.length (IntegrationTemplate.rows baselineTemplate)) ++ " rows")
          "Template missing"
          ("Integration template " ++ inQuotes templateName ++ " missing from test trace") ]
  | None, Some _ => []
  | Some baselineTemplate, Some testTemplate =>
      let baselineRows := IntegrationTemplate.rows baselineTemplate in
      let testRows := IntegrationTemplate.rows testTemplate in
      (if negb (List.length baselineRows =? List.length testRows) then
         [ integrationIssue templateName (firstLineNumber testRows)
             (ofNat (List.length baselineRows) ++ " rows")
             (ofNat (List.length testRows) ++ " rows")
             ("Row count changed from " ++ ofNat (List.length baselineRows)
              ++ " to " ++ ofNat (List.length testRows)) ]
       else [])
      ++ flat_map (rowIssues templateName (rowsById testRows))
           (JsMap.entries (rowsById baselineRows))
  | None, None => []
  end.

(** [compareIntegrationBehavior]; it takes [matchingSelections] and does not
    read it. *)
Definition compareIntegrationBehavior
  (baseline test : IntegrationOutputSummary.t JsMap.t)
  (matchingSelections : list SelectionComparison.t) : list BehavioralIssue.t :=
  let allTemplates :=
    JsSet.ofList (JsMap.keys (IntegrationOutputSummary.templates baseline)
                  ++ JsMap.keys (IntegrationOutputSummary.templates test)) in
  flat_map (templateIssues baseline test) allTemplates.

(** [createKey] *)
Definition conditionKey (c : ConditionEvaluation.t) : string :=
  (ConditionEvaluation.ruleset c ++ ":" ++ ConditionEvaluation.ruleId c ++ ":"
   ++ ConditionEvaluation.expression c)%string.

Definition conditionMap (conditions : list ConditionEvaluation.t)
  : JsMap.t ConditionEvaluation.t :=
  fold_left (fun m c => JsMap.set m (conditionKey c) c) conditions JsMap.empty.

Definition firedText (b : bool) : string := if b then "fired" else "was skipped".

(** [compareConditionBehavior] *)
Definition compareConditionBehavior (baseline test : ConditionSummary.t)
  : list BehavioralIssue.t :=
  let baselineMap := conditionMap (ConditionSummary.conditions baseline) in
  let testMap := conditionMap (ConditionSummary.conditions test) in
  flat_map
    (fun entry : string * ConditionEvaluation.t =>
       let '(key, baselineCondition) := entry in
       match JsMap.get testMap key with
       | Some testCondition =>
           if negb (Bool.eqb (ConditionEvaluation.result baselineCondition)
                             (ConditionEvaluation.result testCondition)) then
             [ {| BehavioralIssue.type := condition_changed;
                  BehavioralIssue.featureName := ConditionEvaluation.ruleName baselineCondition;
                  BehavioralIssue.lineNumber := ConditionEvaluation.lineNumber testCondition;
                  BehavioralIssue.selection := Some (ConditionEvaluation.expression baselineCondition);
                  BehavioralIssue.baseline := VBoolean (ConditionEvaluation.result baselineCondition);
                  BehavioralIssue.test := VBoolean (ConditionEvaluation.result testCondition);
                  BehavioralIssue.severity := warning;
                  BehavioralIssue.details :=
                    Some ("Condition " ++ inQuotes (ConditionEvaluation.ruleName baselineCondition)
                          ++ " " ++ firedText (ConditionEvaluation.result baselineCondition)
                          ++ " in baseline but "
                          ++ firedText (ConditionEvaluation.result testCondition)
                          ++ " in test")%string |} ]
           else []
       | None => []
       end)
    (JsMap.entries baselineMap).

(** What the feature loop has collected. *)
Record FeatureLoop := {
  loopIssues : list BehavioralIssue.t;
  loopMatching : list SelectionComparison.t;
  loopDivergent : list SelectionComparison.t
}.

(** The body of [for (const featureName of allFeatures)]. *)
Definition featureStep (baseline test : ParsedTrace.t JsMap.t) (acc : FeatureLoop)
  (featureName : string) : FeatureLoop :=
  match JsMap.get (ParsedTrace.features baseline) featureName,
        JsMap.get (ParsedTrace.features test) featureName with
  | Some baselineFeature, None =>
      {| loopIssues := loopIssues acc ++
           [ {| BehavioralIssue.type := feature_missing;
                BehavioralIssue.featureName := featureName;
                BehavioralIssue.lineNumber := FeatureData.lineNumber baselineFeature;
                BehavioralIssue.selection := FeatureData.selectedValue baselineFeature;
                BehavioralIssue.baseline := ofNullable (FeatureData.selectedValue baselineFeature);
                BehavioralIssue.test := VNull;
                BehavioralIssue.severity := error;
                BehavioralIssue.details :=
                  Some ("Feature " ++ inQuotes featureName
                        ++ " exists in baseline but not in test trace")%string |} ];
         loopMatching := loopMatching acc;
         loopDivergent := loopDivergent acc |}
  | None, Some testFeature =>
      {| loopIssues := loopIssues acc ++
           [ {| BehavioralIssue.type := feature_added;
                BehavioralIssue.featureName := featureName;
                BehavioralIssue.lineNumber := FeatureData.lineNumber testFeature;
                BehavioralIssue.selection := FeatureData.selectedValue testFeature;
                BehavioralIssue.baseline := VNull;
                BehavioralIssue.test := ofNullable (FeatureData.selectedValue testFeature);
                BehavioralIssue.severity := info;
                BehavioralIssue.details :=
                  Some ("New feature " ++ inQuotes featureName
                        ++ " appears in test but not baseline")%string |} ];
         loopMatching := loopMatching acc;
         loopDivergent := loopDivergent acc |}
  | Some baselineFeature, Some testFeature =>
      let comparison :=
        {| SelectionComparison.featureName := featureName;
           SelectionComparison.baselineValue := FeatureData.selectedValue baselineFeature;
           SelectionComparison.testValue := FeatureData.selectedValue testFeature;
           SelectionComparison.isMatch :=
             nullableEqb (FeatureData.selectedValue baselineFeature)
                         (FeatureData.selectedValue testFeature) |} in
      if SelectionComparison.isMatch comparison then
        let baseOpts := JsSet.ofList (FeatureData.options baselineFeature) in
        let testOpts := JsSet.ofList (FeatureData.options testFeature) in
        {| loopIssues :=
             if negb (setsEqual baseOpts testOpts) then
               let addedOptions :=
                 filter (fun o => negb (JsSet.has baseOpts o)) (FeatureData.options testFeature) in
               let removedOptions :=
                 filter (fun o => negb (JsSet.has testOpts o)) (FeatureData.options baselineFeature) in
               loopIssues acc ++
               [ {| BehavioralIssue.type := options_changed;
                    BehavioralIssue.featureName := featureName;
                    BehavioralIssue.lineNumber := FeatureData.lineNumber testFeature;
                    BehavioralIssue.selection := FeatureData.selectedValue testFeature;
                    BehavioralIssue.baseline := VStrings (FeatureData.options baselineFeature);
                    BehavioralIssue.test := VStrings (FeatureData.options testFeature);
                    BehavioralIssue.severity := error;
                    BehavioralIssue.details :=
                      Some (if Nat.ltb 0 (List.length removedOptions)
                            then "Missing options: " ++ join ", " removedOptions
                            else "Added options: " ++ join ", " addedOptions)%string |} ]
             else loopIssues acc;
           loopMatching := loopMatching acc ++ [comparison];
           loopDivergent := loopDivergent acc |}
      else
        {| loopIssues := loopIssues acc;
           loopMatching := loopMatching acc;
           loopDivergent := loopDivergent acc ++ [comparison] |}
  | None, None => acc
  end.

Definition countSeverity (s : Severity) (issues : list BehavioralIssue.t) : nat :=
  List.length (filter (fun i => Severity_eqb (BehavioralIssue.severity i) s) issues).

Definition compareBehavior (baseline test : ParsedTrace.t JsMap.t)
  (baselineInfo : BaselineInfo.t) : RegressionResult.t :=
  let allFeatures :=
    JsSet.ofList (JsMap.keys (ParsedTrace.features baseline)
                  ++ JsMap.keys (ParsedTrace.features test)) in
  let acc :=
    fold_left (featureStep baseline test) allFeatures
      {| loopIssues := []; loopMatching := []; loopDivergent := [] |} in
  let matchingSelections := loopMatching acc in
  let divergentSelections := loopDivergent acc in
  let integrationIssues :=
    compareIntegrationBehavior (ParsedTrace.integrationOutputs baseline)
      (ParsedTrace.integrationOutputs test) matchingSelections in
  let conditionIssues :=
    compareConditionBehavior (ParsedTrace.conditionTracking baseline)
      (ParsedTrace.conditionTracking test) in
  let issues := loopIssues acc ++ integrationIssues ++ conditionIssues in
  let errors := countSeverity error issues in
  let warnings := countSeverity warning issues in
  let infos := countSeverity info issues in
  let sorted :=
    stableSort
      (fun a b => severityOrder (BehavioralIssue.severity a)
                  <=? severityOrder (BehavioralIssue.severity b)) issues in
  {| RegressionResult.matchedBaselineName := BaselineInfo.name baselineInfo;
     RegressionResult.matchedBaselineId := BaselineInfo.id baselineInfo;
     RegressionResult.matchScore := BaselineInfo.matchScore baselineInfo;
     RegressionResult.matchingSelections := matchingSelections;
     RegressionResult.divergentSelections := divergentSelections;
     RegressionResult.issues := sorted;
     RegressionResult.summary :=
       {| Summary.totalFeaturesCompared := JsSet.size allFeatures;
          Summary.behavioralIssuesFound := errors + warnings;
          Summary.userChoicesDiverged := List.length divergentSelections;
          Summary.errors := errors;
          Summary.warnings := warnings;
          Summary.infos := infos |} |}.

End Comparator.

End Regression.

(** ** Numbers

    A JavaScript number is an IEEE 754 binary64 value: [spec_float] with
    [prec = 53] and [emax = 1024]. *)

Module JsNumber.

Definition prec : Z := 53.
Definition emax : Z := 1024.

(** The number denoted by an integer literal or held by an integer counter.
    It is exact below [2^53]. *)
Definition ofZ (z : Z) : spec_float := binary_normalize prec emax z 0 false.
Definition ofNat (n : nat) : spec_float := ofZ (Z.of_nat n).

Definition div (x y : spec_float) : spec_float := SFdiv prec emax x y.
Definition mul (x y : spec_float) : spec_float := SFmul prec emax x y.
(** [x > y] *)
Definition gtb (x y : spec_float) : bool := SFltb y x.

(** [Math.round]: the integer nearest to [x], the one towards +infinity when
    two are as near; an integral [x], an infinity and NaN are returned as
    they are, and a result of zero keeps the sign of [x]. *)
Definition Math_round (x : spec_float) : spec_float :=
  match x with
  | S754_finite s m e =>
      if (0 <=? e)%Z then x
      else
        let sm := if s then Z.neg m else Z.pos m in
        let n := ((2 * sm + 2 ^ (- e)) / 2 ^ (1 - e))%Z in
        if (n =? 0)%Z then S754_zero s else ofZ n
  | _ => x
  end.

End JsNumber.

(** ** The baseline library, [lib/baseline-storage.ts] *)

Module BaselineStorage.

Module SelectionEntry.
Record t := {
  featureName : string;
  selectedValue : option string;
  optionCount : nat
}.
End SelectionEntry.

Module BaselineTrace.
Record t := {
  id : string;
  name : string;
  filename : string;
  trace : ParsedTrace.t JsMap.t;
  selectionPath : list SelectionEntry.t;
  createdAt : nat
}.
End BaselineTrace.

Module BaselineMatchResult.
Record t := {
  baseline : BaselineTrace.t;
  matchScore : spec_float;
  matchingSelections : nat;
  totalSelections : nat;
  firstDivergenceIndex : Z
}.
End BaselineMatchResult.

(** [extractSelectionPath] *)
Definition extractSelectionPath (trace : ParsedTrace.t JsMap.t) : list SelectionEntry.t :=
  let sortedFeatures :=
    stableSort (fun a b => FeatureData.lineNumber a <=? FeatureData.lineNumber b)
      (JsMap.values (ParsedTrace.features trace)) in
  flat_map
    (fun feature =>
       match FeatureData.selectedValue feature with
       | Some _ =>
           [ {| SelectionEntry.featureName := FeatureData.name feature;
                SelectionEntry.selectedValue := FeatureData.selectedValue feature;
                SelectionEntry.optionCount := List.length (FeatureData.options feature) |} ]
       | None => []
       end)
    sortedFeatures.

(** [testMap]: the candidate's entries by feature name. *)
Definition selectionMap (testSelections : list SelectionEntry.t) : JsMap.t SelectionEntry.t :=
  fold_left (fun m sel => JsMap.set m (SelectionEntry.featureName sel) sel)
    testSelections JsMap.empty.

(** The test [testSel && testSel.selectedValue === baselineSel.selectedValue]. *)
Definition selectionMatches (testMap : JsMap.t SelectionEntry.t)
  (baselineSel : SelectionEntry.t) : bool :=
  match JsMap.get testMap (SelectionEntry.featureName baselineSel) with
  | Some testSel =>
      Regression.nullableEqb (SelectionEntry.selectedValue testSel)
                             (SelectionEntry.selectedValue baselineSel)
  | None => false
  end.

(** The loop over the baseline's path from index [i] on;
    [(matchingCount, firstDivergenceIndex)] is threaded through. *)
Fixpoint compareSelections (testMap : JsMap.t SelectionEntry.t)
  (baselineSelections : list SelectionEntry.t) (i : nat) (acc : nat * Z) : nat * Z :=
  match baselineSelections with
  | [] => acc
  | baselineSel :: rest =>
      let '(matchingCount, firstDivergenceIndex) := acc in
      compareSelections testMap rest (S i)
        (if selectionMatches testMap baselineSel
         then (matchingCount + 1, firstDivergenceIndex)
         else if (firstDivergenceIndex =? -1)%Z then (matchingCount, Z.of_nat i)
         else (matchingCount, firstDivergenceIndex))
  end.

(** [Math.round((matchingCount / size) * 100)], or [0] when [size] is 0 *)
Definition scoreOf (matchingCount size : nat) : spec_float :=
  if 0 <? size then
    JsNumber.Math_round
      (JsNumber.mul (JsNumber.div (JsNumber.ofNat matchingCount) (JsNumber.ofNat size))
                    (JsNumber.ofNat 100))
  else JsNumber.ofNat 0.

(** [calculateMatchScore] *)
Definition calculateMatchScore (baseline : BaselineTrace.t)
  (testSelections : list SelectionEntry.t) : BaselineMatchResult.t :=
  let baselineSelections := BaselineTrace.selectionPath baseline in
  let testMap := selectionMap testSelections in
  let '(matchingCount, firstDivergenceIndex) :=
    compareSelections testMap baselineSelections 0 (0, (-1)%Z) in
  let allFeatures :=
    JsSet.ofList (map SelectionEntry.featureName baselineSelections
                  ++ map SelectionEntry.featureName testSelections) in
  {| BaselineMatchResult.baseline := baseline;
     BaselineMatchResult.matchScore := scoreOf matchingCount (JsSet.size allFeatures);
     BaselineMatchResult.matchingSelections := matchingCount;
     BaselineMatchResult.totalSelections := JsSet.size allFeatures;
     BaselineMatchResult.firstDivergenceIndex := firstDivergenceIndex |}.

(** [findBestMatch]; [baselines] is what [loadBaselineLibrary()] returns. *)
Definition findBestMatch (baselines : list BaselineTrace.t) (testTrace : ParsedTrace.t JsMap.t)
  : option BaselineMatchResult.t :=
  if List.length baselines =? 0 then None
  else
    let testSelections := extractSelectionPath testTrace in
    fold_left
      (fun bestMatch baseline =>
         let result := calculateMatchScore baseline testSelections in
         match bestMatch with
         | None => Some result
         | Some best =>
             if JsNumber.gtb (BaselineMatchResult.matchScore result)
                             (BaselineMatchResult.matchScore best)
             then Some result else bestMatch
         end)
      baselines None.

(** *** Plain objects and the stored form of a trace *)

Module JsObject.
Import JsString.

(** The own properties of an object, in the order of their creation. *)
Definition t (V : Type) := list (string * V).

(** [Object.fromEntries]: a key that comes again keeps its place and takes
    the new value. *)
Definition fromEntries {V} (entries : list (string * V)) : t V := JsMap.ofEntries entries.

Definition decimalValue (cs : list ascii) : N :=
  fold_left (fun n c => (10 * n + N.of_nat (code c - 48))%N) cs 0%N.

(** An array index: the canonical decimal text of an integer below
    [2^32 - 1].  Such keys are listed first, in ascending order. *)
Definition arrayIndex (k : string) : option N :=
  match chars k with
  | [] => None
  | c :: rest =>
      if forallb isDigit (c :: rest)
         && (negb (Ascii.eqb c "0"%char) || (List.length rest =? 0))
         && (decimalValue (c :: rest) <=? 4294967294)%N
      then Some (decimalValue (c :: rest))
      else None
  end.

Definition isIndexKey {V} (entry : string * V) : bool :=
  match arrayIndex (fst entry) with Some _ => true | None => false end.

Definition indexOf {V} (entry : string * V) : N :=
  match arrayIndex (fst entry) with Some n => n | None => 0%N end.

(** [Object.entries] *)
Definition entries {V} (o : t V) : list (string * V) :=
  stableSort (fun a b => (indexOf a <=? indexOf b)%N) (filter isIndexKey o)
  ++ filter (fun e => negb (isIndexKey e)) o.

End JsObject.

(** A mapping field of a trace that went through storage: a [Map], or the
    plain object that stands for it. *)
Inductive Dict (V : Type) :=
| AsMap (m : JsMap.t V)
| AsObject (o : JsObject.t V).
Arguments AsMap {V} m.
Arguments AsObject {V} o.

(** [{ ...ruleset, rules: Object.fromEntries(ruleset.rules) }] *)
Definition serializeRuleset (ruleset : RulesetSummary.t JsMap.t) : RulesetSummary.t Dict :=
  {| RulesetSummary.name := RulesetSummary.name ruleset;
     RulesetSummary.namespace := RulesetSummary.namespace ruleset;
     RulesetSummary.executionCount := RulesetSummary.executionCount ruleset;
     RulesetSummary.rules :=
       AsObject (JsObject.fromEntries (JsMap.entries (RulesetSummary.rules ruleset))) |}.

(** [{ ...row, properties: Object.fromEntries(row.properties) }] *)
Definition serializeRow (row : IntegrationOutputRow.t JsMap.t) : IntegrationOutputRow.t Dict :=
  {| IntegrationOutputRow.id := IntegrationOutputRow.id row;
     IntegrationOutputRow.properties :=
       AsObject (JsObject.fromEntries (JsMap.entries (IntegrationOutputRow.properties row)));
     IntegrationOutputRow.lineNumber := IntegrationOutputRow.lineNumber row |}.

(** [{ ...template, rows: template.rows.map(row => ...) }] *)
Definition serializeTemplate (template : IntegrationTemplate.t JsMap.t)
  : IntegrationTemplate.t Dict :=
  {| IntegrationTemplate.name := IntegrationTemplate.name template;
     IntegrationTemplate.columns := IntegrationTemplate.columns template;
     IntegrationTemplate.rows := map serializeRow (IntegrationTemplate.rows template) |}.

(** [serializeTrace] *)
Definition serializeTrace (trace : ParsedTrace.t JsMap.t) : ParsedTrace.t Dict :=
  let rulesSummary := ParsedTrace.rulesSummary trace in
  let integrationOutputs := ParsedTrace.integrationOutputs trace in
  let variableTracking := ParsedTrace.variableTracking trace in
  {| ParsedTrace.metadata := ParsedTrace.metadata trace;
     ParsedTrace.features := AsObject (JsObject.fromEntries (JsMap.entries (ParsedTrace.features trace)));
     ParsedTrace.rulesSummary :=
       {| RuleExecutionSummary.totalExecutions := RuleExecutionSummary.totalExecutions rulesSummary;
          RuleExecutionSummary.uniqueRules := RuleExecutionSummary.uniqueRules rulesSummary;
          RuleExecutionSummary.rulesets :=
            AsObject (JsObject.fromEntries
              (map (fun entry : string * RulesetSummary.t JsMap.t =>
                      let '(key, ruleset) := entry in (key, serializeRuleset ruleset))
                   (JsMap.entries (RuleExecutionSummary.rulesets rulesSummary))));
          RuleExecutionSummary.topRules := RuleExecutionSummary.topRules rulesSummary;
          RuleExecutionSummary.ruleTypeBreakdown :=
            AsObject (JsObject.fromEntries
                        (JsMap.entries (RuleExecutionSummary.ruleTypeBreakdown rulesSummary))) |};
     ParsedTrace.integrationOutputs :=
       {| IntegrationOutputSummary.templates :=
            AsObject (JsObject.fromEntries
              (map (fun entry : string * IntegrationTemplate.t JsMap.t =>
                      let '(key, template) := entry in (key, serializeTemplate template))
                   (JsMap.entries (IntegrationOutputSummary.templates integrationOutputs))));
          IntegrationOutputSummary.totalRows := IntegrationOutputSummary.totalRows integrationOutputs |};
     ParsedTrace.variableTracking :=
       {| VariableTrackingSummary.variables :=
            AsObject (JsObject.fromEntries
                        (JsMap.entries (VariableTrackingSummary.variables variableTracking)));
          VariableTrackingSummary.totalAssignments :=
            VariableTrackingSummary.totalAssignments variableTracking;
          VariableTrackingSummary.uniqueVariables :=
            VariableTrackingSummary.uniqueVariables variableTracking |};
     ParsedTrace.conditionTracking := ParsedTrace.conditionTracking trace;
     ParsedTrace.issues := ParsedTrace.issues trace;
     ParsedTrace.timeline := ParsedTrace.timeline trace;
     ParsedTrace.rulesExecuted := ParsedTrace.rulesExecuted trace;
     ParsedTrace.rollbackPoints := ParsedTrace.rollbackPoints trace;
     ParsedTrace.parseErrors := ParsedTrace.parseErrors trace |}.

(** [if (x && !(x instanceof Map)) x = new Map(Object.entries(x))] *)
Definition reconstructMap {V} (d : Dict V) : Dict V :=
  match d with
  | AsObject o => AsMap (JsMap.ofEntries (JsObject.entries o))
  | AsMap m => AsMap m
  end.

(** The assignment to the field of every value of a [Map]. *)
Definition forValues {V} (f : V -> V) (m : JsMap.t V) : JsMap.t V :=
  map (fun entry => (fst entry, f (snd entry))) m.

Definition reconstructRuleset (ruleset : RulesetSummary.t Dict) : RulesetSummary.t Dict :=
  {| RulesetSummary.name := RulesetSummary.name ruleset;
     RulesetSummary.namespace := RulesetSummary.namespace ruleset;
     RulesetSummary.executionCount := RulesetSummary.executionCount ruleset;
     RulesetSummary.rules := reconstructMap (RulesetSummary.rules ruleset) |}.

Definition reconstructRow (row : IntegrationOutputRow.t Dict) : IntegrationOutputRow.t Dict :=
  {| IntegrationOutputRow.id := IntegrationOutputRow.id row;
     IntegrationOutputRow.properties := reconstructMap (IntegrationOutputRow.properties row);
     IntegrationOutputRow.lineNumber := IntegrationOutputRow.lineNumber row |}.

Definition reconstructTemplate (template : IntegrationTemplate.t Dict)
  : IntegrationTemplate.t Dict :=
  {| IntegrationTemplate.name := IntegrationTemplate.name template;
     IntegrationTemplate.columns := IntegrationTemplate.columns template;
     IntegrationTemplate.rows := map reconstructRow (IntegrationTemplate.rows template) |}.

(** [reconstructTrace]: the nested mappings are rebuilt only under a
    mapping that was itself rebuilt. *)
Definition reconstructTrace (trace : ParsedTrace.t Dict) : ParsedTrace.t Dict :=
  let rulesSummary := ParsedTrace.rulesSummary trace in
  let integrationOutputs := ParsedTrace.integrationOutputs trace in
  let variableTracking := ParsedTrace.variableTracking trace in
  {| ParsedTrace.metadata := ParsedTrace.metadata trace;
     ParsedTrace.features := reconstructMap (ParsedTrace.features trace);
     ParsedTrace.rulesSummary :=
       {| RuleExecutionSummary.totalExecutions := RuleExecutionSummary.totalExecutions rulesSummary;
          RuleExecutionSummary.uniqueRules := RuleExecutionSummary.uniqueRules rulesSummary;
          RuleExecutionSummary.rulesets :=
            match RuleExecutionSummary.rulesets rulesSummary with
            | AsObject rulesetsObj =>
                AsMap (forValues reconstructRuleset
                         (JsMap.ofEntries (JsObject.entries rulesetsObj)))
            | AsMap m => AsMap m
            end;
          RuleExecutionSummary.topRules := RuleExecutionSummary.topRules rulesSummary;
          RuleExecutionSummary.ruleTypeBreakdown :=
            reconstructMap (RuleExecutionSummary.ruleTypeBreakdown rulesSummary) |};
     ParsedTrace.integrationOutputs :=
       {| IntegrationOutputSummary.templates :=
            match IntegrationOutputSummary.templates integrationOutputs with
            | AsObject templatesObj =>
                AsMap (forValues reconstructTemplate
                         (JsMap.ofEntries (JsObject.entries templatesObj)))
            | AsMap m => AsMap m
            end;
          IntegrationOutputSummary.totalRows := IntegrationOutputSummary.totalRows integrationOutputs |};
     ParsedTrace.variableTracking :=
       {| VariableTrackingSummary.variables :=
            reconstructMap (VariableTrackingSummary.variables variableTracking);
          VariableTrackingSummary.totalAssignments :=
            VariableTrackingSummary.totalAssignments variableTracking;
          VariableTrackingSummary.uniqueVariables :=
            VariableTrackingSummary.uniqueVariables variableTracking |};
     ParsedTrace.conditionTracking := ParsedTrace.conditionTracking trace;
     ParsedTrace.issues := ParsedTrace.issues trace;
     ParsedTrace.timeline := ParsedTrace.timeline trace;
     ParsedTrace.rulesExecuted := ParsedTrace.rulesExecuted trace;
     ParsedTrace.rollbackPoints := ParsedTrace.rollbackPoints trace;
     ParsedTrace.parseErrors := ParsedTrace.parseErrors trace |}.

End BaselineStorage.

(** ** The expression parser *)

Module Expression.
Import JsString.

Inductive ExpressionNodeType := function | operator | variable | literal | array | unary.

(** [children] is absent on literals and variables. *)
Inductive ExpressionNode :=
| Node (type : ExpressionNodeType) (value : string)
       (children : option (list ExpressionNode)) (raw : string).

Definition raw (n : ExpressionNode) : string :=
  match n with Node _ _ _ r => r end.

Record ParsedExpression := {
  root : option ExpressionNode;
  original : string;
  isValid : bool;
  error : option string
}.

Inductive TokenType :=
| STRING | NUMBER | BOOLEAN | NULL | IDENTIFIER | OPERATOR
| LPAREN | RPAREN | LBRACE | RBRACE | LBRACKET | RBRACKET
| COMMA | DOT | EOF.

Definition TokenType_eqb (a b : TokenType) : bool :=
  match a, b with
  | STRING, STRING | NUMBER, NUMBER | BOOLEAN, BOOLEAN | NULL, NULL
  | IDENTIFIER, IDENTIFIER | OPERATOR, OPERATOR | LPAREN, LPAREN
  | RPAREN, RPAREN | LBRACE, LBRACE | RBRACE, RBRACE
  | LBRACKET, LBRACKET | RBRACKET, RBRACKET | COMMA, COMMA
  | DOT, DOT | EOF, EOF => true
  | _, _ => false
  end.

Definition TokenType_name (t : TokenType) : string :=
  match t with
  | STRING => "STRING" | NUMBER => "NUMBER" | BOOLEAN => "BOOLEAN"
  | NULL => "NULL" | IDENTIFIER => "IDENTIFIER" | OPERATOR => "OPERATOR"
  | LPAREN => "LPAREN" | RPAREN => "RPAREN" | LBRACE => "LBRACE"
  | RBRACE => "RBRACE" | LBRACKET => "LBRACKET" | RBRACKET => "RBRACKET"
  | COMMA => "COMMA" | DOT => "DOT" | EOF => "EOF"
  end.

Record Token := { type : TokenType; value : string; position : nat }.

Definition charStr (c : ascii) : string := String c EmptyString.

(** One round of the [while (pos < expression.length)] loop of [tokenize];
    [cs] is the text from [pos] on.  Every round consumes a character, so
    [fuel] = the number of characters left is never exhausted before [cs]. *)
Fixpoint tokenize_loop (fuel : nat) (cs : list ascii) (pos : nat) : list Token :=
  match cs, fuel with
  | [], _ => [ {| type := EOF; value := EmptyString; position := pos |} ]
  | _ :: _, 0 => [ {| type := EOF; value := EmptyString; position := pos |} ]
  | c :: rest, S fuel' =>
      if isSpace c then tokenize_loop fuel' rest (pos + 1)
      else if Ascii.eqb c dquote || Ascii.eqb c squote then
        let body := takeWhile (fun x => negb (Ascii.eqb x c)) rest in
        let after := skipn (List.length body) rest in
        {| type := STRING; value := ofChars body; position := pos |}
          :: tokenize_loop fuel' (tl after) (pos + 1 + List.length body + 1)
      else if isDigit c
              || (Ascii.eqb c "-"%char && match rest with d :: _ => isDigit d | [] => false end) then
        let sign := Ascii.eqb c "-"%char in
        let from := if sign then rest else cs in
        let body := takeWhile (fun x => isDigit x || Ascii.eqb x "."%char) from in
        let text := if sign then "-"%char :: body else body in
        {| type := NUMBER; value := ofChars text; position := pos |}
          :: tokenize_loop fuel' (skipn (List.length text) cs) (pos + List.length text)
      else
        let twoChar := ofChars (firstn 2 cs) in
        if includes ["!="; "<>"; "<="; ">="] twoChar then
          {| type := OPERATOR; value := twoChar; position := pos |}
            :: tokenize_loop fuel' (tl rest) (pos + 2)
        else if existsb (Ascii.eqb c) (chars "=<>+-*/!") then
          {| type := OPERATOR; value := charStr c; position := pos |}
            :: tokenize_loop fuel' rest (pos + 1)
        else if Ascii.eqb c "("%char then
          {| type := LPAREN; value := "("; position := pos |} :: tokenize_loop fuel' rest (pos + 1)
        else if Ascii.eqb c ")"%char then
          {| type := RPAREN; value := ")"; position := pos |} :: tokenize_loop fuel' rest (pos + 1)
        else if Ascii.eqb c "{"%char then
          {| type := LBRACE; value := "{"; position := pos |} :: tokenize_loop fuel' rest (pos + 1)
        else if Ascii.eqb c "}"%char then
          {| type := RBRACE; value := "}"; position := pos |} :: tokenize_loop fuel' rest (pos + 1)
        else if Ascii.eqb c "["%char then
          {| type := LBRACKET; value := "["; position := pos |} :: tokenize_loop fuel' rest (pos + 1)
        else if Ascii.eqb c "]"%char then
          {| type := RBRACKET; value := "]"; position := pos |} :: tokenize_loop fuel' rest (pos + 1)
        else if Ascii.eqb c ","%char then
          {| type := COMMA; value := ","; position := pos |} :: tokenize_loop fuel' rest (pos + 1)
        else if Ascii.eqb c "."%char then
          {| type := DOT; value := "."; position := pos |} :: tokenize_loop fuel' rest (pos + 1)
        else if isIdentStart c then
          let body := takeWhile isWord cs in
          let value := ofChars body in
          let upper := toUpperCase value in
          let next := tokenize_loop fuel' (skipn (List.length body) cs) (pos + List.length body) in
          if String.eqb upper "TRUE" || String.eqb upper "FALSE" then
            {| type := BOOLEAN; value := upper; position := pos |} :: next
          else if String.eqb upper "NULL" then
            {| type := NULL; value := "null"; position := pos |} :: next
          else if includes ["AND"; "OR"; "IN"; "NOTIN"; "NOT"] upper then
            {| type := OPERATOR; value := upper; position := pos |} :: next
          else
            {| type := IDENTIFIER; value := value; position := pos |} :: next
        else tokenize_loop fuel' rest (pos + 1)
  end.

Definition tokenize (expression : string) : list Token :=
  let cs := chars expression in
  if startsWith expression "=" then tokenize_loop (List.length cs) (tl cs) 1
  else tokenize_loop (List.length cs) cs 0.

(** What running a piece of the program yields: a value, a thrown [Error]
    with its message, or, in the model only, exhaustion of the recursion
    budget (shown below never to happen for the budget [parseExpression]
    gives). *)
Inductive completion (A : Type) :=
| Normal (a : A)
| Throw (message : string)
| OutOfFuel.
Arguments Normal {A} a.
Arguments Throw {A} message.
Arguments OutOfFuel {A}.

Definition bind {A B} (c : completion A) (k : A -> completion B) : completion B :=
  match c with
  | Normal a => k a
  | Throw m => Throw m
  | OutOfFuel => OutOfFuel
  end.

Notation "' pat <- c ;; k" := (bind c (fun x => match x with pat => k end))
  (at level 61, pat pattern, c at next level, right associativity).

(** The state of a [Parser]: [this.tokens] from [this.pos] on. *)
Definition Parser := list Token.

Definition eofToken : Token := {| type := EOF; value := EmptyString; position := 0 |}.

Definition current (p : Parser) : Token := hd eofToken p.

Definition advance (p : Parser) : Token * Parser := (current p, tl p).

Definition match_ (ty : TokenType) (v : option string) (p : Parser) : bool :=
  let token := current p in
  TokenType_eqb (type token) ty
  && match v with
     | None => true
     | Some v => String.eqb (toUpperCase (value token)) (toUpperCase v)
     end.

Definition expect (ty : TokenType) (v : option string) (p : Parser) : completion (Token * Parser) :=
  if match_ ty v p then Normal (advance p)
  else Throw ("Expected " ++ TokenType_name ty
              ++ match v with
                 | Some (String c r) => " '" ++ String c r ++ "'"
                 | _ => EmptyString
                 end
              ++ " but got " ++ TokenType_name (type (current p))
              ++ " '" ++ value (current p) ++ "'")%string.

Definition binary (v : string) (left_ right_ : ExpressionNode) (op : string) : ExpressionNode :=
  Node operator v (Some [left_; right_]) (raw left_ ++ " " ++ op ++ " " ++ raw right_)%string.

Definition quoted (s : string) : string :=
  (String dquote EmptyString ++ s ++ String dquote EmptyString)%string.

Definition isOperatorIn (ops : list string) (p : Parser) : bool :=
  TokenType_eqb (type (current p)) OPERATOR && includes ops (value (current p)).

(** The methods of [Parser].  Each [while] loop is the function named
    [..._loop]; every call spends one unit of [fuel]. *)
Fixpoint parseOr (fuel : nat) (p : Parser) {struct fuel}
  : completion (ExpressionNode * Parser) :=
  match fuel with
  | 0 => OutOfFuel
  | S fuel =>
      '(left_, p) <- parseAnd fuel p ;;
      parseOr_loop fuel left_ p
  end

with parseOr_loop (fuel : nat) (left_ : ExpressionNode) (p : Parser) {struct fuel}
  : completion (ExpressionNode * Parser) :=
  match fuel with
  | 0 => OutOfFuel
  | S fuel =>
      if match_ OPERATOR (Some "OR") p then
        let '(op, p) := advance p in
        '(right_, p) <- parseAnd fuel p ;;
        parseOr_loop fuel (binary "OR" left_ right_ "OR") p
      else Normal (left_, p)
  end

with parseAnd (fuel : nat) (p : Parser) {struct fuel}
  : completion (ExpressionNode * Parser) :=
  match fuel with
  | 0 => OutOfFuel
  | S fuel =>
      '(left_, p) <- parseNot fuel p ;;
      parseAnd_loop fuel left_ p
  end

with parseAnd_loop (fuel : nat) (left_ : ExpressionNode) (p : Parser) {struct fuel}
  : completion (ExpressionNode * Parser) :=
  match fuel with
  | 0 => OutOfFuel
  | S fuel =>
      if match_ OPERATOR (Some "AND") p then
        let '(op, p) := advance p in
        '(right_, p) <- parseNot fuel p ;;
        parseAnd_loop fuel (binary "AND" left_ right_ "AND") p
      else Normal (left_, p)
  end

with parseNot (fuel : nat) (p : Parser) {struct fuel}
  : completion (ExpressionNode * Parser) :=
  match fuel with
  | 0 => OutOfFuel
  | S fuel =>
      if match_ OPERATOR (Some "NOT") p || match_ OPERATOR (Some "!") p then
        let '(op, p) := advance p in
        '(operand, p) <- parseNot fuel p ;;
        Normal (Node unary "NOT" (Some [operand]) ("NOT " ++ raw operand)%string, p)
      else parseComparison fuel p
  end

with parseComparison (fuel : nat) (p : Parser) {struct fuel}
  : completion (ExpressionNode * Parser) :=
  match fuel with
  | 0 => OutOfFuel
  | S fuel =>
      '(left_, p) <- parseInNotIn fuel p ;;
      parseComparison_loop fuel left_ p
  end

with parseComparison_loop (fuel : nat) (left_ : ExpressionNode) (p : Parser) {struct fuel}
  : completion (ExpressionNode * Parser) :=
  match fuel with
  | 0 => OutOfFuel
  | S fuel =>
      if isOperatorIn ["="; "!="; "<>"; "<"; ">"; "<="; ">="] p then
        let '(op, p) := advance p in
        '(right_, p) <- parseInNotIn fuel p ;;
        parseComparison_loop fuel
          (binary (if String.eqb (value op) "<>" then "!=" else value op) left_ right_ (value op)) p
      else Normal (left_, p)
  end

with parseInNotIn (fuel : nat) (p : Parser) {struct fuel}
  : completion (ExpressionNode * Parser) :=
  match fuel with
  | 0 => OutOfFuel
  | S fuel =>
      '(left_, p) <- parseAddSub fuel p ;;
      parseInNotIn_loop fuel left_ p
  end

with parseInNotIn_loop (fuel : nat) (left_ : ExpressionNode) (p : Parser) {struct fuel}
  : completion (ExpressionNode * Parser) :=
  match fuel with
  | 0 => OutOfFuel
  | S fuel =>
      if match_ OPERATOR (Some "IN") p || match_ OPERATOR (Some "NOTIN") p then
        let '(op, p) := advance p in
        '(right_, p) <- parseAddSub fuel p ;;
        parseInNotIn_loop fuel
          (binary (toUpperCase (value op)) left_ right_ (toUpperCase (value op))) p
      else Normal (left_, p)
  end

with parseAddSub (fuel : nat) (p : Parser) {struct fuel}
  : completion (ExpressionNode * Parser) :=
  match fuel with
  | 0 => OutOfFuel
  | S fuel =>
      '(left_, p) <- parseMulDiv fuel p ;;
      parseAddSub_loop fuel left_ p
  end

with parseAddSub_loop (fuel : nat) (left_ : ExpressionNode) (p : Parser) {struct fuel}
  : completion (ExpressionNode * Parser) :=
  match fuel with
  | 0 => OutOfFuel
  | S fuel =>
      if isOperatorIn ["+"; "-"] p then
        let '(op, p) := advance p in
        '(right_, p) <- parseMulDiv fuel p ;;
        parseAddSub_loop fuel (binary (value op) left_ right_ (value op)) p
      else Normal (left_, p)
  end

with parseMulDiv (fuel : nat) (p : Parser) {struct fuel}
  : completion (ExpressionNode * Parser) :=
  match fuel with
  | 0 => OutOfFuel
  | S fuel =>
      '(left_, p) <- parsePrimary fuel p ;;
      parseMulDiv_loop fuel left_ p
  end

with parseMulDiv_loop (fuel : nat) (left_ : ExpressionNode) (p : Parser) {struct fuel}
  : completion (ExpressionNode * Parser) :=
  match fuel with
  | 0 => OutOfFuel
  | S fuel =>
      if isOperatorIn ["*"; "/"] p then
        let '(op, p) := advance p in
        '(right_, p) <- parsePrimary fuel p ;;
        parseMulDiv_loop fuel (binary (value op) left_ right_ (value op)) p
      else Normal (left_, p)
  end

with parsePrimary (fuel : nat) (p : Parser) {struct fuel}
  : completion (ExpressionNode * Parser) :=
  match fuel with
  | 0 => OutOfFuel
  | S fuel =>
      let token := current p in
      match type token with
      | LPAREN =>
          let '(_, p) := advance p in
          '(expr, p) <- parseOr fuel p ;;
          '(_, p) <- expect RPAREN None p ;;
          Normal (expr, p)
      | LBRACE => parseArray fuel p
      | STRING =>
          let '(_, p) := advance p in
          Normal (Node literal (quoted (value token)) None (quoted (value token)), p)
      | NUMBER | BOOLEAN =>
          let '(_, p) := advance p in
          Normal (Node literal (value token) None (value token), p)
      | NULL =>
          let '(_, p) := advance p in
          Normal (Node literal "null" None "null", p)
      | IDENTIFIER => parseIdentifierOrFunction fuel p
      | _ =>
          if TokenType_eqb (type token) OPERATOR && String.eqb (value token) "-" then
            let '(_, p) := advance p in
            '(operand, p) <- parsePrimary fuel p ;;
            Normal (Node unary "-" (Some [operand]) ("-" ++ raw operand)%string, p)
          else
            Throw ("Unexpected token: " ++ TokenType_name (type token)
                   ++ " '" ++ value token ++ "'")%string
      end
  end

with parseIdentifierOrFunction (fuel : nat) (p : Parser) {struct fuel}
  : completion (ExpressionNode * Parser) :=
  match fuel with
  | 0 => OutOfFuel
  | S fuel =>
      let '(first, p) := advance p in
      let name := value first in
      let raw_ := name in
      if match_ LPAREN None p then
        let '(_, p) := advance p in
        '(args, p) <-
          (if negb (match_ RPAREN None p) then
             '(arg, p) <- parseOr fuel p ;;
             parseArguments_loop fuel [arg] p
           else Normal ([], p)) ;;
        '(_, p) <- expect RPAREN None p ;;
        let argsRaw := join ", " (map raw args) in
        Normal (Node function (toUpperCase name) (Some args)
                     (name ++ "(" ++ argsRaw ++ ")")%string, p)
      else parseAccess_loop fuel name raw_ p
  end

(** [while (this.match('COMMA'))] of a function call's arguments *)
with parseArguments_loop (fuel : nat) (args : list ExpressionNode) (p : Parser) {struct fuel}
  : completion (list ExpressionNode * Parser) :=
  match fuel with
  | 0 => OutOfFuel
  | S fuel =>
      if match_ COMMA None p then
        let '(_, p) := advance p in
        '(arg, p) <- parseOr fuel p ;;
        parseArguments_loop fuel (args ++ [arg]) p
      else Normal (args, p)
  end

(** [while (this.match('DOT') || this.match('LBRACKET'))] of a variable path *)
with parseAccess_loop (fuel : nat) (name raw_ : string) (p : Parser) {struct fuel}
  : completion (ExpressionNode * Parser) :=
  match fuel with
  | 0 => OutOfFuel
  | S fuel =>
      if match_ DOT None p || match_ LBRACKET None p then
        if match_ DOT None p then
          let '(_, p) := advance p in
          if match_ IDENTIFIER None p then
            let '(prop, p) := advance p in
            parseAccess_loop fuel (name ++ "." ++ value prop)%string
                             (raw_ ++ "." ++ value prop)%string p
          else parseAccess_loop fuel name raw_ p
        else
          let '(_, p) := advance p in
          '(names, p) <-
            (if match_ STRING None p then
               let '(key, p) := advance p in
               Normal ((name ++ "[" ++ quoted (value key) ++ "]",
                        raw_ ++ "[" ++ quoted (value key) ++ "]")%string, p)
             else if match_ IDENTIFIER None p then
               let '(key, p) := advance p in
               Normal ((name ++ "[" ++ value key ++ "]",
                        raw_ ++ "[" ++ value key ++ "]")%string, p)
             else if match_ NUMBER None p then
               let '(key, p) := advance p in
               Normal ((name ++ "[" ++ value key ++ "]",
                        raw_ ++ "[" ++ value key ++ "]")%string, p)
             else
               '(expr, p) <- parseOr fuel p ;;
               Normal ((name ++ "[" ++ raw expr ++ "]",
                        raw_ ++ "[" ++ raw expr ++ "]")%string, p)) ;;
          '(_, p) <- expect RBRACKET None p ;;
          parseAccess_loop fuel (fst names) (snd names) p
      else Normal (Node variable name None raw_, p)
  end

with parseArray (fuel : nat) (p : Parser) {struct fuel}
  : completion (ExpressionNode * Parser) :=
  match fuel with
  | 0 => OutOfFuel
  | S fuel =>
      '(_, p) <- expect LBRACE None p ;;
      '(elements, p) <-
        (if negb (match_ RBRACE None p) then
           '(element, p) <- parseOr fuel p ;;
           parseArray_loop fuel [element] p
         else Normal ([], p)) ;;
      '(_, p) <- expect RBRACE None p ;;
      let elementsRaw := join ", " (map raw elements) in
      Normal (Node array ("{" ++ elementsRaw ++ "}")%string (Some elements)
                   ("{" ++ elementsRaw ++ "}")%string, p)
  end

(** [while (this.match('COMMA'))] of an array literal *)
with parseArray_loop (fuel : nat) (elements : list ExpressionNode) (p : Parser) {struct fuel}
  : completion (list ExpressionNode * Parser) :=
  match fuel with
  | 0 => OutOfFuel
  | S fuel =>
      if match_ COMMA None p then
        let '(_, p) := advance p in
        if negb (match_ RBRACE None p) then
          '(element, p) <- parseOr fuel p ;;
          parseArray_loop fuel (elements ++ [element]) p
        else parseArray_loop fuel elements p
      else Normal (elements, p)
  end.

(** [Parser.parse] *)
Definition parse (fuel : nat) (p : Parser) : completion (option ExpressionNode) :=
  if TokenType_eqb (type (current p)) EOF then Normal None
  else '(node, _) <- parseOr fuel p ;; Normal (Some node).

(** The recursion budget of a token list: ten calls per token suffice. *)
Definition budget (tokens : list Token) : nat := 10 * List.length tokens + 10.

(** The guard of [parseExpression]: the empty string is falsy. *)
Definition isEmptyExpression (expression : string) : bool :=
  String.eqb expression EmptyString
  || String.eqb (trim expression) EmptyString
  || String.eqb (trim expression) "=".

(** The body of the [try] block. *)
Definition tryParse (expression : string) : completion (option ExpressionNode) :=
  let tokens := tokenize expression in
  parse (budget tokens) tokens.

Definition parseExpression (expression : string) : completion ParsedExpression :=
  if isEmptyExpression expression then
    Normal {| root := None; original := expression; isValid := false;
              error := Some "Empty expression" |}
  else
    match tryParse expression with
    | Normal root_ =>
        Normal {| root := root_; original := expression;
                  isValid := match root_ with Some _ => true | None => false end;
                  error := None |}
    | Throw message =>
        Normal {| root := None; original := expression; isValid := false;
                  error := Some message |}
    | OutOfFuel => OutOfFuel
    end.

End Expression.

(** ** Predicates used by the statements and invariants used by the proofs *)

Module ExpressionSpec.
Import JsString Expression.

(** A parser method run on [n] tokens did not run out of budget, and what
    it left unread is no longer than [n]. *)
Definition good {A} (n : nat) (c : completion (A * Parser)) : Prop :=
  match c with
  | OutOfFuel => False
  | Throw _ => True
  | Normal (_, p') => List.length p' <= n
  end.

(** The budget each method needs: ten units per token that is left, and one
    more per method it may call before a token is read. *)
Definition total_at (fuel : nat) : Prop :=
  (forall p, 10 * List.length p + 9 < fuel -> good (List.length p) (parseOr fuel p)) /\
  (forall l p, 10 * List.length p < fuel -> good (List.length p) (parseOr_loop fuel l p)) /\
  (forall p, 10 * List.length p + 8 < fuel -> good (List.length p) (parseAnd fuel p)) /\
  (forall l p, 10 * List.length p < fuel -> good (List.length p) (parseAnd_loop fuel l p)) /\
  (forall p, 10 * List.length p + 7 < fuel -> good (List.length p) (parseNot fuel p)) /\
  (forall p, 10 * List.length p + 6 < fuel -> good (List.length p) (parseComparison fuel p)) /\
  (forall l p, 10 * List.length p < fuel -> good (List.length p) (parseComparison_loop fuel l p)) /\
  (forall p, 10 * List.length p + 5 < fuel -> good (List.length p) (parseInNotIn fuel p)) /\
  (forall l p, 10 * List.length p < fuel -> good (List.length p) (parseInNotIn_loop fuel l p)) /\
  (forall p, 10 * List.length p + 4 < fuel -> good (List.length p) (parseAddSub fuel p)) /\
  (forall l p, 10 * List.length p < fuel -> good (List.length p) (parseAddSub_loop fuel l p)) /\
  (forall p, 10 * List.length p + 3 < fuel -> good (List.length p) (parseMulDiv fuel p)) /\
  (forall l p, 10 * List.length p < fuel -> good (List.length p) (parseMulDiv_loop fuel l p)) /\
  (forall p, 10 * List.length p + 2 < fuel -> good (List.length p) (parsePrimary fuel p)) /\
  (forall p, 10 * List.length p + 1 < fuel ->
             good (List.length p) (parseIdentifierOrFunction fuel p)) /\
  (forall a p, 10 * List.length p < fuel -> good (List.length p) (parseArguments_loop fuel a p)) /\
  (forall n r p, 10 * List.length p < fuel -> good (List.length p) (parseAccess_loop fuel n r p)) /\
  (forall p, 10 * List.length p + 1 < fuel -> good (List.length p) (parseArray fuel p)) /\
  (forall a p, 10 * List.length p < fuel -> good (List.length p) (parseArray_loop fuel a p)).

(** A method that returns or throws within the budget [fuel] does the same
    within the budget [fuel']. *)
Definition stable_at (fuel fuel' : nat) : Prop :=
  (forall p, parseOr fuel p <> OutOfFuel -> parseOr fuel' p = parseOr fuel p) /\
  (forall l p, parseOr_loop fuel l p <> OutOfFuel ->
               parseOr_loop fuel' l p = parseOr_loop fuel l p) /\
  (forall p, parseAnd fuel p <> OutOfFuel -> parseAnd fuel' p = parseAnd fuel p) /\
  (forall l p, parseAnd_loop fuel l p <> OutOfFuel ->
               parseAnd_loop fuel' l p = parseAnd_loop fuel l p) /\
  (forall p, parseNot fuel p <> OutOfFuel -> parseNot fuel' p = parseNot fuel p) /\
  (forall p, parseComparison fuel p <> OutOfFuel ->
             parseComparison fuel' p = parseComparison fuel p) /\
  (forall l p, parseComparison_loop fuel l p <> OutOfFuel ->
               parseComparison_loop fuel' l p = parseComparison_loop fuel l p) /\
  (forall p, parseInNotIn fuel p <> OutOfFuel ->
             parseInNotIn fuel' p = parseInNotIn fuel p) /\
  (forall l p, parseInNotIn_loop fuel l p <> OutOfFuel ->
               parseInNotIn_loop fuel' l p = parseInNotIn_loop fuel l p) /\
  (forall p, parseAddSub fuel p <> OutOfFuel -> parseAddSub fuel' p = parseAddSub fuel p) /\
  (forall l p, parseAddSub_loop fuel l p <> OutOfFuel ->
               parseAddSub_loop fuel' l p = parseAddSub_loop fuel l p) /\
  (forall p, parseMulDiv fuel p <> OutOfFuel -> parseMulDiv fuel' p = parseMulDiv fuel p) /\
  (forall l p, parseMulDiv_loop fuel l p <> OutOfFuel ->
               parseMulDiv_loop fuel' l p = parseMulDiv_loop fuel l p) /\
  (forall p, parsePrimary fuel p <> OutOfFuel -> parsePrimary fuel' p = parsePrimary fuel p) /\
  (forall p, parseIdentifierOrFunction fuel p <> OutOfFuel ->
             parseIdentifierOrFunction fuel' p = parseIdentifierOrFunction fuel p) /\
  (forall a p, parseArguments_loop fuel a p <> OutOfFuel ->
               parseArguments_loop fuel' a p = parseArguments_loop fuel a p) /\
  (forall n r p, parseAccess_loop fuel n r p <> OutOfFuel ->
                 parseAccess_loop fuel' n r p = parseAccess_loop fuel n r p) /\
  (forall p, parseArray fuel p <> OutOfFuel -> parseArray fuel' p = parseArray fuel p) /\
  (forall a p, parseArray_loop fuel a p <> OutOfFuel ->
               parseArray_loop fuel' a p = parseArray_loop fuel a p).

(** The inputs the specification calls empty: no text, white space only,
    or a bare "=" sign (white space around it apart). *)
Definition emptyInput (expression : string) : Prop :=
  expression = EmptyString
  \/ forallb isSpace (chars expression) = true
  \/ trim expression = "=".

Definition emptyResult (expression : string) : ParsedExpression :=
  {| root := None; original := expression; isValid := false;
     error := Some "Empty expression" |}.

Definition failure (expression message : string) : ParsedExpression :=
  {| root := None; original := expression; isValid := false; error := Some message |}.

End ExpressionSpec.

Module TraceParserSpec.
Import JsString RegExp TraceParser.

(** What group [i] of [pattern] captures on [line], if the line matches. *)
Definition captured (pattern : regex) (i : nat) (line : string) : option string :=
  option_map (group i) (exec pattern line).

(** The capture on the first line that matches. *)
Fixpoint firstCapture (pattern : regex) (i : nat) (lines : list string) : option string :=
  match lines with
  | [] => None
  | line :: rest =>
      match captured pattern i line with
      | Some s => Some s
      | None => firstCapture pattern i rest
      end
  end.

(** The first capture that is not the empty text. *)
Fixpoint firstNonEmptyCapture (pattern : regex) (i : nat) (lines : list string)
  : option string :=
  match lines with
  | [] => None
  | line :: rest =>
      match captured pattern i line with
      | Some (String c r) => Some (String c r)
      | _ => firstNonEmptyCapture pattern i rest
      end
  end.

(** The capture on the last line that matches. *)
Definition lastCapture (pattern : regex) (i : nat) (lines : list string) : option string :=
  firstCapture pattern i (rev lines).

(** A header field that no line sets keeps its default, the empty text. *)
Definition orEmpty (o : option string) : string :=
  match o with Some s => s | None => EmptyString end.

(** The header fields as the specification states them: the first match
    for the configuration id, the part namespace and the header id. *)
Definition headerFieldsAsStated (traceContent : string) : Prop :=
  let lines := splitLines traceContent in
  let metadata := metadata (parseTrace traceContent) in
  ConfigurationMetadata.configurationId metadata
    = orEmpty (firstCapture configIdPattern 1 lines)
  /\ ConfigurationMetadata.partNamespace metadata
     = orEmpty (firstCapture partNamespacePattern 1 lines)
  /\ ConfigurationMetadata.headerID metadata
     = orEmpty (firstCapture headerIdPattern 1 lines)
  /\ ConfigurationMetadata.partNumber metadata
     = orEmpty (firstNonEmptyCapture partNumberPattern 1 lines)
  /\ ConfigurationMetadata.instance metadata
     = orEmpty (lastCapture instancePattern 1 lines)
  /\ ConfigurationMetadata.application metadata
     = orEmpty (lastCapture instancePattern 2 lines)
  /\ ConfigurationMetadata.configurationMode metadata
     = orEmpty (lastCapture configModePattern 1 lines).

(** The header fields as the code fills them: the last match for every
    field but the part number. *)
Definition headerFieldsAsParsed (traceContent : string) : Prop :=
  let lines := splitLines traceContent in
  let metadata := metadata (parseTrace traceContent) in
  ConfigurationMetadata.configurationId metadata
    = orEmpty (lastCapture configIdPattern 1 lines)
  /\ ConfigurationMetadata.partNamespace metadata
     = orEmpty (lastCapture partNamespacePattern 1 lines)
  /\ ConfigurationMetadata.headerID metadata
     = orEmpty (lastCapture headerIdPattern 1 lines)
  /\ ConfigurationMetadata.partNumber metadata
     = orEmpty (firstNonEmptyCapture partNumberPattern 1 lines)
  /\ ConfigurationMetadata.instance metadata
     = orEmpty (lastCapture instancePattern 1 lines)
  /\ ConfigurationMetadata.application metadata
     = orEmpty (lastCapture instancePattern 2 lines)
  /\ ConfigurationMetadata.configurationMode metadata
     = orEmpty (lastCapture configModePattern 1 lines).

(** The text whose lines are [lines]. *)
Definition newline : string := String (ascii_of_nat 10) EmptyString.
Definition textOf (lines : list string) : string := join newline lines.

(** The number of firing lines. *)
Definition firings (lines : list string) : nat :=
  List.length (filter (test rulesetPattern) lines).

(** The sum of [executionCount] over the entries of [rulesets]. *)
Definition sumExecutionCounts (rulesets : JsMap.t (RulesetSummary.t JsMap.t)) : nat :=
  list_sum (map RulesetSummary.executionCount (JsMap.values rulesets)).

(** The change of value as the specification states it. *)
Definition changedAsStated (a : VariableAssignment.t) : Prop :=
  VariableAssignment.previousValue a <> VariableAssignment.resultValue a
  /\ VariableAssignment.previousValue a <> Some "(unassigned)".

(** The change of value as the code tests it: both values were found. *)
Definition changedAsParsed (a : VariableAssignment.t) : Prop :=
  exists previous result,
    VariableAssignment.previousValue a = Some previous
    /\ VariableAssignment.resultValue a = Some result
    /\ previous <> result
    /\ previous <> "(unassigned)".

Definition hasChangesAsStated (traceContent : string) : Prop :=
  forall name summary,
    JsMap.get (VariableTrackingSummary.variables (variableTracking (parseTrace traceContent)))
              name = Some summary ->
    (VariableSummary.hasChanges summary = true
     <-> exists a, In a (VariableSummary.assignments summary) /\ changedAsStated a).

(** The invariant of the grouping loop. *)
Definition groupingInvariant (m : JsMap.t VariableSummary.t) : Prop :=
  forall name summary,
    JsMap.get m name = Some summary ->
    VariableSummary.hasChanges summary
    = existsb valueChanged (VariableSummary.assignments summary).

(** A firing of a rule of type ClearUserValueRule. *)
Definition clearUserValueTrace : string :=
  textOf ["Ruleset: Pricing Rule: 7 Clear value (Ruleset: Pricing)";
          "ClearUserValueRule"].

(** A variable that goes from 5 to 6. *)
Definition changedVariableTrace : string :=
  textOf ["  Variable : X"; "  Previous : 5"; "  Result : 6"].

(** A variable with a result and no previous value in the trace. *)
Definition resultOnlyTrace : string :=
  textOf ["  Variable : X"; "  Result : 5"].

End TraceParserSpec.

Module RegressionSpec.
Import Regression.

(** The [Map]s of a parsed trace have pairwise distinct keys, at every
    level of nesting. *)
Definition ParsedTrace_wf (T : ParsedTrace.t JsMap.t) : Prop :=
  JsMap.wf (ParsedTrace.features T)
  /\ JsMap.wf (RuleExecutionSummary.rulesets (ParsedTrace.rulesSummary T))
  /\ (forall key ruleset,
         In (key, ruleset) (RuleExecutionSummary.rulesets (ParsedTrace.rulesSummary T)) ->
         JsMap.wf (RulesetSummary.rules ruleset))
  /\ JsMap.wf (RuleExecutionSummary.ruleTypeBreakdown (ParsedTrace.rulesSummary T))
  /\ JsMap.wf (IntegrationOutputSummary.templates (ParsedTrace.integrationOutputs T))
  /\ (forall key template row,
         In (key, template)
            (IntegrationOutputSummary.templates (ParsedTrace.integrationOutputs T)) ->
         In row (IntegrationTemplate.rows template) ->
         JsMap.wf (IntegrationOutputRow.properties row))
  /\ JsMap.wf (VariableTrackingSummary.variables (ParsedTrace.variableTracking T)).

Definition noRules : RuleExecutionSummary.t JsMap.t :=
  {| RuleExecutionSummary.totalExecutions := 0;
     RuleExecutionSummary.uniqueRules := 0;
     RuleExecutionSummary.rulesets := JsMap.empty;
     RuleExecutionSummary.topRules := [];
     RuleExecutionSummary.ruleTypeBreakdown := JsMap.empty |}.

(** A trace with no feature, rule, variable or condition, and one
    integration template, Quote, of one row with the id 1 and the given
    price. *)
Definition quoteTrace (price : string) : ParsedTrace.t JsMap.t :=
  {| ParsedTrace.metadata := TraceParser.emptyMetadata;
     ParsedTrace.features := JsMap.empty;
     ParsedTrace.rulesSummary := noRules;
     ParsedTrace.integrationOutputs :=
       {| IntegrationOutputSummary.templates :=
            [("Quote",
              {| IntegrationTemplate.name := "Quote";
                 IntegrationTemplate.columns := ["IntegrationOutputID"; "Price"];
                 IntegrationTemplate.rows :=
                   [ {| IntegrationOutputRow.id := "1";
                        IntegrationOutputRow.properties :=
                          [("IntegrationOutputID", PString "1"); ("Price", PString price)];
                        IntegrationOutputRow.lineNumber := 3 |} ] |})];
          IntegrationOutputSummary.totalRows := 1 |};
     ParsedTrace.variableTracking :=
       {| VariableTrackingSummary.variables := JsMap.empty;
          VariableTrackingSummary.totalAssignments := 0;
          VariableTrackingSummary.uniqueVariables := 0 |};
     ParsedTrace.conditionTracking :=
       {| ConditionSummary.totalConditions := 0; ConditionSummary.firedCount := 0;
          ConditionSummary.skippedCount := 0; ConditionSummary.conditions := [] |};
     ParsedTrace.issues :=
       {| IssuesSummary.issues := []; IssuesSummary.errorCount := 0;
          IssuesSummary.warningCount := 0; IssuesSummary.infoCount := 0 |};
     ParsedTrace.timeline :=
       {| RuleExecutionTimeline.executions := [];
          RuleExecutionTimeline.totalExecutions := 0;
          RuleExecutionTimeline.maxDepth := 0;
          RuleExecutionTimeline.rulesetOrder := [];
          RuleExecutionTimeline.hotspots := [] |};
     ParsedTrace.rulesExecuted := 0;
     ParsedTrace.rollbackPoints := 0;
     ParsedTrace.parseErrors := [] |}.

Definition someBaseline : BaselineInfo.t :=
  {| BaselineInfo.id := "baseline-1"; BaselineInfo.name := "reference";
     BaselineInfo.matchScore := JsNumber.ofNat 100 |}.

(** A stand-in for [String] on numbers, for traces that hold none. *)
Definition noNumberToString : spec_float -> string := fun _ => "NaN".

End RegressionSpec.


Module BaselineStorageSpec.
Import BaselineStorage.

Definition names (path : list SelectionEntry.t) : list string :=
  map SelectionEntry.featureName path.

(** The candidate's entry [t] has the feature of the baseline's entry [b],
    with an equal selected value. *)
Definition agrees (b t : SelectionEntry.t) : bool :=
  String.eqb (SelectionEntry.featureName t) (SelectionEntry.featureName b)
  && Regression.nullableEqb (SelectionEntry.selectedValue t) (SelectionEntry.selectedValue b).

(** The number of entries of the baseline's path whose feature appears in
    the candidate's path with an equal selected value. *)
Definition matchingCountOf (baselinePath candidatePath : list SelectionEntry.t) : nat :=
  List.length (filter (fun b => existsb (agrees b) candidatePath) baselinePath).

(** The size of the union of the feature names of both paths. *)
Definition unionSize (baselinePath candidatePath : list SelectionEntry.t) : nat :=
  List.length (nodup string_dec (names baselinePath ++ names candidatePath)).

(** [round(100 * m / u)], halves going up, in exact arithmetic *)
Definition roundHalfUp (m u : nat) : Z :=
  ((200 * Z.of_nat m + Z.of_nat u) / (2 * Z.of_nat u))%Z.

(** No feature of the baseline's path is in the candidate's path. *)
Definition disjointPaths (baselinePath candidatePath : list SelectionEntry.t) : Prop :=
  forall name, In name (names baselinePath) -> ~ In name (names candidatePath).

(** The match score as the specification states it. *)
Definition matchScoreAsStated (baseline : BaselineTrace.t)
  (candidatePath : list SelectionEntry.t) : Prop :=
  let m := matchingCountOf (BaselineTrace.selectionPath baseline) candidatePath in
  let u := unionSize (BaselineTrace.selectionPath baseline) candidatePath in
  BaselineMatchResult.matchScore (calculateMatchScore baseline candidatePath)
  = if u =? 0 then JsNumber.ofNat 0 else JsNumber.ofZ (roundHalfUp m u).

Definition spec_float_eqb (x y : spec_float) : bool :=
  match x, y with
  | S754_zero s, S754_zero s' => Bool.eqb s s'
  | S754_infinity s, S754_infinity s' => Bool.eqb s s'
  | S754_nan, S754_nan => true
  | S754_finite s m e, S754_finite s' m' e' => Bool.eqb s s' && Pos.eqb m m' && Z.eqb e e'
  | _, _ => false
  end.

(** The score in double arithmetic is the exactly rounded one for every
    union of fewer than [n] names. *)
Definition exactBelow (n : nat) : bool :=
  forallb
    (fun u =>
       forallb (fun m => spec_float_eqb (scoreOf m u) (JsNumber.ofZ (roundHalfUp m u)))
               (seq 0 (S u)))
    (seq 0 n).

(** The feature [name], seen at [line] and selected as [value]. *)
Definition featureNamed (name value : string) (line : nat) : FeatureData.t :=
  {| FeatureData.name := name;
     FeatureData.caption := name;
     FeatureData.selectedValue := Some value;
     FeatureData.options := ["v"; "w"];
     FeatureData.optionListId := None;
     FeatureData.optionListGroup := None;
     FeatureData.lineNumber := line |}.

(** The feature number [i], selected as [value]. *)
Definition featureNumber (value : string) (i : nat) : FeatureData.t :=
  featureNamed ("F" ++ JsString.ofNat i) value (i + 1).

(** A trace that holds the given features and nothing else. *)
Definition traceOfFeatures (features : list FeatureData.t) : ParsedTrace.t JsMap.t :=
  {| ParsedTrace.metadata := TraceParser.emptyMetadata;
     ParsedTrace.features := JsMap.ofEntries (map (fun f => (FeatureData.name f, f)) features);
     ParsedTrace.rulesSummary := RegressionSpec.noRules;
     ParsedTrace.integrationOutputs :=
       {| IntegrationOutputSummary.templates := JsMap.empty;
          IntegrationOutputSummary.totalRows := 0 |};
     ParsedTrace.variableTracking :=
       {| VariableTrackingSummary.variables := JsMap.empty;
          VariableTrackingSummary.totalAssignments := 0;
          VariableTrackingSummary.uniqueVariables := 0 |};
     ParsedTrace.conditionTracking :=
       {| ConditionSummary.totalConditions := 0; ConditionSummary.firedCount := 0;
          ConditionSummary.skippedCount := 0; ConditionSummary.conditions := [] |};
     ParsedTrace.issues :=
       {| IssuesSummary.issues := []; IssuesSummary.errorCount := 0;
          IssuesSummary.warningCount := 0; IssuesSummary.infoCount := 0 |};
     ParsedTrace.timeline :=
       {| RuleExecutionTimeline.executions := [];
          RuleExecutionTimeline.totalExecutions := 0;
          RuleExecutionTimeline.maxDepth := 0;
          RuleExecutionTimeline.rulesetOrder := [];
          RuleExecutionTimeline.hotspots := [] |};
     ParsedTrace.rulesExecuted := 0;
     ParsedTrace.rollbackPoints := 0;
     ParsedTrace.parseErrors := [] |}.

(** The baseline stored for [trace] by [addBaseline]. *)
Definition baselineOf (trace : ParsedTrace.t JsMap.t) : BaselineTrace.t :=
  {| BaselineTrace.id := "baseline-1";
     BaselineTrace.name := "reference";
     BaselineTrace.filename := "reference.txt";
     BaselineTrace.trace := trace;
     BaselineTrace.selectionPath := extractSelectionPath trace;
     BaselineTrace.createdAt := 0 |}.

(** Forty features, all selected as v. *)
Definition fortyFeatures : ParsedTrace.t JsMap.t :=
  traceOfFeatures (map (featureNumber "v") (seq 0 40)).

(** The same forty features, the first 23 selected as v and the other 17
    as w. *)
Definition fortyFeaturesCandidate : ParsedTrace.t JsMap.t :=
  traceOfFeatures (map (featureNumber "v") (seq 0 23) ++ map (featureNumber "w") (seq 23 17)).

End BaselineStorageSpec.


Module RoundTripSpec.
Import BaselineStorage.

(** What [get] finds in two maps is related by [R], at every key. *)
Definition sameLookup {V W} (R : V -> W -> Prop) (m : JsMap.t V) (m' : JsMap.t W) : Prop :=
  forall key,
    match JsMap.get m key, JsMap.get m' key with
    | Some v, Some w => R v w
    | None, None => True
    | _, _ => False
    end.

(** The field [d] of a reconstructed trace is a [Map] again, with the key
    set of [m] and, at every key, a value that [R] relates to that of
    [m]. *)
Definition sameMap {V W} (R : V -> W -> Prop) (m : JsMap.t V) (d : Dict W) : Prop :=
  exists m' : JsMap.t W,
    d = AsMap m'
    /\ JsMap.wf m'
    /\ Permutation (JsMap.keys m) (JsMap.keys m')
    /\ sameLookup R m m'.

Definition sameRuleset (r : RulesetSummary.t JsMap.t) (r' : RulesetSummary.t Dict) : Prop :=
  RulesetSummary.name r = RulesetSummary.name r'
  /\ RulesetSummary.namespace r = RulesetSummary.namespace r'
  /\ RulesetSummary.executionCount r = RulesetSummary.executionCount r'
  /\ sameMap eq (RulesetSummary.rules r) (RulesetSummary.rules r').

Definition sameRow (r : IntegrationOutputRow.t JsMap.t) (r' : IntegrationOutputRow.t Dict)
  : Prop :=
  IntegrationOutputRow.id r = IntegrationOutputRow.id r'
  /\ IntegrationOutputRow.lineNumber r = IntegrationOutputRow.lineNumber r'
  /\ sameMap eq (IntegrationOutputRow.properties r) (IntegrationOutputRow.properties r').

Definition sameTemplate (t : IntegrationTemplate.t JsMap.t) (t' : IntegrationTemplate.t Dict)
  : Prop :=
  IntegrationTemplate.name t = IntegrationTemplate.name t'
  /\ IntegrationTemplate.columns t = IntegrationTemplate.columns t'
  /\ Forall2 sameRow (IntegrationTemplate.rows t) (IntegrationTemplate.rows t').

(** The trace [T'] read back from storage is the trace [T]: every mapping
    field is a [Map] with the same keys and the same values, at every
    level, and every other field is the same. *)
Definition sameTrace (T : ParsedTrace.t JsMap.t) (T' : ParsedTrace.t Dict) : Prop :=
  ParsedTrace.metadata T = ParsedTrace.metadata T'
  /\ sameMap eq (ParsedTrace.features T) (ParsedTrace.features T')
  /\ RuleExecutionSummary.totalExecutions (ParsedTrace.rulesSummary T)
     = RuleExecutionSummary.totalExecutions (ParsedTrace.rulesSummary T')
  /\ RuleExecutionSummary.uniqueRules (ParsedTrace.rulesSummary T)
     = RuleExecutionSummary.uniqueRules (ParsedTrace.rulesSummary T')
  /\ sameMap sameRuleset (RuleExecutionSummary.rulesets (ParsedTrace.rulesSummary T))
       (RuleExecutionSummary.rulesets (ParsedTrace.rulesSummary T'))
  /\ RuleExecutionSummary.topRules (ParsedTrace.rulesSummary T)
     = RuleExecutionSummary.topRules (ParsedTrace.rulesSummary T')
  /\ sameMap eq (RuleExecutionSummary.ruleTypeBreakdown (ParsedTrace.rulesSummary T))
       (RuleExecutionSummary.ruleTypeBreakdown (ParsedTrace.rulesSummary T'))
  /\ sameMap sameTemplate (IntegrationOutputSummary.templates (ParsedTrace.integrationOutputs T))
       (IntegrationOutputSummary.templates (ParsedTrace.integrationOutputs T'))
  /\ IntegrationOutputSummary.totalRows (ParsedTrace.integrationOutputs T)
     = IntegrationOutputSummary.totalRows (ParsedTrace.integrationOutputs T')
  /\ sameMap eq (VariableTrackingSummary.variables (ParsedTrace.variableTracking T))
       (VariableTrackingSummary.variables (ParsedTrace.variableTracking T'))
  /\ VariableTrackingSummary.totalAssignments (ParsedTrace.variableTracking T)
     = VariableTrackingSummary.totalAssignments (ParsedTrace.variableTracking T')
  /\ VariableTrackingSummary.uniqueVariables (ParsedTrace.variableTracking T)
     = VariableTrackingSummary.uniqueVariables (ParsedTrace.variableTracking T')
  /\ ParsedTrace.conditionTracking T = ParsedTrace.conditionTracking T'
  /\ ParsedTrace.issues T = ParsedTrace.issues T'
  /\ ParsedTrace.timeline T = ParsedTrace.timeline T'
  /\ ParsedTrace.rulesExecuted T = ParsedTrace.rulesExecuted T'
  /\ ParsedTrace.rollbackPoints T = ParsedTrace.rollbackPoints T'
  /\ ParsedTrace.parseErrors T = ParsedTrace.parseErrors T'.

(** The same function on the value of every entry. *)
Definition onValues {V W} (g : V -> W) (m : list (string * V)) : list (string * W) :=
  map (fun entry => (fst entry, g (snd entry))) m.

(** Two features, the second named by an array index. *)
Definition indexKeyedFeatures : JsMap.t FeatureData.t :=
  [("b", BaselineStorageSpec.featureNamed "b" "v" 1);
   ("1", BaselineStorageSpec.featureNamed "1" "v" 2)].

End RoundTripSpec.


Module TokenizerSpec.
Import JsString Expression.



(** The characters that start no token: white space, and whatever falls
    through every test of the loop. *)
Definition ignoredChar (c : ascii) : bool :=
  isSpace c
  || negb (Ascii.eqb c dquote || Ascii.eqb c squote
           || isDigit c
           || existsb (Ascii.eqb c) (chars "=<>+-*/!")
           || existsb (Ascii.eqb c) (chars "(){}[],.")
           || isIdentStart c).

(** The result for a text that holds no expression and is not reported as
    empty: no root, not valid, no error message. *)
Definition noExpression (expression : string) : ParsedExpression :=
  {| root := None; original := expression; isValid := false; error := None |}.


End TokenizerSpec.

Module SummarySpec.
Import TraceParser.

(** The sum of [weight] over the values of a [Map]. *)
Definition sumBy {V} (weight : V -> nat) (m : JsMap.t V) : nat :=
  list_sum (map weight (JsMap.values m)).

(** By falling execution count. *)
Definition byFallingCount (rules : list RuleStats.t) : Prop :=
  StronglySorted
    (fun a b => RuleStats.executionCount b <= RuleStats.executionCount a) rules.

(** The list is in the order that [before] asks for. *)
Definition sortedBy {A} (before : A -> A -> bool) (l : list A) : Prop :=
  StronglySorted (fun a b => before a b = true) l.

(** What the loop of [parseRuleExecutions] keeps true of its three maps. *)
Definition countsConsistent (st : RuleExecutionsState) : Prop :=
  sumBy (fun n => n) (ruleTypeBreakdown st) = totalExecutions st
  /\ sumBy RuleStats.executionCount (ruleExecutionCounts st) = totalExecutions st
  /\ (forall key r, In (key, r) (JsMap.entries (ruleExecutionCounts st)) ->
                    1 <= RuleStats.executionCount r)
  /\ (forall key n, In (key, n) (JsMap.entries (ruleTypeBreakdown st)) -> 1 <= n)
  /\ (forall name rs,
        In (name, rs) (JsMap.entries (rulesets st)) ->
        RulesetSummary.name rs = name
        /\ RulesetSummary.namespace rs = firstSegment name
        /\ RulesetSummary.executionCount rs
           = sumBy RuleStats.executionCount (RulesetSummary.rules rs)
        /\ (forall key r, In (key, r) (JsMap.entries (RulesetSummary.rules rs)) ->
                          RuleStats.ruleset r = name /\ 1 <= RuleStats.executionCount r)).

Definition initialRuleExecutions : RuleExecutionsState :=
  {| rulesets := JsMap.empty; ruleTypeBreakdown := JsMap.empty;
     ruleExecutionCounts := JsMap.empty; totalExecutions := 0 |}.

End SummarySpec.

Module VariableSpec.
Import RegExp TraceParser.

Definition initialVariables : VariableState :=
  {| assignments := []; variableValues := JsMap.empty;
     currentRuleset := EmptyString; currentRuleName := EmptyString;
     currentRuleType := EmptyString |}.

(** The assignments that the first loop of [parseVariableAssignments]
    collects, in the order of the trace. *)
Definition allAssignments (lines : list string) : list VariableAssignment.t :=
  assignments (variableLoop lines 0 initialVariables).

(** The assignment is shown under the display name [name]. *)
Definition named (name : string) (a : VariableAssignment.t) : bool :=
  String.eqb (VariableAssignment.displayName a) name.

(** The summary stored under [name] is the one of the assignments of [all]
    that are shown under [name]: it holds them in their order, it has the raw
    name and the line of the first of them, and the line and the result of
    the last. *)
Definition summarises (all : list VariableAssignment.t) (name : string)
  (summary : VariableSummary.t) : Prop :=
  VariableSummary.name summary = name
  /\ VariableSummary.assignments summary = filter (named name) all
  /\ VariableSummary.assignmentCount summary
     = List.length (VariableSummary.assignments summary)
  /\ (exists first rest,
        VariableSummary.assignments summary = first :: rest
        /\ VariableSummary.rawName summary = VariableAssignment.variableName first
        /\ VariableSummary.firstAssignmentLine summary = VariableAssignment.lineNumber first)
  /\ (exists front final,
        VariableSummary.assignments summary = front ++ [final]
        /\ VariableSummary.finalValue summary = VariableAssignment.resultValue final
        /\ VariableSummary.lastAssignmentLine summary = VariableAssignment.lineNumber final).

(** What the grouping loop keeps true of its map, [done] being the
    assignments it has read. *)
Definition grouped (m : JsMap.t VariableSummary.t) (done : list VariableAssignment.t) : Prop :=
  (forall name, JsMap.get m name = None -> filter (named name) done = [])
  /\ (forall name summary, JsMap.get m name = Some summary -> summarises done name summary)
  /\ SummarySpec.sumBy VariableSummary.assignmentCount m = List.length done.

(** The number of [Variable :] lines. *)
Definition variableLines (lines : list string) : nat :=
  List.length (filter (test variablePattern) lines).

End VariableSpec.

Module TimelineSpec.
Import RegExp TraceParser.

Definition initialTimeline : TimelineState :=
  {| executions := []; rulesetOrder := []; seenRulesets := [];
     rulesetStack := []; currentDepth := 0; executionId := 0 |}.

(** [e] after [e.childExecutionIds.push(child)] *)
Definition withChild (e : RuleExecution.t) (child : nat) : RuleExecution.t :=
  {| RuleExecution.executionId := RuleExecution.executionId e;
     RuleExecution.ruleId := RuleExecution.ruleId e;
     RuleExecution.ruleName := RuleExecution.ruleName e;
     RuleExecution.ruleType := RuleExecution.ruleType e;
     RuleExecution.ruleset := RuleExecution.ruleset e;
     RuleExecution.lineNumber := RuleExecution.lineNumber e;
     RuleExecution.depth := RuleExecution.depth e;
     RuleExecution.parentExecutionId := RuleExecution.parentExecutionId e;
     RuleExecution.childExecutionIds := RuleExecution.childExecutionIds e ++ [child];
     RuleExecution.duration := RuleExecution.duration e |}.

(** [e] after [e.duration = d] *)
Definition withDuration (e : RuleExecution.t) (d : Duration.t) : RuleExecution.t :=
  {| RuleExecution.executionId := RuleExecution.executionId e;
     RuleExecution.ruleId := RuleExecution.ruleId e;
     RuleExecution.ruleName := RuleExecution.ruleName e;
     RuleExecution.ruleType := RuleExecution.ruleType e;
     RuleExecution.ruleset := RuleExecution.ruleset e;
     RuleExecution.lineNumber := RuleExecution.lineNumber e;
     RuleExecution.depth := RuleExecution.depth e;
     RuleExecution.parentExecutionId := RuleExecution.parentExecutionId e;
     RuleExecution.childExecutionIds := RuleExecution.childExecutionIds e;
     RuleExecution.duration := d |}.

(** The executions carry their index as identifier, counted from [from]. *)
Definition numberedFrom (from : nat) (executions : list RuleExecution.t) : Prop :=
  forall i e, nth_error executions i = Some e -> RuleExecution.executionId e = from + i.

(** The links between parents and children agree: the parent of an
    execution is an earlier execution, of the type LoadRulesetRule and of
    another ruleset, that lists it as a child; and every child that an
    execution lists names that execution as its parent. *)
Definition linked (executions : list RuleExecution.t) : Prop :=
  (forall i e p,
      nth_error executions i = Some e ->
      RuleExecution.parentExecutionId e = Some p ->
      p < i
      /\ 1 <= RuleExecution.depth e
      /\ exists parent,
           nth_error executions p = Some parent
           /\ RuleExecution.ruleType parent = "LoadRulesetRule"
           /\ RuleExecution.ruleset parent <> RuleExecution.ruleset e
           /\ In i (RuleExecution.childExecutionIds parent))
  /\ (forall p parent c,
        nth_error executions p = Some parent ->
        In c (RuleExecution.childExecutionIds parent) ->
        exists e, nth_error executions c = Some e
                  /\ RuleExecution.parentExecutionId e = Some p).

(** Every entry of the stack stands for an execution of the type
    LoadRulesetRule, of the ruleset of the entry. *)
Definition stackLoaded (executions : list RuleExecution.t) (stack : list StackEntry) : Prop :=
  forall s, In s stack ->
    exists e, nth_error executions (stackExecutionId s) = Some e
              /\ RuleExecution.ruleType e = "LoadRulesetRule"
              /\ RuleExecution.ruleset e = stackRuleset s.

(** What the first loop of [parseRuleExecutionTimeline] keeps true, before
    it reads the line [i] (counted from 0). *)
Definition timelineInvariant (i : nat) (st : TimelineState) : Prop :=
  executionId st = List.length (executions st)
  /\ numberedFrom 0 (executions st)
  /\ currentDepth st = List.length (rulesetStack st)
  /\ stackLoaded (executions st) (rulesetStack st)
  /\ linked (executions st)
  /\ Forall (fun line => 1 <= line <= i) (map RuleExecution.lineNumber (executions st))
  /\ StronglySorted lt (map RuleExecution.lineNumber (executions st))
  /\ Forall (fun e => RuleExecution.duration e
                      = {| Duration.startLine := RuleExecution.lineNumber e;
                           Duration.endLine := RuleExecution.lineNumber e |})
       (executions st).

(** The hotspot is a run of at least ten executions in a row of one
    ruleset, that no neighbour of the same ruleset extends. *)
Definition isRun (executions : list RuleExecution.t) (h : Hotspot.t) : Prop :=
  HOTSPOT_THRESHOLD <= Hotspot.ruleCount h
  /\ Hotspot.startExecution h + Hotspot.ruleCount h = Hotspot.endExecution h + 1
  /\ Hotspot.endExecution h < List.length executions
  /\ (forall j e, Hotspot.startExecution h <= j <= Hotspot.endExecution h ->
                  nth_error executions j = Some e ->
                  RuleExecution.ruleset e = Hotspot.ruleset h)
  /\ (forall j e, S j = Hotspot.startExecution h ->
                  nth_error executions j = Some e ->
                  RuleExecution.ruleset e <> Hotspot.ruleset h)
  /\ (forall e, nth_error executions (S (Hotspot.endExecution h)) = Some e ->
                RuleExecution.ruleset e <> Hotspot.ruleset h).

(** The run that the third loop is counting, before the execution [i]. *)
Definition countingRun (executions : list RuleExecution.t) (i : nat)
  (currentHotspot : option CurrentHotspot) : Prop :=
  match currentHotspot with
  | None => i = 0
  | Some h =>
      1 <= hsCount h
      /\ hsStart h + hsCount h = i
      /\ (forall j e, hsStart h <= j < i -> nth_error executions j = Some e ->
                      RuleExecution.ruleset e = hsRuleset h)
      /\ (forall j e, S j = hsStart h -> nth_error executions j = Some e ->
                      RuleExecution.ruleset e <> hsRuleset h)
  end.

(** The hotspots found so far are runs, one after the other, before the
    run that is being counted. *)
Definition hotspotInvariant (executions : list RuleExecution.t) (i : nat)
  (currentHotspot : option CurrentHotspot) (hotspots : list Hotspot.t) : Prop :=
  i <= List.length executions
  /\ countingRun executions i currentHotspot
  /\ Forall (isRun executions) hotspots
  /\ StronglySorted (fun a b => Hotspot.endExecution a < Hotspot.startExecution b) hotspots
  /\ Forall (fun h => Hotspot.endExecution h
                      < match currentHotspot with Some c => hsStart c | None => i end)
       hotspots
  /\ (forall h, isRun executions h ->
                Hotspot.endExecution h
                < match currentHotspot with Some c => hsStart c | None => i end ->
                In h hotspots).

End TimelineSpec.

Module SelectionSpec.
Import BaselineStorage.

(** The feature has a selected value. *)
Definition hasSelection (feature : FeatureData.t) : bool :=
  match FeatureData.selectedValue feature with Some _ => true | None => false end.

(** The entry of the selection path for a feature. *)
Definition entryOf (feature : FeatureData.t) : SelectionEntry.t :=
  {| SelectionEntry.featureName := FeatureData.name feature;
     SelectionEntry.selectedValue := FeatureData.selectedValue feature;
     SelectionEntry.optionCount := List.length (FeatureData.options feature) |}.

Definition byLine (features : list FeatureData.t) : Prop :=
  StronglySorted (fun a b => FeatureData.lineNumber a <= FeatureData.lineNumber b) features.

(** The score that [calculateMatchScore] gives a baseline. *)
Definition scoreAgainst (testSelections : list SelectionEntry.t) (baseline : BaselineTrace.t)
  : spec_float :=
  BaselineMatchResult.matchScore (calculateMatchScore baseline testSelections).

(** The features of [indexKeyedFeatures], in the order in which a stored
    trace gives them back. *)
Definition indexKeyedFeaturesStored : JsMap.t FeatureData.t :=
  [("1", BaselineStorageSpec.featureNamed "1" "v" 2);
   ("b", BaselineStorageSpec.featureNamed "b" "v" 1)].

Definition withFeatures (features : JsMap.t FeatureData.t) : ParsedTrace.t JsMap.t :=
  {| ParsedTrace.metadata := TraceParser.emptyMetadata;
     ParsedTrace.features := features;
     ParsedTrace.rulesSummary := RegressionSpec.noRules;
     ParsedTrace.integrationOutputs :=
       {| IntegrationOutputSummary.templates := JsMap.empty;
          IntegrationOutputSummary.totalRows := 0 |};
     ParsedTrace.variableTracking :=
       {| VariableTrackingSummary.variables := JsMap.empty;
          VariableTrackingSummary.totalAssignments := 0;
          VariableTrackingSummary.uniqueVariables := 0 |};
     ParsedTrace.conditionTracking :=
       {| ConditionSummary.totalConditions := 0; ConditionSummary.firedCount := 0;
          ConditionSummary.skippedCount := 0; ConditionSummary.conditions := [] |};
     ParsedTrace.issues :=
       {| IssuesSummary.issues := []; IssuesSummary.errorCount := 0;
          IssuesSummary.warningCount := 0; IssuesSummary.infoCount := 0 |};
     ParsedTrace.timeline :=
       {| RuleExecutionTimeline.executions := [];
          RuleExecutionTimeline.totalExecutions := 0;
          RuleExecutionTimeline.maxDepth := 0;
          RuleExecutionTimeline.rulesetOrder := [];
          RuleExecutionTimeline.hotspots := [] |};
     ParsedTrace.rulesExecuted := 0;
     ParsedTrace.rollbackPoints := 0;
     ParsedTrace.parseErrors := [] |}.

End SelectionSpec.

Module RegExpSpec.
Import JsString RegExp.

Section Loops.
Context {R : Type}.
Variable r : regex.
Variable k : list ascii -> nat -> captures -> option R.

(** The loop that [run] makes for [Star r], with [n] iterations left. *)
Fixpoint starLoop (n : nat) (cs : list ascii) (pos : nat) (caps : captures) {struct n}
  : option R :=
  match n with
  | 0 => k cs pos caps
  | S n' =>
      match run r cs pos caps
              (fun cs' pos' caps' =>
                 if pos' =? pos then None else starLoop n' cs' pos' caps') with
      | Some x => Some x
      | None => k cs pos caps
      end
  end.

(** The loop that [run] makes for [LazyStar r]. *)
Fixpoint lazyStarLoop (n : nat) (cs : list ascii) (pos : nat) (caps : captures) {struct n}
  : option R :=
  match n with
  | 0 => k cs pos caps
  | S n' =>
      match k cs pos caps with
      | Some x => Some x
      | None =>
          run r cs pos caps
            (fun cs' pos' caps' =>
               if pos' =? pos then None else lazyStarLoop n' cs' pos' caps')
      end
  end.

End Loops.

(** The text is white space up to the character [c], which is none. *)
Definition inkAt (c : ascii) (cs : list ascii) : Prop :=
  hd_error (dropWhile isSpace cs) = Some c.

End RegExpSpec.

(** ** The condition tracker, [parseConditions] *)

Module ConditionParser.
Import JsString RegExp TraceParser.

(* /^\s+Property\s+:\s+RuleCondition/ *)
Definition ruleConditionPropertyPattern : regex :=
  seq [Bol; plus space; lit "Property"; plus space; Chr ":"; plus space; lit "RuleCondition"].

(** [formula name] is [/^\s+name\s+:\s+=(.+)/]. *)
Definition formula (name : string) : regex :=
  seq [Bol; plus space; lit name; plus space; Chr ":"; plus space; Chr "=";
       Group 1 (plus dot)].

(** [truth name] is [/^\s+name\s+:\s+(True|False)/]. *)
Definition truth (name : string) : regex :=
  seq [Bol; plus space; lit name; plus space; Chr ":"; plus space;
       Group 1 (Alt (lit "True") (lit "False"))].

Definition expressionPattern : regex := formula "Expression".
Definition tracePattern : regex := field "Trace".
Definition resultBoolPattern : regex := truth "Result".
Definition conditionExpressionPattern : regex := formula "Condition Expression".
Definition conditionResultPattern : regex := truth "Condition Result".

(* /^\s+Property\s+:/ *)
Definition anyPropertyPattern : regex :=
  seq [Bol; plus space; lit "Property"; plus space; Chr ":"].

(** What the look-ahead after a [Property : RuleCondition] line has found
    so far. *)
Record ConditionFields := {
  foundExpression : string;
  foundTrace : string;
  foundResult : option bool
}.

(** The look-ahead loop over [window], the lines [i+1 .. min(i+15, length) - 1]. *)
Fixpoint scanConditionFields (window : list string) (found : ConditionFields)
  : ConditionFields :=
  match window with
  | [] => found
  | nextLine :: rest =>
      if test anyPropertyPattern nextLine || test sectionDivider nextLine
         || test rulesetPattern nextLine
      then found
      else
        let found :=
          match exec expressionPattern nextLine with
          | Some exprMatch =>
              {| foundExpression := ("=" ++ trim (group 1 exprMatch))%string;
                 foundTrace := foundTrace found;
                 foundResult := foundResult found |}
          | None => found
          end in
        let found :=
          match exec tracePattern nextLine with
          | Some traceMatch =>
              {| foundExpression := foundExpression found;
                 foundTrace := trim (group 1 traceMatch);
                 foundResult := foundResult found |}
          | None => found
          end in
        match exec resultBoolPattern nextLine with
        | Some resultMatch =>
            {| foundExpression := foundExpression found;
               foundTrace := foundTrace found;
               foundResult := Some (String.eqb (group 1 resultMatch) "True") |}
        | None => scanConditionFields rest found
        end
  end.

(** The look-ahead loop for [Condition Result] over [window], the lines
    [i+1 .. min(i+5, length) - 1]. *)
Fixpoint scanConditionResult (window : list string) : option bool :=
  match window with
  | [] => None
  | nextLine :: rest =>
      match exec conditionResultPattern nextLine with
      | Some resultMatch => Some (String.eqb (group 1 resultMatch) "True")
      | None => scanConditionResult rest
      end
  end.

Record ConditionState := {
  conditions : list ConditionEvaluation.t;
  currentRuleset : string;
  currentRuleId : string;
  currentRuleName : string;
  currentRuleType : string;
  currentRuleLineNumber : nat
}.

Definition pushCondition (st : ConditionState) (c : ConditionEvaluation.t) : ConditionState :=
  {| conditions := conditions st ++ [c];
     currentRuleset := currentRuleset st;
     currentRuleId := currentRuleId st;
     currentRuleName := currentRuleName st;
     currentRuleType := currentRuleType st;
     currentRuleLineNumber := currentRuleLineNumber st |}.

(** The rule context after line [i]. *)
Definition trackRule (st : ConditionState) (i : nat) (line : string) (rest : list string)
  : ConditionState :=
  match exec rulesetPattern line with
  | Some ruleMatch =>
      {| conditions := conditions st;
         currentRuleset := group 1 ruleMatch;
         currentRuleId := group 2 ruleMatch;
         currentRuleName := trim (group 3 ruleMatch);
         currentRuleType :=
           match ruleTypeAfter ruleTypesWithClear (hd_error rest) with
           | Some t => t
           | None => currentRuleType st
           end;
         currentRuleLineNumber := i + 1 |}
  | None => st
  end.

(** Pattern 1: a [Property : RuleCondition] line. *)
Definition ruleConditionStep (st : ConditionState) (i : nat) (line : string)
  (rest : list string) : ConditionState :=
  if test ruleConditionPropertyPattern line then
    let found :=
      scanConditionFields (firstn 14 rest)
        {| foundExpression := EmptyString; foundTrace := EmptyString;
           foundResult := None |} in
    match foundExpression found, foundResult found with
    | String _ _ as expression, Some result =>
        pushCondition st
          {| ConditionEvaluation.ruleId := currentRuleId st;
             ConditionEvaluation.ruleName := currentRuleName st;
             ConditionEvaluation.ruleType := currentRuleType st;
             ConditionEvaluation.ruleset := currentRuleset st;
             ConditionEvaluation.expression := expression;
             ConditionEvaluation.trace := foundTrace found;
             ConditionEvaluation.result := result;
             ConditionEvaluation.lineNumber := i + 1 |}
    | _, _ => st
    end
  else st.

(** Pattern 2: a [Condition Expression] line of a VariableRule. *)
Definition variableConditionStep (st : ConditionState) (i : nat) (line : string)
  (rest : list string) : ConditionState :=
  match exec conditionExpressionPattern line with
  | Some condExprMatch =>
      if String.eqb (currentRuleType st) "VariableRule" then
        let expression := ("=" ++ trim (group 1 condExprMatch))%string in
        match scanConditionResult (firstn 4 rest) with
        | Some result =>
            pushCondition st
              {| ConditionEvaluation.ruleId := currentRuleId st;
                 ConditionEvaluation.ruleName := currentRuleName st;
                 ConditionEvaluation.ruleType := currentRuleType st;
                 ConditionEvaluation.ruleset := currentRuleset st;
                 ConditionEvaluation.expression := expression;
                 ConditionEvaluation.trace := EmptyString;
                 ConditionEvaluation.result := result;
                 ConditionEvaluation.lineNumber := i + 1 |}
        | None => st
        end
      else st
  | None => st
  end.

(** The body of the loop of [parseConditions] at line [i] (0-based), with
    [rest] the lines after it. *)
Definition conditionStep (st : ConditionState) (i : nat) (line : string) (rest : list string)
  : ConditionState :=
  let st := trackRule st i line rest in
  let st := ruleConditionStep st i line rest in
  variableConditionStep st i line rest.

Fixpoint conditionLoop (lines : list string) (i : nat) (st : ConditionState)
  : ConditionState :=
  match lines with
  | [] => st
  | line :: rest => conditionLoop rest (S i) (conditionStep st i line rest)
  end.

Definition parseConditions (lines : list string) : ConditionSummary.t :=
  let st :=
    conditionLoop lines 0
      {| conditions := []; currentRuleset := EmptyString; currentRuleId := EmptyString;
         currentRuleName := EmptyString; currentRuleType := EmptyString;
         currentRuleLineNumber := 0 |} in
  let conditions := conditions st in
  let firedCount := List.length (filter ConditionEvaluation.result conditions) in
  let skippedCount :=
    List.length (filter (fun c => negb (ConditionEvaluation.result c)) conditions) in
  {| ConditionSummary.totalConditions := List.length conditions;
     ConditionSummary.firedCount := firedCount;
     ConditionSummary.skippedCount := skippedCount;
     ConditionSummary.conditions := conditions |}.

End ConditionParser.

Module ConditionSpec.
Import JsString RegExp TraceParser TraceParserSpec ConditionParser.

Definition initialConditions : ConditionState :=
  {| conditions := []; currentRuleset := EmptyString; currentRuleId := EmptyString;
     currentRuleName := EmptyString; currentRuleType := EmptyString;
     currentRuleLineNumber := 0 |}.

(** The line with the 1-based number [n]. *)
Definition lineAt (lines : list string) (n : nat) : option string :=
  match n with
  | 0 => None
  | S i => nth_error lines i
  end.

(** The line is one that opens a condition: a [Property : RuleCondition]
    line, or a [Condition Expression] line. *)
Definition opensCondition (line : string) : bool :=
  test ruleConditionPropertyPattern line || test conditionExpressionPattern line.

(** The condition [c] was read at a line of [lines] that opens a condition:
    a [Property : RuleCondition] line, or a [Condition Expression] line, in
    which case it is one of a VariableRule, without a trace, and its
    expression is the one of that line. *)
Definition readFrom (lines : list string) (c : ConditionEvaluation.t) : Prop :=
  exists line,
    lineAt lines (ConditionEvaluation.lineNumber c) = Some line
    /\ (test ruleConditionPropertyPattern line = true
        \/ (ConditionEvaluation.ruleType c = "VariableRule"
            /\ ConditionEvaluation.trace c = EmptyString
            /\ option_map (fun text => ("=" ++ trim text)%string)
                 (captured conditionExpressionPattern 1 line)
               = Some (ConditionEvaluation.expression c))).

(** The rule of the last firing line among the first [n] lines: its
    ruleset, its number and its name; empty texts when there is none. *)
Definition rulesetAt (lines : list string) (n : nat) : string :=
  orEmpty (lastCapture rulesetPattern 1 (firstn n lines)).
Definition ruleIdAt (lines : list string) (n : nat) : string :=
  orEmpty (lastCapture rulesetPattern 2 (firstn n lines)).
Definition ruleNameAt (lines : list string) (n : nat) : string :=
  orEmpty (option_map trim (lastCapture rulesetPattern 3 (firstn n lines))).

(** The condition names the rule of the last firing line at or above its
    own line. *)
Definition attributed (lines : list string) (c : ConditionEvaluation.t) : Prop :=
  ConditionEvaluation.ruleset c = rulesetAt lines (ConditionEvaluation.lineNumber c)
  /\ ConditionEvaluation.ruleId c = ruleIdAt lines (ConditionEvaluation.lineNumber c)
  /\ ConditionEvaluation.ruleName c = ruleNameAt lines (ConditionEvaluation.lineNumber c).

(** What the loop of [parseConditions] keeps true, [done] being the lines it
    has read of the lines [all]. *)
Definition conditionInvariant (all done : list string) (st : ConditionState) : Prop :=
  currentRuleset st = orEmpty (lastCapture rulesetPattern 1 done)
  /\ currentRuleId st = orEmpty (lastCapture rulesetPattern 2 done)
  /\ currentRuleName st = orEmpty (option_map trim (lastCapture rulesetPattern 3 done))
  /\ Forall (fun c =>
               readFrom all c /\ attributed all c
               /\ startsWith (ConditionEvaluation.expression c) "=" = true
               /\ ConditionEvaluation.lineNumber c <= List.length done)
            (conditions st)
  /\ StronglySorted lt (map ConditionEvaluation.lineNumber (conditions st))
  /\ List.length (conditions st) <= List.length (filter opensCondition done).

(** A trace of one rule with one condition, which held. *)
Definition oneConditionTrace : list string :=
  ["Ruleset: Pricing Rule: 7 Check (Ruleset: Pricing)";
   "ConditionRule";
   "  Property : RuleCondition";
   "  Expression : =A > 1";
   "  Result : True"].

End ConditionSpec.

(** ** The integration outputs, [parseIntegrationOutputs] *)

Module IntegrationParser.
Import JsString RegExp TraceParser.

(* /^\s+Template:\s+(.+)$/ *)
Definition templatePattern : regex :=
  seq [Bol; plus space; lit "Template:"; plus space; Group 1 (plus dot); Eol].
(* /^\s+Property\s+:\s+(.+)$/ *)
Definition propertyPattern : regex :=
  seq [Bol; plus space; lit "Property"; plus space; Chr ":"; plus space;
       Group 1 (plus dot); Eol].
(* [resultStringPattern]: at the start of the line white space, Result,
   white space, a colon, white space, and between double quotes a captured
   run, which may be empty, of characters other than the double quote *)
Definition resultStringPattern : regex :=
  seq [Bol; plus space; lit "Result"; plus space; Chr ":"; plus space;
       q; Group 1 (Star (notChar dquote)); q].
(* [resultNumberPattern]: the same start, and a captured number: an
   optional minus sign, digits, an optional point and digits, if any *)
Definition resultNumberPattern : regex :=
  seq [Bol; plus space; lit "Result"; plus space; Chr ":"; plus space;
       Group 1 (seq [opt (Chr "-"); plus digit; opt (Chr "."); Star digit])].
(* /^\s+Result\s+:\s+(null|\{\}|\(unassigned\))/ *)
Definition resultNullPattern : regex :=
  seq [Bol; plus space; lit "Result"; plus space; Chr ":"; plus space;
       Group 1 (alt [lit "null"; lit "{}"; lit "(unassigned)"])].

Section Parser.

(** [parseFloat] on a text of the form [-?\d+\.?\d*], which this
    development does not spell out. *)
Variable parseFloat : string -> spec_float.

(** The loop that looks for the result of a property over [window], the
    lines [j+1 .. min(j+6, length) - 1]: the value to store, and the text
    that is the row id if the property is [IntegrationOutputID]. *)
Fixpoint scanResult (window : list string) : option (PropertyValue * option string) :=
  match window with
  | [] => None
  | resultLine :: rest =>
      if test propertyPattern resultLine || test sectionDivider resultLine then None
      else
        match exec resultStringPattern resultLine with
        | Some stringMatch => Some (PString (group 1 stringMatch), Some (group 1 stringMatch))
        | None =>
            match exec resultNumberPattern resultLine with
            | Some numberMatch =>
                Some (PNumber (parseFloat (group 1 numberMatch)), Some (group 1 numberMatch))
            | None =>
                match exec resultNullPattern resultLine with
                | Some _ => Some (PNull, None)
                | None => scanResult rest
                end
            end
        end
  end.

(** The loop over the lines of a template section, [section] being the
    lines after the [Template:] line. *)
Fixpoint scanSection (section : list string) (properties : JsMap.t PropertyValue)
  (integrationOutputId : string) : JsMap.t PropertyValue * string :=
  match section with
  | [] => (properties, integrationOutputId)
  | sectionLine :: rest =>
      if test sectionDivider sectionLine then (properties, integrationOutputId)
      else
        match exec propertyPattern sectionLine with
        | Some propMatch =>
            let propName := trim (group 1 propMatch) in
            match scanResult (firstn 5 rest) with
            | Some (value, idText) =>
                scanSection rest (JsMap.set properties propName value)
                  match idText with
                  | Some text =>
                      if String.eqb propName "IntegrationOutputID" then text
                      else integrationOutputId
                  | None => integrationOutputId
                  end
            | None => scanSection rest properties integrationOutputId
            end
        | None => scanSection rest properties integrationOutputId
        end
  end.

(** [for (const propName of properties.keys()) if (!columns.includes(propName))
    columns.push(propName)] *)
Definition addColumns (columns : list string) (propNames : list string) : list string :=
  fold_left (fun columns propName =>
               if includes columns propName then columns else columns ++ [propName])
    propNames columns.

Record IntegrationState := {
  templates : JsMap.t (IntegrationTemplate.t JsMap.t);
  totalRows : nat
}.

(** The body of the loop of [parseIntegrationOutputs] at line [i]
    (0-based), with [rest] the lines after it. *)
Definition integrationStep (st : IntegrationState) (i : nat) (line : string)
  (rest : list string) : IntegrationState :=
  match exec templatePattern line with
  | Some templateMatch =>
      let templateName := trim (group 1 templateMatch) in
      let lineNumber := i + 1 in
      let '(properties, integrationOutputId) := scanSection rest JsMap.empty "0" in
      if 0 <? JsMap.size properties then
        let templates :=
          if JsMap.has (templates st) templateName then templates st
          else JsMap.set (templates st) templateName
                 {| IntegrationTemplate.name := templateName;
                    IntegrationTemplate.columns := [];
                    IntegrationTemplate.rows := [] |} in
        match JsMap.get templates templateName with
        | Some template =>
            {| templates :=
                 JsMap.set templates templateName
                   {| IntegrationTemplate.name := IntegrationTemplate.name template;
                      IntegrationTemplate.columns :=
                        addColumns (IntegrationTemplate.columns template)
                          (JsMap.keys properties);
                      IntegrationTemplate.rows :=
                        IntegrationTemplate.rows template
                        ++ [ {| IntegrationOutputRow.id := integrationOutputId;
                                IntegrationOutputRow.properties := properties;
                                IntegrationOutputRow.lineNumber := lineNumber |} ] |};
               totalRows := totalRows st + 1 |}
        | None => st
        end
      else st
  | None => st
  end.

Fixpoint integrationLoop (lines : list string) (i : nat) (st : IntegrationState)
  : IntegrationState :=
  match lines with
  | [] => st
  | line :: rest => integrationLoop rest (S i) (integrationStep st i line rest)
  end.

Definition parseIntegrationOutputs (lines : list string)
  : IntegrationOutputSummary.t JsMap.t :=
  let st := integrationLoop lines 0 {| templates := JsMap.empty; totalRows := 0 |} in
  {| IntegrationOutputSummary.templates := templates st;
     IntegrationOutputSummary.totalRows := totalRows st |}.

End Parser.

End IntegrationParser.

Module IntegrationSpec.
Import JsString RegExp TraceParser TraceParserSpec IntegrationParser.

(** The property names of the rows, each once, in the order in which they
    first appear. *)
Definition columnsOf (rows : list (IntegrationOutputRow.t JsMap.t)) : list string :=
  JsSet.ofList (flat_map (fun row => JsMap.keys (IntegrationOutputRow.properties row)) rows).

(** The id that goes with the properties: 0 without the property
    [IntegrationOutputID]; the text of that property if it is a text; and a
    text that reads as its number if it is a number. *)
Definition idOk (parseFloat : string -> spec_float) (properties : JsMap.t PropertyValue)
  (id : string) : Prop :=
  match JsMap.get properties "IntegrationOutputID" with
  | None => id = "0"
  | Some (PString s) => id = s
  | Some (PNumber x) => parseFloat id = x
  | Some PNull => True
  end.

(** The row was read at a [Template:] line for the template [name], among
    the first [n] lines; it has a property, and the id of its properties. *)
Definition rowOk (parseFloat : string -> spec_float) (lines : list string) (n : nat)
  (name : string) (row : IntegrationOutputRow.t JsMap.t) : Prop :=
  (exists line,
      ConditionSpec.lineAt lines (IntegrationOutputRow.lineNumber row) = Some line
      /\ option_map trim (captured templatePattern 1 line) = Some name)
  /\ IntegrationOutputRow.lineNumber row <= n
  /\ 1 <= JsMap.size (IntegrationOutputRow.properties row)
  /\ JsMap.wf (IntegrationOutputRow.properties row)
  /\ idOk parseFloat (IntegrationOutputRow.properties row) (IntegrationOutputRow.id row).

(** The template is the one of the name [name]: its rows are in the order
    of the trace, and its columns are the property names of its rows. *)
Definition templateOk (parseFloat : string -> spec_float) (lines : list string) (n : nat)
  (name : string) (template : IntegrationTemplate.t JsMap.t) : Prop :=
  IntegrationTemplate.name template = name
  /\ IntegrationTemplate.columns template = columnsOf (IntegrationTemplate.rows template)
  /\ Forall (rowOk parseFloat lines n name) (IntegrationTemplate.rows template)
  /\ StronglySorted lt
       (map IntegrationOutputRow.lineNumber (IntegrationTemplate.rows template)).

Definition rowCount (template : IntegrationTemplate.t JsMap.t) : nat :=
  List.length (IntegrationTemplate.rows template).

(** What the loop of [parseIntegrationOutputs] keeps true, [done] being the
    lines it has read of the lines [all]. *)
Definition integrationInvariant (parseFloat : string -> spec_float) (all done : list string)
  (st : IntegrationState) : Prop :=
  JsMap.wf (templates st)
  /\ (forall name template,
         In (name, template) (JsMap.entries (templates st)) ->
         templateOk parseFloat all (List.length done) name template
         /\ 1 <= rowCount template)
  /\ totalRows st = SummarySpec.sumBy rowCount (templates st).

(** A trace of one template section, with a row of the id 12. *)
Definition oneRowTrace : list string :=
  ["  Template: Quote";
   "  Property : IntegrationOutputID";
   "  Result : 12";
   "  Property : Price";
   "  Result : null";
   "----------"].

(** A reading of numbers for the example, which looks at none. *)
Definition noParseFloat : string -> spec_float := fun _ => S754_zero false.

End IntegrationSpec.

(** ** The comparison of two traces, [compareTraces] *)

Module ValueChange.
Record t := {
  feature : string;
  baselineValue : option string;
  currentValue : option string
}.
End ValueChange.

Module OptionChange.
Record t := {
  feature : string;
  baselineOptions : list string;
  currentOptions : list string;
  addedOptions : list string;
  removedOptions : list string
}.
End OptionChange.

Module MetadataChange.
Record t := {
  field : string;
  baseline : string;
  current : string
}.
End MetadataChange.

Module PropertyChange.
Record t := {
  property : string;
  baselineValue : PropertyValue;
  currentValue : PropertyValue
}.
End PropertyChange.

Module RowChange.
Record t := {
  id : string;
  baselineRow : IntegrationOutputRow.t JsMap.t;
  currentRow : IntegrationOutputRow.t JsMap.t;
  changedProperties : list PropertyChange.t
}.
End RowChange.

Module TemplateDiff.
Record t := {
  templateName : string;
  addedRows : list (IntegrationOutputRow.t JsMap.t);
  removedRows : list (IntegrationOutputRow.t JsMap.t);
  changedRows : list RowChange.t;
  addedColumns : list string;
  removedColumns : list string
}.
End TemplateDiff.

Module IntegrationOutputDiff.
Record t := {
  addedTemplates : list string;
  removedTemplates : list string;
  templateDiffs : JsMap.t TemplateDiff.t
}.
End IntegrationOutputDiff.

Module VariableChange.
Record t := {
  variableName : string;
  baselineFinalValue : option string;
  currentFinalValue : option string;
  baselineAssignmentCount : nat;
  currentAssignmentCount : nat
}.
End VariableChange.

Module VariableDiff.
Record t := {
  changedVariables : list VariableChange.t;
  addedVariables : list string;
  removedVariables : list string;
  totalChanges : nat
}.
End VariableDiff.

Module ConditionChange.
Record t := {
  ruleId : string;
  ruleName : string;
  ruleset : string;
  expression : string;
  baselineResult : bool;
  currentResult : bool
}.
End ConditionChange.

Module ConditionDiff.
Record t := {
  changedConditions : list ConditionChange.t;
  addedConditions : list ConditionEvaluation.t;
  removedConditions : list ConditionEvaluation.t;
  totalChanges : nat
}.
End ConditionDiff.

Module TraceDiff.
Record t := {
  addedFeatures : list string;
  removedFeatures : list string;
  optionChanges : list OptionChange.t;
  valueChanges : list ValueChange.t;
  metadataChanges : list MetadataChange.t;
  integrationOutputDiff : IntegrationOutputDiff.t;
  variableDiff : VariableDiff.t;
  conditionDiff : ConditionDiff.t
}.
End TraceDiff.

Module Comparison.
Import JsString Regression.

(** [for (const x of these) if (!those.has(x)) out.push(x)] *)
Definition notIn (those these : JsSet.t) : list string :=
  filter (fun x => negb (JsSet.has those x)) these.

(** [for (const [key, value] of these) if (!those.has(key)) out.push(value)] *)
Definition valuesNotIn {V W} (those : JsMap.t W) (these : JsMap.t V) : list V :=
  flat_map (fun entry : string * V =>
              if JsMap.has those (fst entry) then [] else [snd entry])
    (JsMap.entries these).

Section Comparator.

(** [String(x)] on a number, which this development does not spell out. *)
Variable numberToString : spec_float -> string.

(** [map.get(prop) ?? null] *)
Definition orNull (v : option PropertyValue) : PropertyValue :=
  match v with
  | Some v => v
  | None => PNull
  end.

(** The properties of two rows of one id that differ. *)
Definition changedPropertiesOf (baselineRow currentRow : IntegrationOutputRow.t JsMap.t)
  : list PropertyChange.t :=
  let allProps :=
    JsSet.ofList (JsMap.keys (IntegrationOutputRow.properties baselineRow)
                  ++ JsMap.keys (IntegrationOutputRow.properties currentRow)) in
  flat_map
    (fun prop =>
       let baselineValue :=
         orNull (JsMap.get (IntegrationOutputRow.properties baselineRow) prop) in
       let currentValue :=
         orNull (JsMap.get (IntegrationOutputRow.properties currentRow) prop) in
       if negb (String.eqb (String_ numberToString (Some baselineValue))
                           (String_ numberToString (Some currentValue)))
       then [ {| PropertyChange.property := prop;
                 PropertyChange.baselineValue := baselineValue;
                 PropertyChange.currentValue := currentValue |} ]
       else [])
    allProps.

Definition compareTemplates (baseline current : IntegrationTemplate.t JsMap.t)
  : TemplateDiff.t :=
  let baselineColumns := JsSet.ofList (IntegrationTemplate.columns baseline) in
  let currentColumns := JsSet.ofList (IntegrationTemplate.columns current) in
  let addedColumns :=
    filter (fun c => negb (JsSet.has baselineColumns c)) (IntegrationTemplate.columns current) in
  let removedColumns :=
    filter (fun c => negb (JsSet.has currentColumns c)) (IntegrationTemplate.columns baseline) in
  let baselineRowsById := rowsById (IntegrationTemplate.rows baseline) in
  let currentRowsById := rowsById (IntegrationTemplate.rows current) in
  let addedRows := valuesNotIn baselineRowsById currentRowsById in
  let removedRows := valuesNotIn currentRowsById baselineRowsById in
  let changedRows :=
    flat_map
      (fun entry : string * IntegrationOutputRow.t JsMap.t =>
         let '(id, baselineRow) := entry in
         match JsMap.get currentRowsById id with
         | None => []
         | Some currentRow =>
             let changedProperties := changedPropertiesOf baselineRow currentRow in
             if 0 <? List.length changedProperties
             then [ {| RowChange.id := id;
                       RowChange.baselineRow := baselineRow;
                       RowChange.currentRow := currentRow;
                       RowChange.changedProperties := changedProperties |} ]
             else []
         end)
      (JsMap.entries baselineRowsById) in
  {| TemplateDiff.templateName := IntegrationTemplate.name baseline;
     TemplateDiff.addedRows := addedRows;
     TemplateDiff.removedRows := removedRows;
     TemplateDiff.changedRows := changedRows;
     TemplateDiff.addedColumns := addedColumns;
     TemplateDiff.removedColumns := removedColumns |}.

(** The test that keeps a template diff: it holds a difference. *)
Definition hasDifferences (diff : TemplateDiff.t) : bool :=
  (0 <? List.length (TemplateDiff.addedRows diff))
  || (0 <? List.length (TemplateDiff.removedRows diff))
  || (0 <? List.length (TemplateDiff.changedRows diff))
  || (0 <? List.length (TemplateDiff.addedColumns diff))
  || (0 <? List.length (TemplateDiff.removedColumns diff)).

Definition compareIntegrationOutputs (baseline current : IntegrationOutputSummary.t JsMap.t)
  : IntegrationOutputDiff.t :=
  let baselineTemplateNames :=
    JsSet.ofList (JsMap.keys (IntegrationOutputSummary.templates baseline)) in
  let currentTemplateNames :=
    JsSet.ofList (JsMap.keys (IntegrationOutputSummary.templates current)) in
  let addedTemplates := notIn baselineTemplateNames currentTemplateNames in
  let removedTemplates := notIn currentTemplateNames baselineTemplateNames in
  let templateDiffs :=
    fold_left
      (fun templateDiffs templateName =>
         if negb (JsSet.has currentTemplateNames templateName) then templateDiffs
         else
           match JsMap.get (IntegrationOutputSummary.templates baseline) templateName,
                 JsMap.get (IntegrationOutputSummary.templates current) templateName with
           | Some baselineTemplate, Some currentTemplate =>
               let diff := compareTemplates baselineTemplate currentTemplate in
               if hasDifferences diff then JsMap.set templateDiffs templateName diff
               else templateDiffs
           | _, _ => templateDiffs
           end)
      baselineTemplateNames JsMap.empty in
  {| IntegrationOutputDiff.addedTemplates := addedTemplates;
     IntegrationOutputDiff.removedTemplates := removedTemplates;
     IntegrationOutputDiff.templateDiffs := templateDiffs |}.

End Comparator.

Definition compareVariables (baseline current : VariableTrackingSummary.t JsMap.t)
  : VariableDiff.t :=
  let baselineVarNames := JsSet.ofList (JsMap.keys (VariableTrackingSummary.variables baseline)) in
  let currentVarNames := JsSet.ofList (JsMap.keys (VariableTrackingSummary.variables current)) in
  let addedVariables := notIn baselineVarNames currentVarNames in
  let removedVariables := notIn currentVarNames baselineVarNames in
  let changedVariables :=
    flat_map
      (fun name =>
         if negb (JsSet.has currentVarNames name) then []
         else
           match JsMap.get (VariableTrackingSummary.variables baseline) name,
                 JsMap.get (VariableTrackingSummary.variables current) name with
           | Some baselineVar, Some currentVar =>
               if negb (nullableEqb (VariableSummary.finalValue baselineVar)
                                    (VariableSummary.finalValue currentVar))
               then [ {| VariableChange.variableName := name;
                         VariableChange.baselineFinalValue :=
                           VariableSummary.finalValue baselineVar;
                         VariableChange.currentFinalValue :=
                           VariableSummary.finalValue currentVar;
                         VariableChange.baselineAssignmentCount :=
                           VariableSummary.assignmentCount baselineVar;
                         VariableChange.currentAssignmentCount :=
                           VariableSummary.assignmentCount currentVar |} ]
               else []
           | _, _ => []
           end)
      baselineVarNames in
  {| VariableDiff.changedVariables := changedVariables;
     VariableDiff.addedVariables := addedVariables;
     VariableDiff.removedVariables := removedVariables;
     VariableDiff.totalChanges :=
       List.length changedVariables + List.length addedVariables
       + List.length removedVariables |}.

Definition compareConditions (baseline current : ConditionSummary.t) : ConditionDiff.t :=
  let baselineMap := conditionMap (ConditionSummary.conditions baseline) in
  let currentMap := conditionMap (ConditionSummary.conditions current) in
  let addedConditions := valuesNotIn baselineMap currentMap in
  let removedConditions := valuesNotIn currentMap baselineMap in
  let changedConditions :=
    flat_map
      (fun entry : string * ConditionEvaluation.t =>
         let '(key, baselineCondition) := entry in
         match JsMap.get currentMap key with
         | None => []
         | Some currentCondition =>
             if negb (Bool.eqb (ConditionEvaluation.result baselineCondition)
                               (ConditionEvaluation.result currentCondition))
             then [ {| ConditionChange.ruleId := ConditionEvaluation.ruleId baselineCondition;
                       ConditionChange.ruleName := ConditionEvaluation.ruleName baselineCondition;
                       ConditionChange.ruleset := ConditionEvaluation.ruleset baselineCondition;
                       ConditionChange.expression :=
                         ConditionEvaluation.expression baselineCondition;
                       ConditionChange.baselineResult :=
                         ConditionEvaluation.result baselineCondition;
                       ConditionChange.currentResult :=
                         ConditionEvaluation.result currentCondition |} ]
             else []
         end)
      (JsMap.entries baselineMap) in
  {| ConditionDiff.changedConditions := changedConditions;
     ConditionDiff.addedConditions := addedConditions;
     ConditionDiff.removedConditions := removedConditions;
     ConditionDiff.totalChanges :=
       List.length changedConditions + List.length addedConditions
       + List.length removedConditions |}.

(** [metaFields], each with its reading of the metadata *)
Definition metaFields : list (string * (ConfigurationMetadata.t -> string)) :=
  [("instance", ConfigurationMetadata.instance);
   ("application", ConfigurationMetadata.application);
   ("configurationId", ConfigurationMetadata.configurationId);
   ("partNumber", ConfigurationMetadata.partNumber);
   ("partNamespace", ConfigurationMetadata.partNamespace);
   ("configurationMode", ConfigurationMetadata.configurationMode)].

(** What the loop over the features of both traces has collected. *)
Record FeatureChanges := {
  loopOptionChanges : list OptionChange.t;
  loopValueChanges : list ValueChange.t
}.

(** The body of the loop that compares the features of both traces. *)
Definition featureChangeStep (baseline current : ParsedTrace.t JsMap.t)
  (currentFeatures : JsSet.t) (acc : FeatureChanges) (feature : string) : FeatureChanges :=
  if negb (JsSet.has currentFeatures feature) then acc
  else
    match JsMap.get (ParsedTrace.features baseline) feature,
          JsMap.get (ParsedTrace.features current) feature with
    | Some baselineData, Some currentData =>
        let baselineSet := JsSet.ofList (FeatureData.options baselineData) in
        let currentSet := JsSet.ofList (FeatureData.options currentData) in
        let addedOptions :=
          filter (fun o => negb (JsSet.has baselineSet o)) (FeatureData.options currentData) in
        let removedOptions :=
          filter (fun o => negb (JsSet.has currentSet o)) (FeatureData.options baselineData) in
        let optionChanges :=
          if (0 <? List.length addedOptions) || (0 <? List.length removedOptions)
          then loopOptionChanges acc
               ++ [ {| OptionChange.feature := feature;
                       OptionChange.baselineOptions := FeatureData.options baselineData;
                       OptionChange.currentOptions := FeatureData.options currentData;
                       OptionChange.addedOptions := addedOptions;
                       OptionChange.removedOptions := removedOptions |} ]
          else loopOptionChanges acc in
        let valueChanges :=
          if negb (nullableEqb (FeatureData.selectedValue baselineData)
                               (FeatureData.selectedValue currentData))
          then loopValueChanges acc
               ++ [ {| ValueChange.feature := feature;
                       ValueChange.baselineValue := FeatureData.selectedValue baselineData;
                       ValueChange.currentValue := FeatureData.selectedValue currentData |} ]
          else loopValueChanges acc in
        {| loopOptionChanges := optionChanges; loopValueChanges := valueChanges |}
    | _, _ => acc
    end.

Section Traces.

Variable numberToString : spec_float -> string.

Definition compareTraces (baseline current : ParsedTrace.t JsMap.t) : TraceDiff.t :=
  let baselineFeatures := JsSet.ofList (JsMap.keys (ParsedTrace.features baseline)) in
  let currentFeatures := JsSet.ofList (JsMap.keys (ParsedTrace.features current)) in
  let addedFeatures := notIn baselineFeatures currentFeatures in
  let removedFeatures := notIn currentFeatures baselineFeatures in
  let changes :=
    fold_left (featureChangeStep baseline current currentFeatures) baselineFeatures
      {| loopOptionChanges := []; loopValueChanges := [] |} in
  let metadataChanges :=
    flat_map
      (fun entry : string * (ConfigurationMetadata.t -> string) =>
         let '(field, read) := entry in
         if negb (String.eqb (read (ParsedTrace.metadata baseline))
                             (read (ParsedTrace.metadata current)))
         then [ {| MetadataChange.field := field;
                   MetadataChange.baseline := read (ParsedTrace.metadata baseline);
                   MetadataChange.current := read (ParsedTrace.metadata current) |} ]
         else [])
      metaFields in
  {| TraceDiff.addedFeatures := addedFeatures;
     TraceDiff.removedFeatures := removedFeatures;
     TraceDiff.optionChanges := loopOptionChanges changes;
     TraceDiff.valueChanges := loopValueChanges changes;
     TraceDiff.metadataChanges := metadataChanges;
     TraceDiff.integrationOutputDiff :=
       compareIntegrationOutputs numberToString (ParsedTrace.integrationOutputs baseline)
         (ParsedTrace.integrationOutputs current);
     TraceDiff.variableDiff :=
       compareVariables (ParsedTrace.variableTracking baseline)
         (ParsedTrace.variableTracking current);
     TraceDiff.conditionDiff :=
       compareConditions (ParsedTrace.conditionTracking baseline)
         (ParsedTrace.conditionTracking current) |}.

End Traces.

End Comparison.

Module ComparisonSpec.
Import Regression Comparison.

(** The comparison found nothing. *)
Definition noDifferences (diff : TraceDiff.t) : Prop :=
  TraceDiff.addedFeatures diff = []
  /\ TraceDiff.removedFeatures diff = []
  /\ TraceDiff.optionChanges diff = []
  /\ TraceDiff.valueChanges diff = []
  /\ TraceDiff.metadataChanges diff = []
  /\ IntegrationOutputDiff.addedTemplates (TraceDiff.integrationOutputDiff diff) = []
  /\ IntegrationOutputDiff.removedTemplates (TraceDiff.integrationOutputDiff diff) = []
  /\ IntegrationOutputDiff.templateDiffs (TraceDiff.integrationOutputDiff diff) = JsMap.empty
  /\ VariableDiff.changedVariables (TraceDiff.variableDiff diff) = []
  /\ VariableDiff.addedVariables (TraceDiff.variableDiff diff) = []
  /\ VariableDiff.removedVariables (TraceDiff.variableDiff diff) = []
  /\ VariableDiff.totalChanges (TraceDiff.variableDiff diff) = 0
  /\ ConditionDiff.changedConditions (TraceDiff.conditionDiff diff) = []
  /\ ConditionDiff.addedConditions (TraceDiff.conditionDiff diff) = []
  /\ ConditionDiff.removedConditions (TraceDiff.conditionDiff diff) = []
  /\ ConditionDiff.totalChanges (TraceDiff.conditionDiff diff) = 0.

(** The last evaluation, in the order of the trace, of the condition with
    the key [key]. *)
Definition lastWith (key : string) (conditions : list ConditionEvaluation.t)
  : option ConditionEvaluation.t :=
  find (fun c => String.eqb (conditionKey c) key) (rev conditions).

(** The change that is reported for a condition that held in one trace and
    not in the other. *)
Definition changeOf (baselineCondition currentCondition : ConditionEvaluation.t)
  : ConditionChange.t :=
  {| ConditionChange.ruleId := ConditionEvaluation.ruleId baselineCondition;
     ConditionChange.ruleName := ConditionEvaluation.ruleName baselineCondition;
     ConditionChange.ruleset := ConditionEvaluation.ruleset baselineCondition;
     ConditionChange.expression := ConditionEvaluation.expression baselineCondition;
     ConditionChange.baselineResult := ConditionEvaluation.result baselineCondition;
     ConditionChange.currentResult := ConditionEvaluation.result currentCondition |}.

(** The header fields of both traces agree, [headerID] apart. *)
Definition sameHeader (baseline current : ConfigurationMetadata.t) : Prop :=
  ConfigurationMetadata.instance baseline = ConfigurationMetadata.instance current
  /\ ConfigurationMetadata.application baseline = ConfigurationMetadata.application current
  /\ ConfigurationMetadata.configurationId baseline
     = ConfigurationMetadata.configurationId current
  /\ ConfigurationMetadata.partNumber baseline = ConfigurationMetadata.partNumber current
  /\ ConfigurationMetadata.partNamespace baseline
     = ConfigurationMetadata.partNamespace current
  /\ ConfigurationMetadata.configurationMode baseline
     = ConfigurationMetadata.configurationMode current.

(** Both trackers hold the same variables, with the same final values. *)
Definition sameFinalValues (baseline current : VariableTrackingSummary.t JsMap.t) : Prop :=
  (forall name,
      JsMap.has (VariableTrackingSummary.variables baseline) name
      = JsMap.has (VariableTrackingSummary.variables current) name)
  /\ (forall name baselineVar currentVar,
         JsMap.get (VariableTrackingSummary.variables baseline) name = Some baselineVar ->
         JsMap.get (VariableTrackingSummary.variables current) name = Some currentVar ->
         VariableSummary.finalValue baselineVar = VariableSummary.finalValue currentVar).

(** What the loop over the features adds to [valueChanges] and to
    [optionChanges] for one feature of the baseline. *)
Definition valueChangeOf (baseline current : ParsedTrace.t JsMap.t) (feature : string)
  : list ValueChange.t :=
  match JsMap.get (ParsedTrace.features baseline) feature,
        JsMap.get (ParsedTrace.features current) feature with
  | Some baselineData, Some currentData =>
      if negb (nullableEqb (FeatureData.selectedValue baselineData)
                           (FeatureData.selectedValue currentData))
      then [ {| ValueChange.feature := feature;
                ValueChange.baselineValue := FeatureData.selectedValue baselineData;
                ValueChange.currentValue := FeatureData.selectedValue currentData |} ]
      else []
  | _, _ => []
  end.

(** The options of [these] that are not among [those]. *)
Definition optionsNotIn (those these : list string) : list string :=
  filter (fun o => negb (JsSet.has (JsSet.ofList those) o)) these.

Definition optionChangeOf (baseline current : ParsedTrace.t JsMap.t) (feature : string)
  : list OptionChange.t :=
  match JsMap.get (ParsedTrace.features baseline) feature,
        JsMap.get (ParsedTrace.features current) feature with
  | Some baselineData, Some currentData =>
      let addedOptions :=
        optionsNotIn (FeatureData.options baselineData) (FeatureData.options currentData) in
      let removedOptions :=
        optionsNotIn (FeatureData.options currentData) (FeatureData.options baselineData) in
      if (0 <? List.length addedOptions) || (0 <? List.length removedOptions)
      then [ {| OptionChange.feature := feature;
                OptionChange.baselineOptions := FeatureData.options baselineData;
                OptionChange.currentOptions := FeatureData.options currentData;
                OptionChange.addedOptions := addedOptions;
                OptionChange.removedOptions := removedOptions |} ]
      else []
  | _, _ => []
  end.

(** Both lists hold the same options, in whatever order and number. *)
Definition sameOptions (a b : list string) : Prop :=
  forall o, In o a <-> In o b.

(** A trace with one feature, which has the given options and value. *)
Definition oneFeatureTrace (options : list string) (value : string) : ParsedTrace.t JsMap.t :=
  BaselineStorageSpec.traceOfFeatures
    [ {| FeatureData.name := "Color";
         FeatureData.caption := "Color";
         FeatureData.selectedValue := Some value;
         FeatureData.options := options;
         FeatureData.optionListId := None;
         FeatureData.optionListGroup := None;
         FeatureData.lineNumber := 1 |} ].

End ComparisonSpec.

(** ** Patterns with the [g] flag *)

Module GlobalRegExp.
Import JsString RegExp.

(** [regex.exec(s)] for a pattern with the [g] flag whose [lastIndex] is
    [lastIndex]: the leftmost match from there on. *)
Definition execAt (r : regex) (s : string) (lastIndex : nat) : option MatchResult :=
  if String.length s <? lastIndex then None
  else search r (skipn lastIndex (chars s)) lastIndex.

(** [s.replace(regex, by)] for a pattern with the [g] flag: [cs] is the text
    from [pos] on.  After a match of no character the search goes on one
    character further. *)
Fixpoint replaceAll_from (fuel : nat) (r : regex) (by_ : list ascii) (cs : list ascii)
  (pos : nat) : list ascii :=
  match fuel with
  | 0 => cs
  | S fuel =>
      match search r cs pos with
      | None => cs
      | Some m =>
          let before := firstn (index m - pos) cs in
          let after := skipn (lastIndex m - pos) cs in
          if lastIndex m =? index m then
            match after with
            | [] => before ++ by_
            | c :: rest =>
                before ++ by_ ++ c :: replaceAll_from fuel r by_ rest (S (lastIndex m))
            end
          else before ++ by_ ++ replaceAll_from fuel r by_ after (lastIndex m)
      end
  end.

Definition replaceAll (r : regex) (by_ : string) (s : string) : string :=
  ofChars (replaceAll_from (S (String.length s)) r (chars by_) (chars s) 0).

End GlobalRegExp.

(** ** The features of [parseTrace] *)

Module FeatureParser.
Import JsString RegExp GlobalRegExp TraceParser.

(* /^\s*Screen Option:\s*(\S+)/ *)
Definition screenOptionPattern : regex :=
  seq [Bol; Star space; lit "Screen Option:"; Star space; Group 1 (plus nonSpace)].
(* /^\s+Property\s+:\s+(.+)/ *)
Definition propertyPattern : regex := field "Property".

(** [quotedField name] is the pattern of [name], white space, a colon, white
    space and a text between double quotes, which is captured and not
    empty. *)
Definition quotedField (name : string) : regex :=
  seq [Bol; plus space; lit name; plus space; Chr ":"; plus space;
       q; Group 1 (plus (notChar dquote)); q].

Definition traceValuePattern : regex := quotedField "Trace".
Definition resultValuePattern : regex := quotedField "Result".
(* /^\s+Result\s+:\s+(\{.+\})/ *)
Definition resultArrayPattern : regex :=
  seq [Bol; plus space; lit "Result"; plus space; Chr ":"; plus space;
       Group 1 (seq [Chr "{"; plus dot; Chr "}"])].
(* /^\s+Value:\s*(.+)/ *)
Definition selectedValuePattern : regex :=
  seq [Bol; plus space; lit "Value:"; Star space; Group 1 (plus dot)].

(** The patterns of [parseOptionArray]: an opening brace, a captured run of
    characters other than the closing brace, and a closing brace; and, with
    the [g] flag, a text between double quotes, captured and not empty. *)
Definition bracePattern : regex :=
  seq [Chr "{"; Group 1 (Star (notChar "}")); Chr "}"].
Definition quotedPattern : regex :=
  seq [q; Group 1 (plus (notChar dquote)); q].

(** The pattern that takes the surrounding quotes off a value: a double
    quote at the start or at the end, with the [g] flag. *)
Definition surroundingQuotes : regex := Alt (Seq Bol q) (Seq q Eol).

(** The loop [while ((m = quotedPattern.exec(content)) !== null)]. *)
Fixpoint quotedLoop (fuel : nat) (content : string) (lastIndex : nat) (options : list string)
  : list string :=
  match fuel with
  | 0 => options
  | S fuel =>
      match execAt quotedPattern content lastIndex with
      | Some m => quotedLoop fuel content (RegExp.lastIndex m) (options ++ [group 1 m])
      | None => options
      end
  end.

Definition parseOptionArray (arrayStr : string) : list string :=
  match exec bracePattern arrayStr with
  | None => []
  | Some match_ =>
      let content := group 1 match_ in
      quotedLoop (S (String.length content)) content 0 []
  end.

(** The capture of [pattern] on the first line of [window] that matches. *)
Fixpoint firstMatch (pattern : regex) (window : list string) : option string :=
  match window with
  | [] => None
  | line :: rest =>
      match exec pattern line with
      | Some m => Some (group 1 m)
      | None => firstMatch pattern rest
      end
  end.

(** The loop that looks for [Property : Group Values] in the [n] lines at
    the head of [rest], and for the option array in the four lines after
    it. *)
Fixpoint scanGroupValues (n : nat) (rest : list string) : option (list string) :=
  match n, rest with
  | S n', nextLine :: after =>
      match exec propertyPattern nextLine with
      | Some nextPropMatch =>
          if String.eqb (trim (group 1 nextPropMatch)) "Group Values"
          then option_map parseOptionArray (firstMatch resultArrayPattern (firstn 4 after))
          else scanGroupValues n' after
      | None => scanGroupValues n' after
      end
  | _, _ => None
  end.

(** The body of the first pass at a line, with [rest] the lines after it. *)
Definition groupStep (groupOptionsMap : JsMap.t (list string)) (line : string)
  (rest : list string) : JsMap.t (list string) :=
  match exec propertyPattern line with
  | Some propMatch =>
      if String.eqb (trim (group 1 propMatch)) "Group Name" then
        match firstMatch resultValuePattern (firstn 4 rest) with
        | Some (String _ _ as groupGuid) =>
            match scanGroupValues 9 rest with
            | Some options => JsMap.set groupOptionsMap groupGuid options
            | None => groupOptionsMap
            end
        | _ => groupOptionsMap
        end
      else groupOptionsMap
  | None => groupOptionsMap
  end.

Fixpoint groupLoop (lines : list string) (groupOptionsMap : JsMap.t (list string))
  : JsMap.t (list string) :=
  match lines with
  | [] => groupOptionsMap
  | line :: rest => groupLoop rest (groupStep groupOptionsMap line rest)
  end.

(** What the look-ahead in a Screen Option section has found. *)
Record SectionFields := {
  caption : string;
  selectedValue : option string;
  optionListId : option string;
  optionListGroup : option string
}.

(** The caption in [window]: on the first line that shows a trace value or
    a result value, that value, the trace value first. *)
Fixpoint firstCaption (window : list string) : option string :=
  match window with
  | [] => None
  | line :: rest =>
      match exec traceValuePattern line with
      | Some traceMatch => Some (group 1 traceMatch)
      | None =>
          match exec resultValuePattern line with
          | Some resultMatch => Some (group 1 resultMatch)
          | None => firstCaption rest
          end
      end
  end.

(** What a [Property] line of the section sets, [rest] being the lines
    after it. *)
Definition sectionProperty (found : SectionFields) (propName : string) (rest : list string)
  : SectionFields :=
  if String.eqb propName "Caption" then
    match firstCaption (firstn 3 rest) with
    | Some text =>
        {| caption := text; selectedValue := selectedValue found;
           optionListId := optionListId found; optionListGroup := optionListGroup found |}
    | None => found
    end
  else if String.eqb propName "Option List Id" then
    match firstMatch resultValuePattern (firstn 3 rest) with
    | Some text =>
        {| caption := caption found; selectedValue := selectedValue found;
           optionListId := Some text; optionListGroup := optionListGroup found |}
    | None => found
    end
  else if String.eqb propName "Option List Group" then
    match firstMatch resultValuePattern (firstn 3 rest) with
    | Some text =>
        {| caption := caption found; selectedValue := selectedValue found;
           optionListId := optionListId found; optionListGroup := Some text |}
    | None => found
    end
  else found.

(** The selected value that a [Value:] line shows. *)
Definition selectedValueOf (val : string) : option string :=
  if String.eqb val "null" || String.eqb val "(unassigned)"
     || String.eqb val (String dquote (String dquote EmptyString))
     || String.eqb val EmptyString
  then None
  else Some (replaceAll surroundingQuotes EmptyString val).

(** The loop over the lines of a Screen Option section, [section] being the
    lines after the [Screen Option:] line. *)
Fixpoint scanScreenOption (section : list string) (found : SectionFields) : SectionFields :=
  match section with
  | [] => found
  | sectionLine :: rest =>
      if test sectionDivider sectionLine then found
      else
        let found :=
          match exec propertyPattern sectionLine with
          | Some propMatch => sectionProperty found (trim (group 1 propMatch)) rest
          | None => found
          end in
        match exec selectedValuePattern sectionLine with
        | Some valueMatch =>
            {| caption := caption found;
               selectedValue := selectedValueOf (trim (group 1 valueMatch));
               optionListId := optionListId found;
               optionListGroup := optionListGroup found |}
        | None => scanScreenOption rest found
        end
  end.

(** The part of the body of the second pass that fills [features], at line
    [i] (0-based), with [rest] the lines after it. *)
Definition featureStep (groupOptionsMap : JsMap.t (list string))
  (features : JsMap.t FeatureData.t) (i : nat) (line : string) (rest : list string)
  : JsMap.t FeatureData.t :=
  match exec screenOptionPattern line with
  | Some screenMatch =>
      let featureName := group 1 screenMatch in
      let featureLineNumber := i + 1 in
      let found :=
        scanScreenOption rest
          {| caption := featureName; selectedValue := None;
             optionListId := None; optionListGroup := None |} in
      let options :=
        match optionListGroup found with
        | Some (String _ _ as guid) =>
            match JsMap.get groupOptionsMap guid with
            | Some options => options
            | None => []
            end
        | _ => []
        end in
      JsMap.set features featureName
        {| FeatureData.name := featureName;
           FeatureData.caption := caption found;
           FeatureData.selectedValue := selectedValue found;
           FeatureData.options := options;
           FeatureData.optionListId := optionListId found;
           FeatureData.optionListGroup := optionListGroup found;
           FeatureData.lineNumber := featureLineNumber |}
  | None => features
  end.

Fixpoint featureLoop (groupOptionsMap : JsMap.t (list string)) (lines : list string)
  (i : nat) (features : JsMap.t FeatureData.t) : JsMap.t FeatureData.t :=
  match lines with
  | [] => features
  | line :: rest =>
      featureLoop groupOptionsMap rest (S i)
        (featureStep groupOptionsMap features i line rest)
  end.

(** The [features] of [parseTrace] for the lines of a trace. *)
Definition parseFeatures (lines : list string) : JsMap.t FeatureData.t :=
  let groupOptionsMap := groupLoop lines JsMap.empty in
  featureLoop groupOptionsMap lines 0 JsMap.empty.

End FeatureParser.

Module FeatureSpec.
Import JsString RegExp TraceParser TraceParserSpec FeatureParser.

(** The feature that line [i] (0-based) opens a Screen Option section
    for, if it does. *)
Definition namedAt (lines : list string) (i : nat) : option string :=
  match nth_error lines i with
  | Some line => captured screenOptionPattern 1 line
  | None => None
  end.

(** The features of the Screen Option lines, in the order of the trace. *)
Definition sectionNames (lines : list string) : list string :=
  flat_map (fun line =>
              match captured screenOptionPattern 1 line with
              | Some name => [name]
              | None => []
              end) lines.

(** What the second pass keeps true of [features], having read the first
    [n] lines. *)
Definition featuresInvariant (lines : list string) (n : nat)
  (features : JsMap.t FeatureData.t) : Prop :=
  JsMap.keys features = JsSet.ofList (sectionNames (firstn n lines))
  /\ forall name,
       match JsMap.get features name with
       | Some feature =>
           FeatureData.name feature = name
           /\ 1 <= FeatureData.lineNumber feature <= n
           /\ namedAt lines (FeatureData.lineNumber feature - 1) = Some name
           /\ (forall j, FeatureData.lineNumber feature <= j -> j < n ->
                         namedAt lines j <> Some name)
       | None => forall j, j < n -> namedAt lines j <> Some name
       end.

(** An option that an option array can show: a text that is not empty,
    without a double quote and without a closing brace. *)
Definition plainChar (c : ascii) : bool :=
  negb (Ascii.eqb c dquote) && negb (Ascii.eqb c "}").
Definition plainOption (text : string) : Prop :=
  text <> EmptyString /\ forallb plainChar (chars text) = true.

(** The text of an option array: the options between double quotes, with a
    comma and a space between them, all between braces. *)
Definition optionText (options : list string) : string :=
  ("{" ++ join ", " (map Regression.inQuotes options) ++ "}")%string.

(** The characters between the braces. *)
Fixpoint itemChars (options : list string) : list ascii :=
  match options with
  | [] => []
  | [text] => dquote :: chars text ++ [dquote]
  | text :: rest =>
      dquote :: chars text ++ dquote :: ","%char :: " "%char :: itemChars rest
  end.

End FeatureSpec.

(** ** The issue detection, [detectIssues] *)

Module IssueDetector.
Import JsString RegExp.
Import DetectedIssue.

(** The data that [detectIssues] is given.  The counts are natural
    numbers, [rollbackPoints] among them. *)
Record Data := {
  rulesSummary : RuleExecutionSummary.t JsMap.t;
  conditionTracking : ConditionSummary.t;
  variableTracking : VariableTrackingSummary.t JsMap.t;
  rollbackPoints : nat;
  lines : list string
}.

(** The issues found so far and the counter of [createId]. *)
Record Detector := {
  issues : list DetectedIssue.t;
  issueId : nat
}.

Definition noContext : Context :=
  {| ruleName := None; ruleset := None; variableName := None; expression := None;
     count := None |}.

(** [issues.push({ id: createId(), ... })] *)
Definition push (st : Detector) (severity : IssueSeverity) (category : IssueCategory)
  (title description : string) (lineNumber : nat) (context : Context) : Detector :=
  let issueId := issueId st + 1 in
  {| issues :=
       (issues st
        ++ [ {| id := ("issue-" ++ ofNat issueId)%string;
                severity := severity;
                category := category;
                title := title;
                description := description;
                lineNumber := lineNumber;
                context := context |} ])%list;
     issueId := issueId |}.

(** [s.includes(t)] on texts *)
Definition includesText (s t : string) : bool :=
  match String.index 0 t s with
  | Some _ => true
  | None => false
  end.

(** The check of one rule of [topRules]. *)
Definition hotRuleStep (st : Detector) (rule : RuleStats.t) : Detector :=
  let executionCount := RuleStats.executionCount rule in
  let title := ("Rule executes " ++ ofNat executionCount ++ " times")%string in
  let context :=
    {| ruleName := Some (RuleStats.ruleName rule);
       ruleset := Some (RuleStats.ruleset rule);
       variableName := None;
       expression := None;
       count := Some executionCount |} in
  if 50 <? executionCount then
    push st error performance title
      (Regression.inQuotes (RuleStats.ruleName rule)
       ++ " may indicate a performance issue or infinite loop")%string 0 context
  else if 20 <? executionCount then
    push st warning performance title
      (Regression.inQuotes (RuleStats.ruleName rule)
       ++ " executes frequently - consider optimization")%string 0 context
  else if 10 <? executionCount then
    push st info performance title
      (Regression.inQuotes (RuleStats.ruleName rule)
       ++ " - consider if this frequency is expected")%string 0 context
  else st.

Definition rollbackCheck (rollbackPoints : nat) (st : Detector) : Detector :=
  if 15 <? rollbackPoints then
    push st warning performance (ofNat rollbackPoints ++ " rollback points")%string
      "High rollback count may indicate complex conflict resolution" 0
      {| ruleName := None; ruleset := None; variableName := None; expression := None;
         count := Some rollbackPoints |}
  else st.

(** An entry of [conditionsByRule]. *)
Record ConditionCounts := {
  condition : ConditionEvaluation.t;
  trueCount : nat;
  falseCount : nat
}.

Definition countCondition (conditionsByRule : JsMap.t ConditionCounts)
  (c : ConditionEvaluation.t) : JsMap.t ConditionCounts :=
  let key := Regression.conditionKey c in
  let conditionsByRule :=
    if JsMap.has conditionsByRule key then conditionsByRule
    else JsMap.set conditionsByRule key
           {| condition := c; trueCount := 0; falseCount := 0 |} in
  match JsMap.get conditionsByRule key with
  | Some entry =>
      JsMap.set conditionsByRule key
        (if ConditionEvaluation.result c
         then {| condition := condition entry; trueCount := trueCount entry + 1;
                 falseCount := falseCount entry |}
         else {| condition := condition entry; trueCount := trueCount entry;
                 falseCount := falseCount entry + 1 |})
  | None => conditionsByRule
  end.

Definition alwaysFalseStep (st : Detector) (entry : ConditionCounts) : Detector :=
  let totalEvals := trueCount entry + falseCount entry in
  if (3 <=? totalEvals) && (trueCount entry =? 0) then
    push st warning logic
      ("Condition always False (" ++ ofNat totalEvals ++ " evaluations)")%string
      (Regression.inQuotes (ConditionEvaluation.ruleName (condition entry))
       ++ " - rule never fires")%string
      (ConditionEvaluation.lineNumber (condition entry))
      {| ruleName := Some (ConditionEvaluation.ruleName (condition entry));
         ruleset := Some (ConditionEvaluation.ruleset (condition entry));
         variableName := None;
         expression := Some (ConditionEvaluation.expression (condition entry));
         count := Some totalEvals |}
  else st.

(** [c.trace && c.trace.includes('null')] *)
Definition hasNullTrace (c : ConditionEvaluation.t) : bool :=
  negb (String.eqb (ConditionEvaluation.trace c) EmptyString)
  && includesText (ConditionEvaluation.trace c) "null".

Definition firstByExpression (uniqueNullExpressions : JsMap.t ConditionEvaluation.t)
  (c : ConditionEvaluation.t) : JsMap.t ConditionEvaluation.t :=
  let key := ConditionEvaluation.expression c in
  if JsMap.has uniqueNullExpressions key then uniqueNullExpressions
  else JsMap.set uniqueNullExpressions key c.

Definition nullValueStep (st : Detector) (condition : ConditionEvaluation.t) : Detector :=
  push st info data "Null value in expression"
    ("Expression evaluates with null: "
     ++ String.substring 0 60 (ConditionEvaluation.expression condition))%string
    (ConditionEvaluation.lineNumber condition)
    {| ruleName := Some (ConditionEvaluation.ruleName condition);
       ruleset := None;
       variableName := None;
       expression := Some (ConditionEvaluation.expression condition);
       count := None |}.

(** The test for a variable that is read when unassigned. *)
Definition readUnassigned (assignment : VariableAssignment.t) : bool :=
  Regression.nullableEqb (VariableAssignment.previousValue assignment) (Some "(unassigned)")
  && startsWith (VariableAssignment.assignmentExpression assignment) "=".

Definition unassignedStep (st : Detector) (variable : VariableSummary.t) : Detector :=
  match find readUnassigned (VariableSummary.assignments variable) with
  | Some assignment =>
      push st warning data "Variable read when unassigned"
        (Regression.inQuotes (VariableSummary.name variable)
         ++ " was unassigned when used in expression")%string
        (VariableAssignment.lineNumber assignment)
        {| ruleName := None;
           ruleset := None;
           variableName := Some (VariableSummary.name variable);
           expression := Some (VariableAssignment.assignmentExpression assignment);
           count := None |}
  | None => st
  end.

(* /Rollback point (\d+)/ *)
Definition rollbackPattern : regex :=
  seq [lit "Rollback point "; Group 1 (plus digit)].

(** An entry of [rollbackCounts]. *)
Record RollbackInfo := {
  pointCount : nat;
  firstLine : nat
}.

Definition countRollback (rollbackCounts : JsMap.t RollbackInfo) (i : nat) (line : string)
  : JsMap.t RollbackInfo :=
  match exec rollbackPattern line with
  | Some match_ =>
      let pointNum := group 1 match_ in
      let rollbackCounts :=
        if JsMap.has rollbackCounts pointNum then rollbackCounts
        else JsMap.set rollbackCounts pointNum {| pointCount := 0; firstLine := i + 1 |} in
      match JsMap.get rollbackCounts pointNum with
      | Some pointInfo =>
          JsMap.set rollbackCounts pointNum
            {| pointCount := pointCount pointInfo + 1; firstLine := firstLine pointInfo |}
      | None => rollbackCounts
      end
  | None => rollbackCounts
  end.

Fixpoint rollbackLoop (lines : list string) (i : nat) (rollbackCounts : JsMap.t RollbackInfo)
  : JsMap.t RollbackInfo :=
  match lines with
  | [] => rollbackCounts
  | line :: rest => rollbackLoop rest (S i) (countRollback rollbackCounts i line)
  end.

Definition duplicateStep (st : Detector) (entry : string * RollbackInfo) : Detector :=
  let '(pointNum, pointInfo) := entry in
  if 1 <? pointCount pointInfo then
    push st info configuration ("Duplicate rollback point " ++ pointNum)%string
      ("Rollback point " ++ pointNum ++ " appears " ++ ofNat (pointCount pointInfo)
       ++ " times")%string
      (firstLine pointInfo)
      {| ruleName := None; ruleset := None; variableName := None; expression := None;
         count := Some (pointCount pointInfo) |}
  else st.

Definition severityOrder (s : IssueSeverity) : nat :=
  match s with error => 0 | warning => 1 | info => 2 end.

Definition IssueSeverity_eqb (a b : IssueSeverity) : bool :=
  severityOrder a =? severityOrder b.

Definition countSeverity (s : IssueSeverity) (issues : list DetectedIssue.t) : nat :=
  List.length (filter (fun i => IssueSeverity_eqb (severity i) s) issues).

(** The issues in the order in which [detectIssues] finds them. *)
Definition findIssues (data : Data) : Detector :=
  let st := {| issues := []; issueId := 0 |} in
  let st := fold_left hotRuleStep (RuleExecutionSummary.topRules (rulesSummary data)) st in
  let st := rollbackCheck (rollbackPoints data) st in
  let conditions := ConditionSummary.conditions (conditionTracking data) in
  let conditionsByRule := fold_left countCondition conditions JsMap.empty in
  let st := fold_left alwaysFalseStep (JsMap.values conditionsByRule) st in
  let nullTraceConditions := filter hasNullTrace conditions in
  let uniqueNullExpressions := fold_left firstByExpression nullTraceConditions JsMap.empty in
  let st := fold_left nullValueStep (JsMap.values uniqueNullExpressions) st in
  let st :=
    fold_left unassignedStep
      (JsMap.values (VariableTrackingSummary.variables (variableTracking data))) st in
  let rollbackCounts := rollbackLoop (lines data) 0 JsMap.empty in
  fold_left duplicateStep (JsMap.entries rollbackCounts) st.

Definition detectIssues (data : Data) : IssuesSummary.t :=
  let issues := issues (findIssues data) in
  let errorCount := countSeverity error issues in
  let warningCount := countSeverity warning issues in
  let infoCount := countSeverity info issues in
  {| IssuesSummary.issues :=
       stableSort (fun a b => severityOrder (severity a) <=? severityOrder (severity b))
         issues;
     IssuesSummary.errorCount := errorCount;
     IssuesSummary.warningCount := warningCount;
     IssuesSummary.infoCount := infoCount |}.

End IssueDetector.

Module IssueSpec.
Import JsString DetectedIssue IssueDetector.

(** The id that [createId] gives at its [k]-th call. *)
Definition idOf (k : nat) : string := ("issue-" ++ ofNat k)%string.

Definition isError (issue : DetectedIssue.t) : bool :=
  IssueSeverity_eqb (severity issue) error.

(** Errors first, then warnings, then infos. *)
Definition bySeverity (issues : list DetectedIssue.t) : Prop :=
  StronglySorted
    (fun a b => severityOrder (severity a) <= severityOrder (severity b)) issues.

(** The rule ran more than 50 times. *)
Definition isHot (rule : RuleStats.t) : bool := 50 <? RuleStats.executionCount rule.

(** What the error for a hot rule shows. *)
Definition hotRuleIssue (rule : RuleStats.t) (id : string) : DetectedIssue.t :=
  {| id := id;
     severity := error;
     category := performance;
     title := ("Rule executes " ++ ofNat (RuleStats.executionCount rule) ++ " times")%string;
     description :=
       (Regression.inQuotes (RuleStats.ruleName rule)
        ++ " may indicate a performance issue or infinite loop")%string;
     lineNumber := 0;
     context :=
       {| ruleName := Some (RuleStats.ruleName rule);
          ruleset := Some (RuleStats.ruleset rule);
          variableName := None;
          expression := None;
          count := Some (RuleStats.executionCount rule) |} |}.

(** The issues are those of the rules, one for one and in their order, with
    ids of their own. *)
Definition issuesOfRules (issues : list DetectedIssue.t) (rules : list RuleStats.t) : Prop :=
  Forall2 (fun issue rule => issue = hotRuleIssue rule (id issue)) issues rules.

(** The ids are those of the first calls of [createId], in order. *)
Definition wellNumbered (st : Detector) : Prop :=
  issueId st = List.length (issues st)
  /\ map id (issues st) = map idOf (seq 1 (List.length (issues st))).

(** The evaluations of the condition with the key [key]: the first of
    them, their number, and the number of those that held. *)
Definition withKey (key : string) (c : ConditionEvaluation.t) : bool :=
  String.eqb (Regression.conditionKey c) key.
Definition firstWith (key : string) (conditions : list ConditionEvaluation.t)
  : option ConditionEvaluation.t :=
  find (withKey key) conditions.
Definition evaluations (key : string) (conditions : list ConditionEvaluation.t) : nat :=
  List.length (filter (withKey key) conditions).
Definition held (key : string) (conditions : list ConditionEvaluation.t) : nat :=
  List.length (filter (fun c => withKey key c && ConditionEvaluation.result c) conditions).

(** What the warning for a condition that never held shows: its first
    evaluation and the number of its evaluations. *)
Definition alwaysFalseIssue (first : ConditionEvaluation.t) (n : nat) (id : string)
  : DetectedIssue.t :=
  {| id := id;
     severity := warning;
     category := logic;
     title := ("Condition always False (" ++ ofNat n ++ " evaluations)")%string;
     description :=
       (Regression.inQuotes (ConditionEvaluation.ruleName first)
        ++ " - rule never fires")%string;
     lineNumber := ConditionEvaluation.lineNumber first;
     context :=
       {| ruleName := Some (ConditionEvaluation.ruleName first);
          ruleset := Some (ConditionEvaluation.ruleset first);
          variableName := None;
          expression := Some (ConditionEvaluation.expression first);
          count := Some n |} |}.

(** What the loop that fills [conditionsByRule] keeps true, [done] being
    the conditions it has read. *)
Definition countsOk (done : list ConditionEvaluation.t) (m : JsMap.t ConditionCounts)
  : Prop :=
  JsMap.wf m
  /\ forall key,
       match JsMap.get m key with
       | None => firstWith key done = None
       | Some entry =>
           firstWith key done = Some (condition entry)
           /\ trueCount entry = held key done
           /\ trueCount entry + falseCount entry = evaluations key done
       end.

(** The issue is the warning for a condition of [conditions] that was
    evaluated three times or more and never held. *)
Definition neverHeld (conditions : list ConditionEvaluation.t) (issue : DetectedIssue.t)
  : Prop :=
  exists key first,
    firstWith key conditions = Some first
    /\ 3 <= evaluations key conditions
    /\ held key conditions = 0
    /\ issue = alwaysFalseIssue first (evaluations key conditions) (id issue).

(** Rule statistics for the example: a rule that ran [n] times. *)
Definition ranTimes (name : string) (n : nat) : RuleStats.t :=
  {| RuleStats.ruleId := "1"; RuleStats.ruleName := name; RuleStats.ruleType := "VariableRule";
     RuleStats.ruleset := "Pricing"; RuleStats.executionCount := n |}.

End IssueSpec.

(** * Properties *)

(** ** The expression parser *)

Module ExpressionFacts.
Import JsString Expression ExpressionSpec.

Lemma good_bind {A B} (c : completion (A * Parser))
  (k : A * Parser -> completion (B * Parser)) n m :
  good n c ->
  (forall a p', List.length p' <= n -> good m (k (a, p'))) ->
  good m (bind c k).
Proof.
  destruct c as [[a p']| |]; cbn; intros Hc Hk; auto; try contradiction.
Qed.

Lemma good_mono {A} (c : completion (A * Parser)) n m :
  good n c -> n <= m -> good m c.
Proof.
  destruct c as [[a p']| |]; cbn; intros; auto. lia.
Qed.

Lemma bind_assoc {A B C} (c : completion A) (k1 : A -> completion B)
  (k2 : B -> completion C) :
  bind (bind c k1) k2 = bind c (fun x => bind (k1 x) k2).
Proof. destruct c; reflexivity. Qed.

Lemma length_tl_le {A} (l : list A) : List.length (tl l) <= List.length l.
Proof. destruct l; cbn; lia. Qed.

(** [expect] reads a token when it succeeds: no token has the type of the
    end marker that stands for a missing one. *)
Lemma good_bind_expect {B} ty v p (k : Token * Parser -> completion (B * Parser)) m :
  ty <> EOF ->
  (forall a p', S (List.length p') <= List.length p -> good m (k (a, p'))) ->
  good m (bind (expect ty v p) k).
Proof.
  intros Hty Hk. unfold expect. destruct (match_ ty v p) eqn:E; cbn; auto.
  apply Hk. destruct p as [|t p1]; cbn; [ | lia ].
  destruct ty; cbn in E; congruence.
Qed.

Ltac tl_le :=
  repeat match goal with
  | |- context [List.length (tl ?p)] =>
      lazymatch goal with
      | H : List.length (tl p) <= List.length p |- _ => fail
      | _ => pose proof (length_tl_le p)
      end
  | H : context [List.length (tl ?p)] |- _ =>
      lazymatch goal with
      | H : List.length (tl p) <= List.length p |- _ => fail
      | _ => pose proof (length_tl_le p)
      end
  end.

Ltac arith := cbn [List.length tl] in *; tl_le; lia.

Ltac use_IH :=
  match goal with
  | IH : total_at _ |- _ =>
      let H := fresh in
      pose proof IH as H; unfold total_at in H;
      repeat match type of H with
             | _ /\ _ =>
                 let H1 := fresh in
                 destruct H as [H1 H]; try (apply H1; arith)
             end;
      apply H; arith
  end.

Ltac good_step :=
  first
    [ progress cbn [bind advance current hd tl fst snd List.length good] in *
    | rewrite bind_assoc
    | match goal with
      | |- True => exact I
      | |- _ <= _ => arith
      | |- good _ (Throw _) => exact I
      | |- good _ (Normal _) => cbn [good]; arith
      | |- good _ (bind (expect _ _ ?p) _) =>
          apply good_bind_expect; [ discriminate | intros ? ? ? ]
      | |- context [if ?c then _ else _] =>
          let E := fresh "E" in destruct c eqn:E; try (cbn in E; discriminate E)
      | |- context [match type ?t with _ => _ end] =>
          let E := fresh "E" in destruct (type t) eqn:E; try (cbn in E; discriminate E)
      | |- good _ (bind _ _) =>
          eapply good_bind; [ use_IH | intros ? ? ? ]
      | |- good _ _ => eapply good_mono; [ use_IH | arith ]
      end ].

Ltac good_fn :=
  intros;
  match goal with
  | |- good _ (_ _ ?p) => destruct p as [|t p1]
  | |- good _ (_ _ _ ?p) => destruct p as [|t p1]
  | |- good _ (_ _ _ _ ?p) => destruct p as [|t p1]
  end;
  cbn [parseOr parseOr_loop parseAnd parseAnd_loop parseNot parseComparison
       parseComparison_loop parseInNotIn parseInNotIn_loop parseAddSub
       parseAddSub_loop parseMulDiv parseMulDiv_loop parsePrimary
       parseIdentifierOrFunction parseArguments_loop parseAccess_loop
       parseArray parseArray_loop];
  repeat good_step.

(** Every method of the parser returns or throws within its budget. *)
Lemma parser_total : forall fuel, total_at fuel.
Proof.
  induction fuel as [|f IH].
  - unfold total_at; repeat split; intros; lia.
  - unfold total_at; repeat split; good_fn.
Qed.

Lemma parse_within_budget (tokens : list Token) :
  parse (budget tokens) tokens <> OutOfFuel.
Proof.
  unfold parse. destruct (TokenType_eqb (type (current tokens)) EOF); [ discriminate | ].
  pose proof (parser_total (budget tokens)) as [H _].
  specialize (H tokens). unfold budget in *.
  destruct (parseOr (10 * List.length tokens + 10) tokens) as [[node rest]| |];
    cbn; try discriminate.
  intros _. apply H. lia.
Qed.

Ltac split_IH :=
  match goal with
  | IH : stable_at _ _ |- _ =>
      unfold stable_at in IH;
      repeat match type of IH with
             | _ /\ _ => let H1 := fresh "IH" in destruct IH as [H1 IH]
             end
  end.

Ltac stable_step :=
  first
    [ match goal with
      | H : ?x <> ?x |- _ => contradiction H; reflexivity
      | |- ?x = ?x => reflexivity
      | H : ?c <> OutOfFuel, IH : _ |- _ = ?c => apply IH; exact H
      end
    | progress cbn [bind advance current hd tl fst snd] in *
    | progress unfold expect in *
    | rewrite bind_assoc in *
    | match goal with
      | H : context [if ?c then _ else _] |- _ => destruct c eqn:?
      | H : context [match type ?t with _ => _ end] |- _ => destruct (type t) eqn:?
      | H : context [bind ?c _] |- _ =>
          let E := fresh "E" in
          destruct c as [[? ?]| |] eqn:E;
          first
            [ exfalso; apply H; reflexivity
            | match goal with
              | IH : _ |- _ => rewrite IH by (rewrite E; discriminate); rewrite E
              end ]
      end ].

Ltac stable_fn :=
  intros;
  match goal with
  | H : _ <> OutOfFuel |- ?l = ?r =>
      cbn [parseOr parseOr_loop parseAnd parseAnd_loop parseNot parseComparison
           parseComparison_loop parseInNotIn parseInNotIn_loop parseAddSub
           parseAddSub_loop parseMulDiv parseMulDiv_loop parsePrimary
           parseIdentifierOrFunction parseArguments_loop parseAccess_loop
           parseArray parseArray_loop] in H |- *
  end;
  repeat stable_step.

(** A larger budget changes no result. *)
Lemma parser_stable : forall fuel fuel', fuel <= fuel' -> stable_at fuel fuel'.
Proof.
  induction fuel as [|f IH]; intros f' Hle.
  - unfold stable_at; repeat split; intros; cbn in *; congruence.
  - destruct f' as [|f']; [ lia | ].
    specialize (IH f' ltac:(lia)). split_IH.
    unfold stable_at; repeat split; stable_fn.
Qed.

(** The budget that [parseExpression] gives is as good as any larger one. *)
Lemma parse_budget (tokens : list Token) (fuel : nat) :
  budget tokens <= fuel -> parse fuel tokens = parse (budget tokens) tokens.
Proof.
  intros Hle. pose proof (parse_within_budget tokens) as Hb.
  unfold parse in *.
  destruct (TokenType_eqb (type (current tokens)) EOF); [ reflexivity | ].
  destruct (parser_stable _ _ Hle) as [H _]. rewrite H; [ reflexivity | ].
  intros E. rewrite E in Hb. apply Hb. reflexivity.
Qed.

Lemma takeWhile_head {A} (p : A -> bool) (c : A) (rest : list A) :
  p c = true -> 1 <= List.length (takeWhile p (c :: rest)).
Proof. intros H. cbn [takeWhile]. rewrite H. cbn. lia. Qed.

Lemma skipn_shorter {A} (n : nat) (c : A) (rest : list A) :
  1 <= n -> List.length (skipn n (c :: rest)) <= List.length rest.
Proof. intros H. rewrite length_skipn. cbn [List.length]. lia. Qed.

Lemma tl_skipn_shorter {A} (n : nat) (l : list A) :
  List.length (tl (skipn n l)) <= List.length l.
Proof.
  pose proof (length_skipn n l). destruct (skipn n l); cbn [tl List.length] in *; lia.
Qed.

Lemma isIdentStart_isWord c : isIdentStart c = true -> isWord c = true.
Proof. unfold isWord. intros ->. reflexivity. Qed.

(** The tokenizer never exhausts a budget of the length of its input, so
    that a larger one changes nothing. *)
Lemma tokenize_loop_budget : forall fuel fuel' cs pos,
  List.length cs <= fuel -> List.length cs <= fuel' ->
  tokenize_loop fuel cs pos = tokenize_loop fuel' cs pos.
Proof.
  induction fuel as [|f IH]; intros f' cs pos H H'.
  - destruct cs; [ destruct f'; reflexivity | cbn in H; lia ].
  - destruct cs as [|c rest]; [ destruct f'; reflexivity | ].
    destruct f' as [|f']; [ cbn in H'; lia | ].
    cbn [List.length] in H, H'.
    assert (Hrest : forall pos', tokenize_loop f rest pos' = tokenize_loop f' rest pos')
      by (intros; apply IH; lia).
    assert (Htl : forall pos', tokenize_loop f (tl rest) pos' = tokenize_loop f' (tl rest) pos').
    { intros. apply IH; destruct rest; cbn [tl List.length] in *; lia. }
    assert (Hskip : forall n pos', 1 <= n ->
               tokenize_loop f (skipn n (c :: rest)) pos'
               = tokenize_loop f' (skipn n (c :: rest)) pos').
    { intros n pos' Hn. pose proof (skipn_shorter n c rest Hn). apply IH; lia. }
    assert (Hstr : forall n pos',
               tokenize_loop f (tl (skipn n rest)) pos'
               = tokenize_loop f' (tl (skipn n rest)) pos').
    { intros n pos'. pose proof (tl_skipn_shorter n rest). apply IH; lia. }
    cbn [tokenize_loop].
    destruct (isSpace c); [ apply Hrest | ].
    destruct (Ascii.eqb c dquote || Ascii.eqb c squote); [ rewrite Hstr; reflexivity | ].
    destruct (isDigit c || _) eqn:Enum.
    { rewrite Hskip; [ reflexivity | ].
      destruct (Ascii.eqb c "-"); [ cbn [List.length]; lia | ].
      cbn [andb] in Enum. rewrite orb_false_r in Enum.
      apply takeWhile_head. rewrite Enum. reflexivity. }
    destruct (includes _ _); [ rewrite Htl; reflexivity | ].
    repeat match goal with
           | |- (if ?b then _ :: tokenize_loop _ rest _ else _) = _ =>
               destruct b; [ rewrite Hrest; reflexivity | ]
           end.
    destruct (isIdentStart c) eqn:Eid; [ | apply Hrest ].
    rewrite Hskip by (apply takeWhile_head, isIdentStart_isWord, Eid).
    reflexivity.
Qed.

Lemma dropWhile_all {A} (p : A -> bool) (l : list A) :
  forallb p l = true -> dropWhile p l = [].
Proof.
  induction l as [|x l IH]; cbn; auto.
  destruct (p x); cbn; auto. discriminate.
Qed.

Lemma emptyInput_guard (expression : string) :
  emptyInput expression -> isEmptyExpression expression = true.
Proof.
  unfold emptyInput, isEmptyExpression. intros [H | [H | H]].
  - subst. reflexivity.
  - unfold trim, trimChars. rewrite (dropWhile_all _ _ H). cbn.
    destruct (String.eqb expression EmptyString); reflexivity.
  - rewrite H. destruct (String.eqb expression EmptyString); reflexivity.
Qed.

(** C5: [parseExpression] never throws to its caller. For every input text it
    returns a result; for an empty text, a text of white space only and a
    bare equals sign the result has no root, is not valid and carries the
    error "Empty expression"; and whenever the parser raises an error inside
    the [try] block, the result has no root, is not valid and carries the
    message of that error. *)
Theorem parseExpression_never_throws : forall expression : string,
  exists r : ParsedExpression,
    parseExpression expression = Normal r
    /\ (emptyInput expression -> r = emptyResult expression)
    /\ (forall message,
          isEmptyExpression expression = false ->
          tryParse expression = Throw message ->
          r = failure expression message).
Proof.
  intros expression. unfold parseExpression.
  destruct (isEmptyExpression expression) eqn:E.
  - eexists; split; [ reflexivity | split ].
    + reflexivity.
    + intros message H; discriminate H.
  - pose proof (parse_within_budget (tokenize expression)) as Hb.
    unfold tryParse in *.
    destruct (parse (budget (tokenize expression)) (tokenize expression))
      as [root_|message|]; [ | | contradiction ].
    + eexists; split; [ reflexivity | split ].
      * intros H. apply emptyInput_guard in H. congruence.
      * intros message _ H; discriminate H.
    + eexists; split; [ reflexivity | split ].
      * intros H. apply emptyInput_guard in H. congruence.
      * intros message' _ H. injection H as <-. reflexivity.
Qed.

Lemma parseExpression_never_throws_witness :
  parseExpression "=" = Normal (emptyResult "=")
  /\ parseExpression "(1" = Normal (failure "(1" "Expected RPAREN but got EOF ''").
Proof.
  split.
  - destruct (parseExpression_never_throws "=") as [r [Hr [He _]]].
    rewrite Hr. f_equal. apply He. right; right. reflexivity.
  - destruct (parseExpression_never_throws "(1") as [r [Hr [_ Ht]]].
    rewrite Hr. f_equal. apply Ht; reflexivity.
Defined.

(** C10: [parseExpression] does not require the token stream to be fully
    consumed. On the inputs "1 2" and "X )" the parser stops after the first
    expression, leaving the tokens NUMBER, EOF and RPAREN, EOF unread, and
    the result is valid with a root that covers the leading expression
    only. *)
Theorem parseExpression_ignores_trailing_tokens :
  parseExpression "1 2"
  = Normal {| root := Some (Node literal "1" None "1"); original := "1 2";
              isValid := true; error := None |}
  /\ parseExpression "X )"
     = Normal {| root := Some (Node variable "X" None "X"); original := "X )";
                 isValid := true; error := None |}
  /\ (exists node rest,
        parseOr (budget (tokenize "1 2")) (tokenize "1 2") = Normal (node, rest)
        /\ map type rest = [NUMBER; EOF])
  /\ (exists node rest,
        parseOr (budget (tokenize "X )")) (tokenize "X )") = Normal (node, rest)
        /\ map type rest = [RPAREN; EOF]).
Proof.
  split; [ reflexivity | split; [ reflexivity | split ] ].
  - eexists; eexists; split; reflexivity.
  - eexists; eexists; split; reflexivity.
Qed.

End ExpressionFacts.

(** ** Maps *)

Module JsMapFacts.
Import JsMap.

Lemma get_set {V} (m : t V) (k k' : string) (v : V) :
  get (set m k v) k' = if String.eqb k k' then Some v else get m k'.
Proof.
  induction m as [|[k0 v0] m IH]; cbn.
  - destruct (String.eqb_spec k k'); reflexivity.
  - destruct (String.eqb_spec k0 k) as [->|Hk0]; cbn.
    + destruct (String.eqb_spec k k'); reflexivity.
    + rewrite IH. destruct (String.eqb_spec k0 k') as [->|]; [ | reflexivity ].
      destruct (String.eqb_spec k k'); congruence.
Qed.

Lemma get_set_same {V} (m : t V) (k : string) (v : V) : get (set m k v) k = Some v.
Proof. rewrite get_set, String.eqb_refl. reflexivity. Qed.

Lemma has_get {V} (m : t V) (k : string) : has m k = false <-> get m k = None.
Proof. unfold has. destruct (get m k); split; congruence. Qed.

Lemma get_None_keys {V} (m : t V) (k : string) : get m k = None <-> ~ In k (keys m).
Proof.
  induction m as [|[k0 v0] m IH]; cbn; [ tauto | ].
  destruct (String.eqb_spec k0 k) as [->|Hk].
  - split; [ discriminate | intros H; exfalso; apply H; auto ].
  - rewrite IH. tauto.
Qed.

Lemma get_In {V} (m : t V) (k : string) (v : V) : get m k = Some v -> In (k, v) m.
Proof.
  induction m as [|[k0 v0] m IH]; cbn; [ discriminate | ].
  destruct (String.eqb_spec k0 k) as [->|Hk]; intros H.
  - injection H as ->. auto.
  - auto.
Qed.

(** In a map every entry is what [get] finds at its key. *)
Lemma In_get {V} (m : t V) (k : string) (v : V) :
  wf m -> In (k, v) m -> get m k = Some v.
Proof.
  unfold wf. induction m as [|[k0 v0] m IH]; cbn; [ tauto | ].
  intros Hwf [H | H].
  - injection H as -> ->. rewrite String.eqb_refl. reflexivity.
  - inversion Hwf as [|? ? Hnot Hwf']; subst.
    destruct (String.eqb_spec k0 k) as [->|Hk]; [ | auto ].
    exfalso. apply Hnot. change k with (fst (k, v)). apply in_map. exact H.
Qed.

Lemma keys_set {V} (m : t V) (k : string) (v : V) :
  keys (set m k v) = if has m k then keys m else keys m ++ [k].
Proof.
  unfold has. induction m as [|[k0 v0] m IH]; cbn; [ reflexivity | ].
  destruct (String.eqb_spec k0 k) as [->|Hk]; cbn; [ reflexivity | ].
  fold (keys (set m k v)). rewrite IH. fold (keys m).
  destruct (get m k); reflexivity.
Qed.

Lemma wf_set {V} (m : t V) (k : string) (v : V) : wf m -> wf (set m k v).
Proof.
  unfold wf. rewrite keys_set. intros Hwf.
  destruct (has m k) eqn:E; [ exact Hwf | ].
  apply has_get, get_None_keys in E.
  apply NoDup_app; [ exact Hwf | constructor; [ cbn; tauto | constructor ] | ].
  intros x Hx [<- | []]. contradiction.
Qed.

Lemma wf_fold_set {A V} (key : A -> string) (val : A -> V) (l : list A) (m : t V) :
  wf m -> wf (fold_left (fun m a => set m (key a) (val a)) l m).
Proof.
  revert m. induction l as [|a l IH]; cbn; intros m Hm; [ exact Hm | ].
  apply IH, wf_set, Hm.
Qed.

Lemma wf_ofEntries {V} (l : list (string * V)) : wf (ofEntries l).
Proof. unfold ofEntries. apply wf_fold_set. constructor. Qed.

(** Setting a key that is absent appends the entry. *)
Lemma set_fresh {V} (m : t V) (k : string) (v : V) :
  get m k = None -> set m k v = m ++ [(k, v)].
Proof.
  induction m as [|[k0 v0] m IH]; cbn; [ reflexivity | ].
  destruct (String.eqb_spec k0 k); [ discriminate | ].
  intros H. rewrite IH by exact H. reflexivity.
Qed.

(** A list of entries with distinct keys is the map built from it. *)
Lemma ofEntries_wf {V} (l : list (string * V)) : NoDup (map fst l) -> ofEntries l = l.
Proof.
  unfold ofEntries.
  assert (G : forall (m : t V),
             NoDup (map fst (m ++ l)) ->
             fold_left (fun m kv => set m (fst kv) (snd kv)) l m = m ++ l).
  { induction l as [|[k v] l IH]; cbn; intros m Hm.
    - rewrite app_nil_r. reflexivity.
    - rewrite set_fresh.
      + rewrite IH; rewrite <- app_assoc; [ reflexivity | exact Hm ].
      + apply get_None_keys. unfold keys. intros Hin.
        rewrite map_app in Hm. cbn in Hm.
        apply NoDup_remove_2 in Hm. apply Hm. apply in_or_app. left. exact Hin. }
  intros H. apply (G []). exact H.
Qed.

(** Two maps with the same entries, in any order, answer [get] alike. *)
Lemma get_Permutation {V} (m m' : t V) (k : string) :
  wf m -> Permutation m m' -> get m k = get m' k.
Proof.
  intros Hwf Hp.
  assert (Hwf' : wf m').
  { unfold wf, keys in *. eapply Permutation_NoDup; [ | exact Hwf ].
    apply Permutation_map. exact Hp. }
  destruct (get m k) as [v|] eqn:E.
  - symmetry. apply In_get; [ exact Hwf' | ].
    eapply Permutation_in; [ exact Hp | ]. apply get_In. exact E.
  - symmetry. apply get_None_keys. rewrite get_None_keys in E.
    intros Hin. apply E. unfold keys in *.
    eapply Permutation_in; [ | exact Hin ].
    apply Permutation_map. apply Permutation_sym. exact Hp.
Qed.

End JsMapFacts.

(** ** The trace parser *)

Module TraceParserFacts.
Import JsString RegExp TraceParser TraceParserSpec JsMapFacts.

(** *** Header fields *)

Lemma update_configurationId metadata
  (instanceMatch configIdMatch partNumMatch partNsMatch configModeMatch headerIdMatch
     : option MatchResult) :
  ConfigurationMetadata.configurationId
    (metadataUpdate metadata instanceMatch configIdMatch partNumMatch
       partNsMatch configModeMatch headerIdMatch)
  = match option_map (group 1) configIdMatch with
    | Some s => s
    | None => ConfigurationMetadata.configurationId metadata
    end.
Proof.
  destruct instanceMatch, configIdMatch, partNumMatch, partNsMatch,
    configModeMatch, headerIdMatch;
    cbn; repeat destruct (String.eqb _ _); reflexivity.
Qed.

Lemma update_partNamespace metadata
  (instanceMatch configIdMatch partNumMatch partNsMatch configModeMatch headerIdMatch
     : option MatchResult) :
  ConfigurationMetadata.partNamespace
    (metadataUpdate metadata instanceMatch configIdMatch partNumMatch
       partNsMatch configModeMatch headerIdMatch)
  = match option_map (group 1) partNsMatch with
    | Some s => s
    | None => ConfigurationMetadata.partNamespace metadata
    end.
Proof.
  destruct instanceMatch, configIdMatch, partNumMatch, partNsMatch,
    configModeMatch, headerIdMatch;
    cbn; repeat destruct (String.eqb _ _); reflexivity.
Qed.

Lemma update_headerID metadata
  (instanceMatch configIdMatch partNumMatch partNsMatch configModeMatch headerIdMatch
     : option MatchResult) :
  ConfigurationMetadata.headerID
    (metadataUpdate metadata instanceMatch configIdMatch partNumMatch
       partNsMatch configModeMatch headerIdMatch)
  = match option_map (group 1) headerIdMatch with
    | Some s => s
    | None => ConfigurationMetadata.headerID metadata
    end.
Proof.
  destruct instanceMatch, configIdMatch, partNumMatch, partNsMatch,
    configModeMatch, headerIdMatch;
    cbn; repeat destruct (String.eqb _ _); reflexivity.
Qed.

Lemma update_configurationMode metadata
  (instanceMatch configIdMatch partNumMatch partNsMatch configModeMatch headerIdMatch
     : option MatchResult) :
  ConfigurationMetadata.configurationMode
    (metadataUpdate metadata instanceMatch configIdMatch partNumMatch
       partNsMatch configModeMatch headerIdMatch)
  = match option_map (group 1) configModeMatch with
    | Some s => s
    | None => ConfigurationMetadata.configurationMode metadata
    end.
Proof.
  destruct instanceMatch, configIdMatch, partNumMatch, partNsMatch,
    configModeMatch, headerIdMatch;
    cbn; repeat destruct (String.eqb _ _); reflexivity.
Qed.

Lemma update_instance metadata
  (instanceMatch configIdMatch partNumMatch partNsMatch configModeMatch headerIdMatch
     : option MatchResult) :
  ConfigurationMetadata.instance
    (metadataUpdate metadata instanceMatch configIdMatch partNumMatch
       partNsMatch configModeMatch headerIdMatch)
  = match option_map (group 1) instanceMatch with
    | Some s => s
    | None => ConfigurationMetadata.instance metadata
    end.
Proof.
  destruct instanceMatch, configIdMatch, partNumMatch, partNsMatch,
    configModeMatch, headerIdMatch;
    cbn; repeat destruct (String.eqb _ _); reflexivity.
Qed.

Lemma update_application metadata
  (instanceMatch configIdMatch partNumMatch partNsMatch configModeMatch headerIdMatch
     : option MatchResult) :
  ConfigurationMetadata.application
    (metadataUpdate metadata instanceMatch configIdMatch partNumMatch
       partNsMatch configModeMatch headerIdMatch)
  = match option_map (group 2) instanceMatch with
    | Some s => s
    | None => ConfigurationMetadata.application metadata
    end.
Proof.
  destruct instanceMatch, configIdMatch, partNumMatch, partNsMatch,
    configModeMatch, headerIdMatch;
    cbn; repeat destruct (String.eqb _ _); reflexivity.
Qed.

Lemma update_partNumber metadata
  (instanceMatch configIdMatch partNumMatch partNsMatch configModeMatch headerIdMatch
     : option MatchResult) :
  ConfigurationMetadata.partNumber
    (metadataUpdate metadata instanceMatch configIdMatch partNumMatch
       partNsMatch configModeMatch headerIdMatch)
  = if String.eqb (ConfigurationMetadata.partNumber metadata) EmptyString
    then orEmpty (option_map (group 1) partNumMatch)
    else ConfigurationMetadata.partNumber metadata.
Proof.
  destruct instanceMatch, configIdMatch, partNumMatch, partNsMatch,
    configModeMatch, headerIdMatch; cbn;
    destruct (String.eqb (ConfigurationMetadata.partNumber metadata) EmptyString) eqn:E;
    cbn; try reflexivity; apply String.eqb_eq in E; congruence.
Qed.

Lemma step_configurationId metadata line :
  ConfigurationMetadata.configurationId (metadataStep metadata line)
  = match captured configIdPattern 1 line with
    | Some s => s
    | None => ConfigurationMetadata.configurationId metadata
    end.
Proof. apply update_configurationId. Qed.

Lemma step_partNamespace metadata line :
  ConfigurationMetadata.partNamespace (metadataStep metadata line)
  = match captured partNamespacePattern 1 line with
    | Some s => s
    | None => ConfigurationMetadata.partNamespace metadata
    end.
Proof. apply update_partNamespace. Qed.

Lemma step_headerID metadata line :
  ConfigurationMetadata.headerID (metadataStep metadata line)
  = match captured headerIdPattern 1 line with
    | Some s => s
    | None => ConfigurationMetadata.headerID metadata
    end.
Proof. apply update_headerID. Qed.

Lemma step_configurationMode metadata line :
  ConfigurationMetadata.configurationMode (metadataStep metadata line)
  = match captured configModePattern 1 line with
    | Some s => s
    | None => ConfigurationMetadata.configurationMode metadata
    end.
Proof. apply update_configurationMode. Qed.

Lemma step_instance metadata line :
  ConfigurationMetadata.instance (metadataStep metadata line)
  = match captured instancePattern 1 line with
    | Some s => s
    | None => ConfigurationMetadata.instance metadata
    end.
Proof. apply update_instance. Qed.

Lemma step_application metadata line :
  ConfigurationMetadata.application (metadataStep metadata line)
  = match captured instancePattern 2 line with
    | Some s => s
    | None => ConfigurationMetadata.application metadata
    end.
Proof. apply update_application. Qed.

Lemma step_partNumber metadata line :
  ConfigurationMetadata.partNumber (metadataStep metadata line)
  = if String.eqb (ConfigurationMetadata.partNumber metadata) EmptyString
    then orEmpty (captured partNumberPattern 1 line)
    else ConfigurationMetadata.partNumber metadata.
Proof. apply update_partNumber. Qed.

(** A field that every matching line overwrites holds the capture of the
    last matching line. *)
Lemma last_match_wins (proj : ConfigurationMetadata.t -> string) (pattern : regex) (i : nat) :
  (forall metadata line,
      proj (metadataStep metadata line)
      = match captured pattern i line with Some s => s | None => proj metadata end) ->
  forall lines metadata,
    proj (fold_left metadataStep lines metadata)
    = match lastCapture pattern i lines with Some s => s | None => proj metadata end.
Proof.
  intros Hstep lines. unfold lastCapture.
  induction lines as [|line lines IH] using rev_ind; intros metadata; [ reflexivity | ].
  rewrite fold_left_app, rev_app_distr.
  cbn [fold_left rev app firstCapture].
  rewrite Hstep, IH.
  destruct (captured pattern i line); reflexivity.
Qed.

Lemma partNumber_kept lines : forall metadata,
  ConfigurationMetadata.partNumber metadata <> EmptyString ->
  ConfigurationMetadata.partNumber (fold_left metadataStep lines metadata)
  = ConfigurationMetadata.partNumber metadata.
Proof.
  induction lines as [|line lines IH]; cbn [fold_left]; intros metadata H; [ reflexivity | ].
  assert (E : ConfigurationMetadata.partNumber (metadataStep metadata line)
              = ConfigurationMetadata.partNumber metadata).
  { rewrite step_partNumber.
    destruct (String.eqb_spec (ConfigurationMetadata.partNumber metadata) EmptyString);
      congruence. }
  rewrite IH; rewrite E; auto.
Qed.

Lemma first_partNumber_wins lines : forall metadata,
  ConfigurationMetadata.partNumber metadata = EmptyString ->
  ConfigurationMetadata.partNumber (fold_left metadataStep lines metadata)
  = orEmpty (firstNonEmptyCapture partNumberPattern 1 lines).
Proof.
  induction lines as [|line lines IH]; cbn [fold_left firstNonEmptyCapture];
    intros metadata H; [ exact H | ].
  pose proof (step_partNumber metadata line) as E.
  rewrite H in E. rewrite String.eqb_refl in E.
  destruct (captured partNumberPattern 1 line) as [[|c r]|]; cbn [orEmpty] in E.
  - apply IH. exact E.
  - rewrite partNumber_kept; rewrite E; [ reflexivity | discriminate ].
  - apply IH. exact E.
Qed.

(** C3, as amended: in the header fields of [parseTrace] the last matching
    line determines the configuration id, the part namespace, the header
    id, the instance, the application and the configuration mode; for the
    part number the first match that is not empty wins. *)
Theorem header_fields_last_match_wins : forall traceContent : string,
  headerFieldsAsParsed traceContent.
Proof.
  intros traceContent.
  unfold headerFieldsAsParsed, parseTrace, parseMetadata.
  cbn [metadata].
  repeat split.
  - apply (last_match_wins ConfigurationMetadata.configurationId _ _ step_configurationId).
  - apply (last_match_wins ConfigurationMetadata.partNamespace _ _ step_partNamespace).
  - apply (last_match_wins ConfigurationMetadata.headerID _ _ step_headerID).
  - apply first_partNumber_wins. reflexivity.
  - apply (last_match_wins ConfigurationMetadata.instance _ _ step_instance).
  - apply (last_match_wins ConfigurationMetadata.application _ _ step_application).
  - apply (last_match_wins ConfigurationMetadata.configurationMode _ _ step_configurationMode).
Qed.

(** C3, as stated, fails on a trace with two configuration ids: the field
    holds the second one, not the first. *)
Lemma header_fields_first_match_counterexample :
  ~ headerFieldsAsStated
      (textOf ["<ConfigurationID>1</ConfigurationID>";
               "<ConfigurationID>2</ConfigurationID>"]).
Proof.
  unfold headerFieldsAsStated. intros [H _].
  vm_compute in H. discriminate H.
Qed.

(** *** Firing counts *)

Lemma test_exec pattern line :
  test pattern line = match exec pattern line with Some _ => true | None => false end.
Proof. reflexivity. Qed.

Lemma firings_cons line lines :
  firings (line :: lines)
  = (if test rulesetPattern line then 1 else 0) + firings lines.
Proof.
  unfold firings. cbn [filter]. destruct (test rulesetPattern line); reflexivity.
Qed.

(** The sum of the counts after one entry is replaced or added. *)
Lemma sum_set_present (m : JsMap.t (RulesetSummary.t JsMap.t)) k old new :
  JsMap.get m k = Some old ->
  sumExecutionCounts (JsMap.set m k new) + RulesetSummary.executionCount old
  = sumExecutionCounts m + RulesetSummary.executionCount new.
Proof.
  unfold sumExecutionCounts, JsMap.values.
  induction m as [|[k0 v0] m IH]; cbn [JsMap.get JsMap.set]; [ discriminate | ].
  destruct (String.eqb k0 k); cbn [map snd].
  - intros H. injection H as ->.
    change (list_sum (?a :: ?l)) with (a + list_sum l). lia.
  - intros H. specialize (IH H).
    change (list_sum (?a :: ?l)) with (a + list_sum l). lia.
Qed.

Lemma sum_set_absent (m : JsMap.t (RulesetSummary.t JsMap.t)) k new :
  JsMap.get m k = None ->
  sumExecutionCounts (JsMap.set m k new)
  = sumExecutionCounts m + RulesetSummary.executionCount new.
Proof.
  intros H. rewrite (set_fresh _ _ _ H).
  unfold sumExecutionCounts, JsMap.values. rewrite !map_app, list_sum_app. cbn. lia.
Qed.

Lemma ruleExecutionsStep_counts st line next :
  totalExecutions (ruleExecutionsStep st line next)
  = totalExecutions st + (if test rulesetPattern line then 1 else 0)
  /\ sumExecutionCounts (rulesets (ruleExecutionsStep st line next))
     = sumExecutionCounts (rulesets st) + (if test rulesetPattern line then 1 else 0).
Proof.
  rewrite test_exec. unfold ruleExecutionsStep.
  destruct (exec rulesetPattern line) as [ruleMatch|].
  2: { split; lia. }
  cbn [totalExecutions rulesets]. split; [ reflexivity | ].
  set (name := group 1 ruleMatch).
  destruct (JsMap.has (rulesets st) name) eqn:Hhas.
  - unfold JsMap.has in Hhas.
    destruct (JsMap.get (rulesets st) name) as [old|] eqn:Hget; [ | discriminate ].
    pose proof (sum_set_present _ _ _
      {| RulesetSummary.name := RulesetSummary.name old;
         RulesetSummary.namespace := RulesetSummary.namespace old;
         RulesetSummary.executionCount := RulesetSummary.executionCount old + 1;
         RulesetSummary.rules :=
           countRule (RulesetSummary.rules old) (name ++ ":" ++ group 2 ruleMatch)
             {| RuleStats.ruleId := group 2 ruleMatch;
                RuleStats.ruleName := trim (group 3 ruleMatch);
                RuleStats.ruleType :=
                  match ruleTypeAfter ruleTypes next with Some t => t | None => "Unknown" end;
                RuleStats.ruleset := name;
                RuleStats.executionCount := 0 |} |} Hget) as Hs.
    cbn [RulesetSummary.executionCount] in Hs. lia.
  - apply has_get in Hhas.
    rewrite get_set_same.
    match goal with
    | |- sumExecutionCounts (JsMap.set (JsMap.set _ _ ?fresh) _ ?new) = _ =>
        pose proof (sum_set_present (JsMap.set (rulesets st) name fresh) name fresh new
                      (get_set_same _ _ _)) as Hs;
        pose proof (sum_set_absent (rulesets st) name fresh Hhas) as Ha
    end.
    cbn [RulesetSummary.executionCount RulesetSummary.name RulesetSummary.namespace
         RulesetSummary.rules] in *.
    lia.
Qed.

Lemma ruleExecutionsLoop_counts lines : forall st,
  totalExecutions (ruleExecutionsLoop lines st) = totalExecutions st + firings lines
  /\ sumExecutionCounts (rulesets (ruleExecutionsLoop lines st))
     = sumExecutionCounts (rulesets st) + firings lines.
Proof.
  induction lines as [|line lines IH]; intros st; cbn [ruleExecutionsLoop].
  - unfold firings. cbn. split; lia.
  - rewrite firings_cons.
    destruct (IH (ruleExecutionsStep st line (hd_error lines))) as [H1 H2].
    destruct (ruleExecutionsStep_counts st line (hd_error lines)) as [H3 H4].
    split; lia.
Qed.

Lemma addChild_length executions parentId child :
  List.length (addChild executions parentId child) = List.length executions.
Proof.
  induction executions as [|e executions IH]; cbn [addChild]; [ reflexivity | ].
  destruct (RuleExecution.executionId e =? parentId); cbn [List.length]; congruence.
Qed.

Lemma setDurations_length executions :
  List.length (setDurations executions) = List.length executions.
Proof.
  induction executions as [|e executions IH]; [ reflexivity | ].
  destruct executions as [|e' rest]; [ reflexivity | ].
  change (S (List.length (setDurations (e' :: rest))) = S (List.length (e' :: rest))).
  rewrite IH. reflexivity.
Qed.

Lemma timelineStep_length st i line next :
  List.length (executions (timelineStep st i line next))
  = List.length (executions st) + (if test rulesetPattern line then 1 else 0).
Proof.
  rewrite test_exec. unfold timelineStep.
  destruct (exec rulesetPattern line) as [ruleMatch|]; [ | lia ].
  repeat match goal with
         | |- context [let '(_, _) := ?x in _] => destruct x
         end.
  cbn [executions].
  match goal with
  | |- context [match ?p with Some _ => _ | None => _ end] => destruct p
  end; rewrite ?addChild_length, length_app; cbn; lia.
Qed.

Lemma timelineLoop_length lines : forall i st,
  List.length (executions (timelineLoop lines i st))
  = List.length (executions st) + firings lines.
Proof.
  induction lines as [|line lines IH]; intros i st; cbn [timelineLoop].
  - unfold firings. cbn. lia.
  - rewrite IH, timelineStep_length, firings_cons. lia.
Qed.

(** C9: for every input text the result of [parseTrace] has
    [rulesSummary.totalExecutions] equal to [timeline.totalExecutions], to
    the length of [timeline.executions] and to the sum of [executionCount]
    over the entries of [rulesSummary.rulesets]: each of them counts the
    lines that match the firing pattern. *)
Theorem firing_totals_agree : forall traceContent : string,
  let r := parseTrace traceContent in
  RuleExecutionSummary.totalExecutions (rulesSummary r)
  = RuleExecutionTimeline.totalExecutions (timeline r)
  /\ RuleExecutionTimeline.totalExecutions (timeline r)
     = List.length (RuleExecutionTimeline.executions (timeline r))
  /\ RuleExecutionSummary.totalExecutions (rulesSummary r)
     = sumExecutionCounts (RuleExecutionSummary.rulesets (rulesSummary r))
  /\ RuleExecutionSummary.totalExecutions (rulesSummary r)
     = firings (splitLines traceContent).
Proof.
  intros traceContent. cbn zeta. unfold parseTrace.
  cbn [rulesSummary timeline].
  set (lines := splitLines traceContent).
  unfold parseRuleExecutions, parseRuleExecutionTimeline.
  match goal with
  | |- context [ruleExecutionsLoop lines ?st0] =>
      destruct (ruleExecutionsLoop_counts lines st0) as [H1 H2]
  end.
  match goal with
  | |- context [timelineLoop lines 0 ?st0] =>
      pose proof (timelineLoop_length lines 0 st0) as H3
  end.
  cbn [totalExecutions rulesets executions List.length] in H1, H2, H3.
  unfold sumExecutionCounts in H2 at 2. cbn in H2.
  destruct (hotspotLoop _ _ _ _) as [currentHotspot hotspots].
  cbn [RuleExecutionSummary.totalExecutions RuleExecutionSummary.rulesets
       RuleExecutionTimeline.totalExecutions RuleExecutionTimeline.executions].
  rewrite setDurations_length.
  repeat split; lia.
Qed.


(** *** Rule types *)

(** Each of the nine types that the pattern of the aggregator lists is read
    from the line after a firing, and so is each of the ten that the pattern
    of the timeline lists; the aggregator reads no type from the line
    ClearUserValueRule. *)
Lemma ruleTypeAfter_listed :
  (forall t, In t ruleTypes -> ruleTypeAfter ruleTypes (Some t) = Some t)
  /\ (forall t, In t ruleTypesWithClear -> ruleTypeAfter ruleTypesWithClear (Some t) = Some t)
  /\ ruleTypeAfter ruleTypes (Some "ClearUserValueRule") = None.
Proof.
  repeat split.
  - intros t H. cbn in H.
    repeat (destruct H as [<- | H]; [ vm_compute; reflexivity | ]). contradiction.
  - intros t H. cbn in H.
    repeat (destruct H as [<- | H]; [ vm_compute; reflexivity | ]). contradiction.
Qed.

(** C8, on a firing followed by the line ClearUserValueRule: the aggregator
    records the type Unknown, in its rule statistics and in its breakdown by
    type, where the timeline built from the same lines records
    ClearUserValueRule. *)
Theorem aggregator_misses_ClearUserValueRule :
  let r := parseTrace clearUserValueTrace in
  RuleExecutionSummary.ruleTypeBreakdown (rulesSummary r) = [("Unknown", 1)]
  /\ map RuleStats.ruleType (RuleExecutionSummary.topRules (rulesSummary r)) = ["Unknown"]
  /\ map RuleExecution.ruleType (RuleExecutionTimeline.executions (timeline r))
     = ["ClearUserValueRule"].
Proof. vm_compute. repeat split. Qed.

(** *** Variable summaries *)

Lemma valueChanged_spec a : valueChanged a = true <-> changedAsParsed a.
Proof.
  unfold valueChanged, changedAsParsed.
  destruct (VariableAssignment.previousValue a) as [previous|];
    destruct (VariableAssignment.resultValue a) as [result|].
  - rewrite andb_true_iff, !negb_true_iff.
    split.
    + intros [H1 H2]. exists previous, result.
      apply String.eqb_neq in H1. apply String.eqb_neq in H2. auto.
    + intros (p & r & Hp & Hr & H1 & H2).
      injection Hp as <-. injection Hr as <-.
      split; apply String.eqb_neq; assumption.
  - split; [ discriminate | intros (p & r & _ & Hr & _); discriminate ].
  - split; [ discriminate | intros (p & r & Hp & _); discriminate ].
  - split; [ discriminate | intros (p & r & Hp & _); discriminate ].
Qed.

Lemma groupStep_invariant m a :
  groupingInvariant m -> groupingInvariant (groupStep m a).
Proof.
  unfold groupingInvariant, groupStep. intros Hm name summary.
  set (key := VariableAssignment.displayName a).
  destruct (JsMap.has m key) eqn:Hhas.
  - unfold JsMap.has in Hhas.
    destruct (JsMap.get m key) as [old|] eqn:Hold; [ | discriminate ].
    rewrite get_set.
    destruct (String.eqb_spec key name) as [<-|Hne]; [ | apply Hm ].
    intros H. injection H as <-.
    cbn [VariableSummary.hasChanges VariableSummary.assignments].
    rewrite existsb_app, (Hm key old Hold). cbn [existsb].
    destruct (valueChanged a); rewrite ?orb_true_r, ?orb_false_r; reflexivity.
  - rewrite get_set_same, !get_set.
    destruct (String.eqb_spec key name) as [<-|Hne]; [ | apply Hm ].
    intros H. injection H as <-.
    cbn [VariableSummary.hasChanges VariableSummary.assignments app existsb].
    destruct (valueChanged a); reflexivity.
Qed.

Lemma groupAssignments_invariant assignments :
  groupingInvariant (groupAssignments assignments).
Proof.
  unfold groupAssignments.
  assert (G : forall m, groupingInvariant m ->
                        groupingInvariant (fold_left groupStep assignments m)).
  { induction assignments as [|a assignments IH]; cbn [fold_left]; intros m Hm;
      [ exact Hm | ].
    apply IH, groupStep_invariant, Hm. }
  apply G. intros name summary H. discriminate H.
Qed.

(** C7, as amended: in every variable summary of a parsed trace,
    [hasChanges] is true if and only if some assignment of the summary has
    a previous value and a result value that were both found in the trace
    and differ, the previous value not being the text (unassigned). *)
Theorem hasChanges_iff_found_values_differ :
  forall (traceContent name : string) (summary : VariableSummary.t),
    JsMap.get (VariableTrackingSummary.variables (variableTracking (parseTrace traceContent)))
              name = Some summary ->
    (VariableSummary.hasChanges summary = true
     <-> exists a, In a (VariableSummary.assignments summary) /\ changedAsParsed a).
Proof.
  intros traceContent name summary H.
  unfold parseTrace, parseVariableAssignments in H.
  cbn [variableTracking VariableTrackingSummary.variables] in H.
  rewrite (groupAssignments_invariant _ name summary H), existsb_exists.
  split; intros (a & Ha & Hc); exists a; split; auto; apply valueChanged_spec; exact Hc.
Qed.

Lemma hasChanges_iff_found_values_differ_witness :
  exists summary,
    JsMap.get (VariableTrackingSummary.variables
                 (variableTracking (parseTrace changedVariableTrace))) "X" = Some summary
    /\ (VariableSummary.hasChanges summary = true
        <-> exists a, In a (VariableSummary.assignments summary) /\ changedAsParsed a).
Proof.
  eexists. split.
  - vm_compute. reflexivity.
  - apply (hasChanges_iff_found_values_differ changedVariableTrace "X").
    vm_compute. reflexivity.
Defined.

(** C7, as stated, fails on a variable whose previous value is not in the
    trace: it is null, which differs from the result and from the text
    (unassigned), and [hasChanges] is false. *)
Lemma hasChanges_as_stated_counterexample : ~ hasChangesAsStated resultOnlyTrace.
Proof.
  unfold hasChangesAsStated. intros H.
  destruct (JsMap.get (VariableTrackingSummary.variables
                         (variableTracking (parseTrace resultOnlyTrace))) "X")
    as [summary|] eqn:E; [ | vm_compute in E; discriminate E ].
  destruct (H "X" summary E) as [_ H2].
  vm_compute in E. injection E as <-.
  assert (F : false = true).
  { apply H2. eexists. split; [ left; reflexivity | ].
    split; cbn; discriminate. }
  discriminate F.
Qed.

End TraceParserFacts.

(** ** The behavioural comparator *)

Module RegressionFacts.
Import Regression RegressionSpec JsMapFacts.

(** C1, on two traces without any feature, hence without a matching
    selection, whose Quote templates differ in one property of the row 1:
    [compareBehavior] reports an issue of the type [integration_changed], a
    warning, although [matchingSelections] is empty. *)
Theorem integration_checked_without_matching_selection :
  forall numberToString : spec_float -> string,
    let r := compareBehavior numberToString (quoteTrace "10") (quoteTrace "12") someBaseline in
    RegressionResult.matchingSelections r = []
    /\ map BehavioralIssue.type (RegressionResult.issues r) = [integration_changed]
    /\ map BehavioralIssue.severity (RegressionResult.issues r) = [warning]
    /\ map BehavioralIssue.featureName (RegressionResult.issues r) = ["Quote[1].Price"]
    /\ Summary.behavioralIssuesFound (RegressionResult.summary r) = 1.
Proof. intros numberToString. vm_compute. repeat split. Qed.

Lemma In_ofList (l : list string) (x : string) : In x (JsSet.ofList l) -> In x l.
Proof.
  unfold JsSet.ofList.
  assert (G : forall s, In x (fold_left JsSet.add l s) -> In x s \/ In x l).
  { induction l as [|y l IH]; cbn [fold_left]; intros s H; [ auto | ].
    apply IH in H. destruct H as [H | H]; [ | right; right; exact H ].
    unfold JsSet.add in H. destruct (JsSet.has s y); [ auto | ].
    apply in_app_or in H. destruct H as [H | [<- | []]]; [ auto | right; left; reflexivity ]. }
  intros H. apply G in H. destruct H as [[] | H]. exact H.
Qed.

Lemma has_In (s : JsSet.t) (x : string) : In x s -> JsSet.has s x = true.
Proof.
  intros H. unfold JsSet.has. apply existsb_exists. exists x. split; [ exact H | ].
  apply String.eqb_refl.
Qed.

Lemma setsEqual_refl (s : JsSet.t) : setsEqual s s = true.
Proof.
  unfold setsEqual. rewrite Nat.eqb_refl. cbn [negb].
  apply forallb_forall. intros x Hx. apply has_In, Hx.
Qed.

Lemma nullableEqb_refl (v : option string) : nullableEqb v v = true.
Proof. destruct v; cbn; [ apply String.eqb_refl | reflexivity ]. Qed.

Lemma flat_map_nil {A B} (f : A -> list B) (l : list A) :
  (forall x, In x l -> f x = []) -> flat_map f l = [].
Proof.
  induction l as [|x l IH]; cbn [flat_map]; intros H; [ reflexivity | ].
  rewrite (H x (or_introl eq_refl)), IH; [ reflexivity | ].
  intros y Hy. apply H. right. exact Hy.
Qed.

(** The entries of a map built by [set] come from the entries given. *)
Lemma In_fold_set {A V} (key : A -> string) (val : A -> V) (l : list A) :
  forall (m : JsMap.t V) (e : string * V),
    In e (fold_left (fun m a => JsMap.set m (key a) (val a)) l m) ->
    In e m \/ exists a, In a l /\ e = (key a, val a).
Proof.
  assert (S : forall (m : JsMap.t V) k v e, In e (JsMap.set m k v) -> In e m \/ e = (k, v)).
  { induction m as [|[k0 v0] m IHm]; cbn [JsMap.set]; intros k v e H.
    - destruct H as [<- | []]. auto.
    - destruct (String.eqb k0 k).
      + destruct H as [<- | H]; [ auto | left; right; exact H ].
      + destruct H as [<- | H]; [ left; left; reflexivity | ].
        apply IHm in H. destruct H; [ left; right; assumption | auto ]. }
  induction l as [|a l IH]; cbn [fold_left]; intros m e H; [ auto | ].
  apply IH in H. destruct H as [H | (a' & Ha' & ->)].
  - apply S in H. destruct H as [H | ->]; [ auto | ].
    right. exists a. split; [ left; reflexivity | reflexivity ].
  - right. exists a'. split; [ right; exact Ha' | reflexivity ].
Qed.

Section SelfComparison.
Variable numberToString : spec_float -> string.
Variable T : ParsedTrace.t JsMap.t.
Hypothesis T_wf : ParsedTrace_wf T.

Lemma featureStep_self acc featureName :
  In featureName (JsMap.keys (ParsedTrace.features T)) ->
  loopIssues (featureStep T T acc featureName) = loopIssues acc
  /\ loopDivergent (featureStep T T acc featureName) = loopDivergent acc.
Proof.
  intros Hin. unfold featureStep.
  destruct (JsMap.get (ParsedTrace.features T) featureName) as [feature|] eqn:E.
  - cbn [SelectionComparison.isMatch]. rewrite nullableEqb_refl, setsEqual_refl.
    cbn. auto.
  - apply get_None_keys in E. contradiction.
Qed.

Lemma featureLoop_self (names : list string) : forall acc,
  (forall name, In name names -> In name (JsMap.keys (ParsedTrace.features T))) ->
  loopIssues (fold_left (featureStep T T) names acc) = loopIssues acc
  /\ loopDivergent (fold_left (featureStep T T) names acc) = loopDivergent acc.
Proof.
  induction names as [|name names IH]; cbn [fold_left]; intros acc H; [ auto | ].
  destruct (IH (featureStep T T acc name)) as [H1 H2].
  { intros n Hn. apply H. right. exact Hn. }
  destruct (featureStep_self acc name) as [H3 H4].
  { apply H. left. reflexivity. }
  split; congruence.
Qed.

Lemma rowIssues_self templateName rows entry :
  (forall row, In row rows -> JsMap.wf (IntegrationOutputRow.properties row)) ->
  In entry (JsMap.entries (rowsById rows)) ->
  rowIssues numberToString templateName (rowsById rows) entry = [].
Proof.
  intros Hrows Hin. destruct entry as [id baselineRow]. unfold rowIssues.
  unfold JsMap.entries, rowsById in *.
  rewrite (In_get _ _ _ (wf_ofEntries _) Hin).
  apply flat_map_nil. intros [prop baseValue] Hprop.
  assert (Hrow : In baselineRow rows).
  { unfold JsMap.ofEntries in Hin.
    apply (In_fold_set fst snd) in Hin. destruct Hin as [[] | (a & Ha & E)].
    apply in_map_iff in Ha. destruct Ha as (row & <- & Hrow).
    cbn in E. injection E as _ ->. exact Hrow. }
  rewrite (In_get _ _ _ (Hrows _ Hrow) Hprop), String.eqb_refl. reflexivity.
Qed.

Lemma templateIssues_self templateName :
  templateIssues numberToString (ParsedTrace.integrationOutputs T)
    (ParsedTrace.integrationOutputs T) templateName = [].
Proof.
  unfold templateIssues.
  destruct (JsMap.get (IntegrationOutputSummary.templates (ParsedTrace.integrationOutputs T))
                      templateName) as [template|] eqn:E; [ | reflexivity ].
  rewrite Nat.eqb_refl. cbn [negb app].
  apply flat_map_nil. intros entry Hentry.
  apply rowIssues_self; [ | exact Hentry ].
  intros row Hrow. destruct T_wf as (_ & _ & _ & _ & _ & Hprops & _).
  apply (Hprops templateName template row); [ apply get_In, E | exact Hrow ].
Qed.

Lemma compareConditionBehavior_self (c : ConditionSummary.t) :
  compareConditionBehavior c c = [].
Proof.
  unfold compareConditionBehavior. apply flat_map_nil. intros [key condition] Hin.
  unfold JsMap.entries in Hin.
  assert (Hwf : JsMap.wf (conditionMap (ConditionSummary.conditions c))).
  { unfold conditionMap. apply (wf_fold_set conditionKey (fun c => c)). constructor. }
  rewrite (In_get _ _ _ Hwf Hin), Bool.eqb_reflx. reflexivity.
Qed.

(** C2: the comparison of a parsed trace with itself reports no
    behavioural issue, so that its counts of errors, warnings and infos and
    of behavioural issues are zero, and no divergent selection. *)
Theorem compareBehavior_self : forall baselineInfo : BaselineInfo.t,
  let r := compareBehavior numberToString T T baselineInfo in
  RegressionResult.issues r = []
  /\ RegressionResult.divergentSelections r = []
  /\ Summary.errors (RegressionResult.summary r) = 0
  /\ Summary.warnings (RegressionResult.summary r) = 0
  /\ Summary.infos (RegressionResult.summary r) = 0
  /\ Summary.behavioralIssuesFound (RegressionResult.summary r) = 0
  /\ Summary.userChoicesDiverged (RegressionResult.summary r) = 0.
Proof.
  intros baselineInfo. cbn zeta. unfold compareBehavior.
  match goal with
  | |- context [fold_left (featureStep T T) ?names ?acc] =>
      destruct (featureLoop_self names acc) as [Hi Hd]
  end.
  { intros name Hn. apply In_ofList in Hn. apply in_app_or in Hn. tauto. }
  cbn [loopIssues loopDivergent] in Hi, Hd.
  unfold compareIntegrationBehavior.
  rewrite (flat_map_nil _ _ (fun name _ => templateIssues_self name)).
  rewrite compareConditionBehavior_self, Hi, Hd.
  cbn. repeat split.
Qed.

End SelfComparison.

Lemma quoteTrace_wf price : ParsedTrace_wf (quoteTrace price).
Proof.
  unfold ParsedTrace_wf, JsMap.wf. cbn.
  repeat split; try (constructor; fail).
  - intros key ruleset [].
  - repeat constructor; cbn; tauto.
  - intros key template row [E | []] Hrow. injection E as _ <-.
    destruct Hrow as [<- | []]. cbn.
    repeat constructor; cbn; intuition discriminate.
Qed.

Lemma compareBehavior_self_witness :
  ParsedTrace_wf (quoteTrace "10")
  /\ RegressionResult.issues
       (compareBehavior noNumberToString (quoteTrace "10") (quoteTrace "10") someBaseline)
     = [].
Proof.
  split; [ apply quoteTrace_wf | ].
  apply (compareBehavior_self noNumberToString (quoteTrace "10") (quoteTrace_wf "10")
           someBaseline).
Defined.

End RegressionFacts.

(** ** Numbers *)

Module JsNumberFacts.
Import JsNumber.
Local Open Scope Z_scope.

Lemma digits2_lower (p : positive) : 2 ^ (Z.pos (digits2_pos p) - 1) <= Z.pos p.
Proof.
  induction p as [p IH|p IH|]; cbn [digits2_pos].
  - rewrite Pos2Z.inj_succ. replace (Z.succ (Z.pos (digits2_pos p)) - 1) with (Z.succ (Z.pos (digits2_pos p) - 1)) by lia.
    rewrite Z.pow_succ_r by lia. lia.
  - rewrite Pos2Z.inj_succ. replace (Z.succ (Z.pos (digits2_pos p)) - 1) with (Z.succ (Z.pos (digits2_pos p) - 1)) by lia.
    rewrite Z.pow_succ_r by lia. lia.
  - cbn. lia.
Qed.

Lemma shr_1_m (mrs : shr_record) :
  0 <= shr_m mrs -> shr_m (shr_1 mrs) = shr_m mrs / 2.
Proof.
  destruct mrs as [m r s]. cbn [shr_m]. intros H.
  destruct m as [|[p|p|]|p]; cbn [shr_1 shr_m].
  - reflexivity.
  - apply Z.div_unique with (r := 1); lia.
  - apply Z.div_unique with (r := 0); lia.
  - reflexivity.
  - lia.
Qed.

Lemma iter_shr_1_m (n : positive) : forall mrs : shr_record,
  0 <= shr_m mrs -> shr_m (iter_pos shr_1 n mrs) = shr_m mrs / 2 ^ Z.pos n.
Proof.
  induction n as [n IH|n IH|]; intros mrs H; cbn [iter_pos].
  - assert (H1 : 0 <= shr_m (shr_1 mrs))
      by (rewrite shr_1_m by exact H; apply Z.div_pos; lia).
    assert (H2 : 0 <= shr_m (iter_pos shr_1 n (shr_1 mrs)))
      by (rewrite IH by exact H1; apply Z.div_pos; lia).
    rewrite IH, IH, shr_1_m by assumption.
    rewrite !Z.div_div by lia.
    replace (Z.pos n~1) with (1 + Z.pos n + Z.pos n) by lia.
    rewrite !Z.pow_add_r by lia. rewrite Z.pow_1_r, Z.mul_assoc. reflexivity.
  - assert (H2 : 0 <= shr_m (iter_pos shr_1 n mrs))
      by (rewrite IH by exact H; apply Z.div_pos; lia).
    rewrite IH, IH by assumption.
    rewrite !Z.div_div by lia.
    replace (Z.pos n~0) with (Z.pos n + Z.pos n) by lia.
    rewrite Z.pow_add_r by lia. reflexivity.
  - rewrite shr_1_m by exact H. reflexivity.
Qed.

Lemma shr_record_of_loc_m m l : shr_m (shr_record_of_loc m l) = m.
Proof. destruct l as [|[]]; reflexivity. Qed.

(** Shifting a positive mantissa to its place keeps it positive, when the
    exponent is at least the least one. *)
Lemma shr_fexp_pos (p : positive) (e : Z) (l : location) :
  emin prec emax <= e ->
  0 < shr_m (fst (shr_fexp prec emax (Z.pos p) e l))
  /\ emin prec emax <= snd (shr_fexp prec emax (Z.pos p) e l).
Proof.
  intros He. unfold shr_fexp, shr.
  set (n := fexp prec emax (Zdigits2 (Z.pos p) + e) - e).
  assert (Hn : n <= Z.pos (digits2_pos p) - 1).
  { subst n. unfold fexp, emin, prec, emax in *. cbn [Zdigits2]. lia. }
  destruct n as [|k|k] eqn:En; cbn [fst snd]; rewrite ?shr_record_of_loc_m; try lia.
  rewrite iter_shr_1_m by (rewrite shr_record_of_loc_m; lia).
  rewrite shr_record_of_loc_m. split; [ | lia ].
  apply Z.div_str_pos. split; [ apply Z.pow_pos_nonneg; lia | ].
  eapply Z.le_trans; [ | apply digits2_lower ].
  apply Z.pow_le_mono_r; lia.
Qed.

Lemma round_nearest_even_pos m l : 0 < m -> 0 < round_nearest_even m l.
Proof.
  intros H. destruct l as [|[]]; cbn; try lia. destruct (Z.even m); lia.
Qed.

(** Rounding a positive mantissa never gives a zero or NaN. *)
Lemma binary_round_aux_pos (p : positive) (e : Z) (l : location) :
  emin prec emax <= e ->
  (exists m e', binary_round_aux prec emax false (Z.pos p) e l = S754_finite false m e')
  \/ binary_round_aux prec emax false (Z.pos p) e l = S754_infinity false.
Proof.
  intros He. unfold binary_round_aux.
  destruct (shr_fexp_pos p e l He) as [H1 H2].
  destruct (shr_fexp prec emax (Z.pos p) e l) as [mrs' e'].
  cbn [fst snd] in H1, H2.
  pose proof (round_nearest_even_pos _ (loc_of_shr_record mrs') H1) as H3.
  destruct (round_nearest_even (shr_m mrs') (loc_of_shr_record mrs')) as [|q|q]; try lia.
  destruct (shr_fexp_pos q e' loc_Exact H2) as [H4 H5].
  destruct (shr_fexp prec emax (Z.pos q) e' loc_Exact) as [mrs'' e''].
  cbn [fst snd] in H4, H5.
  destruct (shr_m mrs'') as [|m|m]; try lia.
  destruct (e'' <=? emax - prec); [ left; eauto | right; reflexivity ].
Qed.

Lemma ofNat_pos (n : nat) :
  (exists m e, ofNat (S n) = S754_finite false m e) \/ ofNat (S n) = S754_infinity false.
Proof.
  unfold ofNat, ofZ. rewrite Nat2Z.inj_succ, <- Zpos_P_of_succ_nat.
  cbn [binary_normalize]. unfold binary_round.
  destruct (shl_align _ _ _) as [mz ez] eqn:E.
  apply binary_round_aux_pos.
  unfold shl_align in E.
  destruct (fexp prec emax (Z.pos (digits2_pos (Pos.of_succ_nat n)) + 0) - 0) eqn:F;
    injection E as <- <-; unfold fexp, emin, prec, emax in *; lia.
Qed.

Lemma div_zero_ofNat (n : nat) : div (ofNat 0) (ofNat (S n)) = S754_zero false.
Proof.
  destruct (ofNat_pos n) as [(m & e & ->) | ->]; reflexivity.
Qed.

End JsNumberFacts.

(** ** The match score *)

Module MatchScoreFacts.
Import BaselineStorage BaselineStorageSpec JsMapFacts JsNumberFacts.

Lemma compareSelections_count testMap path : forall i matchingCount firstDivergenceIndex,
  fst (compareSelections testMap path i (matchingCount, firstDivergenceIndex))
  = matchingCount + List.length (filter (selectionMatches testMap) path).
Proof.
  induction path as [|b path IH]; intros i m d; cbn [compareSelections filter].
  - cbn. lia.
  - destruct (selectionMatches testMap b); [ | destruct (d =? -1)%Z ];
      rewrite IH; cbn [List.length]; lia.
Qed.

(** With distinct feature names, [testMap] holds the candidate's entries. *)
Lemma selectionMap_NoDup (candidatePath : list SelectionEntry.t) :
  NoDup (names candidatePath) ->
  selectionMap candidatePath
  = map (fun sel => (SelectionEntry.featureName sel, sel)) candidatePath.
Proof.
  intros H. unfold selectionMap.
  rewrite <- (ofEntries_wf (map (fun sel => (SelectionEntry.featureName sel, sel)) candidatePath)).
  - unfold JsMap.ofEntries.
    generalize (@JsMap.empty SelectionEntry.t).
    induction candidatePath as [|sel path IH]; intros m; cbn [fold_left map fst snd];
      [ reflexivity | ].
    apply IH. inversion H; assumption.
  - rewrite map_map. exact H.
Qed.

Lemma selectionMatches_agrees (candidatePath : list SelectionEntry.t) (b : SelectionEntry.t) :
  NoDup (names candidatePath) ->
  selectionMatches (selectionMap candidatePath) b = existsb (agrees b) candidatePath.
Proof.
  intros H. rewrite (selectionMap_NoDup _ H). unfold selectionMatches.
  induction candidatePath as [|t path IH]; cbn [map JsMap.get existsb]; [ reflexivity | ].
  inversion H as [|? ? Hnot Hrest]; subst.
  unfold agrees at 1.
  destruct (String.eqb_spec (SelectionEntry.featureName t) (SelectionEntry.featureName b))
    as [E|E]; cbn [andb orb].
  - destruct (Regression.nullableEqb (SelectionEntry.selectedValue t)
                                     (SelectionEntry.selectedValue b)); [ reflexivity | ].
    cbn [orb]. symmetry. apply not_true_is_false. intros Hex.
    apply existsb_exists in Hex. destruct Hex as (t' & Ht' & Hag).
    unfold agrees in Hag. apply andb_true_iff in Hag. destruct Hag as [Hn _].
    apply String.eqb_eq in Hn. apply Hnot. rewrite E, <- Hn.
    apply in_map. exact Ht'.
  - apply IH. exact Hrest.
Qed.

Lemma keys_selectionMap (candidatePath : list SelectionEntry.t) (name : string) :
  In name (JsMap.keys (selectionMap candidatePath)) -> In name (names candidatePath).
Proof.
  unfold selectionMap, JsMap.keys. intros H.
  apply in_map_iff in H. destruct H as ([k v] & <- & Hin).
  apply (RegressionFacts.In_fold_set SelectionEntry.featureName (fun sel => sel)) in Hin.
  destruct Hin as [[] | (a & Ha & E)]. injection E as -> _.
  cbn [fst]. apply in_map. exact Ha.
Qed.

Lemma matching_disjoint (baselinePath candidatePath : list SelectionEntry.t) :
  disjointPaths baselinePath candidatePath ->
  filter (selectionMatches (selectionMap candidatePath)) baselinePath = [].
Proof.
  intros H. induction baselinePath as [|b path IH]; cbn [filter]; [ reflexivity | ].
  assert (E : selectionMatches (selectionMap candidatePath) b = false).
  { unfold selectionMatches.
    destruct (JsMap.get (selectionMap candidatePath) (SelectionEntry.featureName b)) eqn:G;
      [ | reflexivity ].
    exfalso. apply (H (SelectionEntry.featureName b)); [ left; reflexivity | ].
    apply keys_selectionMap.
    destruct (in_dec string_dec (SelectionEntry.featureName b)
                     (JsMap.keys (selectionMap candidatePath))) as [Hin|Hout]; [ exact Hin | ].
    apply get_None_keys in Hout. congruence. }
  rewrite E. apply IH. intros name Hn. apply H. right. exact Hn.
Qed.

Lemma NoDup_ofList (l : list string) : NoDup (JsSet.ofList l).
Proof.
  unfold JsSet.ofList.
  assert (G : forall s, NoDup s -> NoDup (fold_left JsSet.add l s)).
  { induction l as [|x l IH]; cbn [fold_left]; intros s Hs; [ exact Hs | ].
    apply IH. unfold JsSet.add. destruct (JsSet.has s x) eqn:E; [ exact Hs | ].
    apply NoDup_app; [ exact Hs | repeat constructor; cbn; tauto | ].
    intros y Hy [-> | []]. rewrite (RegressionFacts.has_In s y Hy) in E. discriminate. }
  apply G. constructor.
Qed.

Lemma ofList_In (l : list string) (x : string) : In x l -> In x (JsSet.ofList l).
Proof.
  unfold JsSet.ofList.
  assert (A : forall s y, In x s -> In x (JsSet.add s y)).
  { intros s y H. unfold JsSet.add. destruct (JsSet.has s y); [ exact H | ].
    apply in_or_app. left. exact H. }
  assert (G : forall s, In x s \/ In x l -> In x (fold_left JsSet.add l s)).
  { induction l as [|y l IH]; cbn [fold_left]; intros s H.
    - destruct H as [H | []]. exact H.
    - apply IH. destruct H as [H | [<- | H]]; [ left; apply A, H | | right; exact H ].
      left. unfold JsSet.add. destruct (JsSet.has s y) eqn:E.
      + unfold JsSet.has in E. apply existsb_exists in E.
        destruct E as (z & Hz & Ez). apply String.eqb_eq in Ez. subst z. exact Hz.
      + apply in_or_app. right. left. reflexivity. }
  intros H. apply G. right. exact H.
Qed.

(** [allFeatures.size] is the size of the union of the names. *)
Lemma size_ofList (l : list string) :
  JsSet.size (JsSet.ofList l) = List.length (nodup string_dec l).
Proof.
  unfold JsSet.size. apply Permutation_length, NoDup_Permutation.
  - apply NoDup_ofList.
  - apply NoDup_nodup.
  - intros x. rewrite nodup_In. split; [ apply RegressionFacts.In_ofList | apply ofList_In ].
Qed.

Lemma scoreOf_zero (u : nat) : scoreOf 0 u = JsNumber.ofNat 0.
Proof.
  unfold scoreOf. destruct u as [|u]; [ reflexivity | ].
  cbn [Nat.ltb Nat.leb]. rewrite div_zero_ofNat. reflexivity.
Qed.

Lemma spec_float_eqb_eq (x y : spec_float) : spec_float_eqb x y = true -> x = y.
Proof.
  destruct x, y; cbn; try discriminate; intros H.
  - apply Bool.eqb_prop in H. congruence.
  - apply Bool.eqb_prop in H. congruence.
  - reflexivity.
  - apply andb_true_iff in H. destruct H as [H He].
    apply andb_true_iff in H. destruct H as [Hs Hm].
    apply Bool.eqb_prop in Hs. apply Pos.eqb_eq in Hm. apply Z.eqb_eq in He. congruence.
Qed.

Lemma exact_below_40 (m u : nat) :
  m <= u -> u < 40 -> scoreOf m u = JsNumber.ofZ (roundHalfUp m u).
Proof.
  intros Hm Hu.
  assert (E : exactBelow 40 = true) by (vm_compute; reflexivity).
  unfold exactBelow in E.
  assert (Eu := proj1 (forallb_forall _ _) E u).
  cbv beta in Eu.
  assert (Em := proj1 (forallb_forall _ _) (Eu (proj2 (in_seq _ _ _) (conj (Nat.le_0_l u) Hu))) m).
  apply spec_float_eqb_eq, Em, in_seq. lia.
Qed.

Lemma matchingCount_bound (baselinePath candidatePath : list SelectionEntry.t) :
  NoDup (names baselinePath) ->
  matchingCountOf baselinePath candidatePath <= unionSize baselinePath candidatePath.
Proof.
  intros H. unfold matchingCountOf, unionSize.
  eapply Nat.le_trans; [ apply filter_length_le | ].
  rewrite <- (length_map SelectionEntry.featureName). fold (names baselinePath).
  apply NoDup_incl_length; [ exact H | ].
  intros x Hx. apply nodup_In, in_or_app. left. exact Hx.
Qed.

(** C6, as amended: the match score of a stored baseline against a candidate
    path (of pairwise distinct feature names) is
    [Math.round((matchingCount / unionSize) * 100)] evaluated in double
    arithmetic, and 0 when the union is empty, where [matchingCount] counts
    the entries of the baseline's path whose feature appears in the
    candidate's path with an equal selected value and [unionSize] is the
    size of the union of the feature names of both paths.  That number is
    [round(100 * matchingCount / unionSize)] whenever the union has fewer
    than 40 names (and the baseline's names are distinct); it is 0 whenever
    the two name sets are disjoint; and [findBestMatch] over no stored
    baseline returns no match. *)
Theorem matchScore_rounds_the_double_ratio :
  (forall testTrace, findBestMatch [] testTrace = None)
  /\ forall (baseline : BaselineTrace.t) (candidatePath : list SelectionEntry.t),
       NoDup (names candidatePath) ->
       let r := calculateMatchScore baseline candidatePath in
       let m := matchingCountOf (BaselineTrace.selectionPath baseline) candidatePath in
       let u := unionSize (BaselineTrace.selectionPath baseline) candidatePath in
       BaselineMatchResult.matchingSelections r = m
       /\ BaselineMatchResult.totalSelections r = u
       /\ BaselineMatchResult.matchScore r = scoreOf m u
       /\ (u = 0 -> BaselineMatchResult.matchScore r = JsNumber.ofNat 0)
       /\ (NoDup (names (BaselineTrace.selectionPath baseline)) -> u < 40 ->
           BaselineMatchResult.matchScore r = JsNumber.ofZ (roundHalfUp m u))
       /\ (disjointPaths (BaselineTrace.selectionPath baseline) candidatePath ->
           BaselineMatchResult.matchScore r = JsNumber.ofNat 0).
Proof.
  split; [ reflexivity | ].
  intros baseline candidatePath Hc. cbn zeta.
  unfold calculateMatchScore.
  pose proof (compareSelections_count (selectionMap candidatePath)
                (BaselineTrace.selectionPath baseline) 0 0 (-1)%Z) as Hcount.
  destruct (compareSelections _ _ _ _) as [matchingCount firstDivergenceIndex].
  cbn [fst] in Hcount.
  cbn [BaselineMatchResult.matchingSelections BaselineMatchResult.totalSelections
       BaselineMatchResult.matchScore].
  assert (Hm : matchingCount
               = matchingCountOf (BaselineTrace.selectionPath baseline) candidatePath).
  { rewrite Hcount. unfold matchingCountOf. cbn [Nat.add]. f_equal.
    apply filter_ext_in. intros b _. apply selectionMatches_agrees, Hc. }
  assert (Hu : JsSet.size
                 (JsSet.ofList
                    (map SelectionEntry.featureName (BaselineTrace.selectionPath baseline)
                     ++ map SelectionEntry.featureName candidatePath))
               = unionSize (BaselineTrace.selectionPath baseline) candidatePath).
  { apply size_ofList. }
  rewrite Hu, Hm.
  repeat split.
  - intros ->. reflexivity.
  - intros Hb Hlt. apply exact_below_40; [ apply matchingCount_bound, Hb | exact Hlt ].
  - intros Hd. rewrite <- Hm, Hcount, (matching_disjoint _ _ Hd). apply scoreOf_zero.
Qed.

Lemma candidate_names_distinct :
  NoDup (names (extractSelectionPath fortyFeaturesCandidate)).
Proof.
  apply (NoDup_count_occ' string_dec). intros x Hx.
  vm_compute in Hx.
  repeat (destruct Hx as [<- | Hx]; [ vm_compute; reflexivity | ]).
  destruct Hx.
Qed.

Lemma matchScore_rounds_the_double_ratio_witness :
  NoDup (names (extractSelectionPath fortyFeaturesCandidate))
  /\ BaselineMatchResult.matchScore
       (calculateMatchScore (baselineOf fortyFeatures)
          (extractSelectionPath fortyFeaturesCandidate))
     = JsNumber.ofNat 57.
Proof.
  split; [ exact candidate_names_distinct | ].
  destruct matchScore_rounds_the_double_ratio as [_ H].
  destruct (H (baselineOf fortyFeatures) (extractSelectionPath fortyFeaturesCandidate)
              candidate_names_distinct) as (_ & _ & Hs & _).
  rewrite Hs. vm_compute. reflexivity.
Defined.

(** C6, as stated, fails for 23 matching selections in a union of 40
    features: [(23 / 40) * 100] is 57.49999999999999 in double arithmetic and
    rounds to 57, where [round(100 * 23 / 40)] is 58. *)
Lemma matchScore_as_stated_counterexample :
  ~ matchScoreAsStated (baselineOf fortyFeatures)
      (extractSelectionPath fortyFeaturesCandidate).
Proof.
  unfold matchScoreAsStated. intros H.
  vm_compute in H. discriminate H.
Qed.

End MatchScoreFacts.

(** ** The stored form of a trace *)

Module RoundTripFacts.
Import BaselineStorage RoundTripSpec RegressionSpec JsMapFacts.

Lemma insertSorted_Permutation {A} (before : A -> A -> bool) (x : A) (l : list A) :
  Permutation (insertSorted before x l) (x :: l).
Proof.
  induction l as [|y l IH]; cbn [insertSorted]; [ reflexivity | ].
  destruct (before x y); [ reflexivity | ].
  rewrite IH. apply perm_swap.
Qed.

Lemma stableSort_Permutation {A} (before : A -> A -> bool) (l : list A) :
  Permutation (stableSort before l) l.
Proof.
  unfold stableSort. induction l as [|x l IH]; cbn [fold_right]; [ reflexivity | ].
  rewrite insertSorted_Permutation, IH. reflexivity.
Qed.

Lemma filter_partition_Permutation {A} (p : A -> bool) (l : list A) :
  Permutation (filter p l ++ filter (fun x => negb (p x)) l) l.
Proof.
  induction l as [|x l IH]; cbn [filter]; [ reflexivity | ].
  destruct (p x); cbn [negb app].
  - rewrite IH. reflexivity.
  - rewrite <- Permutation_middle, IH. reflexivity.
Qed.

(** [Object.entries] lists every own property once. *)
Lemma entries_Permutation {V} (o : JsObject.t V) : Permutation (JsObject.entries o) o.
Proof.
  unfold JsObject.entries.
  rewrite stableSort_Permutation. apply filter_partition_Permutation.
Qed.

Lemma keys_onValues {V W} (g : V -> W) (m : list (string * V)) :
  JsMap.keys (onValues g m) = JsMap.keys m.
Proof.
  unfold JsMap.keys, onValues. rewrite map_map. reflexivity.
Qed.

Lemma get_onValues {V W} (g : V -> W) (m : list (string * V)) (key : string) :
  JsMap.get (onValues g m) key = option_map g (JsMap.get m key).
Proof.
  induction m as [|[k v] m IH]; cbn; [ reflexivity | ].
  destruct (String.eqb k key); [ reflexivity | exact IH ].
Qed.

Lemma onValues_id {V} (m : list (string * V)) : onValues (fun v => v) m = m.
Proof.
  unfold onValues. induction m as [|[k v] m IH]; cbn; [ | rewrite IH ]; reflexivity.
Qed.

Lemma insertSorted_map {A B} (f : A -> B) (before : A -> A -> bool)
  (before' : B -> B -> bool) (x : A) (l : list A) :
  (forall a b, before' (f a) (f b) = before a b) ->
  insertSorted before' (f x) (map f l) = map f (insertSorted before x l).
Proof.
  intros H. induction l as [|y l IH]; cbn [insertSorted map]; [ reflexivity | ].
  rewrite H. destruct (before x y); cbn [map]; [ reflexivity | ].
  rewrite IH. reflexivity.
Qed.

Lemma stableSort_map {A B} (f : A -> B) (before : A -> A -> bool)
  (before' : B -> B -> bool) (l : list A) :
  (forall a b, before' (f a) (f b) = before a b) ->
  stableSort before' (map f l) = map f (stableSort before l).
Proof.
  intros H. unfold stableSort.
  induction l as [|x l IH]; cbn [fold_right map]; [ reflexivity | ].
  rewrite IH. apply insertSorted_map, H.
Qed.

Lemma filter_map_commute {A B} (f : A -> B) (p : A -> bool) (p' : B -> bool) (l : list A) :
  (forall a, p' (f a) = p a) ->
  filter p' (map f l) = map f (filter p l).
Proof.
  intros H. induction l as [|x l IH]; cbn [filter map]; [ reflexivity | ].
  rewrite H. destruct (p x); cbn [map]; rewrite IH; reflexivity.
Qed.

(** The order of [Object.entries] depends on the keys only. *)
Lemma entries_onValues {V W} (g : V -> W) (o : JsObject.t V) :
  JsObject.entries (onValues g o) = onValues g (JsObject.entries o).
Proof.
  unfold JsObject.entries, onValues.
  rewrite map_app. f_equal.
  - rewrite (filter_map_commute _ JsObject.isIndexKey) by reflexivity.
    apply stableSort_map. reflexivity.
  - apply filter_map_commute. reflexivity.
Qed.

(** A map that is written as an object and read back. *)
Lemma stored_map {V W} (g : V -> W) (m : JsMap.t V) :
  JsMap.wf m ->
  JsMap.ofEntries (JsObject.entries (JsObject.fromEntries (onValues g (JsMap.entries m))))
  = onValues g (JsObject.entries m).
Proof.
  intros Hwf. unfold JsObject.fromEntries, JsMap.entries.
  rewrite (ofEntries_wf (onValues g m)) by (fold (JsMap.keys (onValues g m)); rewrite keys_onValues; exact Hwf).
  rewrite entries_onValues.
  apply ofEntries_wf. fold (JsMap.keys (onValues g (JsObject.entries m))).
  rewrite keys_onValues.
  eapply Permutation_NoDup; [ | exact Hwf ].
  unfold JsMap.keys. apply Permutation_map, Permutation_sym, entries_Permutation.
Qed.

Lemma sameMap_onValues {V W} (R : V -> W -> Prop) (g : V -> W) (m : JsMap.t V) :
  JsMap.wf m ->
  (forall key v, In (key, v) m -> R v (g v)) ->
  sameMap R m (AsMap (onValues g (JsObject.entries m))).
Proof.
  intros Hwf HR. exists (onValues g (JsObject.entries m)).
  assert (Hp : Permutation (JsMap.keys m) (JsMap.keys (JsObject.entries m))).
  { unfold JsMap.keys. apply Permutation_map, Permutation_sym, entries_Permutation. }
  repeat split.
  - unfold JsMap.wf. rewrite keys_onValues. eapply Permutation_NoDup; [ exact Hp | exact Hwf ].
  - rewrite keys_onValues. exact Hp.
  - intros key. rewrite get_onValues.
    rewrite <- (get_Permutation m (JsObject.entries m) key Hwf
                  (Permutation_sym (entries_Permutation m))).
    destruct (JsMap.get m key) as [v|] eqn:E; cbn [option_map]; [ | exact I ].
    apply (HR key), get_In, E.
Qed.

Lemma sameMap_plain {V} (m : JsMap.t V) :
  JsMap.wf m ->
  sameMap eq m (reconstructMap (AsObject (JsObject.fromEntries (JsMap.entries m)))).
Proof.
  intros Hwf. unfold reconstructMap.
  pose proof (stored_map (fun v => v) m Hwf) as E.
  rewrite !onValues_id in E. unfold JsMap.entries in *. rewrite E.
  rewrite <- (onValues_id (JsObject.entries m)).
  apply sameMap_onValues; [ exact Hwf | reflexivity ].
Qed.

Lemma map_pair_onValues {V W} (g : V -> W) (m : list (string * V)) :
  map (fun entry : string * V => let '(key, v) := entry in (key, g v)) m = onValues g m.
Proof. apply map_ext. intros [key v]. reflexivity. Qed.

Lemma onValues_onValues {U V W} (g : U -> V) (h : V -> W) (m : list (string * U)) :
  onValues h (onValues g m) = onValues (fun v => h (g v)) m.
Proof. unfold onValues. rewrite map_map. reflexivity. Qed.

(** A map of records that hold maps, written and read back. *)
Lemma sameMap_nested {V W} (R : V -> W -> Prop) (g : V -> W) (h : W -> W)
  (m : JsMap.t V) :
  JsMap.wf m ->
  (forall key v, In (key, v) m -> R v (h (g v))) ->
  sameMap R m
    (AsMap (forValues h
              (JsMap.ofEntries
                 (JsObject.entries
                    (JsObject.fromEntries
                       (map (fun entry : string * V => let '(key, v) := entry in (key, g v))
                            (JsMap.entries m))))))).
Proof.
  intros Hwf HR.
  rewrite map_pair_onValues, (stored_map g m Hwf).
  change (forValues h (onValues g (JsObject.entries m)))
    with (onValues h (onValues g (JsObject.entries m))).
  rewrite onValues_onValues.
  apply sameMap_onValues; assumption.
Qed.

Lemma sameRuleset_roundtrip (ruleset : RulesetSummary.t JsMap.t) :
  JsMap.wf (RulesetSummary.rules ruleset) ->
  sameRuleset ruleset (reconstructRuleset (serializeRuleset ruleset)).
Proof.
  intros Hwf. unfold sameRuleset, reconstructRuleset, serializeRuleset.
  cbn [RulesetSummary.name RulesetSummary.namespace RulesetSummary.executionCount
       RulesetSummary.rules].
  repeat split. apply sameMap_plain, Hwf.
Qed.

Lemma sameRow_roundtrip (row : IntegrationOutputRow.t JsMap.t) :
  JsMap.wf (IntegrationOutputRow.properties row) ->
  sameRow row (reconstructRow (serializeRow row)).
Proof.
  intros Hwf. unfold sameRow, reconstructRow, serializeRow.
  cbn [IntegrationOutputRow.id IntegrationOutputRow.lineNumber IntegrationOutputRow.properties].
  repeat split. apply sameMap_plain, Hwf.
Qed.

Lemma sameTemplate_roundtrip (template : IntegrationTemplate.t JsMap.t) :
  (forall row, In row (IntegrationTemplate.rows template) ->
               JsMap.wf (IntegrationOutputRow.properties row)) ->
  sameTemplate template (reconstructTemplate (serializeTemplate template)).
Proof.
  intros Hwf. unfold sameTemplate, reconstructTemplate, serializeTemplate.
  cbn [IntegrationTemplate.name IntegrationTemplate.columns IntegrationTemplate.rows].
  repeat split.
  induction (IntegrationTemplate.rows template) as [|row rows IH]; cbn [map];
    constructor.
  - apply sameRow_roundtrip, Hwf. left. reflexivity.
  - apply IH. intros r Hr. apply Hwf. right. exact Hr.
Qed.

(** C4: for every parsed trace, [reconstructTrace] applied to what
    [serializeTrace] returns gives a trace in which every mapping field
    (features, rulesets and their rules, ruleTypeBreakdown, integration
    templates and the properties of their rows, variables) is a [Map] again,
    with the same key set and, at every key, the same value, at every level
    of nesting; all other fields are unchanged. *)
Theorem serialize_reconstruct_roundtrip : forall T : ParsedTrace.t JsMap.t,
  ParsedTrace_wf T -> sameTrace T (reconstructTrace (serializeTrace T)).
Proof.
  intros T (Hf & Hrs & Hrules & Hb & Ht & Hprops & Hv).
  unfold sameTrace, reconstructTrace, serializeTrace.
  cbn [ParsedTrace.metadata ParsedTrace.features ParsedTrace.rulesSummary
       ParsedTrace.integrationOutputs ParsedTrace.variableTracking
       ParsedTrace.conditionTracking ParsedTrace.issues ParsedTrace.timeline
       ParsedTrace.rulesExecuted ParsedTrace.rollbackPoints ParsedTrace.parseErrors
       RuleExecutionSummary.totalExecutions RuleExecutionSummary.uniqueRules
       RuleExecutionSummary.rulesets RuleExecutionSummary.topRules
       RuleExecutionSummary.ruleTypeBreakdown
       IntegrationOutputSummary.templates IntegrationOutputSummary.totalRows
       VariableTrackingSummary.variables VariableTrackingSummary.totalAssignments
       VariableTrackingSummary.uniqueVariables].
  repeat match goal with |- _ /\ _ => split end; try reflexivity;
    try (apply sameMap_plain; assumption).
  - apply sameMap_nested; [ exact Hrs | ].
    intros key ruleset Hin. apply sameRuleset_roundtrip, (Hrules key), Hin.
  - apply sameMap_nested; [ exact Ht | ].
    intros key template Hin. apply sameTemplate_roundtrip.
    intros row Hrow. apply (Hprops key template row Hin Hrow).
Qed.

Lemma serialize_reconstruct_roundtrip_witness :
  ParsedTrace_wf (quoteTrace "10")
  /\ sameTrace (quoteTrace "10") (reconstructTrace (serializeTrace (quoteTrace "10"))).
Proof.
  split; [ apply RegressionFacts.quoteTrace_wf | ].
  apply serialize_reconstruct_roundtrip, RegressionFacts.quoteTrace_wf.
Defined.

(** The order of the entries is not always kept: a plain object lists its
    array-index keys first. *)
Example reconstructMap_moves_index_keys :
  reconstructMap (AsObject (JsObject.fromEntries (JsMap.entries indexKeyedFeatures)))
  = AsMap [("1", BaselineStorageSpec.featureNamed "1" "v" 2);
           ("b", BaselineStorageSpec.featureNamed "b" "v" 1)].
Proof. reflexivity. Qed.

End RoundTripFacts.

(** ** The tokenizer *)

Module TokenizerFacts.
Import JsString Expression ExpressionSpec ExpressionFacts TokenizerSpec.








Lemma chars_length (s : string) : List.length (chars s) = String.length s.
Proof. induction s as [|c s IH]; cbn; [ reflexivity | f_equal; exact IH ]. Qed.


(** *** Texts without an expression *)

Lemma tokenize_loop_ignored : forall fuel cs pos,
  List.length cs <= fuel -> forallb ignoredChar cs = true ->
  tokenize_loop fuel cs pos
  = [ {| type := EOF; value := EmptyString; position := pos + List.length cs |} ].
Proof.
  induction fuel as [|f IH]; intros cs pos H Hi.
  - destruct cs; [ cbn; rewrite Nat.add_0_r; reflexivity | cbn in H; lia ].
  - destruct cs as [|c rest]; [ cbn; rewrite Nat.add_0_r; reflexivity | ].
    cbn [List.length] in H. cbn [forallb] in Hi.
    apply andb_true_iff in Hi. destruct Hi as [Hc Hrest].
    assert (Hnext : tokenize_loop f rest (pos + 1)
                    = [ {| type := EOF; value := EmptyString;
                           position := pos + List.length (c :: rest) |} ]).
    { rewrite IH; [ | lia | exact Hrest ]. cbn [List.length]. do 2 f_equal. lia. }
    cbn [tokenize_loop]. unfold ignoredChar in Hc.
    destruct (isSpace c); [ exact Hnext | ].
    cbn [orb] in Hc. apply negb_true_iff in Hc.
    cbn [existsb chars list_ascii_of_string] in Hc.
    repeat (apply orb_false_elim in Hc; destruct Hc as [? Hc]);
      repeat match goal with
             | H : _ || _ = false |- _ =>
                 apply orb_false_elim in H; let H' := fresh in destruct H as [H' H]
             end.
    cbn [existsb chars list_ascii_of_string firstn ofChars string_of_list_ascii includes].
    assert (Hid : isIdentStart c = false).
    { unfold isIdentStart.
      repeat match goal with
             | H : ?x = false |- context [?x] => rewrite H
             end.
      reflexivity. }
    destruct rest as [|d rest'];
      cbn [firstn string_of_list_ascii String.eqb];
      rewrite Hid;
      repeat match goal with
             | H : ?x = false |- context [?x] => rewrite H
             end;
      cbn [orb andb]; exact Hnext.
Qed.

(** X2: A text made of characters that start no token, and that the guard lets
    through, gives a result without a root, not valid, and without an error
    message. *)
Theorem parseExpression_without_tokens : forall expression : string,
  forallb ignoredChar (chars expression) = true ->
  isEmptyExpression expression = false ->
  parseExpression expression = Normal (noExpression expression).
Proof.
  intros expression Hi Hg. unfold parseExpression, tryParse. rewrite Hg.
  assert (Ht : exists pos, tokenize expression
                           = [ {| type := EOF; value := EmptyString; position := pos |} ]).
  { unfold tokenize.
    destruct (startsWith expression "=") eqn:E.
    - destruct expression as [|c s]; [ discriminate E | ].
      unfold startsWith in E. cbn [String.prefix] in E.
      destruct (ascii_dec "=" c) as [<- | _]; [ | discriminate E ].
      cbn [chars list_ascii_of_string forallb] in Hi.
      apply andb_true_iff in Hi. destruct Hi as [Hi _]. vm_compute in Hi. discriminate Hi.
    - eexists. apply tokenize_loop_ignored; [ lia | exact Hi ]. }
  destruct Ht as [pos ->]. reflexivity.
Qed.

Lemma parseExpression_without_tokens_witness :
  parseExpression "@ #" = Normal (noExpression "@ #").
Proof. apply parseExpression_without_tokens; reflexivity. Defined.

(** *** String literals *)




Lemma ofChars_chars (s : string) : ofChars (chars s) = s.
Proof. apply string_of_list_ascii_of_string. Qed.




End TokenizerFacts.

(** ** Sorting *)

Module SortFacts.
Import SummarySpec.

Section Sorted.
Context {A : Type} (before : A -> A -> bool).
Hypothesis before_total : forall a b, before a b = false -> before b a = true.
Hypothesis before_trans :
  forall a b c, before a b = true -> before b c = true -> before a c = true.

Lemma insertSorted_In (x y : A) (l : list A) :
  In y (insertSorted before x l) -> y = x \/ In y l.
Proof.
  induction l as [|z l IH]; cbn [insertSorted].
  - intros [<- | []]. left. reflexivity.
  - destruct (before x z).
    + intros [<- | H]; [ left; reflexivity | right; exact H ].
    + intros [<- | H]; [ right; left; reflexivity | ].
      destruct (IH H) as [-> | H']; [ left; reflexivity | right; right; exact H' ].
Qed.

Lemma insertSorted_sorted (x : A) (l : list A) :
  sortedBy before l -> sortedBy before (insertSorted before x l).
Proof.
  unfold sortedBy. induction l as [|y l IH]; cbn [insertSorted]; intros Hs.
  - constructor; constructor.
  - inversion Hs as [|? ? Hs' Hy]; subst.
    destruct (before x y) eqn:E.
    + constructor; [ exact Hs | ].
      constructor; [ exact E | ].
      rewrite Forall_forall in *. intros z Hz. eapply before_trans; [ exact E | apply Hy, Hz ].
    + constructor; [ apply IH, Hs' | ].
      rewrite Forall_forall in *. intros z Hz.
      destruct (insertSorted_In _ _ _ Hz) as [-> | Hz']; [ apply before_total, E | apply Hy, Hz' ].
Qed.

Lemma stableSort_sorted (l : list A) : sortedBy before (stableSort before l).
Proof.
  induction l as [|x l IH]; cbn [stableSort fold_right].
  - constructor.
  - apply insertSorted_sorted, IH.
Qed.

End Sorted.

Lemma StronglySorted_weaken {A} (R R' : A -> A -> Prop) (l : list A) :
  (forall a b, R a b -> R' a b) -> StronglySorted R l -> StronglySorted R' l.
Proof.
  intros HR. induction 1 as [|x l Hs IH Hx]; constructor; [ exact IH | ].
  rewrite Forall_forall in *. intros y Hy. apply HR, Hx, Hy.
Qed.

Lemma In_firstn {A} (n : nat) (l : list A) (x : A) : In x (firstn n l) -> In x l.
Proof. intros H. rewrite <- (firstn_skipn n l). apply in_or_app. left. exact H. Qed.

Lemma StronglySorted_firstn {A} (R : A -> A -> Prop) (n : nat) (l : list A) :
  StronglySorted R l -> StronglySorted R (firstn n l).
Proof.
  revert n. induction l as [|x l IH]; intros n Hs; destruct n; cbn [firstn]; try constructor.
  - inversion Hs; subst. apply IH. assumption.
  - inversion Hs as [|? ? Hs' Hx]; subst.
    rewrite Forall_forall in *. intros y Hy. apply Hx. eapply In_firstn. exact Hy.
Qed.

End SortFacts.

(** ** The rule summary *)

Module RuleSummaryFacts.
Import JsString RegExp TraceParser TraceParserSpec SummarySpec JsMapFacts SortFacts TraceParserFacts.

Lemma sumBy_set_present {V} (w : V -> nat) (m : JsMap.t V) k old new :
  JsMap.get m k = Some old ->
  sumBy w (JsMap.set m k new) + w old = sumBy w m + w new.
Proof.
  unfold sumBy, JsMap.values.
  induction m as [|[k0 v0] m IH]; cbn [JsMap.get JsMap.set]; [ discriminate | ].
  destruct (String.eqb k0 k); cbn [map snd].
  - intros H. injection H as ->.
    change (list_sum (?a :: ?l)) with (a + list_sum l). lia.
  - intros H. specialize (IH H).
    change (list_sum (?a :: ?l)) with (a + list_sum l). lia.
Qed.

Lemma sumBy_set_absent {V} (w : V -> nat) (m : JsMap.t V) k new :
  JsMap.get m k = None -> sumBy w (JsMap.set m k new) = sumBy w m + w new.
Proof.
  intros H. rewrite (set_fresh _ _ _ H).
  unfold sumBy, JsMap.values. rewrite !map_app, list_sum_app. cbn. lia.
Qed.

(** [countRule] adds one execution, to the rule at [ruleKey] and to the sum. *)
Lemma countRule_sum m ruleKey fresh :
  RuleStats.executionCount fresh = 0 ->
  sumBy RuleStats.executionCount (countRule m ruleKey fresh)
  = sumBy RuleStats.executionCount m + 1.
Proof.
  intros Hf. unfold countRule.
  destruct (JsMap.has m ruleKey) eqn:Hhas.
  - unfold JsMap.has in Hhas.
    destruct (JsMap.get m ruleKey) as [old|] eqn:Hget; [ | discriminate ].
    pose proof (sumBy_set_present RuleStats.executionCount m ruleKey old (bumpRule old) Hget) as H.
    cbn [bumpRule RuleStats.executionCount] in H. lia.
  - apply has_get in Hhas. rewrite get_set_same.
    pose proof (sumBy_set_present RuleStats.executionCount (JsMap.set m ruleKey fresh) ruleKey
                  fresh (bumpRule fresh) (get_set_same _ _ _)) as H.
    pose proof (sumBy_set_absent RuleStats.executionCount m ruleKey fresh Hhas) as H'.
    cbn [bumpRule RuleStats.executionCount] in H. lia.
Qed.

Lemma In_set {V} (m : JsMap.t V) k v k' v' :
  In (k', v') (JsMap.set m k v) -> (k' = k /\ v' = v) \/ In (k', v') m.
Proof.
  induction m as [|[k0 v0] m IH]; cbn [JsMap.set].
  - intros [H | []]. injection H as <- <-. auto.
  - destruct (String.eqb k0 k).
    + intros [H | H]; [ injection H as <- <-; auto | right; right; exact H ].
    + intros [H | H]; [ right; left; exact H | ].
      destruct (IH H) as [? | ?]; [ auto | right; right; assumption ].
Qed.

Lemma set_set {V} (m : JsMap.t V) k v v' :
  JsMap.set (JsMap.set m k v) k v' = JsMap.set m k v'.
Proof.
  induction m as [|[k0 v0] m IH]; cbn [JsMap.set].
  - rewrite String.eqb_refl. reflexivity.
  - destruct (String.eqb k0 k) eqn:E; cbn [JsMap.set].
    + rewrite String.eqb_refl. reflexivity.
    + rewrite E, IH. reflexivity.
Qed.

(** [if (!map.has(key)) map.set(key, fresh); map.get(key)!.executionCount++]
    in one step. *)
Lemma countRule_eq m ruleKey fresh :
  countRule m ruleKey fresh
  = JsMap.set m ruleKey
      (bumpRule (match JsMap.get m ruleKey with Some old => old | None => fresh end)).
Proof.
  unfold countRule, JsMap.has.
  destruct (JsMap.get m ruleKey) as [old|] eqn:Hget.
  - rewrite Hget. reflexivity.
  - rewrite get_set_same, set_set. reflexivity.
Qed.

Lemma countRule_In m ruleKey fresh key r :
  In (key, r) (countRule m ruleKey fresh) ->
  In (key, r) m
  \/ (key = ruleKey /\ exists r0, (In (ruleKey, r0) m \/ r0 = fresh) /\ r = bumpRule r0).
Proof.
  rewrite countRule_eq. intros H. apply In_set in H.
  destruct H as [[-> ->] | H]; [ | auto ].
  right. split; [ reflexivity | ].
  destruct (JsMap.get m ruleKey) as [old|] eqn:Hget.
  - exists old. split; [ left; apply get_In, Hget | reflexivity ].
  - exists fresh. auto.
Qed.

Lemma ruleExecutionsStep_consistent st line next :
  countsConsistent st -> countsConsistent (ruleExecutionsStep st line next).
Proof.
  intros Hst. pose proof Hst as (Hb & Hc & Hc1 & Hb1 & Hrs). unfold ruleExecutionsStep.
  destruct (exec rulesetPattern line) as [ruleMatch|]; [ | exact Hst ].
  set (name := group 1 ruleMatch).
  set (ruleKey := (name ++ ":" ++ group 2 ruleMatch)%string).
  set (ruleType := match ruleTypeAfter ruleTypes next with Some t => t | None => "Unknown" end).
  set (fresh := {| RuleStats.ruleId := group 2 ruleMatch;
                   RuleStats.ruleName := trim (group 3 ruleMatch);
                   RuleStats.ruleType := ruleType; RuleStats.ruleset := name;
                   RuleStats.executionCount := 0 |}).
  set (freshRuleset := {| RulesetSummary.name := name;
                          RulesetSummary.namespace := firstSegment name;
                          RulesetSummary.executionCount := 0;
                          RulesetSummary.rules := JsMap.empty |}).
  unfold countsConsistent.
  cbn [rulesets ruleTypeBreakdown ruleExecutionCounts totalExecutions].
  split; [ | split; [ | split; [ | split ] ] ].
  - destruct (JsMap.get (ruleTypeBreakdown st) ruleType) as [n|] eqn:E.
    + pose proof (sumBy_set_present (fun n => n) _ _ _ (n + 1) E) as H.
      cbn beta in H. lia.
    + rewrite (sumBy_set_absent (fun n => n) _ _ _ E). lia.
  - rewrite countRule_sum by reflexivity. lia.
  - intros key r H. apply countRule_In in H.
    destruct H as [H | (_ & r0 & _ & ->)]; [ eapply Hc1, H | cbn; lia ].
  - intros key n H. apply In_set in H. destruct H as [[-> ->] | H]; [ lia | eapply Hb1, H ].
  - set (base := match JsMap.get (rulesets st) name with Some old => old | None => freshRuleset end).
    assert (Hstep :
              match JsMap.get (if JsMap.has (rulesets st) name then rulesets st
                               else JsMap.set (rulesets st) name freshRuleset) name with
              | Some rulesetSummary =>
                  JsMap.set (if JsMap.has (rulesets st) name then rulesets st
                             else JsMap.set (rulesets st) name freshRuleset) name
                    {| RulesetSummary.name := RulesetSummary.name rulesetSummary;
                       RulesetSummary.namespace := RulesetSummary.namespace rulesetSummary;
                       RulesetSummary.executionCount :=
                         RulesetSummary.executionCount rulesetSummary + 1;
                       RulesetSummary.rules :=
                         countRule (RulesetSummary.rules rulesetSummary) ruleKey fresh |}
              | None => if JsMap.has (rulesets st) name then rulesets st
                        else JsMap.set (rulesets st) name freshRuleset
              end
              = JsMap.set (rulesets st) name
                  {| RulesetSummary.name := RulesetSummary.name base;
                     RulesetSummary.namespace := RulesetSummary.namespace base;
                     RulesetSummary.executionCount := RulesetSummary.executionCount base + 1;
                     RulesetSummary.rules :=
                       countRule (RulesetSummary.rules base) ruleKey fresh |}).
    { unfold base, JsMap.has.
      destruct (JsMap.get (rulesets st) name) as [old|] eqn:Hget.
      - rewrite Hget. reflexivity.
      - rewrite get_set_same, set_set. reflexivity. }
    rewrite Hstep.
    assert (Hinv : RulesetSummary.name base = name
                   /\ RulesetSummary.namespace base = firstSegment name
                   /\ RulesetSummary.executionCount base
                      = sumBy RuleStats.executionCount (RulesetSummary.rules base)
                   /\ (forall key r, In (key, r) (JsMap.entries (RulesetSummary.rules base)) ->
                                     RuleStats.ruleset r = name
                                     /\ 1 <= RuleStats.executionCount r)).
    { unfold base. destruct (JsMap.get (rulesets st) name) as [old|] eqn:Hget.
      - apply Hrs, get_In, Hget.
      - split; [ reflexivity | split; [ reflexivity | split; [ reflexivity | intros ? ? [] ] ] ]. }
    destruct Hinv as (Hn & Hns & Hcount & Hrules).
    intros name' rs H. apply In_set in H.
    destruct H as [[-> ->] | H]; [ | apply Hrs, H ].
    cbn [RulesetSummary.name RulesetSummary.namespace RulesetSummary.executionCount
         RulesetSummary.rules].
    repeat split; auto.
    + rewrite countRule_sum by reflexivity. lia.
    + apply countRule_In in H. destruct H as [H | (_ & r0 & [H | ->] & ->)].
      * apply (Hrules _ _ H).
      * apply (Hrules _ _ H).
      * reflexivity.
    + apply countRule_In in H. destruct H as [H | (_ & r0 & _ & ->)].
      * apply (Hrules _ _ H).
      * cbn. lia.
Qed.

Lemma ruleExecutionsLoop_consistent lines : forall st,
  countsConsistent st -> countsConsistent (ruleExecutionsLoop lines st).
Proof.
  induction lines as [|line lines IH]; intros st H; cbn [ruleExecutionsLoop];
    [ exact H | apply IH, ruleExecutionsStep_consistent, H ].
Qed.

Lemma initial_consistent : countsConsistent initialRuleExecutions.
Proof.
  split; [ reflexivity | split; [ reflexivity | ] ].
  split; [ intros ? ? [] | split; intros ? ? [] ].
Qed.

(** X4: The breakdown by rule type counts every firing once: its counts are
    positive and add up to [totalExecutions]. *)
Theorem ruleTypeBreakdown_adds_up : forall lines : list string,
  let r := parseRuleExecutions lines in
  sumBy (fun n => n) (RuleExecutionSummary.ruleTypeBreakdown r)
  = RuleExecutionSummary.totalExecutions r
  /\ forall ruleType n,
       In (ruleType, n) (JsMap.entries (RuleExecutionSummary.ruleTypeBreakdown r)) -> 1 <= n.
Proof.
  intros lines.
  destruct (ruleExecutionsLoop_consistent lines _ initial_consistent)
    as (Hb & _ & _ & Hb1 & _).
  split; [ exact Hb | exact Hb1 ].
Qed.

(** X5: Every ruleset of the summary is stored under its own name, with the
    first segment of that name as namespace; its execution count is the sum
    of the counts of its rules, each of which names the ruleset and was
    executed at least once. *)
Theorem ruleset_count_is_sum_of_its_rules : forall (lines : list string) name rs,
  In (name, rs) (JsMap.entries (RuleExecutionSummary.rulesets (parseRuleExecutions lines))) ->
  RulesetSummary.name rs = name
  /\ RulesetSummary.namespace rs = firstSegment name
  /\ RulesetSummary.executionCount rs
     = sumBy RuleStats.executionCount (RulesetSummary.rules rs)
  /\ forall key r, In (key, r) (JsMap.entries (RulesetSummary.rules rs)) ->
                   RuleStats.ruleset r = name /\ 1 <= RuleStats.executionCount r.
Proof.
  intros lines name rs H.
  destruct (ruleExecutionsLoop_consistent lines _ initial_consistent)
    as (_ & _ & _ & _ & Hrs).
  apply Hrs. exact H.
Qed.

Lemma ruleset_count_is_sum_of_its_rules_witness :
  exists rs,
    In ("Pricing", rs)
       (JsMap.entries (RuleExecutionSummary.rulesets
                         (parseRuleExecutions (splitLines clearUserValueTrace))))
    /\ RulesetSummary.executionCount rs
       = sumBy RuleStats.executionCount (RulesetSummary.rules rs).
Proof.
  eexists. split; [ vm_compute; left; reflexivity | ].
  eapply (ruleset_count_is_sum_of_its_rules (splitLines clearUserValueTrace) "Pricing").
  vm_compute. left. reflexivity.
Defined.

Lemma sumBy_bound {V} (w : V -> nat) (m : JsMap.t V) (v : V) :
  In v (JsMap.values m) -> w v <= sumBy w m.
Proof.
  unfold sumBy. induction (JsMap.values m) as [|x l IH]; cbn [In map].
  - intros [].
  - change (list_sum (?a :: ?l)) with (a + list_sum l).
    intros [<- | H]; [ lia | specialize (IH H); lia ].
Qed.

(** X6: [topRules] holds at most 20 rules, by falling execution count; each was
    executed at least once and no more often than there were firings. *)
Theorem topRules_by_falling_count : forall lines : list string,
  let r := parseRuleExecutions lines in
  byFallingCount (RuleExecutionSummary.topRules r)
  /\ List.length (RuleExecutionSummary.topRules r)
     = Nat.min 20 (RuleExecutionSummary.uniqueRules r)
  /\ forall rule, In rule (RuleExecutionSummary.topRules r) ->
       1 <= RuleStats.executionCount rule <= RuleExecutionSummary.totalExecutions r.
Proof.
  intros lines.
  destruct (ruleExecutionsLoop_consistent lines _ initial_consistent)
    as (_ & Hc & Hc1 & _ & _).
  unfold parseRuleExecutions. fold initialRuleExecutions.
  set (st := ruleExecutionsLoop lines initialRuleExecutions) in *.
  cbn [RuleExecutionSummary.topRules RuleExecutionSummary.uniqueRules
       RuleExecutionSummary.totalExecutions].
  set (before := fun a b => RuleStats.executionCount b <=? RuleStats.executionCount a).
  split; [ | split ].
  - unfold byFallingCount. apply StronglySorted_firstn.
    pose proof (stableSort_sorted before) as Hs. unfold sortedBy in Hs.
    eapply StronglySorted_weaken; [ | apply Hs ].
    + intros a b H. unfold before in H. apply Nat.leb_le in H. exact H.
    + intros a b H. unfold before in *. apply Nat.leb_gt in H. apply Nat.leb_le. lia.
    + intros a b c H1 H2. unfold before in *. apply Nat.leb_le in H1, H2. apply Nat.leb_le. lia.
  - rewrite length_firstn.
    rewrite (Permutation_length (RoundTripFacts.stableSort_Permutation before _)).
    unfold JsMap.values, JsMap.size. rewrite length_map. reflexivity.
  - intros rule Hin. apply In_firstn in Hin.
    apply (Permutation_in _ (RoundTripFacts.stableSort_Permutation before _)) in Hin.
    split.
    + pose proof Hin as Hin'. unfold JsMap.values in Hin'. apply in_map_iff in Hin'.
      destruct Hin' as ([key r] & <- & Hin'). cbn [snd]. eapply Hc1, Hin'.
    + rewrite <- Hc. apply sumBy_bound, Hin.
Qed.

End RuleSummaryFacts.

(** ** Variable tracking *)

Module VariableFacts.
Import JsString RegExp TraceParser TraceParserSpec SummarySpec VariableSpec.
Import JsMapFacts SortFacts TraceParserFacts RuleSummaryFacts.

Lemma groupStep_eq m a :
  groupStep m a
  = let key := VariableAssignment.displayName a in
    let base :=
      match JsMap.get m key with
      | Some summary => summary
      | None =>
          {| VariableSummary.name := VariableAssignment.displayName a;
             VariableSummary.rawName := VariableAssignment.variableName a;
             VariableSummary.assignments := [];
             VariableSummary.finalValue := None;
             VariableSummary.assignmentCount := 0;
             VariableSummary.firstAssignmentLine := VariableAssignment.lineNumber a;
             VariableSummary.lastAssignmentLine := VariableAssignment.lineNumber a;
             VariableSummary.hasChanges := false |}
      end in
    JsMap.set m key
      {| VariableSummary.name := VariableSummary.name base;
         VariableSummary.rawName := VariableSummary.rawName base;
         VariableSummary.assignments := VariableSummary.assignments base ++ [a];
         VariableSummary.finalValue := VariableAssignment.resultValue a;
         VariableSummary.assignmentCount := VariableSummary.assignmentCount base + 1;
         VariableSummary.firstAssignmentLine := VariableSummary.firstAssignmentLine base;
         VariableSummary.lastAssignmentLine := VariableAssignment.lineNumber a;
         VariableSummary.hasChanges :=
           if valueChanged a then true else VariableSummary.hasChanges base |}.
Proof.
  unfold groupStep, JsMap.has. cbn zeta.
  destruct (JsMap.get m (VariableAssignment.displayName a)) as [s|] eqn:E.
  - rewrite E. reflexivity.
  - rewrite get_set_same, set_set. reflexivity.
Qed.

Lemma filter_snoc {A} (p : A -> bool) (l : list A) (x : A) :
  filter p (l ++ [x]) = filter p l ++ (if p x then [x] else []).
Proof. rewrite filter_app. reflexivity. Qed.

Lemma groupStep_grouped m done a :
  grouped m done -> grouped (groupStep m a) (done ++ [a]).
Proof.
  intros (Hnone & Hsome & Hsum). rewrite groupStep_eq. cbn zeta.
  set (key := VariableAssignment.displayName a).
  split; [ | split ].
  - intros name. rewrite get_set, filter_snoc. unfold named at 2. fold key.
    destruct (String.eqb key name); [ discriminate | ].
    intros H. rewrite (Hnone _ H). reflexivity.
  - intros name summary. rewrite get_set.
    destruct (String.eqb_spec key name) as [<- | Hne].
    + intros H. injection H as <-.
      unfold summarises.
      cbn [VariableSummary.name VariableSummary.rawName VariableSummary.assignments
           VariableSummary.finalValue VariableSummary.assignmentCount
           VariableSummary.firstAssignmentLine VariableSummary.lastAssignmentLine].
      rewrite filter_snoc. unfold named at 2. fold key. rewrite String.eqb_refl.
      destruct (JsMap.get m key) as [s|] eqn:E.
      * destruct (Hsome _ _ E) as (Hn & Ha & Hc & (first & rest & Hf & Hr & Hl) & _).
        split; [ exact Hn | split; [ rewrite Ha; reflexivity | split ] ].
        { rewrite length_app, Hc. reflexivity. }
        split.
        { exists first, (rest ++ [a]). rewrite Hf. auto. }
        { exists (VariableSummary.assignments s), a. auto. }
      * cbn [VariableSummary.name VariableSummary.rawName VariableSummary.assignments
             VariableSummary.assignmentCount VariableSummary.firstAssignmentLine].
        rewrite (Hnone _ E).
        split; [ reflexivity | split; [ reflexivity | split; [ reflexivity | ] ] ].
        split; [ exists a, []; auto | exists [], a; auto ].
    + intros H. destruct (Hsome _ _ H) as (Hn & Ha & Hc & Hfirst & Hlast).
      unfold summarises. rewrite filter_snoc. unfold named at 2. fold key.
      destruct (String.eqb_spec key name) as [-> | _]; [ contradiction | ].
      rewrite app_nil_r. auto.
  - rewrite length_app. cbn [List.length].
    destruct (JsMap.get m key) as [s|] eqn:E.
    + match goal with
      | |- sumBy _ (JsMap.set _ _ ?new) = _ =>
          pose proof (sumBy_set_present VariableSummary.assignmentCount m key s new E) as H
      end.
      cbn [VariableSummary.assignmentCount] in H. lia.
    + rewrite (sumBy_set_absent _ _ _ _ E). cbn [VariableSummary.assignmentCount]. lia.
Qed.

Lemma groupAssignments_grouped assignments :
  grouped (groupAssignments assignments) assignments.
Proof.
  unfold groupAssignments.
  assert (G : forall l m done, grouped m done -> grouped (fold_left groupStep l m) (done ++ l)).
  { induction l as [|a l IH]; intros m done H; cbn [fold_left].
    - rewrite app_nil_r. exact H.
    - replace (done ++ a :: l) with ((done ++ [a]) ++ l) by (rewrite <- app_assoc; reflexivity).
      apply IH, groupStep_grouped, H. }
  apply (G assignments JsMap.empty []).
  split; [ reflexivity | split; [ intros ? ? H; discriminate H | reflexivity ] ].
Qed.

Lemma groupAssignments_wf assignments : JsMap.wf (groupAssignments assignments).
Proof.
  unfold groupAssignments.
  assert (G : forall l m, JsMap.wf m -> JsMap.wf (fold_left groupStep l m)).
  { induction l as [|a l IH]; intros m H; cbn [fold_left]; [ exact H | ].
    apply IH. rewrite groupStep_eq. apply wf_set, H. }
  apply G. constructor.
Qed.

Lemma size_le_sumBy {V} (w : V -> nat) (m : JsMap.t V) :
  (forall key v, In (key, v) m -> 1 <= w v) -> JsMap.size m <= sumBy w m.
Proof.
  unfold JsMap.size, sumBy, JsMap.values.
  induction m as [|[k v] m IH]; cbn [List.length map snd]; intros H; [ cbn; lia | ].
  change (list_sum (?a :: ?l)) with (a + list_sum l).
  pose proof (H k v (or_introl eq_refl)).
  assert (List.length m <= list_sum (map w (map snd m)))
    by (apply IH; intros; eapply H; right; eassumption).
  lia.
Qed.

(** One assignment per [Variable :] line, at the number of that line. *)
Lemma variableStep_assignments st i line rest :
  (test variablePattern line = false
   /\ assignments (variableStep st i line rest) = assignments st)
  \/ (test variablePattern line = true
      /\ exists a, assignments (variableStep st i line rest) = assignments st ++ [a]
                   /\ VariableAssignment.lineNumber a = i + 1).
Proof.
  rewrite test_exec. unfold variableStep.
  destruct (exec variablePattern line) as [varMatch|].
  - right. split; [ reflexivity | ].
    destruct (exec rulesetPattern line); eexists; cbn [assignments]; split; reflexivity.
  - left. split; [ reflexivity | ]. destruct (exec rulesetPattern line); reflexivity.
Qed.

Lemma variableLoop_assignments lines : forall i st,
  exists new,
    assignments (variableLoop lines i st) = assignments st ++ new
    /\ List.length new = variableLines lines
    /\ Forall (fun a => i < VariableAssignment.lineNumber a <= i + List.length lines) new
    /\ StronglySorted (fun a b => VariableAssignment.lineNumber a < VariableAssignment.lineNumber b)
         new.
Proof.
  induction lines as [|line lines IH]; intros i st; cbn [variableLoop].
  - exists []. rewrite app_nil_r. repeat split; constructor.
  - destruct (IH (S i) (variableStep st i line lines)) as (new2 & H2 & Hl2 & Hf2 & Hs2).
    assert (Hf2' : Forall (fun a => i < VariableAssignment.lineNumber a
                                    <= i + List.length (line :: lines)) new2).
    { eapply Forall_impl; [ | exact Hf2 ]. cbn [List.length]. intros a Ha. cbn beta in Ha. lia. }
    unfold variableLines. cbn [filter].
    destruct (variableStep_assignments st i line lines) as [[Ht H1] | (Ht & a & H1 & Ha)];
      rewrite Ht.
    + exists new2. rewrite H2, H1. auto.
    + exists (a :: new2). rewrite H2, H1, <- app_assoc.
      split; [ reflexivity | split; [ cbn [List.length]; f_equal; exact Hl2 | split ] ].
      * constructor; [ cbn [List.length]; lia | exact Hf2' ].
      * constructor; [ exact Hs2 | ].
        eapply Forall_impl; [ | exact Hf2 ]. intros b Hb. cbn beta in Hb. lia.
Qed.

Lemma StronglySorted_filter {A} (R : A -> A -> Prop) (p : A -> bool) (l : list A) :
  StronglySorted R l -> StronglySorted R (filter p l).
Proof.
  induction 1 as [|x l Hs IH Hx]; cbn [filter]; [ constructor | ].
  destruct (p x); [ | exact IH ].
  constructor; [ exact IH | ].
  rewrite Forall_forall in *. intros y Hy. apply filter_In in Hy. apply Hx, Hy.
Qed.

(** X7: Every summary of the variable tracker holds exactly the assignments
    shown under its name, in the order of the trace and at least one: it is
    named after them, it has the raw name and the line of the first of them
    and the result and the line of the last, its count is their number, and
    its first line is not after its last. *)
Theorem variable_summary_holds_its_assignments : forall (lines : list string) name summary,
  JsMap.get (VariableTrackingSummary.variables (parseVariableAssignments lines)) name
  = Some summary ->
  summarises (allAssignments lines) name summary
  /\ 1 <= VariableSummary.assignmentCount summary
  /\ 1 <= VariableSummary.firstAssignmentLine summary
     <= VariableSummary.lastAssignmentLine summary
  /\ VariableSummary.lastAssignmentLine summary <= List.length lines.
Proof.
  intros lines name summary H.
  unfold parseVariableAssignments in H. fold initialVariables in H.
  fold (allAssignments lines) in H. cbn [VariableTrackingSummary.variables] in H.
  destruct (groupAssignments_grouped (allAssignments lines)) as (_ & Hsome & _).
  pose proof (Hsome _ _ H) as Hs. split; [ exact Hs | ].
  destruct Hs as (Hn & Ha & Hc & (first & rest & Hf & Hr & Hl) & (front & final & Hf' & Hv & Hl')).
  destruct (variableLoop_assignments lines 0 initialVariables) as (new & Hnew & _ & Hb & Hs).
  cbn [assignments initialVariables app] in Hnew. fold (allAssignments lines) in Hnew.
  rewrite <- Hnew in Hb, Hs.
  assert (Hin : forall a, In a (VariableSummary.assignments summary) ->
                          1 <= VariableAssignment.lineNumber a <= List.length lines).
  { intros a Hin. rewrite Ha in Hin. apply filter_In in Hin. destruct Hin as [Hin _].
    rewrite Forall_forall in Hb. specialize (Hb a Hin). lia. }
  assert (Hsorted : StronglySorted
                      (fun a b => VariableAssignment.lineNumber a < VariableAssignment.lineNumber b)
                      (VariableSummary.assignments summary)).
  { rewrite Ha. apply StronglySorted_filter, Hs. }
  split; [ rewrite Hc, Hf; cbn; lia | ].
  assert (H1 : In first (VariableSummary.assignments summary)) by (rewrite Hf; left; reflexivity).
  assert (H2 : In final (VariableSummary.assignments summary))
    by (rewrite Hf'; apply in_or_app; right; left; reflexivity).
  rewrite Hl, Hl'. pose proof (Hin _ H1). pose proof (Hin _ H2).
  split; [ split; [ lia | ] | lia ].
  rewrite Hf in Hsorted, Hf'. inversion Hsorted as [|? ? _ Hlt]; subst.
  destruct front as [|x front]; cbn [app] in Hf'; injection Hf' as <- Hrest.
  - lia.
  - rewrite Forall_forall in Hlt.
    assert (Hfin : In final rest) by (rewrite Hrest; apply in_or_app; right; left; reflexivity).
    specialize (Hlt _ Hfin). lia.
Qed.

Lemma variable_summary_holds_its_assignments_witness :
  exists summary,
    JsMap.get (VariableTrackingSummary.variables
                 (parseVariableAssignments (splitLines changedVariableTrace))) "X"
    = Some summary
    /\ summarises (allAssignments (splitLines changedVariableTrace)) "X" summary.
Proof.
  eexists. split; [ vm_compute; reflexivity | ].
  eapply (variable_summary_holds_its_assignments (splitLines changedVariableTrace) "X").
  vm_compute. reflexivity.
Defined.

(** X8: The variable tracker records one assignment for every [Variable :]
    line of the trace, and the assignment counts of its summaries add up to
    that number. *)
Theorem variable_assignments_are_counted : forall lines : list string,
  let r := parseVariableAssignments lines in
  VariableTrackingSummary.totalAssignments r = variableLines lines
  /\ sumBy VariableSummary.assignmentCount (VariableTrackingSummary.variables r)
     = VariableTrackingSummary.totalAssignments r
  /\ VariableTrackingSummary.uniqueVariables r <= VariableTrackingSummary.totalAssignments r.
Proof.
  intros lines. unfold parseVariableAssignments. fold initialVariables.
  fold (allAssignments lines).
  cbn [VariableTrackingSummary.totalAssignments VariableTrackingSummary.variables
       VariableTrackingSummary.uniqueVariables].
  destruct (variableLoop_assignments lines 0 initialVariables) as (new & Hnew & Hlen & _).
  cbn [assignments initialVariables app] in Hnew. fold (allAssignments lines) in Hnew.
  destruct (groupAssignments_grouped (allAssignments lines)) as (_ & Hsome & Hsum).
  split; [ rewrite Hnew; exact Hlen | split; [ exact Hsum | ] ].
  rewrite <- Hsum.
  apply size_le_sumBy. intros name summary Hin.
  apply (In_get _ _ _ (groupAssignments_wf _)) in Hin.
  destruct (Hsome _ _ Hin) as (_ & _ & Hc & (first & rest & Hf & _) & _).
  rewrite Hc, Hf. cbn. lia.
Qed.

End VariableFacts.

(** ** The timeline *)

Module TimelineFacts.
Import JsString RegExp TraceParser TraceParserSpec TimelineSpec.
Import JsMapFacts SortFacts TraceParserFacts.

Lemma addChild_nth c : forall es base p i,
  numberedFrom base es ->
  nth_error (addChild es (base + p) c) i
  = option_map (fun e => if i =? p then withChild e c else e) (nth_error es i).
Proof.
  induction es as [|e rest IH]; intros base p i Hn; cbn [addChild].
  - destruct i; reflexivity.
  - pose proof (Hn 0 e eq_refl) as He. rewrite Nat.add_0_r in He.
    assert (Hrest : numberedFrom (S base) rest).
    { intros j x Hj. rewrite (Hn (S j) x Hj). lia. }
    destruct p as [|p].
    + replace (RuleExecution.executionId e =? base + 0) with true
        by (symmetry; apply Nat.eqb_eq; lia).
      destruct i; [ reflexivity | ].
      cbn [nth_error Nat.eqb]. destruct (nth_error rest i); reflexivity.
    + replace (RuleExecution.executionId e =? base + S p) with false
        by (symmetry; apply Nat.eqb_neq; lia).
      destruct i as [|i]; [ reflexivity | ].
      cbn [nth_error]. replace (base + S p) with (S base + p) by lia.
      rewrite (IH (S base) p i Hrest). reflexivity.
Qed.

Lemma addChild_lineNumbers es p c :
  map RuleExecution.lineNumber (addChild es p c) = map RuleExecution.lineNumber es.
Proof.
  induction es as [|e rest IH]; cbn [addChild map]; [ reflexivity | ].
  destruct (RuleExecution.executionId e =? p); cbn [map]; [ reflexivity | ].
  rewrite IH. reflexivity.
Qed.

Lemma topOf_In stack top : topOf stack = Some top -> In top stack.
Proof.
  unfold topOf. induction stack as [|s stack IH]; cbn [map last]; [ discriminate | ].
  destruct stack as [|s' stack'].
  - cbn. intros H. injection H as <-. left. reflexivity.
  - intros H. right. apply IH. exact H.
Qed.

Lemma topOf_snoc stack s : topOf (stack ++ [s]) = Some s.
Proof.
  unfold topOf. rewrite map_app. cbn [map]. apply last_last.
Qed.

Lemma nth_error_snoc {A} (l : list A) (x : A) (i : nat) :
  nth_error (l ++ [x]) i
  = if i <? List.length l then nth_error l i
    else if i =? List.length l then Some x else None.
Proof.
  destruct (Nat.ltb_spec i (List.length l)).
  - apply nth_error_app1. assumption.
  - rewrite nth_error_app2 by assumption.
    destruct (Nat.eqb_spec i (List.length l)) as [-> | Hne].
    + rewrite Nat.sub_diag. reflexivity.
    + destruct (i - List.length l) as [|k] eqn:E; [ lia | ]. cbn. destruct k; reflexivity.
Qed.

(** What one round of the loop does to the list of executions: it appends
    one execution, and lists it as a child of its parent. *)
Lemma timelineStep_executions st i line next :
  timelineInvariant i st ->
  timelineStep st i line next = st
  \/ exists e stack,
       let n := List.length (executions st) in
       RuleExecution.executionId e = n
       /\ RuleExecution.childExecutionIds e = []
       /\ RuleExecution.lineNumber e = i + 1
       /\ RuleExecution.duration e
          = {| Duration.startLine := i + 1; Duration.endLine := i + 1 |}
       /\ RuleExecution.depth e = List.length stack
       /\ incl stack (rulesetStack st)
       /\ RuleExecution.parentExecutionId e
          = match topOf stack with
            | Some parent =>
                if negb (String.eqb (stackRuleset parent) (RuleExecution.ruleset e))
                then Some (stackExecutionId parent) else None
            | None => None
            end
       /\ executionId (timelineStep st i line next) = S n
       /\ currentDepth (timelineStep st i line next)
          = List.length (rulesetStack (timelineStep st i line next))
       /\ rulesetStack (timelineStep st i line next)
          = (if String.eqb (RuleExecution.ruleType e) "LoadRulesetRule"
             then stack ++ [ {| stackRuleset := RuleExecution.ruleset e;
                                stackExecutionId := n |} ]
             else stack)
       /\ map RuleExecution.lineNumber (executions (timelineStep st i line next))
          = map RuleExecution.lineNumber (executions st) ++ [i + 1]
       /\ (forall j,
             nth_error (executions (timelineStep st i line next)) j
             = if j <? n then
                 option_map
                   (fun x => match RuleExecution.parentExecutionId e with
                             | Some p => if j =? p then withChild x n else x
                             | None => x
                             end)
                   (nth_error (executions st) j)
               else if j =? n then Some e else None).
Proof.
  intros (Hid & Hnum & Hdepth & Hstack & _). unfold timelineStep.
  destruct (exec rulesetPattern line) as [ruleMatch|]; [ right | left; reflexivity ].
  set (ruleset := group 1 ruleMatch).
  set (ruleType := match ruleTypeAfter ruleTypesWithClear next with
                   | Some t => t | None => "Unknown" end).
  destruct (if JsSet.has (seenRulesets st) ruleset
            then (seenRulesets st, rulesetOrder st)
            else (JsSet.add (seenRulesets st) ruleset, rulesetOrder st ++ [ruleset]))
    as [seen order].
  assert (Hpop : exists stack,
             match topOf (rulesetStack st) with
             | Some top =>
                 if negb (String.eqb (stackRuleset top) ruleset) then
                   match findIndex (rulesetStack st) ruleset with
                   | Some stackIndex =>
                       (firstn (stackIndex + 1) (rulesetStack st),
                        List.length (firstn (stackIndex + 1) (rulesetStack st)))
                   | None => (rulesetStack st, currentDepth st)
                   end
                 else (rulesetStack st, currentDepth st)
             | None => (rulesetStack st, currentDepth st)
             end = (stack, List.length stack)
             /\ incl stack (rulesetStack st)).
  { rewrite Hdepth.
    destruct (topOf (rulesetStack st)) as [top|];
      [ | eexists; split; [ reflexivity | apply incl_refl ] ].
    destruct (negb _); [ | eexists; split; [ reflexivity | apply incl_refl ] ].
    destruct (findIndex _ _) as [stackIndex|];
      [ | eexists; split; [ reflexivity | apply incl_refl ] ].
    eexists; split; [ reflexivity | ]. intros x Hx. eapply In_firstn, Hx. }
  destruct Hpop as (stack & -> & Hincl).
  set (parentExecutionId :=
         match topOf stack with
         | Some parent =>
             if negb (String.eqb (stackRuleset parent) ruleset)
             then Some (stackExecutionId parent) else None
         | None => None
         end).
  set (e := {| RuleExecution.executionId := executionId st;
               RuleExecution.ruleId := group 2 ruleMatch;
               RuleExecution.ruleName := trim (group 3 ruleMatch);
               RuleExecution.ruleType := ruleType;
               RuleExecution.ruleset := ruleset;
               RuleExecution.lineNumber := i + 1;
               RuleExecution.depth := List.length stack;
               RuleExecution.parentExecutionId := parentExecutionId;
               RuleExecution.childExecutionIds := [];
               RuleExecution.duration :=
                 {| Duration.startLine := i + 1; Duration.endLine := i + 1 |} |}).
  exists e, stack. cbn zeta.
  split; [ exact Hid | ].
  split; [ reflexivity | split; [ reflexivity | split; [ reflexivity | ] ] ].
  split; [ reflexivity | ].
  split; [ exact Hincl | split; [ reflexivity | ] ].
  assert (Hp : forall p, parentExecutionId = Some p -> p < List.length (executions st)).
  { unfold parentExecutionId. intros p.
    destruct (topOf stack) as [parent|] eqn:Etop; [ | discriminate ].
    destruct (negb _); [ | discriminate ].
    intros H. injection H as <-.
    destruct (Hstack parent (Hincl _ (topOf_In _ _ Etop))) as (x & Hx & _).
    apply nth_error_Some. rewrite Hx. discriminate. }
  assert (Hnum1 : numberedFrom 0 (executions st ++ [e])).
  { intros k x. rewrite nth_error_snoc.
    destruct (k <? List.length (executions st)); [ apply Hnum | ].
    destruct (Nat.eqb_spec k (List.length (executions st))); [ | discriminate ].
    intros H. injection H as <-. cbn. lia. }
  assert (Hnth : forall j,
             nth_error
               (match parentExecutionId with
                | Some parentId => addChild (executions st ++ [e]) parentId (executionId st)
                | None => executions st ++ [e]
                end) j
             = if j <? List.length (executions st) then
                 option_map
                   (fun x => match parentExecutionId with
                             | Some p => if j =? p then withChild x (executionId st) else x
                             | None => x
                             end)
                   (nth_error (executions st) j)
               else if j =? List.length (executions st) then Some e else None).
  { intros j. destruct parentExecutionId as [p|].
    - specialize (Hp p eq_refl).
      rewrite (addChild_nth _ _ 0 p j Hnum1), nth_error_snoc.
      destruct (Nat.ltb_spec j (List.length (executions st))); [ reflexivity | ].
      destruct (Nat.eqb_spec j (List.length (executions st))); [ | reflexivity ].
      cbn [option_map]. replace (j =? p) with false by (symmetry; apply Nat.eqb_neq; lia).
      reflexivity.
    - rewrite nth_error_snoc.
      destruct (j <? List.length (executions st)); [ | reflexivity ].
      destruct (nth_error (executions st) j); reflexivity. }
  cbn [RuleExecution.ruleType RuleExecution.ruleset RuleExecution.parentExecutionId e].
  fold parentExecutionId. rewrite <- Hid.
  destruct (String.eqb ruleType "LoadRulesetRule");
    cbn [executionId currentDepth rulesetStack executions];
    (split; [ lia | ]);
    (split; [ rewrite ?length_app; cbn [List.length]; lia | ]);
    (split; [ reflexivity | ]);
    (split; [ destruct parentExecutionId; rewrite ?addChild_lineNumbers, map_app; reflexivity | ]);
    intros j; rewrite Hnth, Hid; reflexivity.
Qed.

Lemma length_by_nth {A} (l : list A) (n : nat) (x : A) :
  nth_error l n = Some x -> nth_error l (S n) = None -> List.length l = S n.
Proof.
  intros H1 H2. apply nth_error_None in H2.
  assert (n < List.length l) by (apply nth_error_Some; rewrite H1; discriminate). lia.
Qed.

Lemma timelineStep_invariant st i line next :
  timelineInvariant i st -> timelineInvariant (S i) (timelineStep st i line next).
Proof.
  intros Hinv.
  pose proof Hinv as (Hid & Hnum & Hdepth & Hstack & [Hup Hdown] & Hlines & Hsorted & Hdur).
  destruct (timelineStep_executions st i line next Hinv)
    as [-> | (e & stack & He)].
  { split; [ exact Hid | split; [ exact Hnum | split; [ exact Hdepth | ] ] ].
    split; [ exact Hstack | split; [ exact (conj Hup Hdown) | ] ].
    split; [ | split; [ exact Hsorted | exact Hdur ] ].
    eapply Forall_impl; [ | exact Hlines ]. intros l Hl. cbn beta in Hl. lia. }
  cbn zeta in He.
  destruct He as (Heid & Hechildren & Heline & Hedur & Hedepth & Hincl & Heparent
                  & Hid' & Hdepth' & Hstack' & Hmap & Hnth).
  set (n := List.length (executions st)) in *.
  set (st' := timelineStep st i line next) in *.
  assert (Hlen : List.length (executions st') = S n).
  { apply (length_by_nth _ n e); rewrite Hnth.
    - rewrite Nat.ltb_irrefl, Nat.eqb_refl. reflexivity.
    - replace (S n <? n) with false by (symmetry; apply Nat.ltb_ge; lia).
      replace (S n =? n) with false by (symmetry; apply Nat.eqb_neq; lia). reflexivity. }
  assert (Hold : forall j x, j < n -> nth_error (executions st) j = Some x ->
             exists x', nth_error (executions st') j = Some x'
                        /\ RuleExecution.executionId x' = RuleExecution.executionId x
                        /\ RuleExecution.ruleType x' = RuleExecution.ruleType x
                        /\ RuleExecution.ruleset x' = RuleExecution.ruleset x
                        /\ RuleExecution.depth x' = RuleExecution.depth x
                        /\ RuleExecution.parentExecutionId x' = RuleExecution.parentExecutionId x
                        /\ RuleExecution.duration x' = RuleExecution.duration x
                        /\ RuleExecution.lineNumber x' = RuleExecution.lineNumber x
                        /\ (forall c, In c (RuleExecution.childExecutionIds x) ->
                                      In c (RuleExecution.childExecutionIds x'))
                        /\ (forall c, In c (RuleExecution.childExecutionIds x') ->
                                      In c (RuleExecution.childExecutionIds x)
                                      \/ (c = n /\ RuleExecution.parentExecutionId e = Some j))).
  { intros j x Hj Hx. rewrite Hnth, Hx.
    replace (j <? n) with true by (symmetry; apply Nat.ltb_lt; lia). cbn [option_map].
    eexists. split; [ reflexivity | ].
    destruct (RuleExecution.parentExecutionId e) as [p|]; [ | repeat split; auto ].
    destruct (Nat.eqb_spec j p) as [-> | _]; [ | repeat split; auto ].
    cbn [withChild RuleExecution.executionId RuleExecution.ruleType RuleExecution.ruleset
         RuleExecution.depth RuleExecution.parentExecutionId RuleExecution.childExecutionIds
         RuleExecution.duration RuleExecution.lineNumber].
    repeat split; auto.
    - intros c Hc. apply in_or_app. left. exact Hc.
    - intros c Hc. apply in_app_or in Hc. destruct Hc as [Hc | [<- | []]]; auto. }
  assert (Hcases : forall j x, nth_error (executions st') j = Some x ->
             (j < n /\ exists x0, nth_error (executions st) j = Some x0)
             \/ (j = n /\ x = e)).
  { intros j x. rewrite Hnth.
    destruct (Nat.ltb_spec j n).
    - destruct (nth_error (executions st) j) as [x0|]; [ | discriminate ].
      intros _. left. split; [ assumption | exists x0; reflexivity ].
    - destruct (Nat.eqb_spec j n); [ | discriminate ].
      intros H'. injection H' as <-. right. auto. }
  assert (Hnew : nth_error (executions st') n = Some e).
  { rewrite Hnth, Nat.ltb_irrefl, Nat.eqb_refl. reflexivity. }
  assert (Hbound : forall j x, nth_error (executions st) j = Some x -> j < n).
  { intros j x Hx. apply nth_error_Some. rewrite Hx. discriminate. }
  unfold timelineInvariant. fold st'.
  split; [ lia | ].
  split; [ | split; [ exact Hdepth' | split; [ | split; [ split | split; [ | split ] ] ] ] ].
  - (* the identifiers *)
    intros j x Hx. destruct (Hcases j x Hx) as [(Hj & x0 & Hx0) | [-> ->]].
    + destruct (Hold j x0 Hj Hx0) as (x' & Hx' & Hi & _).
      rewrite Hx in Hx'. injection Hx' as <-. rewrite Hi. apply Hnum, Hx0.
    + exact Heid.
  - (* the stack *)
    intros s Hs. rewrite Hstack' in Hs.
    assert (Hin : In s stack
                  \/ (RuleExecution.ruleType e = "LoadRulesetRule"
                      /\ s = {| stackRuleset := RuleExecution.ruleset e;
                                stackExecutionId := n |})).
    { destruct (String.eqb_spec (RuleExecution.ruleType e) "LoadRulesetRule"); [ | auto ].
      apply in_app_or in Hs. destruct Hs as [Hs | [<- | []]]; auto. }
    destruct Hin as [Hin | [Hty ->]].
    + destruct (Hstack s (Hincl s Hin)) as (x & Hx & Hty & Hrs).
      destruct (Hold _ x (Hbound _ _ Hx) Hx) as (x' & Hx' & _ & Hty' & Hrs' & _).
      exists x'. rewrite Hty', Hrs'. auto.
    + exists e. cbn [stackExecutionId stackRuleset]. auto.
  - (* from a child to its parent *)
    intros j x p Hx Hp. destruct (Hcases j x Hx) as [(Hj & x0 & Hx0) | [-> ->]].
    + destruct (Hold j x0 Hj Hx0) as (x' & Hx' & _ & _ & Hrs & Hd & Hpar & _).
      rewrite Hx in Hx'. injection Hx' as <-. rewrite Hpar in Hp.
      destruct (Hup j x0 p Hx0 Hp) as (Hlt & Hdp & parent & Hparent & Hty & Hne & Hin).
      split; [ exact Hlt | split; [ lia | ] ].
      destruct (Hold p parent ltac:(lia) Hparent)
        as (parent' & Hparent' & _ & Hty' & Hrs' & _ & _ & _ & _ & Hch & _).
      exists parent'. rewrite Hty', Hrs', Hrs. auto.
    + rewrite Heparent in Hp.
      destruct (topOf stack) as [top|] eqn:Etop; [ | discriminate ].
      destruct (negb _) eqn:Ene; [ | discriminate ]. injection Hp as <-.
      pose proof (topOf_In _ _ Etop) as Htop.
      destruct (Hstack top (Hincl _ Htop)) as (parent & Hparent & Hty & Hrs).
      pose proof (Hbound _ _ Hparent) as Hlt.
      split; [ exact Hlt | split ].
      { rewrite Hedepth. destruct stack; [ destruct Htop | cbn; lia ]. }
      destruct (Hold _ parent Hlt Hparent) as (parent' & Hparent' & _ & Hty' & Hrs' & _).
      exists parent'. rewrite Hty', Hrs'.
      split; [ exact Hparent' | split; [ exact Hty | split ] ].
      { rewrite Hrs. apply negb_true_iff, String.eqb_neq in Ene. exact Ene. }
      rewrite Hnth in Hparent'.
      replace (stackExecutionId top <? n) with true in Hparent'
        by (symmetry; apply Nat.ltb_lt; lia).
      rewrite Hparent, Heparent, Nat.eqb_refl in Hparent'.
      cbn [option_map] in Hparent'. injection Hparent' as <-.
      cbn [withChild RuleExecution.childExecutionIds]. apply in_or_app. right. left. reflexivity.
  - (* from a parent to its children *)
    intros p parent c Hparent Hc.
    destruct (Hcases p parent Hparent) as [(Hp & parent0 & Hparent0) | [-> ->]].
    + destruct (Hold p parent0 Hp Hparent0)
        as (parent' & Hparent' & _ & _ & _ & _ & _ & _ & _ & _ & Hch).
      rewrite Hparent in Hparent'. injection Hparent' as <-.
      destruct (Hch c Hc) as [Hc0 | [-> Hpar]].
      * destruct (Hdown p parent0 c Hparent0 Hc0) as (x & Hx & Hxp).
        destruct (Hold c x (Hbound _ _ Hx) Hx) as (x' & Hx' & _ & _ & _ & _ & Hpar' & _).
        exists x'. rewrite Hpar'. auto.
      * exists e. auto.
    + rewrite Hechildren in Hc. destruct Hc.
  - (* the lines *)
    rewrite Hmap. apply Forall_app. split.
    + eapply Forall_impl; [ | exact Hlines ]. intros l Hl. cbn beta in Hl. lia.
    + constructor; [ lia | constructor ].
  - rewrite Hmap. clear - Hsorted Hlines.
    induction (map RuleExecution.lineNumber (executions st)) as [|l ls IH]; cbn [app].
    + constructor; constructor.
    + inversion Hsorted as [|? ? Hs Hl]; subst. inversion Hlines as [|? ? Hb Hbs]; subst.
      constructor; [ apply IH; assumption | ].
      apply Forall_app. split; [ exact Hl | constructor; [ lia | constructor ] ].
  - (* the durations *)
    rewrite Forall_forall in *. intros x Hx. apply In_nth_error in Hx. destruct Hx as [j Hx].
    destruct (Hcases j x Hx) as [(Hj & x0 & Hx0) | [-> ->]].
    + destruct (Hold j x0 Hj Hx0) as (x' & Hx' & _ & _ & _ & _ & _ & Hd & Hl & _).
      rewrite Hx in Hx'. injection Hx' as <-. rewrite Hd, Hl.
      apply Hdur. eapply nth_error_In, Hx0.
    + rewrite Hedur, Heline. reflexivity.
Qed.

Lemma timelineLoop_invariant lines : forall i st,
  timelineInvariant i st ->
  timelineInvariant (i + List.length lines) (timelineLoop lines i st).
Proof.
  induction lines as [|line lines IH]; intros i st H; cbn [timelineLoop List.length].
  - rewrite Nat.add_0_r. exact H.
  - replace (i + S (List.length lines)) with (S i + List.length lines) by lia.
    apply IH, timelineStep_invariant, H.
Qed.

Lemma initialTimeline_invariant : timelineInvariant 0 initialTimeline.
Proof.
  unfold timelineInvariant, initialTimeline. cbn.
  split; [ reflexivity | ].
  split; [ intros [|i] e H; discriminate H | ].
  split; [ reflexivity | ].
  split; [ intros s [] | ].
  split; [ split; [ intros [|i] e p H; discriminate H | intros [|p] parent c H; discriminate H ] | ].
  split; [ constructor | split; constructor ].
Qed.

(** The second loop changes durations only. *)
Lemma setDurations_nth : forall es i,
  nth_error (setDurations es) i
  = match nth_error es i with
    | Some e =>
        Some match nth_error es (S i) with
             | Some e' =>
                 withDuration e {| Duration.startLine := RuleExecution.lineNumber e;
                                   Duration.endLine := RuleExecution.lineNumber e' - 1 |}
             | None => e
             end
    | None => None
    end.
Proof.
  induction es as [|e es IH]; intros i; [ destruct i; reflexivity | ].
  destruct es as [|e' es].
  - destruct i as [|[|i]]; reflexivity.
  - change (setDurations (e :: e' :: es))
      with (withDuration e {| Duration.startLine := RuleExecution.lineNumber e;
                              Duration.endLine := RuleExecution.lineNumber e' - 1 |}
            :: setDurations (e' :: es)).
    destruct i as [|i]; [ reflexivity | ].
    cbn [nth_error]. rewrite IH. reflexivity.
Qed.

Lemma setDurations_fields es i e :
  nth_error (setDurations es) i = Some e ->
  exists e0,
    nth_error es i = Some e0
    /\ RuleExecution.executionId e = RuleExecution.executionId e0
    /\ RuleExecution.ruleType e = RuleExecution.ruleType e0
    /\ RuleExecution.ruleset e = RuleExecution.ruleset e0
    /\ RuleExecution.lineNumber e = RuleExecution.lineNumber e0
    /\ RuleExecution.depth e = RuleExecution.depth e0
    /\ RuleExecution.parentExecutionId e = RuleExecution.parentExecutionId e0
    /\ RuleExecution.childExecutionIds e = RuleExecution.childExecutionIds e0.
Proof.
  rewrite setDurations_nth. set (next := nth_error es (S i)).
  destruct (nth_error es i) as [e0|]; [ | discriminate ].
  intros H. injection H as <-. exists e0.
  destruct next; repeat split; reflexivity.
Qed.

Lemma setDurations_keeps es i e0 :
  nth_error es i = Some e0 ->
  exists e,
    nth_error (setDurations es) i = Some e
    /\ RuleExecution.executionId e = RuleExecution.executionId e0
    /\ RuleExecution.ruleType e = RuleExecution.ruleType e0
    /\ RuleExecution.ruleset e = RuleExecution.ruleset e0
    /\ RuleExecution.lineNumber e = RuleExecution.lineNumber e0
    /\ RuleExecution.depth e = RuleExecution.depth e0
    /\ RuleExecution.parentExecutionId e = RuleExecution.parentExecutionId e0
    /\ RuleExecution.childExecutionIds e = RuleExecution.childExecutionIds e0.
Proof.
  intros H. rewrite setDurations_nth, H. set (next := nth_error es (S i)).
  eexists. split; [ reflexivity | ].
  destruct next; repeat split; reflexivity.
Qed.

Lemma setDurations_lineNumbers es :
  map RuleExecution.lineNumber (setDurations es) = map RuleExecution.lineNumber es.
Proof.
  induction es as [|e es IH]; [ reflexivity | ].
  destruct es as [|e' es]; [ reflexivity | ].
  change (setDurations (e :: e' :: es))
    with (withDuration e {| Duration.startLine := RuleExecution.lineNumber e;
                            Duration.endLine := RuleExecution.lineNumber e' - 1 |}
          :: setDurations (e' :: es)).
  cbn [map]. rewrite IH. reflexivity.
Qed.

Lemma timeline_executions lines :
  RuleExecutionTimeline.executions (parseRuleExecutionTimeline lines)
  = setDurations (executions (timelineLoop lines 0 initialTimeline)).
Proof.
  unfold parseRuleExecutionTimeline. fold initialTimeline.
  destruct (hotspotLoop _ _ _ _). reflexivity.
Qed.

Lemma StronglySorted_nth (l : list nat) i j a b :
  StronglySorted lt l -> i < j -> nth_error l i = Some a -> nth_error l j = Some b -> a < b.
Proof.
  intros Hs. revert i j. induction Hs as [|x l Hs IH Hx]; intros i j Hij Ha Hb.
  - destruct i; discriminate.
  - destruct j as [|j]; [ lia | ]. destruct i as [|i].
    + cbn in Ha, Hb. injection Ha as <-. rewrite Forall_forall in Hx.
      apply Hx. eapply nth_error_In, Hb.
    + cbn in Ha, Hb. apply (IH i j); [ lia | assumption | assumption ].
Qed.

(** X9: The executions of the timeline are numbered from 0 in the order of the
    trace; each is at the line of its firing, so that the line numbers
    increase; and each lasts from its line to the line before the next
    execution, the last one for its own line only. *)
Theorem timeline_follows_the_trace : forall lines : list string,
  let es := RuleExecutionTimeline.executions (parseRuleExecutionTimeline lines) in
  numberedFrom 0 es
  /\ Forall (fun line => 1 <= line <= List.length lines) (map RuleExecution.lineNumber es)
  /\ StronglySorted lt (map RuleExecution.lineNumber es)
  /\ forall i e,
       nth_error es i = Some e ->
       Duration.startLine (RuleExecution.duration e) = RuleExecution.lineNumber e
       /\ Duration.endLine (RuleExecution.duration e)
          = match nth_error es (S i) with
            | Some next => RuleExecution.lineNumber next - 1
            | None => RuleExecution.lineNumber e
            end
       /\ Duration.startLine (RuleExecution.duration e)
          <= Duration.endLine (RuleExecution.duration e).
Proof.
  intros lines. cbn zeta. rewrite timeline_executions.
  pose proof (timelineLoop_invariant lines 0 initialTimeline initialTimeline_invariant)
    as (_ & Hnum & _ & _ & _ & Hlines & Hsorted & Hdur).
  cbn [Nat.add] in Hlines.
  set (es := executions (timelineLoop lines 0 initialTimeline)) in *.
  split; [ | split; [ | split ] ].
  - intros i e He. destruct (setDurations_fields _ _ _ He) as (e0 & He0 & -> & _).
    apply Hnum, He0.
  - rewrite setDurations_lineNumbers. exact Hlines.
  - rewrite setDurations_lineNumbers. exact Hsorted.
  - intros i e He. rewrite setDurations_nth in He.
    destruct (nth_error es i) as [e0|] eqn:E0; [ | discriminate ].
    rewrite setDurations_nth.
    destruct (nth_error es (S i)) as [e1|] eqn:E1; injection He as <-.
    + assert (Hlt : RuleExecution.lineNumber e0 < RuleExecution.lineNumber e1).
      { apply (StronglySorted_nth _ i (S i) _ _ Hsorted); [ lia | | ];
          rewrite nth_error_map; [ rewrite E0 | rewrite E1 ]; reflexivity. }
      destruct (nth_error es (S (S i)));
        cbn [withDuration RuleExecution.duration RuleExecution.lineNumber
             Duration.startLine Duration.endLine]; repeat split; lia.
    + rewrite Forall_forall in Hdur. rewrite (Hdur e0 (nth_error_In _ _ E0)).
      cbn [Duration.startLine Duration.endLine]. repeat split; lia.
Qed.

(** X10: The parent and child links of the timeline agree.  The parent of an
    execution is an earlier execution of the type LoadRulesetRule, of another
    ruleset, that lists the execution among its children, and an execution
    with a parent is at depth 1 or more; every child that an execution lists
    names it as its parent. *)
Theorem timeline_links_agree : forall lines : list string,
  linked (RuleExecutionTimeline.executions (parseRuleExecutionTimeline lines)).
Proof.
  intros lines. rewrite timeline_executions.
  pose proof (timelineLoop_invariant lines 0 initialTimeline initialTimeline_invariant)
    as (_ & _ & _ & _ & [Hup Hdown] & _).
  set (es := executions (timelineLoop lines 0 initialTimeline)) in *.
  split.
  - intros i e p He Hp.
    destruct (setDurations_fields _ _ _ He) as (e0 & He0 & _ & _ & Hrs & _ & Hd & Hpar & _).
    rewrite Hpar in Hp.
    destruct (Hup i e0 p He0 Hp) as (Hlt & Hdp & parent0 & Hparent0 & Hty & Hne & Hin).
    split; [ exact Hlt | split; [ lia | ] ].
    destruct (setDurations_keeps _ _ _ Hparent0)
      as (parent & Hparent & _ & Hty' & Hrs' & _ & _ & _ & Hch).
    exists parent. rewrite Hty', Hrs', Hrs, Hch. auto.
  - intros p parent c Hparent Hc.
    destruct (setDurations_fields _ _ _ Hparent) as (parent0 & Hparent0 & _ & _ & _ & _ & _ & _ & Hch).
    rewrite Hch in Hc.
    destruct (Hdown p parent0 c Hparent0 Hc) as (e0 & He0 & Hpar).
    destruct (setDurations_keeps _ _ _ He0) as (e & He & _ & _ & _ & _ & _ & Hpar' & _).
    exists e. rewrite Hpar'. auto.
Qed.

(** *** Hotspots *)

Lemma skipn_nth {A} (l : list A) (i : nat) (x : A) (rest : list A) :
  skipn i l = x :: rest -> nth_error l i = Some x /\ skipn (S i) l = rest /\ i < List.length l.
Proof.
  revert i. induction l as [|y l IH]; intros i H.
  - destruct i; discriminate H.
  - destruct i as [|i].
    + cbn in H. injection H as -> ->. cbn. repeat split. lia.
    + cbn [skipn] in H. destruct (IH i H) as (H1 & H2 & H3).
      cbn [nth_error List.length]. repeat split; [ exact H1 | exact H2 | lia ].
Qed.

(** A run that ends inside the run that the loop has just counted is that
    run. *)
Lemma run_is_counted (all : list RuleExecution.t) (i : nat) (c : CurrentHotspot)
  (h : Hotspot.t) :
  i <= List.length all ->
  countingRun all i (Some c) ->
  (forall e, nth_error all i = Some e -> RuleExecution.ruleset e <> hsRuleset c) ->
  isRun all h ->
  hsStart c <= Hotspot.endExecution h < i ->
  h = {| Hotspot.startExecution := hsStart c; Hotspot.endExecution := i - 1;
         Hotspot.ruleCount := hsCount c; Hotspot.ruleset := hsRuleset c |}.
Proof.
  intros Hi (Hc1 & Hc2 & Hc3 & Hc4) Hnext (Hth & Hlen & Hend & Hin & Hleft & Hright) Hb.
  unfold HOTSPOT_THRESHOLD in Hth.
  assert (Hsome : forall j, j < List.length all -> exists x, nth_error all j = Some x).
  { intros j Hj. destruct (nth_error all j) as [x|] eqn:E; [ eauto | ].
    apply nth_error_None in E. lia. }
  assert (Hrs : Hotspot.ruleset h = hsRuleset c).
  { destruct (Hsome (Hotspot.endExecution h) ltac:(lia)) as [x Hx].
    rewrite <- (Hin (Hotspot.endExecution h) x ltac:(lia) Hx).
    apply (Hc3 (Hotspot.endExecution h) x); [ lia | exact Hx ]. }
  assert (He : Hotspot.endExecution h = i - 1).
  { destruct (Nat.eq_dec (S (Hotspot.endExecution h)) i) as [E | E]; [ lia | ].
    exfalso. destruct (Hsome (S (Hotspot.endExecution h)) ltac:(lia)) as [y Hy].
    apply (Hright y Hy). rewrite Hrs.
    apply (Hc3 (S (Hotspot.endExecution h)) y); [ lia | exact Hy ]. }
  assert (Hs : Hotspot.startExecution h = hsStart c).
  { destruct (Nat.lt_trichotomy (Hotspot.startExecution h) (hsStart c)) as [Hlt | [E | Hgt]];
      [ | exact E | ]; exfalso.
    - destruct (hsStart c) as [|j] eqn:Ej; [ lia | ].
      destruct (Hsome j ltac:(lia)) as [z Hz].
      apply (Hc4 j z eq_refl Hz). rewrite <- Hrs. apply (Hin j z); [ lia | exact Hz ].
    - destruct (Hotspot.startExecution h) as [|j] eqn:Ej; [ lia | ].
      destruct (Hsome j ltac:(lia)) as [z Hz].
      apply (Hleft j z eq_refl Hz). rewrite Hrs. apply (Hc3 j z); [ lia | exact Hz ]. }
  destruct h as [s e n rs]. cbn in *. subst. f_equal; lia.
Qed.

Lemma hotspotLoop_invariant (all : list RuleExecution.t) : forall rest i currentHotspot hotspots,
  skipn i all = rest ->
  hotspotInvariant all i currentHotspot hotspots ->
  hotspotInvariant all (List.length all)
    (fst (hotspotLoop rest i currentHotspot hotspots))
    (snd (hotspotLoop rest i currentHotspot hotspots)).
Proof.
  induction rest as [|e rest IH];
    intros i cur hs Hskip (Hi & Hcur & Hruns & Hord & Hbefore & Hall).
  - cbn [hotspotLoop fst snd].
    assert (i = List.length all).
    { pose proof (length_skipn i all) as L. rewrite Hskip in L. cbn in L. lia. }
    subst i. repeat split; assumption.
  - destruct (skipn_nth _ _ _ _ Hskip) as (He & Hskip' & Hlt).
    cbn [hotspotLoop].
    destruct cur as [h|].
    + pose proof Hcur as (Hc1 & Hc2 & Hc3 & Hc4).
      destruct (String.eqb_spec (hsRuleset h) (RuleExecution.ruleset e)) as [Heq | Hne].
      * apply IH; [ exact Hskip' | ].
        split; [ lia | split; [ | split; [ exact Hruns | split; [ exact Hord | ] ] ] ].
        { cbn [countingRun hsCount hsStart hsRuleset].
          split; [ lia | split; [ lia | split; [ | exact Hc4 ] ] ].
          intros j x Hj Hx. destruct (Nat.eq_dec j i) as [-> | Hji].
          - rewrite He in Hx. injection Hx as <-. symmetry. exact Heq.
          - apply (Hc3 j x); [ lia | exact Hx ]. }
        split; [ exact Hbefore | exact Hall ].
      * assert (Hnext : forall x, nth_error all i = Some x ->
                                  RuleExecution.ruleset x <> hsRuleset h).
        { intros x Hx. rewrite He in Hx. injection Hx as <-.
          intros E. apply Hne. symmetry. exact E. }
        apply IH; [ exact Hskip' | ].
        split; [ lia | split ].
        { cbn [countingRun hsCount hsStart hsRuleset].
          split; [ lia | split; [ lia | split ] ].
          - intros j x Hj Hx. assert (j = i) by lia. subst j.
            rewrite He in Hx. injection Hx as <-. reflexivity.
          - intros j x Hj Hx.
            rewrite (Hc3 j x ltac:(lia) Hx). exact Hne. }
        cbn [hsStart].
        destruct (Nat.leb_spec HOTSPOT_THRESHOLD (hsCount h)) as [Hth | Hth].
        { split; [ | split; [ | split ] ].
          - apply Forall_app. split; [ exact Hruns | ].
            constructor; [ | constructor ].
            unfold isRun.
            cbn [Hotspot.ruleCount Hotspot.startExecution Hotspot.endExecution Hotspot.ruleset].
            split; [ exact Hth | split; [ lia | split; [ lia | split; [ | split ] ] ] ].
            + intros j x Hj Hx. apply (Hc3 j x); [ lia | exact Hx ].
            + exact Hc4.
            + intros x Hx. replace (S (i - 1)) with i in Hx by lia. apply Hnext, Hx.
          - clear - Hord Hbefore Hc1 Hc2.
            induction hs as [|a hs IHhs]; cbn [app].
            + constructor; constructor.
            + inversion Hord as [|? ? Ho Ha]; subst. inversion Hbefore as [|? ? Hb Hbs]; subst.
              constructor; [ apply IHhs; assumption | ].
              apply Forall_app. split; [ exact Ha | ].
              constructor; [ cbn [Hotspot.startExecution]; exact Hb | constructor ].
          - apply Forall_app. split.
            + eapply Forall_impl; [ | exact Hbefore ]. intros a Ha. cbn beta in Ha. lia.
            + constructor; [ cbn [Hotspot.endExecution]; lia | constructor ].
          - intros h' Hrun Hend. apply in_or_app.
            destruct (Nat.lt_ge_cases (Hotspot.endExecution h') (hsStart h)) as [Hl | Hg].
            + left. apply Hall; assumption.
            + right. left. symmetry.
              apply (run_is_counted all i h h'); auto; lia. }
        { split; [ exact Hruns | split; [ exact Hord | split ] ].
          - eapply Forall_impl; [ | exact Hbefore ]. intros a Ha. cbn beta in Ha. lia.
          - intros h' Hrun Hend.
            destruct (Nat.lt_ge_cases (Hotspot.endExecution h') (hsStart h)) as [Hl | Hg].
            + apply Hall; assumption.
            + exfalso.
              pose proof (run_is_counted all i h h' ltac:(lia) Hcur Hnext Hrun ltac:(lia)) as E.
              destruct Hrun as (Hth' & _). rewrite E in Hth'. cbn in Hth'. lia. }
    + cbn [countingRun] in Hcur. subst i.
      apply IH; [ exact Hskip' | ].
      split; [ lia | split; [ | split; [ exact Hruns | split; [ exact Hord | ] ] ] ].
      * cbn [countingRun hsCount hsStart hsRuleset].
        split; [ lia | split; [ lia | split ] ].
        { intros j x Hj Hx. assert (j = 0) by lia. subst j.
          rewrite He in Hx. injection Hx as <-. reflexivity. }
        { intros j x Hj. discriminate Hj. }
      * cbn [hsStart]. split; [ exact Hbefore | exact Hall ].
Qed.

(** X11: The hotspots of the timeline are the runs of ten executions or more in
    a row of one ruleset, as long as they can be: every hotspot is such a
    run, every such run is a hotspot, and the hotspots come one after the
    other. *)
Theorem hotspots_are_the_long_runs : forall lines : list string,
  let t := parseRuleExecutionTimeline lines in
  Forall (isRun (RuleExecutionTimeline.executions t)) (RuleExecutionTimeline.hotspots t)
  /\ (forall h, isRun (RuleExecutionTimeline.executions t) h ->
                In h (RuleExecutionTimeline.hotspots t))
  /\ StronglySorted (fun a b => Hotspot.endExecution a < Hotspot.startExecution b)
       (RuleExecutionTimeline.hotspots t).
Proof.
  intros lines. cbn zeta. unfold parseRuleExecutionTimeline. fold initialTimeline.
  set (all := setDurations (executions (timelineLoop lines 0 initialTimeline))).
  assert (Hinit : hotspotInvariant all 0 None []).
  { split; [ lia | split; [ reflexivity | split; [ constructor | split; [ constructor | ] ] ] ].
    split; [ constructor | intros h _ H; lia ]. }
  pose proof (hotspotLoop_invariant all all 0 None [] eq_refl Hinit) as H.
  destruct (hotspotLoop all 0 None []) as [cur hs]. cbn [fst snd] in H.
  cbn [RuleExecutionTimeline.executions RuleExecutionTimeline.hotspots].
  destruct H as (_ & Hcur & Hruns & Hord & Hbefore & Hall).
  destruct cur as [c|].
  - pose proof Hcur as (Hc1 & Hc2 & Hc3 & Hc4).
    assert (Hnext : forall x, nth_error all (List.length all) = Some x ->
                              RuleExecution.ruleset x <> hsRuleset c).
    { intros x Hx. exfalso.
      assert (nth_error all (List.length all) = None) by (apply nth_error_None; lia).
      congruence. }
    destruct (Nat.leb_spec HOTSPOT_THRESHOLD (hsCount c)) as [Hth | Hth].
    + split; [ | split ].
      * apply Forall_app. split; [ exact Hruns | ].
        constructor; [ | constructor ]. unfold isRun.
        cbn [Hotspot.ruleCount Hotspot.startExecution Hotspot.endExecution Hotspot.ruleset].
        split; [ exact Hth | split; [ lia | split; [ lia | split; [ | split ] ] ] ].
        { intros j x Hj Hx. apply (Hc3 j x); [ lia | exact Hx ]. }
        { exact Hc4. }
        { intros x Hx. replace (S (List.length all - 1)) with (List.length all) in Hx by lia.
          apply Hnext, Hx. }
      * intros h Hrun. apply in_or_app.
        destruct (Nat.lt_ge_cases (Hotspot.endExecution h) (hsStart c)) as [Hl | Hg].
        { left. apply Hall; assumption. }
        { right. left. symmetry.
          apply (run_is_counted all (List.length all) c h); auto.
          destruct Hrun as (_ & _ & Hend & _). lia. }
      * clear - Hord Hbefore.
        induction hs as [|a hs IHhs]; cbn [app].
        { constructor; constructor. }
        { inversion Hord as [|? ? Ho Ha]; subst. inversion Hbefore as [|? ? Hb Hbs]; subst.
          constructor; [ apply IHhs; assumption | ].
          apply Forall_app. split; [ exact Ha | ].
          constructor; [ cbn [Hotspot.startExecution]; exact Hb | constructor ]. }
    + split; [ exact Hruns | split; [ | exact Hord ] ].
      intros h Hrun.
      destruct (Nat.lt_ge_cases (Hotspot.endExecution h) (hsStart c)) as [Hl | Hg].
      * apply Hall; assumption.
      * exfalso.
        assert (Hend : Hotspot.endExecution h < List.length all)
          by (destruct Hrun as (_ & _ & Hend & _); exact Hend).
        pose proof (run_is_counted all (List.length all) c h ltac:(lia) Hcur Hnext Hrun
                      ltac:(lia)) as E.
        destruct Hrun as (Hth' & _). rewrite E in Hth'. cbn in Hth'. lia.
  - cbn [countingRun] in Hcur.
    split; [ exact Hruns | split; [ | exact Hord ] ].
    intros h (_ & _ & Hend & _). lia.
Qed.

End TimelineFacts.

(** ** Selection paths and the best match *)

Module SelectionFacts.
Import BaselineStorage BaselineStorageSpec SelectionSpec SummarySpec JsMapFacts SortFacts.

Lemma flat_map_entries (features : list FeatureData.t) :
  flat_map
    (fun feature =>
       match FeatureData.selectedValue feature with
       | Some _ =>
           [ {| SelectionEntry.featureName := FeatureData.name feature;
                SelectionEntry.selectedValue := FeatureData.selectedValue feature;
                SelectionEntry.optionCount := List.length (FeatureData.options feature) |} ]
       | None => []
       end) features
  = map entryOf (filter hasSelection features).
Proof.
  induction features as [|f features IH]; cbn [flat_map filter]; [ reflexivity | ].
  unfold hasSelection at 1. destruct (FeatureData.selectedValue f) eqn:E; cbn [app map];
    rewrite IH; [ | reflexivity ].
  f_equal. unfold entryOf. rewrite E. reflexivity.
Qed.

Lemma sorted_features (features : list FeatureData.t) :
  byLine (stableSort (fun a b => FeatureData.lineNumber a <=? FeatureData.lineNumber b) features).
Proof.
  unfold byLine.
  eapply StronglySorted_weaken; [ | apply stableSort_sorted ].
  - intros a b H. apply Nat.leb_le in H. exact H.
  - intros a b H. apply Nat.leb_gt in H. apply Nat.leb_le. lia.
  - intros a b c H1 H2. apply Nat.leb_le in H1, H2. apply Nat.leb_le. lia.
Qed.


(** Two lists in strictly rising order of a key that hold the same elements
    are equal. *)
Lemma sorted_unique {A} (key : A -> nat) (l l' : list A) :
  StronglySorted (fun a b => key a < key b) l ->
  StronglySorted (fun a b => key a < key b) l' ->
  Permutation l l' -> l = l'.
Proof.
  intros Hs. revert l'. induction Hs as [|x l Hs IH Hx]; intros l' Hs' Hp.
  - apply Permutation_nil in Hp. subst. reflexivity.
  - destruct l' as [|y l']; [ apply Permutation_sym, Permutation_nil in Hp; discriminate | ].
    inversion Hs' as [|? ? Hs'' Hy]; subst.
    rewrite Forall_forall in Hx, Hy.
    assert (Hxy : x = y).
    { assert (Hin : In x (y :: l')) by (eapply Permutation_in; [ exact Hp | left; reflexivity ]).
      assert (Hin' : In y (x :: l))
        by (eapply Permutation_in; [ apply Permutation_sym, Hp | left; reflexivity ]).
      destruct Hin as [-> | Hin]; [ reflexivity | ].
      destruct Hin' as [-> | Hin']; [ reflexivity | ].
      specialize (Hx _ Hin'). specialize (Hy _ Hin). lia. }
    subst y. f_equal. apply IH; [ exact Hs'' | ].
    eapply Permutation_cons_inv. exact Hp.
Qed.

Lemma strictly_sorted (features : list FeatureData.t) :
  NoDup (map FeatureData.lineNumber features) -> byLine features ->
  StronglySorted (fun a b => FeatureData.lineNumber a < FeatureData.lineNumber b) features.
Proof.
  unfold byLine. intros Hn Hs. induction Hs as [|x l Hs IH Hx]; [ constructor | ].
  cbn [map] in Hn. inversion Hn as [|? ? Hnot Hn']; subst.
  constructor; [ apply IH, Hn' | ].
  rewrite Forall_forall in *. intros y Hy. specialize (Hx y Hy).
  assert (FeatureData.lineNumber x <> FeatureData.lineNumber y).
  { intros E. apply Hnot. rewrite E. apply in_map. exact Hy. }
  lia.
Qed.

(** X13: The selection path does not depend on the order in which the [Map]
    holds the features, as long as no two features are at the same line:
    a trace whose features come back from storage in another order has the
    same path. *)
Theorem selection_path_ignores_map_order : forall trace trace' : ParsedTrace.t JsMap.t,
  Permutation (JsMap.values (ParsedTrace.features trace))
              (JsMap.values (ParsedTrace.features trace')) ->
  NoDup (map FeatureData.lineNumber (JsMap.values (ParsedTrace.features trace))) ->
  extractSelectionPath trace = extractSelectionPath trace'.
Proof.
  intros trace trace' Hp Hn. unfold extractSelectionPath. rewrite !flat_map_entries.
  set (before := fun a b => FeatureData.lineNumber a <=? FeatureData.lineNumber b).
  do 2 f_equal.
  pose proof (RoundTripFacts.stableSort_Permutation before
                (JsMap.values (ParsedTrace.features trace))) as P1.
  pose proof (RoundTripFacts.stableSort_Permutation before
                (JsMap.values (ParsedTrace.features trace'))) as P2.
  apply (sorted_unique FeatureData.lineNumber).
  - apply strictly_sorted; [ | apply sorted_features ].
    eapply Permutation_NoDup; [ | exact Hn ]. apply Permutation_map, Permutation_sym, P1.
  - apply strictly_sorted; [ | apply sorted_features ].
    eapply Permutation_NoDup; [ | exact Hn ]. apply Permutation_map.
    eapply Permutation_trans; [ exact Hp | apply Permutation_sym, P2 ].
  - eapply Permutation_trans; [ exact P1 | ].
    eapply Permutation_trans; [ exact Hp | apply Permutation_sym, P2 ].
Qed.

Lemma selection_path_ignores_map_order_witness :
  extractSelectionPath (withFeatures RoundTripSpec.indexKeyedFeatures)
  = extractSelectionPath (withFeatures indexKeyedFeaturesStored).
Proof.
  apply selection_path_ignores_map_order.
  - apply perm_swap.
  - cbn. repeat constructor; cbn; intuition discriminate.
Defined.

(** *** The best match *)

(** [<] on doubles is transitive. *)
Lemma SFltb_trans (a b c : spec_float) :
  SFltb a b = true -> SFltb b c = true -> SFltb a c = true.
Proof.
  unfold SFltb.
  destruct a as [sa|sa| |sa ma ea], b as [sb|sb| |sb mb eb], c as [sc|sc| |sc mc ec];
    cbn [SFcompare]; try discriminate;
    try (destruct sa); try (destruct sb); try (destruct sc);
    try discriminate; try reflexivity; try (intros _ _; reflexivity);
    fold (Pos.compare ma mb); fold (Pos.compare mb mc); fold (Pos.compare ma mc);
    destruct (Z.compare_spec ea eb), (Z.compare_spec eb ec), (Z.compare_spec ea ec);
    try discriminate; try (intros _ _; reflexivity); try lia;
    destruct (Pos.compare_spec ma mb), (Pos.compare_spec mb mc), (Pos.compare_spec ma mc);
    cbn [CompOpp]; try discriminate; try (intros _ _; reflexivity); try lia.
Qed.

Lemma gtb_trans (a b c : spec_float) :
  JsNumber.gtb a b = true -> JsNumber.gtb b c = true -> JsNumber.gtb a c = true.
Proof. unfold JsNumber.gtb. intros H1 H2. eapply SFltb_trans; eassumption. Qed.

Lemma gtb_irrefl (x : spec_float) : JsNumber.gtb x x = false.
Proof.
  unfold JsNumber.gtb, SFltb.
  destruct x as [s|s| |s m e]; cbn [SFcompare]; try reflexivity;
    try (destruct s; reflexivity).
  fold (Pos.compare m m). destruct s; rewrite Z.compare_refl, Pos.compare_refl; reflexivity.
Qed.

(** X14: [findBestMatch] returns a match as soon as a baseline is stored: the
    match of one of the stored baselines, such that no stored baseline has a
    strictly higher score. *)
Theorem findBestMatch_is_not_beaten :
  forall (baselines : list BaselineTrace.t) (testTrace : ParsedTrace.t JsMap.t),
  baselines <> [] ->
  exists best,
    In best baselines
    /\ findBestMatch baselines testTrace
       = Some (calculateMatchScore best (extractSelectionPath testTrace))
    /\ forall other, In other baselines ->
         JsNumber.gtb (scoreAgainst (extractSelectionPath testTrace) other)
                      (scoreAgainst (extractSelectionPath testTrace) best) = false.
Proof.
  intros baselines testTrace Hne. unfold findBestMatch.
  destruct baselines as [|first rest]; [ contradiction | ].
  cbn [List.length Nat.eqb fold_left].
  set (path := extractSelectionPath testTrace).
  set (step := fun bestMatch baseline =>
                 match bestMatch with
                 | Some best0 =>
                     if JsNumber.gtb
                          (BaselineMatchResult.matchScore (calculateMatchScore baseline path))
                          (BaselineMatchResult.matchScore best0)
                     then Some (calculateMatchScore baseline path) else bestMatch
                 | None => Some (calculateMatchScore baseline path)
                 end).
  assert (G : forall l seen best,
             In best seen ->
             (forall other, In other seen ->
                JsNumber.gtb (scoreAgainst path other) (scoreAgainst path best) = false) ->
             exists best',
               In best' (seen ++ l)
               /\ fold_left step l (Some (calculateMatchScore best path))
                  = Some (calculateMatchScore best' path)
               /\ forall other, In other (seen ++ l) ->
                    JsNumber.gtb (scoreAgainst path other) (scoreAgainst path best') = false).
  { induction l as [|b l IH]; intros seen best Hin Hmax; cbn [fold_left].
    - exists best. rewrite app_nil_r. auto.
    - replace (seen ++ b :: l) with ((seen ++ [b]) ++ l) by (rewrite <- app_assoc; reflexivity).
      cbn [step]. fold (scoreAgainst path b). fold (scoreAgainst path best).
      destruct (JsNumber.gtb (scoreAgainst path b) (scoreAgainst path best)) eqn:E.
      + apply IH; [ apply in_or_app; right; left; reflexivity | ].
        intros other Hother. apply in_app_or in Hother.
        destruct Hother as [Hother | [<- | []]].
        * destruct (JsNumber.gtb (scoreAgainst path other) (scoreAgainst path b)) eqn:E';
            [ | reflexivity ].
          rewrite <- (Hmax other Hother). symmetry. eapply gtb_trans; eassumption.
        * apply gtb_irrefl.
      + apply IH; [ apply in_or_app; left; exact Hin | ].
        intros other Hother. apply in_app_or in Hother.
        destruct Hother as [Hother | [<- | []]]; [ apply Hmax, Hother | exact E ]. }
  destruct (G rest [first] first (or_introl eq_refl)) as (best & Hin & Hfold & Hmax).
  - intros other [<- | []]. apply gtb_irrefl.
  - exists best. auto.
Qed.

Lemma findBestMatch_is_not_beaten_witness :
  exists best,
    In best [baselineOf fortyFeatures]
    /\ findBestMatch [baselineOf fortyFeatures] fortyFeaturesCandidate
       = Some (calculateMatchScore best (extractSelectionPath fortyFeaturesCandidate)).
Proof.
  destruct (findBestMatch_is_not_beaten [baselineOf fortyFeatures] fortyFeaturesCandidate)
    as (best & Hin & Hbest & _); [ discriminate | ].
  exists best. auto.
Defined.

(** *** The first divergence *)

Lemma compareSelections_keeps testMap path : forall i matchingCount firstDivergenceIndex,
  firstDivergenceIndex <> (-1)%Z ->
  snd (compareSelections testMap path i (matchingCount, firstDivergenceIndex))
  = firstDivergenceIndex.
Proof.
  induction path as [|b path IH]; intros i m d Hd; cbn [compareSelections]; [ reflexivity | ].
  destruct (selectionMatches testMap b); [ apply IH, Hd | ].
  destruct (Z.eqb_spec d (-1)); [ contradiction | apply IH, Hd ].
Qed.

Lemma compareSelections_first testMap path : forall i matchingCount,
  (snd (compareSelections testMap path i (matchingCount, (-1)%Z)) = (-1)%Z
   /\ forallb (selectionMatches testMap) path = true)
  \/ exists k entry,
       snd (compareSelections testMap path i (matchingCount, (-1)%Z)) = Z.of_nat (i + k)
       /\ nth_error path k = Some entry
       /\ selectionMatches testMap entry = false
       /\ forallb (selectionMatches testMap) (firstn k path) = true.
Proof.
  induction path as [|b path IH]; intros i m; cbn [compareSelections forallb].
  - left. split; reflexivity.
  - destruct (selectionMatches testMap b) eqn:E.
    + destruct (IH (S i) (m + 1)) as [[Hd Hall] | (k & entry & Hd & Hk & He & Hall)].
      * left. auto.
      * right. exists (S k), entry. cbn [nth_error firstn forallb]. rewrite E.
        replace (i + S k) with (S i + k) by lia. auto.
    + right. exists 0, b. change ((-1 =? -1)%Z) with true. cbn [nth_error firstn forallb].
      rewrite compareSelections_keeps by lia.
      rewrite Nat.add_0_r. auto.
Qed.

(** X15: [firstDivergenceIndex] is -1 exactly when every selection of the
    baseline is matched, and then [matchingSelections] is the length of the
    baseline's path; otherwise it is the index of the first selection of the
    baseline that the candidate does not match. *)
Theorem firstDivergenceIndex_is_the_first_mismatch :
  forall (baseline : BaselineTrace.t) (testSelections : list SelectionEntry.t),
  let r := calculateMatchScore baseline testSelections in
  let path := BaselineTrace.selectionPath baseline in
  let matched := selectionMatches (selectionMap testSelections) in
  (BaselineMatchResult.firstDivergenceIndex r = (-1)%Z
   /\ forallb matched path = true
   /\ BaselineMatchResult.matchingSelections r = List.length path)
  \/ exists i entry,
       BaselineMatchResult.firstDivergenceIndex r = Z.of_nat i
       /\ nth_error path i = Some entry
       /\ matched entry = false
       /\ forallb matched (firstn i path) = true
       /\ BaselineMatchResult.matchingSelections r < List.length path.
Proof.
  intros baseline testSelections. cbn zeta. unfold calculateMatchScore.
  pose proof (MatchScoreFacts.compareSelections_count (selectionMap testSelections)
                (BaselineTrace.selectionPath baseline) 0 0 (-1)%Z) as Hcount.
  pose proof (compareSelections_first (selectionMap testSelections)
                (BaselineTrace.selectionPath baseline) 0 0) as Hfirst.
  destruct (compareSelections _ _ _ _) as [matchingCount firstDivergenceIndex].
  cbn [fst snd] in *.
  cbn [BaselineMatchResult.firstDivergenceIndex BaselineMatchResult.matchingSelections].
  set (path := BaselineTrace.selectionPath baseline) in *.
  set (matched := selectionMatches (selectionMap testSelections)) in *.
  destruct Hfirst as [[Hd Hall] | (k & entry & Hd & Hk & He & Hall)].
  - left. split; [ exact Hd | split; [ exact Hall | ] ].
    rewrite Hcount. cbn [Nat.add]. f_equal.
    clear - Hall. induction path as [|b path IH]; [ reflexivity | ].
    cbn [forallb filter] in *. apply andb_true_iff in Hall. destruct Hall as [-> Hall].
    f_equal. apply IH, Hall.
  - right. exists k, entry. repeat split; auto.
    rewrite Hcount. cbn [Nat.add].
    clear - Hk He. revert k Hk. induction path as [|b path IH]; intros k Hk.
    + destruct k; discriminate.
    + cbn [filter List.length]. destruct k as [|k].
      * cbn in Hk. injection Hk as ->. rewrite He.
        pose proof (filter_length_le matched path). lia.
      * cbn in Hk. specialize (IH k Hk).
        destruct (matched b); cbn [List.length]; lia.
Qed.

End SelectionFacts.

(** ** Anchored patterns *)

Module RegExpFacts.
Import JsString RegExp RegExpSpec.

(** A pattern that starts with [^] matches at the start of the text only. *)
Lemma search_anchored (r : regex) (cs : list ascii) (p : nat) :
  search (Seq Bol r) cs (S p) = None.
Proof.
  revert p. induction cs as [|c cs IH]; intros p; cbn [search run Nat.eqb]; auto.
Qed.

Lemma exec_anchored (r : regex) (s : string) :
  exec (Seq Bol r) s
  = run r (chars s) 0 []
      (fun _ pos' caps => Some {| index := 0; lastIndex := pos'; groups := caps |}).
Proof.
  unfold exec. destruct (chars s) as [|c cs]; cbn [search run Nat.eqb].
  - destruct (run r [] 0 [] _); reflexivity.
  - rewrite search_anchored. destruct (run r (c :: cs) 0 [] _); reflexivity.
Qed.

(** A greedy run of one character class hands over after some of the
    characters of the class that the text starts with. *)
Lemma run_star_class {R} (p : ascii -> bool) (k : list ascii -> nat -> captures -> option R)
  (cs : list ascii) (pos : nat) (caps : captures) :
  run (Star (Cls p)) cs pos caps k = starLoop (Cls p) k (S (List.length cs)) cs pos caps.
Proof. reflexivity. Qed.

(** A greedy run of one character class hands over after some of the
    characters of the class that the text starts with. *)
Lemma star_class_inv {R} (p : ascii -> bool) (k : list ascii -> nat -> captures -> option R)
  (cs : list ascii) (pos : nat) (caps : captures) (x : R) :
  run (Star (Cls p)) cs pos caps k = Some x ->
  exists m, m <= List.length (takeWhile p cs) /\ k (skipn m cs) (pos + m) caps = Some x.
Proof.
  rewrite run_star_class. generalize (S (List.length cs)). intros n.
  revert cs pos caps. induction n as [|n IH]; intros cs pos caps H.
  - exists 0. rewrite Nat.add_0_r. split; [ lia | exact H ].
  - cbn [starLoop run] in H. destruct cs as [|c cs].
    + exists 0. rewrite Nat.add_0_r. split; [ cbn; lia | exact H ].
    + cbn [takeWhile]. destruct (p c) eqn:Ep.
      * replace (S pos =? pos) with false in H by (symmetry; apply Nat.eqb_neq; lia).
        destruct (starLoop (Cls p) k n cs (S pos) caps) as [y|] eqn:Estar.
        -- injection H as ->. apply IH in Estar. destruct Estar as (m & Hm & Hk).
           exists (S m). split; [ cbn; lia | ].
           cbn [skipn]. rewrite <- plus_n_Sm. exact Hk.
        -- exists 0. rewrite Nat.add_0_r. split; [ lia | exact H ].
      * exists 0. rewrite Nat.add_0_r. split; [ lia | exact H ].
Qed.

Lemma run_star {R} (r : regex) (k : list ascii -> nat -> captures -> option R)
  (cs : list ascii) (pos : nat) (caps : captures) :
  run (Star r) cs pos caps k = starLoop r k (S (List.length cs)) cs pos caps.
Proof. reflexivity. Qed.

Lemma run_lazyStar {R} (r : regex) (k : list ascii -> nat -> captures -> option R)
  (cs : list ascii) (pos : nat) (caps : captures) :
  run (LazyStar r) cs pos caps k = lazyStarLoop r k (S (List.length cs)) cs pos caps.
Proof. reflexivity. Qed.

(** A match hands over what is left of the text after some of its
    characters, at the position after them. *)
Lemma run_inv (r : regex) :
  forall {R} (cs : list ascii) (pos : nat) (caps : captures)
         (k : list ascii -> nat -> captures -> option R) (x : R),
    run r cs pos caps k = Some x ->
    exists n caps', n <= List.length cs /\ k (skipn n cs) (pos + n) caps' = Some x.
Proof.
  induction r as [ | c | p | r1 IH1 r2 IH2 | r1 IH1 r2 IH2 | r1 IH1 | r1 IH1 | i r1 IH1 | | ];
    intros R cs pos caps k x H.
  - exists 0, caps. rewrite Nat.add_0_r. split; [ lia | exact H ].
  - cbn [run] in H. destruct cs as [|a cs]; [ discriminate | ].
    destruct (Ascii.eqb a c); [ | discriminate ].
    exists 1, caps. rewrite Nat.add_1_r. split; [ cbn; lia | exact H ].
  - cbn [run] in H. destruct cs as [|a cs]; [ discriminate | ].
    destruct (p a); [ | discriminate ].
    exists 1, caps. rewrite Nat.add_1_r. split; [ cbn; lia | exact H ].
  - cbn [run] in H. apply IH1 in H. destruct H as (n1 & caps1 & Hn1 & H).
    apply IH2 in H. destruct H as (n2 & caps2 & Hn2 & H).
    rewrite length_skipn in Hn2. rewrite skipn_skipn in H.
    exists (n2 + n1), caps2. split; [ lia | ].
    replace (pos + (n2 + n1)) with (pos + n1 + n2) by lia. exact H.
  - cbn [run] in H. destruct (run r1 cs pos caps k) as [y|] eqn:E.
    + injection H as ->. apply IH1 in E. exact E.
    + apply IH2 in H. exact H.
  - rewrite run_star in H. revert H. generalize (S (List.length cs)). intros n.
    revert cs pos caps. induction n as [|n IHn]; intros cs pos caps H.
    + exists 0, caps. rewrite Nat.add_0_r. split; [ lia | exact H ].
    + cbn [starLoop] in H.
      destruct (run r1 cs pos caps
                  (fun cs' pos' caps' =>
                     if pos' =? pos then None else starLoop r1 k n cs' pos' caps'))
        as [y|] eqn:E.
      * injection H as ->. apply IH1 in E. destruct E as (n1 & caps1 & Hn1 & E).
        destruct (pos + n1 =? pos); [ discriminate | ].
        apply IHn in E. destruct E as (n2 & caps2 & Hn2 & E).
        rewrite length_skipn in Hn2. rewrite skipn_skipn in E.
        exists (n2 + n1), caps2. split; [ lia | ].
        replace (pos + (n2 + n1)) with (pos + n1 + n2) by lia. exact E.
      * exists 0, caps. rewrite Nat.add_0_r. split; [ lia | exact H ].
  - rewrite run_lazyStar in H. revert H. generalize (S (List.length cs)). intros n.
    revert cs pos caps. induction n as [|n IHn]; intros cs pos caps H.
    + exists 0, caps. rewrite Nat.add_0_r. split; [ lia | exact H ].
    + cbn [lazyStarLoop] in H.
      destruct (k cs pos caps) as [y|] eqn:E.
      * injection H as ->. exists 0, caps. rewrite Nat.add_0_r. split; [ lia | exact E ].
      * apply IH1 in H. destruct H as (n1 & caps1 & Hn1 & H).
        destruct (pos + n1 =? pos); [ discriminate | ].
        apply IHn in H. destruct H as (n2 & caps2 & Hn2 & H).
        rewrite length_skipn in Hn2. rewrite skipn_skipn in H.
        exists (n2 + n1), caps2. split; [ lia | ].
        replace (pos + (n2 + n1)) with (pos + n1 + n2) by lia. exact H.
  - cbn [run] in H. apply IH1 in H. destruct H as (n1 & caps1 & Hn1 & H).
    eexists n1, _. split; [ exact Hn1 | exact H ].
  - cbn [run] in H. destruct (pos =? 0); [ | discriminate ].
    exists 0, caps. rewrite Nat.add_0_r. split; [ lia | exact H ].
  - cbn [run] in H. destruct cs; [ | discriminate ].
    exists 0, caps. rewrite Nat.add_0_r. split; [ lia | exact H ].
Qed.

(** The leftmost match lies in what is left of the text. *)
Lemma search_inv (r : regex) (cs : list ascii) (pos : nat) (m : MatchResult) :
  search r cs pos = Some m ->
  exists d n,
    d + n <= List.length cs
    /\ index m = pos + d /\ lastIndex m = pos + d + n
    /\ run r (skipn d cs) (pos + d) []
         (fun _ pos' caps =>
            Some {| index := pos + d; lastIndex := pos'; groups := caps |}) = Some m.
Proof.
  revert pos. induction cs as [|c cs IH]; intros pos H; cbn [search] in H.
  - destruct (run r [] pos [] _) as [y|] eqn:E; [ | discriminate ].
    injection H as ->. pose proof E as E'. apply run_inv in E'.
    destruct E' as (n & caps' & Hn & E'). injection E' as <-.
    exists 0, n. cbn [index lastIndex skipn]. rewrite !Nat.add_0_r.
    repeat split; try lia. exact E.
  - destruct (run r (c :: cs) pos [] _) as [y|] eqn:E.
    + injection H as ->. pose proof E as E'. apply run_inv in E'.
      destruct E' as (n & caps' & Hn & E'). injection E' as <-.
      exists 0, n. cbn [index lastIndex skipn]. rewrite !Nat.add_0_r.
      repeat split; try lia. exact E.
    + apply IH in H. destruct H as (d & n & Hle & Hi & Hl & Hrun).
      exists (S d), n. cbn [skipn List.length].
      replace (pos + S d) with (S pos + d) by lia.
      repeat split; try lia. exact Hrun.
Qed.

Lemma takeWhile_dropWhile {A} (p : A -> bool) (l : list A) :
  l = takeWhile p l ++ dropWhile p l.
Proof.
  induction l as [|a l IH]; [ reflexivity | ].
  cbn. destruct (p a); [ cbn; f_equal; exact IH | reflexivity ].
Qed.

Lemma takeWhile_Forall {A} (p : A -> bool) (l : list A) :
  Forall (fun a => p a = true) (takeWhile p l).
Proof.
  induction l as [|a l IH]; cbn; [ constructor | ].
  destruct (p a) eqn:E; constructor; assumption.
Qed.

(** If what follows a run of white space has to start with the character
    [c], no white space, then [c] is the first such character of the text. *)
Lemma spaces_then {R} (r : regex) (c : ascii) :
  isSpace c = false ->
  (forall cs pos caps (k : list ascii -> nat -> captures -> option R) x,
      run r cs pos caps k = Some x -> hd_error cs = Some c) ->
  forall cs pos caps (k : list ascii -> nat -> captures -> option R) x,
    run (Seq (plus space) r) cs pos caps k = Some x -> inkAt c cs.
Proof.
  intros Hc Hr cs pos caps k x H. unfold plus, space in H.
  cbn [run] in H. fold (@run R) in H.
  destruct cs as [|s cs]; [ discriminate | ].
  destruct (isSpace s) eqn:Es; [ | discriminate ].
  change (run (Star (Cls isSpace)) cs (S pos) caps
            (fun cs' pos' caps' => run r cs' pos' caps' k) = Some x) in H.
  apply star_class_inv in H. destruct H as (m & Hm & H).
  apply Hr in H. unfold inkAt. cbn [dropWhile]. rewrite Es.
  pose proof (takeWhile_dropWhile isSpace cs) as Hsplit.
  pose proof (takeWhile_Forall isSpace cs) as Hall.
  remember (takeWhile isSpace cs) as front eqn:Ef.
  remember (dropWhile isSpace cs) as back eqn:Eb.
  clear Ef Eb. subst cs.
  destruct (Nat.eq_dec m (List.length front)) as [-> | Hne].
  - rewrite skipn_app, skipn_all, Nat.sub_diag in H. exact H.
  - assert (Hlt : m < List.length front) by lia.
    rewrite skipn_app in H. replace (m - List.length front) with 0 in H by lia.
    cbn [skipn] in H.
    destruct (skipn m front) as [|a rest] eqn:Eskip.
    + apply (f_equal (@List.length ascii)) in Eskip. rewrite length_skipn in Eskip. cbn in Eskip. lia.
    + cbn in H. injection H as ->.
      assert (Hin : In c front).
      { rewrite <- (firstn_skipn m front), Eskip. apply in_or_app. right. left. reflexivity. }
      rewrite Forall_forall in Hall. apply Hall in Hin. congruence.
Qed.

End RegExpFacts.

(** ** The condition tracker *)

Module ConditionFacts.
Import JsString RegExp RegExpSpec RegExpFacts TraceParser TraceParserSpec.
Import ConditionParser ConditionSpec.

Lemma property_ink (line : string) :
  test ruleConditionPropertyPattern line = true -> inkAt "P" (chars line).
Proof.
  unfold test, ruleConditionPropertyPattern.
  change (seq [Bol; plus space; lit "Property"; plus space; Chr ":"; plus space;
               lit "RuleCondition"])
    with (Seq Bol (Seq (plus space)
            (seq [lit "Property"; plus space; Chr ":"; plus space; lit "RuleCondition"]))).
  rewrite exec_anchored.
  match goal with |- context [run ?r ?cs ?pos ?caps ?k] =>
    destruct (run r cs pos caps k) as [m|] eqn:E end; [ intros _ | discriminate ].
  revert E. apply spaces_then; [ reflexivity | ].
  intros [|a cs] pos caps k x H; [ discriminate | ].
  cbn [seq lit map chars list_ascii_of_string run] in H.
  destruct (Ascii.eqb a "P") eqn:Ea; [ | discriminate ].
  apply Ascii.eqb_eq in Ea. subst a. reflexivity.
Qed.

Lemma formula_ink (line : string) (m : MatchResult) :
  exec conditionExpressionPattern line = Some m -> inkAt "C" (chars line).
Proof.
  unfold conditionExpressionPattern, formula.
  change (seq [Bol; plus space; lit "Condition Expression"; plus space; Chr ":"; plus space;
               Chr "="; Group 1 (plus dot)])
    with (Seq Bol (Seq (plus space)
            (seq [lit "Condition Expression"; plus space; Chr ":"; plus space;
                  Chr "="; Group 1 (plus dot)]))).
  rewrite exec_anchored.
  apply spaces_then; [ reflexivity | ].
  intros [|a cs] pos caps k x H; [ discriminate | ].
  cbn [seq lit map chars list_ascii_of_string run] in H.
  destruct (Ascii.eqb a "C") eqn:Ea; [ | discriminate ].
  apply Ascii.eqb_eq in Ea. subst a. reflexivity.
Qed.

(** No line opens a condition in both ways. *)
Lemma not_both (line : string) :
  test ruleConditionPropertyPattern line = true ->
  exec conditionExpressionPattern line = None.
Proof.
  intros Hp. destruct (exec conditionExpressionPattern line) as [m|] eqn:E; [ | reflexivity ].
  apply property_ink in Hp. apply formula_ink in E. unfold inkAt in *. congruence.
Qed.

Lemma lastCapture_snoc (pattern : regex) (i : nat) (lines : list string) (line : string) :
  lastCapture pattern i (lines ++ [line])
  = match captured pattern i line with
    | Some s => Some s
    | None => lastCapture pattern i lines
    end.
Proof. unfold lastCapture. rewrite rev_app_distr. reflexivity. Qed.

Lemma sorted_snoc (l : list nat) (n : nat) :
  StronglySorted lt l -> Forall (fun a => a < n) l -> StronglySorted lt (l ++ [n]).
Proof.
  induction 1 as [|a l Hs IH Ha]; intros Hall; cbn.
  - repeat constructor.
  - inversion Hall; subst. constructor; [ auto | ].
    apply Forall_app. split; [ exact Ha | repeat constructor; assumption ].
Qed.

Lemma startsWith_equals (text : string) : startsWith ("=" ++ text) "=" = true.
Proof.
  unfold startsWith. cbn [String.append String.prefix].
  destruct (ascii_dec "=" "="); [ destruct text; reflexivity | congruence ].
Qed.

(** The expression that the look-ahead finds starts with the equals sign. *)
Lemma scan_expression (window : list string) (found : ConditionFields) :
  (foundExpression found = EmptyString
   \/ startsWith (foundExpression found) "=" = true) ->
  foundExpression (scanConditionFields window found) = EmptyString
  \/ startsWith (foundExpression (scanConditionFields window found)) "=" = true.
Proof.
  revert found. induction window as [|nextLine rest IH]; intros found H; [ exact H | ].
  cbn [scanConditionFields].
  destruct (test anyPropertyPattern nextLine || test sectionDivider nextLine
            || test rulesetPattern nextLine); [ exact H | ].
  assert (H1 : forall f : ConditionFields,
             (foundExpression f = EmptyString \/ startsWith (foundExpression f) "=" = true) ->
             foundExpression
               match exec tracePattern nextLine with
               | Some traceMatch =>
                   {| foundExpression := foundExpression f;
                      foundTrace := trim (group 1 traceMatch);
                      foundResult := foundResult f |}
               | None => f
               end = EmptyString
             \/ startsWith (foundExpression
               match exec tracePattern nextLine with
               | Some traceMatch =>
                   {| foundExpression := foundExpression f;
                      foundTrace := trim (group 1 traceMatch);
                      foundResult := foundResult f |}
               | None => f
               end) "=" = true).
  { intros f Hf. destruct (exec tracePattern nextLine); exact Hf. }
  destruct (exec expressionPattern nextLine) as [exprMatch|].
  - destruct (exec resultBoolPattern nextLine).
    + cbn [foundExpression]. destruct (exec tracePattern nextLine); cbn [foundExpression];
        right; apply startsWith_equals.
    + apply IH. apply H1. right. apply startsWith_equals.
  - destruct (exec resultBoolPattern nextLine).
    + cbn [foundExpression]. apply H1. exact H.
    + apply IH. apply H1. exact H.
Qed.

(** What one turn of the loop does to the conditions: nothing, or it adds
    one condition, read at the line and with the rule of the state. *)
Lemma conditionStep_cases (st : ConditionState) (i : nat) (line : string)
  (rest : list string) :
  let tracked := trackRule st i line rest in
  let st' := conditionStep st i line rest in
  currentRuleset st' = currentRuleset tracked
  /\ currentRuleId st' = currentRuleId tracked
  /\ currentRuleName st' = currentRuleName tracked
  /\ (conditions st' = conditions st
      \/ exists c,
           conditions st' = conditions st ++ [c]
           /\ opensCondition line = true
           /\ ConditionEvaluation.lineNumber c = i + 1
           /\ ConditionEvaluation.ruleset c = currentRuleset tracked
           /\ ConditionEvaluation.ruleId c = currentRuleId tracked
           /\ ConditionEvaluation.ruleName c = currentRuleName tracked
           /\ startsWith (ConditionEvaluation.expression c) "=" = true
           /\ (test ruleConditionPropertyPattern line = true
               \/ (ConditionEvaluation.ruleType c = "VariableRule"
                   /\ ConditionEvaluation.trace c = EmptyString
                   /\ option_map (fun text => ("=" ++ trim text)%string)
                        (captured conditionExpressionPattern 1 line)
                      = Some (ConditionEvaluation.expression c)))).
Proof.
  cbn zeta. unfold conditionStep.
  assert (Ht : conditions (trackRule st i line rest) = conditions st).
  { unfold trackRule. destruct (exec rulesetPattern line); reflexivity. }
  set (tracked := trackRule st i line rest) in *.
  unfold ruleConditionStep.
  destruct (test ruleConditionPropertyPattern line) eqn:Ep.
  - unfold variableConditionStep. rewrite (not_both line Ep).
    match goal with |- context [scanConditionFields ?w ?f] =>
      pose proof (scan_expression w f (or_introl eq_refl)) as Hx;
      destruct (scanConditionFields w f) as [expression trace result] end.
    cbn [foundExpression foundResult foundTrace] in *.
    destruct expression as [|c0 expression].
    + repeat split; try reflexivity. left. exact Ht.
    + destruct result as [result|].
      * repeat split; try reflexivity. right. eexists. cbn [pushCondition conditions].
        rewrite Ht. split; [ reflexivity | ].
        cbn [ConditionEvaluation.lineNumber ConditionEvaluation.ruleset
             ConditionEvaluation.ruleId ConditionEvaluation.ruleName
             ConditionEvaluation.expression].
        unfold opensCondition. rewrite Ep.
        destruct Hx as [Hx | Hx]; [ discriminate | ].
        repeat split; auto.
      * repeat split; try reflexivity. left. exact Ht.
  - unfold variableConditionStep. unfold captured.
    destruct (exec conditionExpressionPattern line) as [condExprMatch|] eqn:Ee.
    + destruct (String.eqb (currentRuleType tracked) "VariableRule") eqn:Ety.
      * destruct (scanConditionResult (firstn 4 rest)) as [result|].
        -- repeat split; try reflexivity. right. eexists. cbn [pushCondition conditions].
           rewrite Ht. split; [ reflexivity | ].
           cbn [ConditionEvaluation.lineNumber ConditionEvaluation.ruleset
                ConditionEvaluation.ruleId ConditionEvaluation.ruleName
                ConditionEvaluation.expression ConditionEvaluation.ruleType
                ConditionEvaluation.trace].
           unfold opensCondition, test. rewrite Ee.
           apply String.eqb_eq in Ety.
           repeat split; auto using orb_true_r.
           ++ apply startsWith_equals.
        -- repeat split; try reflexivity. left. exact Ht.
      * repeat split; try reflexivity. left. exact Ht.
    + repeat split; try reflexivity. left. exact Ht.
Qed.

Lemma trackRule_context (st : ConditionState) (i : nat) (line : string) (rest : list string)
  (done : list string) :
  currentRuleset st = orEmpty (lastCapture rulesetPattern 1 done) ->
  currentRuleId st = orEmpty (lastCapture rulesetPattern 2 done) ->
  currentRuleName st = orEmpty (option_map trim (lastCapture rulesetPattern 3 done)) ->
  let tracked := trackRule st i line rest in
  currentRuleset tracked = orEmpty (lastCapture rulesetPattern 1 (done ++ [line]))
  /\ currentRuleId tracked = orEmpty (lastCapture rulesetPattern 2 (done ++ [line]))
  /\ currentRuleName tracked
     = orEmpty (option_map trim (lastCapture rulesetPattern 3 (done ++ [line]))).
Proof.
  intros H1 H2 H3. cbn zeta. rewrite !lastCapture_snoc. unfold trackRule, captured.
  destruct (exec rulesetPattern line); cbn [option_map orEmpty currentRuleset currentRuleId
                                            currentRuleName]; auto.
Qed.

Lemma conditionStep_invariant (all done rest : list string) (line : string)
  (st : ConditionState) :
  all = done ++ line :: rest ->
  conditionInvariant all done st ->
  conditionInvariant all (done ++ [line]) (conditionStep st (List.length done) line rest).
Proof.
  intros Hall (H1 & H2 & H3 & Hcs & Hsorted & Hcount).
  destruct (trackRule_context st (List.length done) line rest done H1 H2 H3)
    as (T1 & T2 & T3).
  destruct (conditionStep_cases st (List.length done) line rest)
    as (S1 & S2 & S3 & Hstep).
  unfold conditionInvariant. rewrite S1, S2, S3, T1, T2, T3.
  split; [ reflexivity | ]. split; [ reflexivity | ]. split; [ reflexivity | ].
  assert (Hold : Forall (fun c =>
               readFrom all c /\ attributed all c
               /\ startsWith (ConditionEvaluation.expression c) "=" = true
               /\ ConditionEvaluation.lineNumber c <= List.length (done ++ [line]))
            (conditions st)).
  { eapply Forall_impl; [ | exact Hcs ]. cbn beta. intros c (A & B & C & D).
    rewrite length_app. cbn. repeat split; try assumption; try lia; apply B. }
  assert (Hfilter : List.length (filter opensCondition (done ++ [line]))
                    = List.length (filter opensCondition done)
                      + (if opensCondition line then 1 else 0)).
  { rewrite filter_app, length_app. cbn. destruct (opensCondition line); reflexivity. }
  destruct Hstep as [-> | (c & -> & Hopen & Hline & Hrs & Hid & Hname & Hexpr & Hread)].
  - split; [ exact Hold | ]. split; [ exact Hsorted | ]. lia.
  - assert (Hfirst : firstn (ConditionEvaluation.lineNumber c) all = done ++ [line]).
    { rewrite Hline, Hall. replace (List.length done + 1) with (List.length done + 1 + 0) by lia.
      replace (done ++ line :: rest) with ((done ++ [line]) ++ rest)
        by (rewrite <- app_assoc; reflexivity).
      rewrite firstn_app. rewrite length_app. cbn [List.length].
      replace (List.length done + 1 + 0 - (List.length done + 1)) with 0 by lia.
      rewrite firstn_all2 by (rewrite length_app; cbn; lia).
      cbn. apply app_nil_r. }
    split.
    + apply Forall_app. split; [ exact Hold | ]. constructor; [ | constructor ].
      split.
      { exists line. split.
        - unfold lineAt. rewrite Hline. replace (List.length done + 1) with (S (List.length done)) by lia.
          rewrite Hall, nth_error_app2 by lia. rewrite Nat.sub_diag. reflexivity.
        - exact Hread. }
      split.
      { unfold attributed, rulesetAt, ruleIdAt, ruleNameAt. rewrite Hfirst.
        rewrite Hrs, Hid, Hname, T1, T2, T3. repeat split. }
      split; [ exact Hexpr | ].
      rewrite Hline, length_app. cbn. lia.
    + split.
      * rewrite map_app. cbn [map]. apply sorted_snoc; [ exact Hsorted | ].
        rewrite Forall_map. eapply Forall_impl; [ | exact Hcs ]. cbn beta.
        intros a (_ & _ & _ & Ha). lia.
      * rewrite length_app, Hfilter, Hopen. cbn. lia.
Qed.

Lemma conditionLoop_invariant (all rest done : list string) (st : ConditionState) :
  all = done ++ rest ->
  conditionInvariant all done st ->
  conditionInvariant all all (conditionLoop rest (List.length done) st).
Proof.
  revert done st. induction rest as [|line rest IH]; intros done st Hall Hinv.
  - rewrite app_nil_r in Hall. subst done. exact Hinv.
  - cbn [conditionLoop].
    replace (S (List.length done)) with (List.length (done ++ [line]))
      by (rewrite length_app; cbn; lia).
    apply IH.
    + rewrite <- app_assoc. exact Hall.
    + apply conditionStep_invariant; assumption.
Qed.

Lemma parseConditions_invariant (lines : list string) :
  conditionInvariant lines lines (conditionLoop lines 0 initialConditions).
Proof.
  apply (conditionLoop_invariant lines lines []); [ reflexivity | ].
  unfold conditionInvariant, initialConditions. cbn.
  repeat split; try constructor.
Qed.

(** X16: The conditions of the summary are in the order of the trace, at most
    one for a line: each was read at a line that opens a condition, a
    [Property : RuleCondition] line or the [Condition Expression] line of a
    VariableRule; its expression starts with the equals sign; and the
    conditions that held and those that did not add up to the total, which
    is at most the number of lines that open a condition. *)
Theorem conditions_follow_the_trace : forall lines : list string,
  let summary := parseConditions lines in
  Forall (readFrom lines) (ConditionSummary.conditions summary)
  /\ StronglySorted lt
       (map ConditionEvaluation.lineNumber (ConditionSummary.conditions summary))
  /\ Forall (fun c => startsWith (ConditionEvaluation.expression c) "=" = true)
       (ConditionSummary.conditions summary)
  /\ ConditionSummary.firedCount summary + ConditionSummary.skippedCount summary
     = ConditionSummary.totalConditions summary
  /\ ConditionSummary.totalConditions summary
     <= List.length (filter opensCondition lines).
Proof.
  intros lines. cbn zeta.
  destruct (parseConditions_invariant lines) as (_ & _ & _ & Hcs & Hsorted & Hcount).
  unfold parseConditions. fold initialConditions.
  cbn [ConditionSummary.conditions ConditionSummary.firedCount
       ConditionSummary.skippedCount ConditionSummary.totalConditions].
  set (cs := conditions (conditionLoop lines 0 initialConditions)) in *.
  split; [ eapply Forall_impl; [ | exact Hcs ]; cbn beta; tauto | ].
  split; [ exact Hsorted | ].
  split; [ eapply Forall_impl; [ | exact Hcs ]; cbn beta; tauto | ].
  split; [ | exact Hcount ].
  clear. induction cs as [|c cs IH]; [ reflexivity | ].
  cbn [filter]. destruct (ConditionEvaluation.result c); cbn [negb List.length]; lia.
Qed.

(** X17: Every condition of the summary names the rule of the last firing line
    at or above its own line: the ruleset, the number and the name of that
    rule, and empty texts when no firing line comes before it. *)
Theorem condition_names_the_last_firing :
  forall (lines : list string) (c : ConditionEvaluation.t),
    In c (ConditionSummary.conditions (parseConditions lines)) ->
    ConditionEvaluation.ruleset c = rulesetAt lines (ConditionEvaluation.lineNumber c)
    /\ ConditionEvaluation.ruleId c = ruleIdAt lines (ConditionEvaluation.lineNumber c)
    /\ ConditionEvaluation.ruleName c = ruleNameAt lines (ConditionEvaluation.lineNumber c).
Proof.
  intros lines c Hin.
  destruct (parseConditions_invariant lines) as (_ & _ & _ & Hcs & _).
  rewrite Forall_forall in Hcs. apply (Hcs c Hin).
Qed.

Lemma condition_names_the_last_firing_witness :
  exists c,
    In c (ConditionSummary.conditions (parseConditions oneConditionTrace))
    /\ ConditionEvaluation.ruleset c = "Pricing"
    /\ ConditionEvaluation.ruleset c
       = rulesetAt oneConditionTrace (ConditionEvaluation.lineNumber c).
Proof.
  eexists. split; [ left; reflexivity | ]. split; [ reflexivity | ].
  match goal with |- context [rulesetAt _ (ConditionEvaluation.lineNumber ?c)] =>
    apply (condition_names_the_last_firing oneConditionTrace c) end.
  left. reflexivity.
Defined.

End ConditionFacts.

(** ** The integration outputs *)

Module IntegrationFacts.
Import JsString RegExp TraceParser TraceParserSpec JsMapFacts SummarySpec.
Import IntegrationParser IntegrationSpec.

Section Parser.
Variable parseFloat : string -> spec_float.

(** What the look-ahead for a result returns: a text, also as id; a number,
    with its text as id; or null, without an id. *)
Lemma scanResult_cases (window : list string) (value : PropertyValue)
  (idText : option string) :
  scanResult parseFloat window = Some (value, idText) ->
  (exists s, value = PString s /\ idText = Some s)
  \/ (exists s, value = PNumber (parseFloat s) /\ idText = Some s)
  \/ (value = PNull /\ idText = None).
Proof.
  induction window as [|resultLine rest IH]; cbn [scanResult]; [ discriminate | ].
  destruct (test propertyPattern resultLine || test sectionDivider resultLine);
    [ discriminate | ].
  destruct (exec resultStringPattern resultLine) as [stringMatch|].
  { intros H. injection H as <- <-. left. eexists. split; reflexivity. }
  destruct (exec resultNumberPattern resultLine) as [numberMatch|].
  { intros H. injection H as <- <-. right. left. eexists. split; reflexivity. }
  destruct (exec resultNullPattern resultLine).
  { intros H. injection H as <- <-. right. right. split; reflexivity. }
  exact IH.
Qed.

Lemma scanSection_ok (section : list string) (properties : JsMap.t PropertyValue)
  (id : string) :
  JsMap.wf properties -> idOk parseFloat properties id ->
  let '(properties', id') := scanSection parseFloat section properties id in
  JsMap.wf properties' /\ idOk parseFloat properties' id'.
Proof.
  revert properties id. induction section as [|sectionLine rest IH];
    intros properties id Hwf Hid; cbn [scanSection]; [ split; assumption | ].
  destruct (test sectionDivider sectionLine); [ split; assumption | ].
  destruct (exec propertyPattern sectionLine) as [propMatch|]; [ | apply IH; assumption ].
  destruct (scanResult parseFloat (firstn 5 rest)) as [[value idText]|] eqn:Escan;
    [ | apply IH; assumption ].
  apply IH; [ apply wf_set; exact Hwf | ].
  unfold idOk in *. rewrite get_set.
  destruct (String.eqb_spec (trim (group 1 propMatch)) "IntegrationOutputID") as [E | E].
  - destruct (scanResult_cases _ _ _ Escan)
      as [(s & -> & ->) | [(s & -> & ->) | (-> & ->)]]; auto.
  - destruct idText; exact Hid.
Qed.

Lemma addColumns_columnsOf (rows : list (IntegrationOutputRow.t JsMap.t))
  (row : IntegrationOutputRow.t JsMap.t) :
  addColumns (columnsOf rows) (JsMap.keys (IntegrationOutputRow.properties row))
  = columnsOf (rows ++ [row]).
Proof.
  unfold columnsOf, JsSet.ofList, addColumns.
  rewrite flat_map_app, fold_left_app. cbn [flat_map]. rewrite app_nil_r. reflexivity.
Qed.

Lemma templateOk_later (all : list string) (n n' : nat) (name : string)
  (template : IntegrationTemplate.t JsMap.t) :
  n <= n' -> templateOk parseFloat all n name template ->
  templateOk parseFloat all n' name template.
Proof.
  intros Hn (H1 & H2 & H3 & H4). repeat split; try assumption.
  eapply Forall_impl; [ | exact H3 ]. intros row (A & B & C). split; [ exact A | ].
  split; [ lia | exact C ].
Qed.

(** Adding the row of line [n + 1] to a template. *)
Lemma templateOk_add (all done rest : list string) (line name id : string)
  (properties : JsMap.t PropertyValue) (base : IntegrationTemplate.t JsMap.t) :
  all = done ++ line :: rest ->
  option_map trim (captured templatePattern 1 line) = Some name ->
  JsMap.wf properties -> idOk parseFloat properties id ->
  1 <= JsMap.size properties ->
  templateOk parseFloat all (List.length done) name base ->
  templateOk parseFloat all (List.length (done ++ [line])) name
    {| IntegrationTemplate.name := IntegrationTemplate.name base;
       IntegrationTemplate.columns :=
         addColumns (IntegrationTemplate.columns base) (JsMap.keys properties);
       IntegrationTemplate.rows :=
         IntegrationTemplate.rows base
         ++ [ {| IntegrationOutputRow.id := id;
                 IntegrationOutputRow.properties := properties;
                 IntegrationOutputRow.lineNumber := List.length done + 1 |} ] |}.
Proof.
  intros Hall Hline Hwf Hid Hsize (H1 & H2 & H3 & H4).
  unfold templateOk.
  cbn [IntegrationTemplate.name IntegrationTemplate.columns IntegrationTemplate.rows].
  split; [ exact H1 | ].
  split.
  { rewrite H2.
    apply (addColumns_columnsOf (IntegrationTemplate.rows base)
             {| IntegrationOutputRow.id := id;
                IntegrationOutputRow.properties := properties;
                IntegrationOutputRow.lineNumber := List.length done + 1 |}). }
  split.
  { apply Forall_app. split.
    - eapply Forall_impl; [ | exact H3 ]. intros row (A & B & C). split; [ exact A | ].
      split; [ rewrite length_app; cbn; lia | exact C ].
    - constructor; [ | constructor ]. unfold rowOk.
      cbn [IntegrationOutputRow.id IntegrationOutputRow.properties
           IntegrationOutputRow.lineNumber].
      split.
      { exists line. split; [ | exact Hline ].
        replace (List.length done + 1) with (S (List.length done)) by lia.
        cbn [ConditionSpec.lineAt]. rewrite Hall, nth_error_app2 by lia.
        rewrite Nat.sub_diag. reflexivity. }
      split; [ rewrite length_app; cbn; lia | ].
      repeat split; assumption. }
  rewrite map_app. cbn [map IntegrationOutputRow.lineNumber].
  apply ConditionFacts.sorted_snoc; [ exact H4 | ].
  rewrite Forall_map. eapply Forall_impl; [ | exact H3 ]. intros row (_ & B & _).
  cbn beta. lia.
Qed.

Lemma integrationStep_invariant (all done rest : list string) (line : string)
  (st : IntegrationState) :
  all = done ++ line :: rest ->
  integrationInvariant parseFloat all done st ->
  integrationInvariant parseFloat all (done ++ [line])
    (integrationStep parseFloat st (List.length done) line rest).
Proof.
  intros Hall (Hwf & Hts & Hsum).
  assert (Hkeep : integrationInvariant parseFloat all (done ++ [line]) st).
  { split; [ exact Hwf | ]. split; [ | exact Hsum ].
    intros name template Hin. destruct (Hts name template Hin) as [A B].
    split; [ | exact B ].
    eapply templateOk_later; [ | exact A ]. rewrite length_app. cbn. lia. }
  unfold integrationStep, captured.
  destruct (exec templatePattern line) as [templateMatch|] eqn:Ematch; [ | exact Hkeep ].
  set (templateName := trim (group 1 templateMatch)).
  assert (Hline : option_map trim (captured templatePattern 1 line) = Some templateName).
  { unfold captured. rewrite Ematch. reflexivity. }
  pose proof (scanSection_ok rest JsMap.empty "0") as Hscan.
  destruct (scanSection parseFloat rest JsMap.empty "0") as [properties id].
  destruct Hscan as [Hpwf Hpid]; [ constructor | reflexivity | ].
  destruct (0 <? JsMap.size properties) eqn:Esize; [ | exact Hkeep ].
  apply Nat.ltb_lt in Esize.
  set (row := {| IntegrationOutputRow.id := id;
                 IntegrationOutputRow.properties := properties;
                 IntegrationOutputRow.lineNumber := List.length done + 1 |}).
  assert (Hadd : forall base,
             templateOk parseFloat all (List.length done) templateName base ->
             templateOk parseFloat all (List.length (done ++ [line])) templateName
               {| IntegrationTemplate.name := IntegrationTemplate.name base;
                  IntegrationTemplate.columns :=
                    addColumns (IntegrationTemplate.columns base) (JsMap.keys properties);
                  IntegrationTemplate.rows := IntegrationTemplate.rows base ++ [row] |}).
  { intros base Hbase. eapply templateOk_add; eauto. }
  assert (Hrest : forall name template new,
             In (name, template) (JsMap.set (templates st) templateName new) ->
             templateOk parseFloat all (List.length (done ++ [line])) templateName new ->
             1 <= rowCount new ->
             templateOk parseFloat all (List.length (done ++ [line])) name template
             /\ 1 <= rowCount template).
  { intros name template new Hin Hnew Hcount.
    apply RuleSummaryFacts.In_set in Hin. destruct Hin as [[-> ->] | Hin].
    - split; assumption.
    - destruct Hkeep as (_ & Hk & _). apply Hk. exact Hin. }
  destruct (JsMap.has (templates st) templateName) eqn:Ehas.
  - destruct (JsMap.get (templates st) templateName) as [template|] eqn:Eget.
    2:{ apply has_get in Eget. congruence. }
    destruct (Hts templateName template (get_In _ _ _ Eget)) as [Hbase Hcount].
    split; [ apply wf_set; exact Hwf | ].
    split.
    + intros name template' Hin. cbn [templates] in Hin.
      apply (Hrest name template' _ Hin); [ apply Hadd; exact Hbase | ].
      unfold rowCount. cbn [IntegrationTemplate.rows]. rewrite length_app. cbn. lia.
    + cbn [templates totalRows].
      pose proof (RuleSummaryFacts.sumBy_set_present rowCount (templates st) templateName
                    template
                    {| IntegrationTemplate.name := IntegrationTemplate.name template;
                       IntegrationTemplate.columns :=
                         addColumns (IntegrationTemplate.columns template)
                           (JsMap.keys properties);
                       IntegrationTemplate.rows :=
                         IntegrationTemplate.rows template ++ [row] |} Eget) as Hs.
      match type of Hs with _ = _ + rowCount ?new =>
        assert (Hnew : rowCount new = rowCount template + 1)
          by (unfold rowCount; cbn [IntegrationTemplate.rows]; rewrite length_app;
              reflexivity);
        rewrite Hnew in Hs
      end.
      lia.
  - rewrite get_set_same. rewrite RuleSummaryFacts.set_set.
    cbn [IntegrationTemplate.name IntegrationTemplate.columns IntegrationTemplate.rows].
    apply has_get in Ehas.
    assert (Hfresh : templateOk parseFloat all (List.length done) templateName
                       {| IntegrationTemplate.name := templateName;
                          IntegrationTemplate.columns := [];
                          IntegrationTemplate.rows := [] |}).
    { repeat split; constructor. }
    split; [ apply wf_set; exact Hwf | ].
    split.
    + intros name template' Hin. cbn [templates] in Hin.
      apply (Hrest name template' _ Hin); [ apply (Hadd _ Hfresh) | ].
      unfold rowCount. cbn. lia.
    + cbn [templates totalRows].
      rewrite (RuleSummaryFacts.sumBy_set_absent rowCount _ _ _ Ehas).
      unfold rowCount at 2. cbn. lia.
Qed.

Lemma integrationLoop_invariant (all rest done : list string) (st : IntegrationState) :
  all = done ++ rest ->
  integrationInvariant parseFloat all done st ->
  integrationInvariant parseFloat all all
    (integrationLoop parseFloat rest (List.length done) st).
Proof.
  revert done st. induction rest as [|line rest IH]; intros done st Hall Hinv.
  - rewrite app_nil_r in Hall. subst done. exact Hinv.
  - cbn [integrationLoop].
    replace (S (List.length done)) with (List.length (done ++ [line]))
      by (rewrite length_app; cbn; lia).
    apply IH.
    + rewrite <- app_assoc. exact Hall.
    + apply integrationStep_invariant; assumption.
Qed.

Lemma parseIntegrationOutputs_invariant (lines : list string) :
  integrationInvariant parseFloat lines lines
    (integrationLoop parseFloat lines 0 {| templates := JsMap.empty; totalRows := 0 |}).
Proof.
  apply (integrationLoop_invariant lines lines []); [ reflexivity | ].
  split; [ constructor | ]. split; [ intros name template [] | reflexivity ].
Qed.

(** [totalRows] is the number of rows of all templates together, and every
    template has a row. *)
Theorem integration_rows_are_counted : forall lines : list string,
  let outputs := parseIntegrationOutputs parseFloat lines in
  IntegrationOutputSummary.totalRows outputs
  = sumBy rowCount (IntegrationOutputSummary.templates outputs)
  /\ Forall (fun template => 1 <= rowCount template)
       (JsMap.values (IntegrationOutputSummary.templates outputs))
  /\ JsMap.size (IntegrationOutputSummary.templates outputs)
     <= IntegrationOutputSummary.totalRows outputs.
Proof.
  intros lines. cbn zeta.
  destruct (parseIntegrationOutputs_invariant lines) as (Hwf & Hts & Hsum).
  unfold parseIntegrationOutputs.
  cbn [IntegrationOutputSummary.templates IntegrationOutputSummary.totalRows].
  split; [ exact Hsum | ].
  split.
  - apply Forall_forall. intros template Hin. unfold JsMap.values in Hin.
    apply in_map_iff in Hin. destruct Hin as ([name t] & <- & Hin).
    apply (Hts name t Hin).
  - rewrite Hsum. apply VariableFacts.size_le_sumBy.
    intros key v Hin. apply (Hts key v Hin).
Qed.

(** X18: A template is stored under its own name.  Its rows are in the order of
    the trace; each was read at a [Template:] line that names the template,
    and has a property.  Its columns are the property names of its rows, each
    once, in the order in which they first appear. *)
Theorem template_holds_its_rows :
  forall (lines : list string) (name : string) (template : IntegrationTemplate.t JsMap.t),
    JsMap.get (IntegrationOutputSummary.templates (parseIntegrationOutputs parseFloat lines))
      name = Some template ->
    IntegrationTemplate.name template = name
    /\ StronglySorted lt
         (map IntegrationOutputRow.lineNumber (IntegrationTemplate.rows template))
    /\ Forall (fun row =>
                 (exists line,
                     ConditionSpec.lineAt lines (IntegrationOutputRow.lineNumber row)
                     = Some line
                     /\ option_map trim (captured templatePattern 1 line) = Some name)
                 /\ 1 <= JsMap.size (IntegrationOutputRow.properties row))
         (IntegrationTemplate.rows template)
    /\ IntegrationTemplate.columns template = columnsOf (IntegrationTemplate.rows template)
    /\ NoDup (IntegrationTemplate.columns template)
    /\ (forall column,
           In column (IntegrationTemplate.columns template)
           <-> exists row,
                 In row (IntegrationTemplate.rows template)
                 /\ JsMap.has (IntegrationOutputRow.properties row) column = true).
Proof.
  intros lines name template Hget.
  destruct (parseIntegrationOutputs_invariant lines) as (Hwf & Hts & Hsum).
  unfold parseIntegrationOutputs in Hget. cbn [IntegrationOutputSummary.templates] in Hget.
  destruct (Hts name template (get_In _ _ _ Hget)) as [(H1 & H2 & H3 & H4) _].
  split; [ exact H1 | ]. split; [ exact H4 | ].
  split.
  { eapply Forall_impl; [ | exact H3 ]. intros row (A & _ & C & _). split; assumption. }
  split; [ exact H2 | ].
  rewrite H2. split; [ apply MatchScoreFacts.NoDup_ofList | ].
  intros column. unfold columnsOf. split.
  - intros Hin. apply RegressionFacts.In_ofList in Hin. apply in_flat_map in Hin.
    destruct Hin as (row & Hrow & Hkey). exists row. split; [ exact Hrow | ].
    destruct (JsMap.has (IntegrationOutputRow.properties row) column) eqn:E; [ reflexivity | ].
    apply has_get, get_None_keys in E. contradiction.
  - intros (row & Hrow & Hhas). apply MatchScoreFacts.ofList_In. apply in_flat_map.
    exists row. split; [ exact Hrow | ].
    destruct (in_dec string_dec column (JsMap.keys (IntegrationOutputRow.properties row)))
      as [Hin | Hout]; [ exact Hin | ].
    apply get_None_keys, has_get in Hout. congruence.
Qed.

(** X19: The id of a row is 0 when the row has no property [IntegrationOutputID];
    it is the text of that property when that is a text, and a text that
    reads as its number when it is a number. *)
Theorem row_id_is_the_output_id :
  forall (lines : list string) (name : string) (template : IntegrationTemplate.t JsMap.t)
         (row : IntegrationOutputRow.t JsMap.t),
    JsMap.get (IntegrationOutputSummary.templates (parseIntegrationOutputs parseFloat lines))
      name = Some template ->
    In row (IntegrationTemplate.rows template) ->
    match JsMap.get (IntegrationOutputRow.properties row) "IntegrationOutputID" with
    | None => IntegrationOutputRow.id row = "0"
    | Some (PString s) => IntegrationOutputRow.id row = s
    | Some (PNumber x) => parseFloat (IntegrationOutputRow.id row) = x
    | Some PNull => True
    end.
Proof.
  intros lines name template row Hget Hrow.
  destruct (parseIntegrationOutputs_invariant lines) as (Hwf & Hts & Hsum).
  unfold parseIntegrationOutputs in Hget. cbn [IntegrationOutputSummary.templates] in Hget.
  destruct (Hts name template (get_In _ _ _ Hget)) as [(_ & _ & H3 & _) _].
  rewrite Forall_forall in H3. apply (H3 row Hrow).
Qed.

End Parser.

Lemma template_holds_its_rows_witness :
  exists template,
    JsMap.get (IntegrationOutputSummary.templates
                 (parseIntegrationOutputs noParseFloat oneRowTrace)) "Quote" = Some template
    /\ IntegrationTemplate.columns template = ["IntegrationOutputID"; "Price"]
    /\ IntegrationTemplate.columns template = columnsOf (IntegrationTemplate.rows template).
Proof.
  eexists. split; [ reflexivity | ]. split; [ reflexivity | ].
  match goal with |- IntegrationTemplate.columns ?t = _ =>
    apply (template_holds_its_rows noParseFloat oneRowTrace "Quote" t) end.
  reflexivity.
Defined.

Lemma row_id_is_the_output_id_witness :
  exists template row,
    JsMap.get (IntegrationOutputSummary.templates
                 (parseIntegrationOutputs noParseFloat oneRowTrace)) "Quote" = Some template
    /\ In row (IntegrationTemplate.rows template)
    /\ IntegrationOutputRow.id row = "12"
    /\ noParseFloat (IntegrationOutputRow.id row) = S754_zero false.
Proof.
  eexists. eexists. split; [ reflexivity | ]. split; [ left; reflexivity | ].
  split; [ reflexivity | ].
  match goal with |- noParseFloat (IntegrationOutputRow.id ?r) = _ =>
    match type of r with _ => idtac end;
    pose proof (row_id_is_the_output_id noParseFloat oneRowTrace "Quote" _ r eq_refl
                  (or_introl eq_refl)) as H
  end.
  exact H.
Defined.

End IntegrationFacts.

(** ** The comparison of two traces *)

Module ComparisonFacts.
Import JsString Regression JsMapFacts RegressionFacts Comparison ComparisonSpec.

Lemma In_has (s : JsSet.t) (x : string) : JsSet.has s x = true -> In x s.
Proof.
  unfold JsSet.has. intros H. apply existsb_exists in H. destruct H as (y & Hy & E).
  apply String.eqb_eq in E. subst y. exact Hy.
Qed.

(** A name is in the set of the keys of a map when the map has it. *)
Lemma has_keys {V} (m : JsMap.t V) (k : string) :
  JsSet.has (JsSet.ofList (JsMap.keys m)) k = JsMap.has m k.
Proof.
  destruct (JsMap.has m k) eqn:E.
  - apply has_In, MatchScoreFacts.ofList_In.
    destruct (in_dec string_dec k (JsMap.keys m)) as [Hin | Hout]; [ exact Hin | ].
    apply get_None_keys, has_get in Hout. congruence.
  - destruct (JsSet.has (JsSet.ofList (JsMap.keys m)) k) eqn:E'; [ | reflexivity ].
    apply In_has, In_ofList in E'. apply has_get, get_None_keys in E. contradiction.
Qed.

Lemma has_true_get {V} (m : JsMap.t V) (k : string) :
  JsMap.has m k = true <-> exists v, JsMap.get m k = Some v.
Proof.
  split.
  - intros H. destruct (JsMap.get m k) as [v|] eqn:E; [ eauto | ].
    apply has_get in E. congruence.
  - intros (v & E). destruct (JsMap.has m k) eqn:H; [ reflexivity | ].
    apply has_get in H. congruence.
Qed.

Lemma filter_nil {A} (f : A -> bool) (l : list A) :
  filter f l = [] <-> forall x, In x l -> f x = false.
Proof.
  induction l as [|a l IH]; cbn [filter].
  - split; [ intros _ x [] | reflexivity ].
  - destruct (f a) eqn:E.
    + split; [ discriminate | ]. intros H. rewrite (H a (or_introl eq_refl)) in E.
      discriminate.
    + rewrite IH. split.
      * intros H x [<- | Hx]; auto.
      * intros H x Hx. apply H. right. exact Hx.
Qed.

Lemma flat_map_nil_inv {A B} (f : A -> list B) (l : list A) :
  flat_map f l = [] -> forall x, In x l -> f x = [].
Proof.
  induction l as [|a l IH]; cbn [flat_map]; intros H x Hx; [ destruct Hx | ].
  apply app_eq_nil in H. destruct H as [Ha Hl].
  destruct Hx as [<- | Hx]; [ exact Ha | apply IH; assumption ].
Qed.

Lemma notIn_self (s : JsSet.t) : notIn s s = [].
Proof.
  unfold notIn. apply filter_nil. intros x Hx. rewrite (has_In s x Hx). reflexivity.
Qed.

Lemma filter_self (l : list string) :
  filter (fun x => negb (JsSet.has (JsSet.ofList l) x)) l = [].
Proof.
  apply filter_nil. intros x Hx. rewrite has_In; [ reflexivity | ].
  apply MatchScoreFacts.ofList_In. exact Hx.
Qed.

Lemma entry_has {V} (m : JsMap.t V) (k : string) (v : V) :
  In (k, v) m -> JsMap.has m k = true.
Proof.
  intros Hin. destruct (JsMap.has m k) eqn:E; [ reflexivity | ].
  apply has_get, get_None_keys in E. exfalso. apply E.
  unfold JsMap.keys. apply in_map_iff. exists (k, v). split; [ reflexivity | exact Hin ].
Qed.

Lemma valuesNotIn_self {V} (m : JsMap.t V) : valuesNotIn m m = [].
Proof.
  unfold valuesNotIn. apply flat_map_nil. intros [k v] Hin. cbn [fst snd].
  rewrite (entry_has m k v Hin). reflexivity.
Qed.

Lemma fold_left_unchanged {A B} (f : B -> A -> B) (l : list A) (acc : B) :
  (forall x, In x l -> f acc x = acc) -> fold_left f l acc = acc.
Proof.
  induction l as [|a l IH]; cbn [fold_left]; intros H; [ reflexivity | ].
  rewrite (H a (or_introl eq_refl)). apply IH. intros x Hx. apply H. right. exact Hx.
Qed.

Section SelfComparison.
Variable numberToString : spec_float -> string.

Lemma changedPropertiesOf_self (row : IntegrationOutputRow.t JsMap.t) :
  changedPropertiesOf numberToString row row = [].
Proof.
  unfold changedPropertiesOf. apply flat_map_nil. intros prop _.
  rewrite String.eqb_refl. reflexivity.
Qed.

Lemma compareTemplates_self (template : IntegrationTemplate.t JsMap.t) :
  hasDifferences (compareTemplates numberToString template template) = false.
Proof.
  unfold hasDifferences, compareTemplates.
  cbn [TemplateDiff.addedRows TemplateDiff.removedRows TemplateDiff.changedRows
       TemplateDiff.addedColumns TemplateDiff.removedColumns].
  rewrite valuesNotIn_self, filter_self.
  rewrite flat_map_nil; [ reflexivity | ].
  intros [id row] Hin. unfold JsMap.entries, rowsById in *.
  rewrite (In_get _ _ _ (wf_ofEntries _) Hin).
  rewrite changedPropertiesOf_self. reflexivity.
Qed.

Lemma compareIntegrationOutputs_self (outputs : IntegrationOutputSummary.t JsMap.t) :
  compareIntegrationOutputs numberToString outputs outputs
  = {| IntegrationOutputDiff.addedTemplates := [];
       IntegrationOutputDiff.removedTemplates := [];
       IntegrationOutputDiff.templateDiffs := JsMap.empty |}.
Proof.
  unfold compareIntegrationOutputs. rewrite notIn_self. f_equal.
  apply fold_left_unchanged. intros name Hin.
  rewrite (has_In _ _ Hin). cbn [negb].
  destruct (JsMap.get (IntegrationOutputSummary.templates outputs) name); [ | reflexivity ].
  rewrite compareTemplates_self. reflexivity.
Qed.

Lemma compareVariables_self (tracking : VariableTrackingSummary.t JsMap.t) :
  compareVariables tracking tracking
  = {| VariableDiff.changedVariables := [];
       VariableDiff.addedVariables := [];
       VariableDiff.removedVariables := [];
       VariableDiff.totalChanges := 0 |}.
Proof.
  unfold compareVariables. rewrite notIn_self.
  rewrite flat_map_nil; [ reflexivity | ].
  intros name Hin. rewrite (has_In _ _ Hin). cbn [negb].
  destruct (JsMap.get (VariableTrackingSummary.variables tracking) name); [ | reflexivity ].
  rewrite nullableEqb_refl. reflexivity.
Qed.

Lemma conditionMap_wf (conditions : list ConditionEvaluation.t) :
  JsMap.wf (conditionMap conditions).
Proof.
  unfold conditionMap. apply (wf_fold_set conditionKey (fun c => c)). constructor.
Qed.

Lemma compareConditions_self (summary : ConditionSummary.t) :
  compareConditions summary summary
  = {| ConditionDiff.changedConditions := [];
       ConditionDiff.addedConditions := [];
       ConditionDiff.removedConditions := [];
       ConditionDiff.totalChanges := 0 |}.
Proof.
  unfold compareConditions. rewrite valuesNotIn_self.
  rewrite flat_map_nil; [ reflexivity | ].
  intros [key condition] Hin. unfold JsMap.entries in Hin.
  rewrite (In_get _ _ _ (conditionMap_wf _) Hin), Bool.eqb_reflx. reflexivity.
Qed.

(** X20: The comparison of a trace with itself finds no difference: no feature,
    option, value or header field, no template, row or column, no variable
    and no condition is reported, and both totals are 0. *)
Theorem compareTraces_self : forall trace : ParsedTrace.t JsMap.t,
  noDifferences (compareTraces numberToString trace trace).
Proof.
  intros trace. unfold noDifferences, compareTraces.
  cbn [TraceDiff.addedFeatures TraceDiff.removedFeatures TraceDiff.optionChanges
       TraceDiff.valueChanges TraceDiff.metadataChanges TraceDiff.integrationOutputDiff
       TraceDiff.variableDiff TraceDiff.conditionDiff].
  rewrite compareIntegrationOutputs_self, compareVariables_self, compareConditions_self.
  rewrite notIn_self.
  rewrite fold_left_unchanged.
  2:{ intros feature Hin. unfold featureChangeStep.
      rewrite (has_In _ _ Hin). cbn [negb].
      destruct (JsMap.get (ParsedTrace.features trace) feature) as [data|]; [ | reflexivity ].
      rewrite !filter_self, nullableEqb_refl. reflexivity. }
  cbn [loopOptionChanges loopValueChanges].
  split; [ reflexivity | ]. split; [ reflexivity | ]. split; [ reflexivity | ].
  split; [ reflexivity | ].
  split.
  { apply flat_map_nil. intros [field read] _. rewrite String.eqb_refl. reflexivity. }
  cbn. repeat split.
Qed.

End SelfComparison.

(** [metadataChanges] is empty exactly when the two traces agree on the
    six header fields that [metaFields] lists; [headerID] is not among them,
    so that no difference of [headerID] is reported. *)
Theorem metadataChanges_leave_out_headerID :
  forall (numberToString : spec_float -> string) (baseline current : ParsedTrace.t JsMap.t),
    TraceDiff.metadataChanges (compareTraces numberToString baseline current) = []
    <-> sameHeader (ParsedTrace.metadata baseline) (ParsedTrace.metadata current).
Proof.
  intros numberToString baseline current. unfold compareTraces, sameHeader.
  cbn [TraceDiff.metadataChanges metaFields flat_map].
  destruct (String.eqb_spec (ConfigurationMetadata.instance (ParsedTrace.metadata baseline))
              (ConfigurationMetadata.instance (ParsedTrace.metadata current)));
    cbn [negb app]; [ | split; [ discriminate | tauto ] ].
  destruct (String.eqb_spec (ConfigurationMetadata.application (ParsedTrace.metadata baseline))
              (ConfigurationMetadata.application (ParsedTrace.metadata current)));
    cbn [negb app]; [ | split; [ discriminate | tauto ] ].
  destruct (String.eqb_spec
              (ConfigurationMetadata.configurationId (ParsedTrace.metadata baseline))
              (ConfigurationMetadata.configurationId (ParsedTrace.metadata current)));
    cbn [negb app]; [ | split; [ discriminate | tauto ] ].
  destruct (String.eqb_spec (ConfigurationMetadata.partNumber (ParsedTrace.metadata baseline))
              (ConfigurationMetadata.partNumber (ParsedTrace.metadata current)));
    cbn [negb app]; [ | split; [ discriminate | tauto ] ].
  destruct (String.eqb_spec
              (ConfigurationMetadata.partNamespace (ParsedTrace.metadata baseline))
              (ConfigurationMetadata.partNamespace (ParsedTrace.metadata current)));
    cbn [negb app]; [ | split; [ discriminate | tauto ] ].
  destruct (String.eqb_spec
              (ConfigurationMetadata.configurationMode (ParsedTrace.metadata baseline))
              (ConfigurationMetadata.configurationMode (ParsedTrace.metadata current)));
    cbn [negb app]; [ | split; [ discriminate | tauto ] ].
  tauto.
Qed.

Lemma nullableEqb_eq (a b : option string) : nullableEqb a b = true <-> a = b.
Proof.
  destruct a as [x|], b as [y|]; cbn; split; try discriminate; try reflexivity.
  - intros H. apply String.eqb_eq in H. congruence.
  - intros H. injection H as ->. apply String.eqb_refl.
Qed.

Lemma key_has {V} (m : JsMap.t V) (k : string) :
  In k (JsSet.ofList (JsMap.keys m)) <-> JsMap.has m k = true.
Proof.
  rewrite <- has_keys. split; [ apply has_In | apply In_has ].
Qed.

(** X21: [totalChanges] of the variable comparison is 0 exactly when both traces
    hold the same variables and every variable has the same final value in
    both; the number of assignments and the values in between are not
    compared. *)
Theorem compareVariables_compares_final_values :
  forall baseline current : VariableTrackingSummary.t JsMap.t,
    VariableDiff.totalChanges (compareVariables baseline current) = 0
    <-> sameFinalValues baseline current.
Proof.
  intros baseline current. unfold compareVariables, sameFinalValues.
  cbn [VariableDiff.totalChanges].
  set (bs := VariableTrackingSummary.variables baseline).
  set (cs := VariableTrackingSummary.variables current).
  split.
  - intros H.
    match type of H with List.length ?a + List.length ?b + List.length ?c = 0 =>
      assert (Ha : a = []) by (destruct a; [ reflexivity | cbn in H; lia ]);
      assert (Hb : b = []) by (destruct b; [ reflexivity | cbn in H; lia ]);
      assert (Hc : c = []) by (destruct c; [ reflexivity | cbn in H; lia ])
    end.
    unfold notIn in Hb, Hc. rewrite filter_nil in Hb, Hc.
    assert (Hsame : forall name, JsMap.has bs name = JsMap.has cs name).
    { intros name. destruct (JsMap.has bs name) eqn:Eb, (JsMap.has cs name) eqn:Ec;
        try reflexivity.
      - apply key_has in Eb. apply Hc in Eb. rewrite has_keys, Ec in Eb. discriminate.
      - apply key_has in Ec. apply Hb in Ec. rewrite has_keys, Eb in Ec. discriminate. }
    split; [ exact Hsame | ].
    intros name baselineVar currentVar Eb Ec.
    assert (Hin : In name (JsSet.ofList (JsMap.keys bs))).
    { apply key_has, has_true_get. eauto. }
    pose proof (flat_map_nil_inv _ _ Ha name Hin) as Hname. cbn beta in Hname.
    rewrite has_keys in Hname.
    replace (JsMap.has cs name) with true in Hname
      by (symmetry; apply has_true_get; eauto).
    cbn [negb] in Hname. rewrite Eb, Ec in Hname.
    destruct (nullableEqb (VariableSummary.finalValue baselineVar)
                (VariableSummary.finalValue currentVar)) eqn:E; [ | discriminate ].
    apply nullableEqb_eq. exact E.
  - intros [Hsame Hfinal].
    assert (Hb : notIn (JsSet.ofList (JsMap.keys bs)) (JsSet.ofList (JsMap.keys cs)) = []).
    { apply filter_nil. intros name Hin. apply key_has in Hin.
      rewrite has_keys, Hsame, Hin. reflexivity. }
    assert (Hc : notIn (JsSet.ofList (JsMap.keys cs)) (JsSet.ofList (JsMap.keys bs)) = []).
    { apply filter_nil. intros name Hin. apply key_has in Hin.
      rewrite has_keys, <- Hsame, Hin. reflexivity. }
    rewrite Hb, Hc. rewrite flat_map_nil; [ reflexivity | ].
    intros name Hin. destruct (negb (JsSet.has (JsSet.ofList (JsMap.keys cs)) name));
      [ reflexivity | ].
    destruct (JsMap.get bs name) as [baselineVar|] eqn:Eb; [ | reflexivity ].
    destruct (JsMap.get cs name) as [currentVar|] eqn:Ec; [ | reflexivity ].
    rewrite (Hfinal name baselineVar currentVar Eb Ec), nullableEqb_refl. reflexivity.
Qed.

(** The map of the conditions holds, for every key, the last evaluation
    with that key. *)
Lemma get_conditionMap (conditions : list ConditionEvaluation.t) (key : string) :
  JsMap.get (conditionMap conditions) key = lastWith key conditions.
Proof.
  unfold conditionMap, lastWith.
  assert (G : forall m,
             JsMap.get (fold_left (fun m c => JsMap.set m (conditionKey c) c) conditions m) key
             = match find (fun c => String.eqb (conditionKey c) key) (rev conditions) with
               | Some c => Some c
               | None => JsMap.get m key
               end).
  { induction conditions as [|c conditions IH] using rev_ind; intros m; [ reflexivity | ].
    rewrite fold_left_app, rev_app_distr. cbn [fold_left rev app find].
    rewrite get_set. destruct (String.eqb (conditionKey c) key); [ reflexivity | ].
    apply IH. }
  rewrite G. destruct (find _ (rev conditions)); reflexivity.
Qed.

Lemma entry_conditionMap (conditions : list ConditionEvaluation.t) (key : string)
  (c : ConditionEvaluation.t) :
  In (key, c) (JsMap.entries (conditionMap conditions)) <-> lastWith key conditions = Some c.
Proof.
  rewrite <- get_conditionMap. unfold JsMap.entries. split.
  - apply In_get, conditionMap_wf.
  - apply get_In.
Qed.

Lemma has_conditionMap (conditions : list ConditionEvaluation.t) (key : string) :
  JsMap.has (conditionMap conditions) key = false <-> lastWith key conditions = None.
Proof. rewrite <- get_conditionMap. apply has_get. Qed.

Lemma In_valuesNotIn {V W} (those : JsMap.t W) (these : JsMap.t V) (v : V) :
  In v (valuesNotIn those these)
  <-> exists key, In (key, v) (JsMap.entries these) /\ JsMap.has those key = false.
Proof.
  unfold valuesNotIn. rewrite in_flat_map. split.
  - intros ([key v'] & Hin & Hv). cbn [fst snd] in Hv.
    destruct (JsMap.has those key) eqn:E; [ destruct Hv | ].
    destruct Hv as [<- | []]. exists key. split; assumption.
  - intros (key & Hin & E). exists (key, v). split; [ exact Hin | ].
    cbn [fst snd]. rewrite E. left. reflexivity.
Qed.

(** X22: The condition comparison looks at the last evaluation of every
    condition only, a condition being known by its ruleset, its rule number
    and its expression.  A change is reported exactly for a condition whose
    last evaluations in the two traces differ; a condition is added or
    removed exactly when it was evaluated in one trace only, and it is shown
    with its last evaluation. *)
Theorem compareConditions_compares_last_evaluations :
  forall baseline current : ConditionSummary.t,
    let diff := compareConditions baseline current in
    (forall change,
        In change (ConditionDiff.changedConditions diff)
        <-> exists key baselineCondition currentCondition,
              lastWith key (ConditionSummary.conditions baseline) = Some baselineCondition
              /\ lastWith key (ConditionSummary.conditions current) = Some currentCondition
              /\ ConditionEvaluation.result baselineCondition
                 <> ConditionEvaluation.result currentCondition
              /\ change = changeOf baselineCondition currentCondition)
    /\ (forall condition,
           In condition (ConditionDiff.addedConditions diff)
           <-> exists key,
                 lastWith key (ConditionSummary.conditions current) = Some condition
                 /\ lastWith key (ConditionSummary.conditions baseline) = None)
    /\ (forall condition,
           In condition (ConditionDiff.removedConditions diff)
           <-> exists key,
                 lastWith key (ConditionSummary.conditions baseline) = Some condition
                 /\ lastWith key (ConditionSummary.conditions current) = None).
Proof.
  intros baseline current. cbn zeta. unfold compareConditions.
  cbn [ConditionDiff.changedConditions ConditionDiff.addedConditions
       ConditionDiff.removedConditions].
  split; [ | split ].
  - intros change. rewrite in_flat_map. split.
    + intros ([key baselineCondition] & Hin & Hchange).
      apply entry_conditionMap in Hin. rewrite get_conditionMap in Hchange.
      destruct (lastWith key (ConditionSummary.conditions current))
        as [currentCondition|] eqn:Ec; [ | destruct Hchange ].
      destruct (Bool.eqb (ConditionEvaluation.result baselineCondition)
                  (ConditionEvaluation.result currentCondition)) eqn:E;
        [ destruct Hchange | ].
      destruct Hchange as [<- | []].
      exists key, baselineCondition, currentCondition.
      split; [ exact Hin | ]. split; [ exact Ec | ].
      split; [ | reflexivity ].
      intros Heq. rewrite Heq, Bool.eqb_reflx in E. discriminate.
    + intros (key & baselineCondition & currentCondition & Hb & Hc & Hne & ->).
      exists (key, baselineCondition). split; [ apply entry_conditionMap; exact Hb | ].
      rewrite get_conditionMap, Hc.
      destruct (Bool.eqb (ConditionEvaluation.result baselineCondition)
                  (ConditionEvaluation.result currentCondition)) eqn:E.
      * apply Bool.eqb_prop in E. contradiction.
      * left. reflexivity.
  - intros condition. rewrite In_valuesNotIn. split.
    + intros (key & Hin & E). exists key.
      split; [ apply entry_conditionMap; exact Hin | apply has_conditionMap; exact E ].
    + intros (key & Hc & Hb). exists key.
      split; [ apply entry_conditionMap; exact Hc | apply has_conditionMap; exact Hb ].
  - intros condition. rewrite In_valuesNotIn. split.
    + intros (key & Hin & E). exists key.
      split; [ apply entry_conditionMap; exact Hin | apply has_conditionMap; exact E ].
    + intros (key & Hb & Hc). exists key.
      split; [ apply entry_conditionMap; exact Hb | apply has_conditionMap; exact Hc ].
Qed.

(** The loop over the features adds, for each feature, what
    [optionChangeOf] and [valueChangeOf] say. *)
Lemma fold_featureChanges (baseline current : ParsedTrace.t JsMap.t) (names : list string)
  (acc : FeatureChanges) :
  fold_left
    (featureChangeStep baseline current
       (JsSet.ofList (JsMap.keys (ParsedTrace.features current)))) names acc
  = {| loopOptionChanges :=
         loopOptionChanges acc ++ flat_map (optionChangeOf baseline current) names;
       loopValueChanges :=
         loopValueChanges acc ++ flat_map (valueChangeOf baseline current) names |}.
Proof.
  revert acc. induction names as [|name names IH]; intros acc; cbn [fold_left flat_map].
  - rewrite !app_nil_r. destruct acc; reflexivity.
  - rewrite IH. unfold featureChangeStep, optionChangeOf, valueChangeOf, optionsNotIn.
    rewrite has_keys.
    destruct (JsMap.get (ParsedTrace.features current) name) as [currentData|] eqn:Ec.
    + replace (JsMap.has (ParsedTrace.features current) name) with true
        by (symmetry; apply has_true_get; eauto).
      cbn [negb].
      destruct (JsMap.get (ParsedTrace.features baseline) name) as [baselineData|];
        [ | reflexivity ].
      cbn zeta.
      destruct ((0 <? List.length _) || (0 <? List.length _));
        destruct (negb (nullableEqb _ _));
        cbn [loopOptionChanges loopValueChanges app]; rewrite <- ?app_assoc; reflexivity.
    + destruct (negb (JsMap.has (ParsedTrace.features current) name));
        destruct (JsMap.get (ParsedTrace.features baseline) name); reflexivity.
Qed.

Lemma NoDup_flat_map_names {B} (f : string -> list B) (g : B -> string)
  (names : list string) :
  NoDup names ->
  (forall name, map g (f name) = [] \/ map g (f name) = [name]) ->
  NoDup (map g (flat_map f names)).
Proof.
  intros Hnd Hf. induction Hnd as [|name names Hout Hnd IH]; cbn [flat_map map];
    [ constructor | ].
  rewrite map_app. destruct (Hf name) as [-> | ->]; cbn [app]; [ exact IH | ].
  constructor; [ | exact IH ].
  intros Hin. apply in_map_iff in Hin. destruct Hin as (x & Hx & Hin).
  apply in_flat_map in Hin. destruct Hin as (other & Hother & Hin).
  destruct (Hf other) as [E | E].
  - apply (in_map g) in Hin. rewrite E in Hin. destruct Hin.
  - apply (in_map g) in Hin. rewrite E in Hin. destruct Hin as [E' | []].
    rewrite E', Hx in Hother. contradiction.
Qed.

Lemma In_notIn (those these : JsSet.t) (x : string) :
  In x (notIn those these) <-> In x these /\ JsSet.has those x = false.
Proof.
  unfold notIn. rewrite filter_In. destruct (JsSet.has those x); cbn [negb];
    intuition congruence.
Qed.

(** X23: The feature lists of the comparison are exact.  A feature is added when
    the current trace has it and the baseline has not, and removed the other
    way round.  A value change is reported exactly for a feature of both
    traces whose selected values differ, with both values.  No feature is
    listed twice. *)
Theorem feature_changes_are_exact :
  forall (numberToString : spec_float -> string) (baseline current : ParsedTrace.t JsMap.t),
    let diff := compareTraces numberToString baseline current in
    (forall name,
        In name (TraceDiff.addedFeatures diff)
        <-> JsMap.has (ParsedTrace.features current) name = true
            /\ JsMap.has (ParsedTrace.features baseline) name = false)
    /\ (forall name,
           In name (TraceDiff.removedFeatures diff)
           <-> JsMap.has (ParsedTrace.features baseline) name = true
               /\ JsMap.has (ParsedTrace.features current) name = false)
    /\ (forall change,
           In change (TraceDiff.valueChanges diff)
           <-> exists baselineData currentData,
                 JsMap.get (ParsedTrace.features baseline) (ValueChange.feature change)
                 = Some baselineData
                 /\ JsMap.get (ParsedTrace.features current) (ValueChange.feature change)
                    = Some currentData
                 /\ ValueChange.baselineValue change = FeatureData.selectedValue baselineData
                 /\ ValueChange.currentValue change = FeatureData.selectedValue currentData
                 /\ FeatureData.selectedValue baselineData
                    <> FeatureData.selectedValue currentData)
    /\ NoDup (TraceDiff.addedFeatures diff)
    /\ NoDup (TraceDiff.removedFeatures diff)
    /\ NoDup (map ValueChange.feature (TraceDiff.valueChanges diff)).
Proof.
  intros numberToString baseline current. cbn zeta. unfold compareTraces.
  cbn [TraceDiff.addedFeatures TraceDiff.removedFeatures TraceDiff.valueChanges].
  rewrite fold_featureChanges. cbn [loopValueChanges app].
  split; [ | split; [ | split; [ | split; [ | split ] ] ] ].
  - intros name. rewrite In_notIn, key_has, has_keys. tauto.
  - intros name. rewrite In_notIn, key_has, has_keys. tauto.
  - intros change. rewrite in_flat_map. split.
    + intros (name & Hname & Hin). unfold valueChangeOf in Hin.
      destruct (JsMap.get (ParsedTrace.features baseline) name) as [baselineData|] eqn:Eb;
        [ | destruct Hin ].
      destruct (JsMap.get (ParsedTrace.features current) name) as [currentData|] eqn:Ec;
        [ | destruct Hin ].
      destruct (nullableEqb (FeatureData.selectedValue baselineData)
                  (FeatureData.selectedValue currentData)) eqn:E; [ destruct Hin | ].
      destruct Hin as [<- | []]. cbn [ValueChange.feature ValueChange.baselineValue
                                      ValueChange.currentValue].
      exists baselineData, currentData. repeat split; try assumption.
      intros Heq. apply nullableEqb_eq in Heq. congruence.
    + intros (baselineData & currentData & Eb & Ec & Hb & Hc & Hne).
      exists (ValueChange.feature change). split.
      * apply key_has, has_true_get. eauto.
      * unfold valueChangeOf. rewrite Eb, Ec.
        destruct (nullableEqb (FeatureData.selectedValue baselineData)
                    (FeatureData.selectedValue currentData)) eqn:E.
        -- apply nullableEqb_eq in E. contradiction.
        -- left. destruct change. cbn in *. congruence.
  - apply NoDup_filter, MatchScoreFacts.NoDup_ofList.
  - apply NoDup_filter, MatchScoreFacts.NoDup_ofList.
  - apply NoDup_flat_map_names; [ apply MatchScoreFacts.NoDup_ofList | ].
    intros name. unfold valueChangeOf.
    destruct (JsMap.get (ParsedTrace.features baseline) name); [ | left; reflexivity ].
    destruct (JsMap.get (ParsedTrace.features current) name); [ | left; reflexivity ].
    destruct (negb (nullableEqb _ _)); [ right | left ]; reflexivity.
Qed.

Lemma In_optionsNotIn (those these : list string) (o : string) :
  In o (optionsNotIn those these) <-> In o these /\ ~ In o those.
Proof.
  unfold optionsNotIn. rewrite filter_In. split.
  - intros [Hin Hhas]. split; [ exact Hin | ]. intros Hthose.
    rewrite has_In in Hhas by (apply MatchScoreFacts.ofList_In; exact Hthose).
    discriminate.
  - intros [Hin Hout]. split; [ exact Hin | ].
    destruct (JsSet.has (JsSet.ofList those) o) eqn:E; [ | reflexivity ].
    apply In_has, In_ofList in E. contradiction.
Qed.

Lemma optionsNotIn_nil (a b : list string) :
  optionsNotIn a b = [] /\ optionsNotIn b a = [] <-> sameOptions a b.
Proof.
  unfold sameOptions. split.
  - intros [Hb Ha] o. split; intros Hin.
    + destruct (in_dec string_dec o b) as [H | H]; [ exact H | ].
      assert (Hx : In o (optionsNotIn b a)) by (apply In_optionsNotIn; auto).
      rewrite Ha in Hx. destruct Hx.
    + destruct (in_dec string_dec o a) as [H | H]; [ exact H | ].
      assert (Hx : In o (optionsNotIn a b)) by (apply In_optionsNotIn; auto).
      rewrite Hb in Hx. destruct Hx.
  - intros Hsame. split.
    + destruct (optionsNotIn a b) as [|o rest] eqn:E; [ reflexivity | ].
      assert (Hx : In o (optionsNotIn a b)) by (rewrite E; left; reflexivity).
      apply In_optionsNotIn in Hx. destruct Hx as [Hin Hout]. apply Hsame in Hin.
      contradiction.
    + destruct (optionsNotIn b a) as [|o rest] eqn:E; [ reflexivity | ].
      assert (Hx : In o (optionsNotIn b a)) by (rewrite E; left; reflexivity).
      apply In_optionsNotIn in Hx. destruct Hx as [Hin Hout]. apply Hsame in Hin.
      contradiction.
Qed.

(** X24: For a feature of both traces an option change is reported exactly when
    the two option lists do not hold the same options; their order and
    repetitions do not count.  The change lists as added the options of the
    current trace that the baseline has not, and as removed those of the
    baseline that the current trace has not. *)
Theorem option_changes_compare_option_sets :
  forall (numberToString : spec_float -> string) (baseline current : ParsedTrace.t JsMap.t)
         (name : string) (baselineData currentData : FeatureData.t),
    JsMap.get (ParsedTrace.features baseline) name = Some baselineData ->
    JsMap.get (ParsedTrace.features current) name = Some currentData ->
    let changes :=
      filter (fun change => String.eqb (OptionChange.feature change) name)
        (TraceDiff.optionChanges (compareTraces numberToString baseline current)) in
    (changes = []
     <-> sameOptions (FeatureData.options baselineData) (FeatureData.options currentData))
    /\ (forall change,
           In change changes ->
           changes = [change]
           /\ OptionChange.baselineOptions change = FeatureData.options baselineData
           /\ OptionChange.currentOptions change = FeatureData.options currentData
           /\ (forall o,
                  In o (OptionChange.addedOptions change)
                  <-> In o (FeatureData.options currentData)
                      /\ ~ In o (FeatureData.options baselineData))
           /\ (forall o,
                  In o (OptionChange.removedOptions change)
                  <-> In o (FeatureData.options baselineData)
                      /\ ~ In o (FeatureData.options currentData))).
Proof.
  intros numberToString baseline current name baselineData currentData Eb Ec. cbn zeta.
  unfold compareTraces. cbn [TraceDiff.optionChanges].
  rewrite fold_featureChanges. cbn [loopOptionChanges app].
  assert (Hnames : exists front back,
             JsSet.ofList (JsMap.keys (ParsedTrace.features baseline)) = front ++ name :: back
             /\ ~ In name front /\ ~ In name back).
  { assert (Hin : In name (JsSet.ofList (JsMap.keys (ParsedTrace.features baseline))))
      by (apply key_has, has_true_get; eauto).
    pose proof (MatchScoreFacts.NoDup_ofList (JsMap.keys (ParsedTrace.features baseline)))
      as Hnd.
    apply in_split in Hin. destruct Hin as (front & back & E). rewrite E in *.
    exists front, back. split; [ reflexivity | ].
    apply NoDup_remove_2 in Hnd. split; intros H; apply Hnd; apply in_or_app; auto. }
  destruct Hnames as (front & back & -> & Hfront & Hback).
  assert (Hother : forall names,
             ~ In name names ->
             filter (fun change => String.eqb (OptionChange.feature change) name)
               (flat_map (optionChangeOf baseline current) names) = []).
  { intros names Hout. apply filter_nil. intros change Hin.
    apply in_flat_map in Hin. destruct Hin as (other & Hother & Hin).
    unfold optionChangeOf in Hin.
    destruct (JsMap.get (ParsedTrace.features baseline) other); [ | destruct Hin ].
    destruct (JsMap.get (ParsedTrace.features current) other); [ | destruct Hin ].
    cbn zeta in Hin.
    destruct ((0 <? List.length _) || (0 <? List.length _)); [ | destruct Hin ].
    destruct Hin as [<- | []]. cbn [OptionChange.feature].
    apply String.eqb_neq. intros ->. contradiction. }
  rewrite flat_map_app. cbn [flat_map]. rewrite !filter_app.
  rewrite (Hother front Hfront), (Hother back Hback), app_nil_r. cbn [app].
  unfold optionChangeOf. rewrite Eb, Ec. cbn zeta.
  pose proof (optionsNotIn_nil (FeatureData.options baselineData)
                (FeatureData.options currentData)) as Hnil.
  destruct (optionsNotIn (FeatureData.options baselineData) (FeatureData.options currentData))
    as [|a added] eqn:Ea;
    destruct (optionsNotIn (FeatureData.options currentData)
                (FeatureData.options baselineData)) as [|r removed] eqn:Er;
    cbn [List.length Nat.ltb Nat.leb orb filter OptionChange.feature].
  - split; [ tauto | intros change [] ].
  - rewrite String.eqb_refl. split.
    + split; [ discriminate | ]. intros H. apply Hnil in H. destruct H. discriminate.
    + intros change [<- | []]. cbn [OptionChange.baselineOptions OptionChange.currentOptions
                                    OptionChange.addedOptions OptionChange.removedOptions].
      split; [ reflexivity | ]. split; [ reflexivity | ]. split; [ reflexivity | ].
      split; intros o; [ rewrite <- Ea | rewrite <- Er ]; apply In_optionsNotIn.
  - rewrite String.eqb_refl. split.
    + split; [ discriminate | ]. intros H. apply Hnil in H. destruct H. discriminate.
    + intros change [<- | []]. cbn [OptionChange.baselineOptions OptionChange.currentOptions
                                    OptionChange.addedOptions OptionChange.removedOptions].
      split; [ reflexivity | ]. split; [ reflexivity | ]. split; [ reflexivity | ].
      split; intros o; [ rewrite <- Ea | rewrite <- Er ]; apply In_optionsNotIn.
  - rewrite String.eqb_refl. split.
    + split; [ discriminate | ]. intros H. apply Hnil in H. destruct H. discriminate.
    + intros change [<- | []]. cbn [OptionChange.baselineOptions OptionChange.currentOptions
                                    OptionChange.addedOptions OptionChange.removedOptions].
      split; [ reflexivity | ]. split; [ reflexivity | ]. split; [ reflexivity | ].
      split; intros o; [ rewrite <- Ea | rewrite <- Er ]; apply In_optionsNotIn.
Qed.

Lemma option_changes_compare_option_sets_witness :
  JsMap.get (ParsedTrace.features (oneFeatureTrace ["Red"; "Blue"] "Red")) "Color" <> None
  /\ (filter (fun change => String.eqb (OptionChange.feature change) "Color")
        (TraceDiff.optionChanges
           (compareTraces RegressionSpec.noNumberToString
              (oneFeatureTrace ["Red"; "Blue"] "Red")
              (oneFeatureTrace ["Blue"; "Red"; "Red"] "Red"))) = []
      <-> sameOptions ["Red"; "Blue"] ["Blue"; "Red"; "Red"]).
Proof.
  split; [ discriminate | ].
  apply (option_changes_compare_option_sets RegressionSpec.noNumberToString
           (oneFeatureTrace ["Red"; "Blue"] "Red")
           (oneFeatureTrace ["Blue"; "Red"; "Red"] "Red") "Color" _ _ eq_refl eq_refl).
Defined.

End ComparisonFacts.

(** ** The features *)

Module FeatureFacts.
Import JsString RegExp TraceParser TraceParserSpec JsMapFacts FeatureParser FeatureSpec.

Lemma has_keys_set {V} (m : JsMap.t V) (k : string) :
  JsSet.has (JsMap.keys m) k = JsMap.has m k.
Proof.
  destruct (JsMap.has m k) eqn:E.
  - apply RegressionFacts.has_In.
    destruct (in_dec string_dec k (JsMap.keys m)) as [Hin | Hout]; [ exact Hin | ].
    apply get_None_keys, has_get in Hout. congruence.
  - destruct (JsSet.has (JsMap.keys m) k) eqn:E'; [ | reflexivity ].
    apply ComparisonFacts.In_has in E'. apply has_get, get_None_keys in E. contradiction.
Qed.

Lemma firstn_snoc {A} (l : list A) (n : nat) (x : A) :
  nth_error l n = Some x -> firstn (S n) l = firstn n l ++ [x].
Proof.
  revert n. induction l as [|a l IH]; intros [|n] H; cbn in *; try discriminate.
  - injection H as ->. reflexivity.
  - f_equal. apply IH. exact H.
Qed.

Lemma sectionNames_snoc (lines : list string) (line : string) :
  sectionNames (lines ++ [line])
  = sectionNames lines
    ++ match captured screenOptionPattern 1 line with
       | Some name => [name]
       | None => []
       end.
Proof. unfold sectionNames. rewrite flat_map_app. cbn. rewrite app_nil_r. reflexivity. Qed.

Lemma featureStep_invariant (groupOptionsMap : JsMap.t (list string)) (lines : list string)
  (n : nat) (line : string) (features : JsMap.t FeatureData.t) :
  nth_error lines n = Some line ->
  featuresInvariant lines n features ->
  featuresInvariant lines (S n)
    (featureStep groupOptionsMap features n line (skipn (S n) lines)).
Proof.
  intros Hline [Hkeys Hinv]. unfold featuresInvariant.
  rewrite (firstn_snoc _ _ _ Hline), sectionNames_snoc.
  assert (Hat : namedAt lines n = captured screenOptionPattern 1 line)
    by (unfold namedAt; rewrite Hline; reflexivity).
  unfold featureStep, captured in *.
  destruct (exec screenOptionPattern line) as [screenMatch|] eqn:Ematch;
    cbn [option_map] in *.
  - set (featureName := group 1 screenMatch) in *. split.
    + rewrite keys_set, <- has_keys_set, Hkeys. unfold JsSet.ofList.
      rewrite fold_left_app. reflexivity.
    + intros name. rewrite get_set.
      destruct (String.eqb_spec featureName name) as [<- | Hne].
      * cbn [FeatureData.name FeatureData.lineNumber].
        replace (n + 1 - 1) with n by lia.
        split; [ reflexivity | ]. split; [ lia | ]. split; [ exact Hat | ].
        intros j H1 H2. lia.
      * specialize (Hinv name). destruct (JsMap.get features name) as [feature|].
        -- destruct Hinv as (A & B & C & D). split; [ exact A | ]. split; [ lia | ].
           split; [ exact C | ]. intros j H1 H2.
           destruct (Nat.eq_dec j n) as [-> | Hj]; [ | apply D; lia ].
           rewrite Hat. congruence.
        -- intros j Hj. destruct (Nat.eq_dec j n) as [-> | Hj']; [ | apply Hinv; lia ].
           rewrite Hat. congruence.
  - rewrite app_nil_r. split; [ exact Hkeys | ].
    intros name. specialize (Hinv name). destruct (JsMap.get features name) as [feature|].
    + destruct Hinv as (A & B & C & D). split; [ exact A | ]. split; [ lia | ].
      split; [ exact C | ]. intros j H1 H2.
      destruct (Nat.eq_dec j n) as [-> | Hj]; [ | apply D; lia ].
      rewrite Hat. discriminate.
    + intros j Hj. destruct (Nat.eq_dec j n) as [-> | Hj']; [ | apply Hinv; lia ].
      rewrite Hat. discriminate.
Qed.

Lemma featureLoop_invariant (groupOptionsMap : JsMap.t (list string)) (lines : list string) :
  forall (rest : list string) (n : nat) (features : JsMap.t FeatureData.t),
    rest = skipn n lines ->
    featuresInvariant lines n features ->
    featuresInvariant lines (List.length lines)
      (featureLoop groupOptionsMap rest n features).
Proof.
  induction rest as [|line rest IH]; intros n features Hrest Hinv.
  - cbn [featureLoop].
    assert (Hn : List.length lines <= n).
    { apply (f_equal (@List.length string)) in Hrest. rewrite length_skipn in Hrest.
      cbn in Hrest. lia. }
    destruct Hinv as [Hkeys Hinv]. split.
    + rewrite Hkeys, firstn_all, firstn_all2 by lia. reflexivity.
    + intros name. specialize (Hinv name). destruct (JsMap.get features name) as [feature|].
      * destruct Hinv as (A & B & C & D). split; [ exact A | ].
        assert (Hlt : FeatureData.lineNumber feature - 1 < List.length lines).
        { apply nth_error_Some. unfold namedAt in C.
          destruct (nth_error lines (FeatureData.lineNumber feature - 1));
            [ discriminate | discriminate ]. }
        split; [ lia | ]. split; [ exact C | ]. intros j H1 H2. apply D; lia.
      * intros j Hj. apply Hinv. lia.
  - cbn [featureLoop].
    assert (Hline : nth_error lines n = Some line).
    { rewrite <- (firstn_skipn n lines) at 1. rewrite <- Hrest.
      assert (Hlen : n <= List.length lines).
      { destruct (Nat.le_gt_cases n (List.length lines)) as [H | H]; [ exact H | ].
        rewrite skipn_all2 in Hrest by lia. discriminate. }
      rewrite nth_error_app2 by (rewrite length_firstn; lia).
      rewrite length_firstn. replace (n - Nat.min n (List.length lines)) with 0 by lia.
      reflexivity. }
    assert (Hskip : rest = skipn (S n) lines).
    { replace (S n) with (1 + n) by lia. rewrite <- skipn_skipn, <- Hrest. reflexivity. }
    apply IH; [ exact Hskip | ].
    rewrite Hskip. apply featureStep_invariant; assumption.
Qed.

(** X25: The features of a trace are those of its Screen Option lines, in the
    order in which they first appear.  Each is stored under its own name and
    with the line number of the last Screen Option line for it: a later
    section of a feature replaces an earlier one. *)
Theorem features_hold_the_last_section : forall lines : list string,
  JsMap.keys (parseFeatures lines) = JsSet.ofList (sectionNames lines)
  /\ forall name,
       match JsMap.get (parseFeatures lines) name with
       | Some feature =>
           FeatureData.name feature = name
           /\ 1 <= FeatureData.lineNumber feature <= List.length lines
           /\ namedAt lines (FeatureData.lineNumber feature - 1) = Some name
           /\ (forall j, FeatureData.lineNumber feature <= j ->
                         namedAt lines j <> Some name)
       | None => forall j, namedAt lines j <> Some name
       end.
Proof.
  intros lines. unfold parseFeatures.
  destruct (featureLoop_invariant (groupLoop lines JsMap.empty) lines lines 0 JsMap.empty)
    as [Hkeys Hinv].
  { reflexivity. }
  { split; [ reflexivity | ]. intros name. cbn. intros j Hj. lia. }
  split; [ rewrite Hkeys, firstn_all; reflexivity | ].
  intros name. specialize (Hinv name).
  assert (Hout : forall j, List.length lines <= j -> namedAt lines j <> Some name).
  { intros j Hj. unfold namedAt.
    replace (nth_error lines j) with (@None string)
      by (symmetry; apply nth_error_None; exact Hj).
    discriminate. }
  destruct (JsMap.get _ name) as [feature|].
  - destruct Hinv as (A & B & C & D). repeat split; try assumption; try lia.
    intros j Hj. destruct (Nat.lt_ge_cases j (List.length lines)); auto.
  - intros j. destruct (Nat.lt_ge_cases j (List.length lines)); auto.
Qed.

End FeatureFacts.

(** ** Option arrays and quoted values *)

Module OptionArrayFacts.
Import JsString RegExp RegExpSpec RegExpFacts GlobalRegExp TraceParser.
Import FeatureParser FeatureSpec.

(** A greedy run of a character class takes all the characters of the
    class that the text starts with, if the match can go on from there. *)
Lemma star_class_greedy {R} (p : ascii -> bool)
  (k : list ascii -> nat -> captures -> option R) (a b : list ascii) (pos : nat)
  (caps : captures) (x : R) :
  forallb p a = true ->
  match b with [] => True | c :: _ => p c = false end ->
  k b (pos + List.length a) caps = Some x ->
  run (Star (Cls p)) (a ++ b) pos caps k = Some x.
Proof.
  intros Ha Hb Hk. rewrite run_star.
  assert (G : forall n a pos,
             forallb p a = true -> List.length a < n ->
             k b (pos + List.length a) caps = Some x ->
             starLoop (Cls p) k n (a ++ b) pos caps = Some x).
  { clear a pos Ha Hk. induction n as [|n IH]; intros a pos Ha Hn Hk; [ lia | ].
    cbn [starLoop run]. destruct a as [|c a]; cbn [app].
    - cbn [List.length] in Hk. rewrite Nat.add_0_r in Hk.
      destruct b as [|c b]; [ exact Hk | ]. rewrite Hb. exact Hk.
    - cbn [forallb] in Ha. apply andb_true_iff in Ha. destruct Ha as [Hc Ha].
      rewrite Hc. replace (S pos =? pos) with false by (symmetry; apply Nat.eqb_neq; lia).
      rewrite (IH a (S pos) Ha); [ reflexivity | cbn in Hn; lia | ].
      cbn [List.length] in Hk. rewrite <- plus_n_Sm in Hk. exact Hk. }
  apply G; [ exact Ha | rewrite length_app; lia | exact Hk ].
Qed.

Lemma chars_app (s t : string) : chars (s ++ t) = chars s ++ chars t.
Proof.
  unfold chars. induction s as [|c s IH]; cbn; [ reflexivity | f_equal; exact IH ].
Qed.

Lemma chars_join (options : list string) :
  chars (join ", " (map Regression.inQuotes options)) = itemChars options.
Proof.
  induction options as [|item rest IH]; [ reflexivity | ].
  destruct rest as [|next rest].
  - cbn [map join itemChars]. unfold Regression.inQuotes. rewrite !chars_app. reflexivity.
  - change (join ", " (map Regression.inQuotes (item :: next :: rest)))
      with (Regression.inQuotes item ++ ", "
            ++ join ", " (map Regression.inQuotes (next :: rest)))%string.
    rewrite !chars_app, IH. unfold Regression.inQuotes. rewrite !chars_app.
    cbn [itemChars]. cbn [chars list_ascii_of_string app]. rewrite <- app_assoc. reflexivity.
Qed.

Lemma plain_not_quote (a : list ascii) :
  forallb plainChar a = true -> forallb (fun x => negb (Ascii.eqb x dquote)) a = true.
Proof.
  intros H. rewrite forallb_forall in *. intros c Hc. apply H in Hc.
  unfold plainChar in Hc. apply andb_true_iff in Hc. tauto.
Qed.

Lemma plain_not_brace (a : list ascii) :
  forallb plainChar a = true -> forallb (fun x => negb (Ascii.eqb x "}")) a = true.
Proof.
  intros H. rewrite forallb_forall in *. intros c Hc. apply H in Hc.
  unfold plainChar in Hc. apply andb_true_iff in Hc. tauto.
Qed.

(** The first quoted item of a text is found at its opening quote. *)
Lemma search_quoted (item : string) (more : list ascii) (pos : nat) :
  plainOption item ->
  search quotedPattern (dquote :: chars item ++ dquote :: more) pos
  = Some {| index := pos; lastIndex := pos + String.length item + 2;
            groups := [(1, item)] |}.
Proof.
  intros [Hne Hplain]. apply plain_not_quote in Hplain.
  assert (Hrun : run quotedPattern (dquote :: chars item ++ dquote :: more) pos []
                   (fun _ pos' caps =>
                      Some {| index := pos; lastIndex := pos'; groups := caps |})
                 = Some {| index := pos; lastIndex := pos + String.length item + 2;
                           groups := [(1, item)] |}).
  { unfold quotedPattern, q, plus, notChar. cbn [seq run].
    rewrite Ascii.eqb_refl.
    destruct (chars item) as [|c rest] eqn:Echars.
    { exfalso. apply Hne. rewrite <- (TokenizerFacts.ofChars_chars item), Echars.
      reflexivity. }
    cbn [app forallb] in *. apply andb_true_iff in Hplain. destruct Hplain as [Hc Hrest].
    rewrite Hc.
    apply star_class_greedy; [ exact Hrest | reflexivity | ].
    rewrite Ascii.eqb_refl.
    assert (Hlen : String.length item = S (List.length rest)).
    { rewrite <- TokenizerFacts.chars_length, Echars. reflexivity. }
    f_equal. f_equal; [ lia | ].
    replace (S (S pos) + List.length rest - S pos) with (S (List.length rest)) by lia.
    cbn [firstn]. rewrite firstn_app, firstn_all, Nat.sub_diag. cbn [firstn].
    rewrite app_nil_r. rewrite <- Echars, TokenizerFacts.ofChars_chars. reflexivity. }
  cbn [search]. rewrite Hrun. reflexivity.
Qed.

(** No quoted item starts at a character other than the double quote. *)
Lemma search_skip (sep more : list ascii) (pos : nat) :
  forallb (fun x => negb (Ascii.eqb x dquote)) sep = true ->
  search quotedPattern (sep ++ more) pos = search quotedPattern more (pos + List.length sep).
Proof.
  revert pos. induction sep as [|c sep IH]; intros pos H; cbn [app List.length].
  - rewrite Nat.add_0_r. reflexivity.
  - cbn [forallb] in H. apply andb_true_iff in H. destruct H as [Hc H].
    cbn [search]. unfold quotedPattern at 1, q. cbn [seq run].
    apply negb_true_iff in Hc. rewrite Hc. rewrite IH by exact H.
    f_equal. lia.
Qed.

(** The loop of [parseOptionArray] reads the options that are left, one
    after the other, and ends at the end of the text. *)
Lemma quotedLoop_items (content : string) :
  forall (rest : list string) (i : nat) (sep : list ascii) (acc : list string) (fuel : nat),
    skipn i (chars content) = sep ++ itemChars rest ->
    sep = [] \/ (sep = [","%char; " "%char] /\ rest <> []) ->
    Forall plainOption rest ->
    List.length (sep ++ itemChars rest) < fuel ->
    quotedLoop fuel content i acc = acc ++ rest.
Proof.
  induction rest as [|item rest IH]; intros i sep acc fuel Hskip Hsep Hplain Hfuel.
  - destruct Hsep as [-> | [_ Hne]]; [ | congruence ]. cbn [app itemChars] in *.
    destruct fuel as [|fuel]; [ lia | ]. cbn [quotedLoop]. unfold execAt.
    rewrite Hskip. destruct (String.length content <? i); rewrite ?app_nil_r; reflexivity.
  - inversion Hplain as [|? ? Hitem Hrest]; subst.
    destruct fuel as [|fuel]; [ lia | ]. cbn [quotedLoop]. unfold execAt.
    assert (Hsepq : forallb (fun x => negb (Ascii.eqb x dquote)) sep = true).
    { destruct Hsep as [-> | [-> _]]; reflexivity. }
    set (more := match rest with
                 | [] => []
                 | _ :: _ => ","%char :: " "%char :: itemChars rest
                 end).
    assert (Hitems : itemChars (item :: rest) = dquote :: chars item ++ dquote :: more).
    { destruct rest; reflexivity. }
    rewrite Hitems in Hskip, Hfuel.
    assert (Hi : (String.length content <? i) = false).
    { apply Nat.ltb_ge. rewrite <- TokenizerFacts.chars_length.
      destruct (Nat.le_gt_cases i (List.length (chars content))) as [H | H]; [ exact H | ].
      rewrite skipn_all2 in Hskip by lia. destruct sep; discriminate. }
    rewrite Hi, Hskip, search_skip by exact Hsepq.
    rewrite (search_quoted item more _ Hitem). cbn [lastIndex].
    change (group 1 {| index := i + List.length sep;
                       lastIndex := i + List.length sep + String.length item + 2;
                       groups := [(1, item)] |}) with item.
    replace (acc ++ item :: rest) with ((acc ++ [item]) ++ rest)
      by (rewrite <- app_assoc; reflexivity).
    apply (IH _ (match rest with [] => [] | _ :: _ => [","%char; " "%char] end)).
    + replace (i + List.length sep + String.length item + 2)
        with ((List.length sep + String.length item + 2) + i) by lia.
      rewrite <- skipn_skipn, Hskip.
      rewrite skipn_app.
      replace (List.length sep + String.length item + 2 - List.length sep)
        with (S (String.length item + 1)) by lia.
      rewrite skipn_all2 by lia. cbn [app skipn].
      rewrite skipn_app, TokenizerFacts.chars_length.
      replace (String.length item + 1 - String.length item) with 1 by lia.
      rewrite skipn_all2 by (rewrite TokenizerFacts.chars_length; lia).
      cbn [app skipn]. unfold more. destruct rest; reflexivity.
    + destruct rest; [ left; reflexivity | right; split; [ reflexivity | discriminate ] ].
    + exact Hrest.
    + replace (List.length
                 (match rest with [] => [] | _ :: _ => [","%char; " "%char] end
                  ++ itemChars rest))
        with (List.length more) by (unfold more; destruct rest; reflexivity).
      rewrite length_app in Hfuel. cbn [List.length] in Hfuel.
      rewrite length_app in Hfuel. cbn [List.length] in Hfuel. lia.
Qed.

Lemma itemChars_plain (options : list string) :
  Forall plainOption options ->
  forallb (fun x => negb (Ascii.eqb x "}")) (itemChars options) = true.
Proof.
  induction 1 as [|item rest [_ Hitem] Hrest IH]; [ reflexivity | ].
  apply plain_not_brace in Hitem.
  destruct rest as [|next rest]; cbn [itemChars forallb].
  - rewrite forallb_app, Hitem. reflexivity.
  - rewrite forallb_app, Hitem. cbn [forallb itemChars] in *. rewrite IH. reflexivity.
Qed.

(** X26: [parseOptionArray] reads back the options of an item array text:
    options that are not empty and hold neither a double quote nor a closing
    brace, written between double quotes, with a comma and a space between
    them, and between braces. *)
Theorem parseOptionArray_reads_back : forall options : list string,
  Forall plainOption options ->
  parseOptionArray (optionText options) = options.
Proof.
  intros options Hplain. unfold parseOptionArray, optionText.
  assert (Hexec : exec bracePattern
                    ("{" ++ join ", " (map Regression.inQuotes options) ++ "}")
                  = Some {| index := 0;
                            lastIndex := List.length (itemChars options) + 2;
                            groups := [(1, join ", " (map Regression.inQuotes options))] |}).
  { unfold exec. rewrite !chars_app, chars_join.
    cbn [chars list_ascii_of_string app].
    assert (Hrun : run bracePattern ("{"%char :: itemChars options ++ ["}"%char]) 0 []
                     (fun _ pos' caps =>
                        Some {| index := 0; lastIndex := pos'; groups := caps |})
                   = Some {| index := 0;
                             lastIndex := List.length (itemChars options) + 2;
                             groups :=
                               [(1, join ", " (map Regression.inQuotes options))] |}).
    { unfold bracePattern, notChar. cbn [seq run]. rewrite Ascii.eqb_refl.
      apply star_class_greedy; [ apply itemChars_plain; exact Hplain | reflexivity | ].
      rewrite Ascii.eqb_refl. f_equal. f_equal; [ lia | ].
      replace (1 + List.length (itemChars options) - 1)
        with (List.length (itemChars options)) by lia.
      rewrite firstn_app, firstn_all, Nat.sub_diag. cbn [firstn]. rewrite app_nil_r.
      rewrite <- chars_join, TokenizerFacts.ofChars_chars. reflexivity. }
    cbn [search]. rewrite Hrun. reflexivity. }
  rewrite Hexec.
  change (group 1 _) with (join ", " (map Regression.inQuotes options)).
  apply (quotedLoop_items _ options 0 [] []).
  - cbn [skipn app]. apply chars_join.
  - left. reflexivity.
  - exact Hplain.
  - cbn [app]. rewrite <- chars_join, TokenizerFacts.chars_length. lia.
Qed.

Lemma parseOptionArray_reads_back_witness :
  Forall plainOption ["Red"; "Dark blue"]
  /\ parseOptionArray (optionText ["Red"; "Dark blue"]) = ["Red"; "Dark blue"].
Proof.
  assert (H : Forall plainOption ["Red"; "Dark blue"]).
  { repeat constructor; discriminate. }
  split; [ exact H | ]. apply (parseOptionArray_reads_back ["Red"; "Dark blue"] H).
Defined.

(** Every match of the quoted pattern moves [lastIndex] forward, within
    the text. *)
Lemma execAt_advances (content : string) (i : nat) (m : MatchResult) :
  execAt quotedPattern content i = Some m ->
  i < lastIndex m <= String.length content.
Proof.
  unfold execAt. destruct (String.length content <? i) eqn:Ei; [ discriminate | ].
  apply Nat.ltb_ge in Ei. intros H. apply search_inv in H.
  destruct H as (d & n & Hle & _ & Hlast & Hrun).
  rewrite length_skipn, TokenizerFacts.chars_length in Hle.
  unfold quotedPattern, q in Hrun. cbn [seq run] in Hrun.
  destruct (skipn d (skipn i (chars content))) as [|c cs] eqn:Es; [ discriminate | ].
  destruct (Ascii.eqb c dquote); [ | discriminate ].
  apply run_inv in Hrun. destruct Hrun as (n' & caps' & Hn' & Hrun).
  destruct (skipn n' cs) as [|c' cs'] eqn:Ecs; [ discriminate | ].
  destruct (Ascii.eqb c' dquote); [ | discriminate ].
  injection Hrun as <-. cbn [lastIndex] in *.
  assert (Hd : S (List.length cs) <= String.length content - i - d).
  { rewrite <- TokenizerFacts.chars_length, <- !length_skipn, Es. reflexivity. }
  apply (f_equal (@List.length ascii)) in Ecs. rewrite length_skipn in Ecs.
  cbn [List.length] in Ecs. lia.
Qed.

(** The loop of [parseOptionArray] ends before its count of turns does: a
    higher count gives the same options. *)
Lemma quotedLoop_fuel (content : string) :
  forall (fuel fuel' i : nat) (acc : list string),
    String.length content < i + fuel -> String.length content < i + fuel' ->
    quotedLoop fuel content i acc = quotedLoop fuel' content i acc.
Proof.
  induction fuel as [|fuel IH]; intros fuel' i acc H H'.
  - destruct fuel' as [|fuel']; [ reflexivity | ]. cbn [quotedLoop].
    unfold execAt. replace (String.length content <? i) with true
      by (symmetry; apply Nat.ltb_lt; lia).
    reflexivity.
  - destruct fuel' as [|fuel'].
    + cbn [quotedLoop]. unfold execAt.
      replace (String.length content <? i) with true by (symmetry; apply Nat.ltb_lt; lia).
      reflexivity.
    + cbn [quotedLoop]. destruct (execAt quotedPattern content i) as [m|] eqn:E;
        [ | reflexivity ].
      apply execAt_advances in E. apply IH; lia.
Qed.

(** The replacement of all matches ends before its count of turns does. *)
Lemma replaceAll_fuel (r : regex) (by_ : list ascii) :
  forall (fuel fuel' : nat) (cs : list ascii) (pos : nat),
    List.length cs < fuel -> List.length cs < fuel' ->
    replaceAll_from fuel r by_ cs pos = replaceAll_from fuel' r by_ cs pos.
Proof.
  induction fuel as [|fuel IH]; intros fuel' cs pos H H'; [ lia | ].
  destruct fuel' as [|fuel']; [ lia | ]. cbn [replaceAll_from].
  destruct (search r cs pos) as [m|] eqn:E; [ | reflexivity ].
  apply search_inv in E. destruct E as (d & n & Hle & Hi & Hl & _).
  destruct (lastIndex m =? index m) eqn:En.
  - destruct (skipn (lastIndex m - pos) cs) as [|c rest] eqn:Es; [ reflexivity | ].
    do 3 f_equal. apply (f_equal (@List.length ascii)) in Es.
    rewrite length_skipn in Es. cbn [List.length] in Es. apply IH; lia.
  - do 2 f_equal. apply Nat.eqb_neq in En.
    apply IH; rewrite length_skipn; lia.
Qed.






End OptionArrayFacts.

(** ** The issue detection *)

Module IssueFacts.
Import JsString DetectedIssue IssueDetector IssueSpec SummarySpec.

Lemma push_wellNumbered (st : Detector) severity category title description lineNumber
  context :
  wellNumbered st ->
  wellNumbered (push st severity category title description lineNumber context).
Proof.
  intros [Hid Hids]. unfold wellNumbered, push. cbn [issues issueId].
  rewrite length_app. cbn [List.length]. split; [ lia | ].
  rewrite map_app, seq_app, map_app, Hids. cbn [map seq DetectedIssue.id]. unfold idOf.
  rewrite Hid. replace (1 + List.length (issues st)) with (List.length (issues st) + 1) by lia.
  reflexivity.
Qed.

Lemma fold_wellNumbered {A} (step : Detector -> A -> Detector) (l : list A) :
  (forall st x, wellNumbered st -> wellNumbered (step st x)) ->
  forall st, wellNumbered st -> wellNumbered (fold_left step l st).
Proof.
  intros Hstep. induction l as [|x l IH]; intros st Hst; cbn [fold_left]; auto.
Qed.

Lemma findIssues_wellNumbered (data : Data) : wellNumbered (findIssues data).
Proof.
  unfold findIssues.
  apply fold_wellNumbered.
  { intros st [pointNum pointInfo] Hst. unfold duplicateStep.
    destruct (1 <? pointCount pointInfo); [ apply push_wellNumbered | ]; exact Hst. }
  apply fold_wellNumbered.
  { intros st variable Hst. unfold unassignedStep.
    destruct (find readUnassigned _); [ apply push_wellNumbered | ]; exact Hst. }
  apply fold_wellNumbered.
  { intros st condition Hst. apply push_wellNumbered. exact Hst. }
  apply fold_wellNumbered.
  { intros st entry Hst. unfold alwaysFalseStep.
    destruct ((3 <=? _) && _); [ apply push_wellNumbered | ]; exact Hst. }
  unfold rollbackCheck.
  assert (Hhot : wellNumbered
                   (fold_left hotRuleStep
                      (RuleExecutionSummary.topRules (rulesSummary data))
                      {| issues := []; issueId := 0 |})).
  { apply fold_wellNumbered; [ | split; reflexivity ].
    intros st rule Hst. unfold hotRuleStep. cbn zeta.
    destruct (50 <? _); [ apply push_wellNumbered; exact Hst | ].
    destruct (20 <? _); [ apply push_wellNumbered; exact Hst | ].
    destruct (10 <? _); [ apply push_wellNumbered | ]; exact Hst. }
  destruct (15 <? rollbackPoints data); [ apply push_wellNumbered | ]; exact Hhot.
Qed.

Lemma countSeverity_total (l : list DetectedIssue.t) :
  countSeverity error l + countSeverity warning l + countSeverity info l = List.length l.
Proof.
  unfold countSeverity. induction l as [|issue l IH]; [ reflexivity | ].
  cbn [filter]. destruct (severity issue); cbn [IssueSeverity_eqb severityOrder Nat.eqb List.length];
    lia.
Qed.

(** X28: The issues of the summary come by severity, errors first, then warnings,
    then infos; the three counts add up to their number; and their ids are
    issue-1 to issue-n, each once. *)
Theorem issues_are_sorted_and_counted : forall data : Data,
  let summary := detectIssues data in
  bySeverity (IssuesSummary.issues summary)
  /\ IssuesSummary.errorCount summary + IssuesSummary.warningCount summary
     + IssuesSummary.infoCount summary
     = List.length (IssuesSummary.issues summary)
  /\ Permutation (map DetectedIssue.id (IssuesSummary.issues summary))
       (map idOf (seq 1 (List.length (IssuesSummary.issues summary)))).
Proof.
  intros data. cbn zeta. unfold detectIssues.
  cbn [IssuesSummary.issues IssuesSummary.errorCount IssuesSummary.warningCount
       IssuesSummary.infoCount].
  set (before := fun a b : DetectedIssue.t =>
                   severityOrder (severity a) <=? severityOrder (severity b)).
  pose proof (RoundTripFacts.stableSort_Permutation before (issues (findIssues data)))
    as Hperm.
  split.
  { unfold bySeverity.
    apply (SortFacts.StronglySorted_weaken (fun a b => before a b = true)).
    - intros a b H. apply Nat.leb_le. exact H.
    - apply SortFacts.stableSort_sorted.
      + intros a b H. unfold before in *. apply Nat.leb_gt in H. apply Nat.leb_le. lia.
      + intros a b c H1 H2. unfold before in *. apply Nat.leb_le in H1, H2.
        apply Nat.leb_le. lia. }
  split.
  { rewrite countSeverity_total. symmetry. apply Permutation_length. exact Hperm. }
  rewrite (Permutation_length Hperm).
  destruct (findIssues_wellNumbered data) as [_ Hids]. rewrite <- Hids.
  apply Permutation_map. exact Hperm.
Qed.

(** The errors of a list of issues, in their order. *)
Lemma errors_app (l l' : list DetectedIssue.t) :
  filter isError (l ++ l') = filter isError l ++ filter isError l'.
Proof. apply filter_app. Qed.

Lemma fold_calm {A} (step : Detector -> A -> Detector) (l : list A) :
  (forall st x, filter isError (issues (step st x)) = filter isError (issues st)) ->
  forall st, filter isError (issues (fold_left step l st)) = filter isError (issues st).
Proof.
  intros Hstep. induction l as [|x l IH]; intros st; cbn [fold_left]; [ reflexivity | ].
  rewrite IH. apply Hstep.
Qed.

Lemma push_calm (st : Detector) severity category title description lineNumber context :
  severity <> error ->
  filter isError (issues (push st severity category title description lineNumber context))
  = filter isError (issues st).
Proof.
  intros Hne. unfold push. cbn [issues]. rewrite errors_app. cbn [filter].
  unfold isError at 2. cbn [DetectedIssue.severity].
  destruct severity; [ congruence | | ]; cbn; apply app_nil_r.
Qed.

(** The first loop gives an error for every hot rule, in the order of the
    rules. *)
Lemma hotRules_errors (rules : list RuleStats.t) :
  forall st,
    exists added,
      filter isError (issues (fold_left hotRuleStep rules st))
      = filter isError (issues st) ++ added
      /\ issuesOfRules added (filter isHot rules).
Proof.
  induction rules as [|rule rules IH]; intros st; cbn [fold_left filter].
  - exists []. split; [ symmetry; apply app_nil_r | constructor ].
  - destruct (IH (hotRuleStep st rule)) as (added & Hadded & Hrules).
    rewrite Hadded. unfold hotRuleStep, isHot. cbn zeta.
    destruct (50 <? RuleStats.executionCount rule).
    + eexists (_ :: added). split.
      * unfold push. cbn [issues]. rewrite errors_app. cbn [filter].
        unfold isError at 2. cbn [DetectedIssue.severity IssueSeverity_eqb severityOrder Nat.eqb].
        rewrite <- app_assoc. reflexivity.
      * constructor; [ reflexivity | exact Hrules ].
    + exists added. split; [ | exact Hrules ]. f_equal.
      destruct (20 <? _); [ apply push_calm; discriminate | ].
      destruct (10 <? _); [ apply push_calm; discriminate | reflexivity ].
Qed.

(** A stable sort keeps the issues of one severity in their order. *)
Lemma insertSorted_errors (x : DetectedIssue.t) (l : list DetectedIssue.t) :
  filter isError
    (insertSorted (fun a b => severityOrder (severity a) <=? severityOrder (severity b)) x l)
  = filter isError (x :: l).
Proof.
  induction l as [|y l IH]; cbn [insertSorted]; [ reflexivity | ].
  destruct (severityOrder (severity x) <=? severityOrder (severity y)) eqn:E;
    [ reflexivity | ].
  cbn [filter] in *. rewrite IH. apply Nat.leb_gt in E.
  unfold isError, IssueSeverity_eqb in *.
  destruct (severity x), (severity y); cbn in *; try reflexivity; lia.
Qed.

Lemma stableSort_errors (l : list DetectedIssue.t) :
  filter isError
    (stableSort (fun a b => severityOrder (severity a) <=? severityOrder (severity b)) l)
  = filter isError l.
Proof.
  induction l as [|x l IH]; [ reflexivity | ].
  cbn [stableSort fold_right]. rewrite insertSorted_errors. cbn [filter].
  fold (stableSort (fun a b => severityOrder (severity a) <=? severityOrder (severity b)) l).
  rewrite IH. reflexivity.
Qed.

(** X29: The errors of the summary are those of the rules of [topRules] that ran
    more than 50 times, one for one and in the order of [topRules]: an error
    of the category performance, with the name and the ruleset of the rule
    and the number of its executions.  Nothing else is an error, and
    [errorCount] is the number of these rules. *)
Theorem errors_are_the_hot_rules : forall data : Data,
  issuesOfRules
    (filter isError (IssuesSummary.issues (detectIssues data)))
    (filter isHot (RuleExecutionSummary.topRules (rulesSummary data)))
  /\ IssuesSummary.errorCount (detectIssues data)
     = List.length (filter isHot (RuleExecutionSummary.topRules (rulesSummary data))).
Proof.
  intros data.
  assert (Herrors : issuesOfRules (filter isError (issues (findIssues data)))
                      (filter isHot (RuleExecutionSummary.topRules (rulesSummary data)))).
  { unfold findIssues.
    rewrite fold_calm.
    2:{ intros st [pointNum pointInfo]. unfold duplicateStep.
        destruct (1 <? pointCount pointInfo); [ apply push_calm; discriminate | reflexivity ]. }
    rewrite fold_calm.
    2:{ intros st variable. unfold unassignedStep.
        destruct (find readUnassigned _); [ apply push_calm; discriminate | reflexivity ]. }
    rewrite fold_calm.
    2:{ intros st condition. apply push_calm. discriminate. }
    rewrite fold_calm.
    2:{ intros st entry. unfold alwaysFalseStep.
        destruct ((3 <=? _) && _); [ apply push_calm; discriminate | reflexivity ]. }
    assert (Hroll : forall st,
               filter isError (issues (rollbackCheck (rollbackPoints data) st))
               = filter isError (issues st)).
    { intros st. unfold rollbackCheck.
      destruct (15 <? rollbackPoints data); [ apply push_calm; discriminate | reflexivity ]. }
    rewrite Hroll.
    destruct (hotRules_errors (RuleExecutionSummary.topRules (rulesSummary data))
                {| issues := []; issueId := 0 |}) as (added & -> & Hadded).
    exact Hadded. }
  unfold detectIssues. cbn [IssuesSummary.issues IssuesSummary.errorCount].
  rewrite stableSort_errors. split; [ exact Herrors | ].
  unfold countSeverity. fold isError.
  change (fun i => IssueSeverity_eqb (severity i) error) with isError.
  unfold issuesOfRules in Herrors. apply Forall2_length in Herrors. exact Herrors.
Qed.

Lemma find_snoc {A} (p : A -> bool) (l : list A) (x : A) :
  find p (l ++ [x])
  = match find p l with
    | Some y => Some y
    | None => if p x then Some x else None
    end.
Proof.
  induction l as [|a l IH]; cbn [app find]; [ reflexivity | ].
  destruct (p a); [ reflexivity | exact IH ].
Qed.

Lemma find_none_filter {A} (p : A -> bool) (l : list A) :
  find p l = None -> filter p l = [].
Proof.
  induction l as [|a l IH]; cbn [find filter]; [ reflexivity | ].
  destruct (p a); [ discriminate | exact IH ].
Qed.

Lemma countCondition_ok (done : list ConditionEvaluation.t)
  (m : JsMap.t ConditionCounts) (c : ConditionEvaluation.t) :
  countsOk done m -> countsOk (done ++ [c]) (countCondition m c).
Proof.
  intros [Hwf Hm]. unfold countCondition. cbn zeta.
  set (key := Regression.conditionKey c).
  assert (Hother : forall key', key <> key' ->
             firstWith key' (done ++ [c]) = firstWith key' done
             /\ held key' (done ++ [c]) = held key' done
             /\ evaluations key' (done ++ [c]) = evaluations key' done).
  { intros key' Hne. unfold firstWith, held, evaluations.
    rewrite find_snoc, !filter_app. cbn [filter].
    assert (E : withKey key' c = false) by (apply String.eqb_neq; exact Hne).
    rewrite E. cbn [andb]. rewrite !app_nil_r.
    destruct (find (withKey key') done); repeat split. }
  assert (Hself : withKey key c = true) by apply String.eqb_refl.
  assert (Hstep : held key (done ++ [c])
                  = held key done + (if ConditionEvaluation.result c then 1 else 0)
                  /\ evaluations key (done ++ [c]) = evaluations key done + 1).
  { unfold held, evaluations. rewrite !filter_app, !length_app. cbn [filter].
    rewrite Hself. cbn [andb]. destruct (ConditionEvaluation.result c); split; reflexivity. }
  destruct Hstep as [Hheld Hevals].
  destruct (JsMap.has m key) eqn:Ehas.
  - destruct (JsMap.get m key) as [entry|] eqn:Eget.
    2:{ apply JsMapFacts.has_get in Eget. congruence. }
    split; [ apply JsMapFacts.wf_set; exact Hwf | ].
    intros key'. rewrite JsMapFacts.get_set.
    destruct (String.eqb_spec key key') as [<- | Hne].
    + pose proof (Hm key) as Hk. rewrite Eget in Hk. destruct Hk as (H1 & H2 & H3).
      unfold firstWith in *. rewrite find_snoc, H1, Hheld, Hevals.
      destruct (ConditionEvaluation.result c);
        cbn [condition trueCount falseCount]; repeat split; lia.
    + destruct (Hother key' Hne) as (H1 & H2 & H3). rewrite H1, H2, H3. apply Hm.
  - rewrite JsMapFacts.get_set_same, RuleSummaryFacts.set_set.
    split; [ apply JsMapFacts.wf_set; exact Hwf | ].
    intros key'. rewrite JsMapFacts.get_set.
    destruct (String.eqb_spec key key') as [<- | Hne].
    + apply JsMapFacts.has_get in Ehas. pose proof (Hm key) as Hk. rewrite Ehas in Hk.
      unfold firstWith in *. rewrite find_snoc, Hk, Hself, Hheld, Hevals.
      unfold held, evaluations.
      rewrite (find_none_filter _ _ Hk).
      assert (Hnone : filter (fun c0 => withKey key c0 && ConditionEvaluation.result c0) done
                      = []).
      { apply ComparisonFacts.filter_nil. intros x Hx.
        pose proof (find_none_filter _ _ Hk) as Hf.
        rewrite ComparisonFacts.filter_nil in Hf. rewrite (Hf x Hx). reflexivity. }
      rewrite Hnone.
      destruct (ConditionEvaluation.result c);
        cbn [condition trueCount falseCount List.length]; repeat split.
    + destruct (Hother key' Hne) as (H1 & H2 & H3). rewrite H1, H2, H3. apply Hm.
Qed.

Lemma conditionsByRule_ok (conditions : list ConditionEvaluation.t) :
  countsOk conditions (fold_left countCondition conditions JsMap.empty).
Proof.
  assert (G : forall rest done m,
             countsOk done m -> countsOk (done ++ rest) (fold_left countCondition rest m)).
  { induction rest as [|c rest IH]; intros done m H; cbn [fold_left].
    - rewrite app_nil_r. exact H.
    - replace (done ++ c :: rest) with ((done ++ [c]) ++ rest)
        by (rewrite <- app_assoc; reflexivity).
      apply IH, countCondition_ok, H. }
  apply (G conditions [] JsMap.empty). split; [ constructor | ]. intros key. reflexivity.
Qed.

(** What a loop adds to the issues. *)
Lemma fold_adds {A} (Q : DetectedIssue.t -> Prop) (step : Detector -> A -> Detector)
  (l : list A) :
  (forall st x, exists added, issues (step st x) = issues st ++ added /\ Forall Q added) ->
  forall st,
    exists added, issues (fold_left step l st) = issues st ++ added /\ Forall Q added.
Proof.
  intros Hstep. induction l as [|x l IH]; intros st; cbn [fold_left].
  - exists []. split; [ symmetry; apply app_nil_r | constructor ].
  - destruct (Hstep st x) as (a1 & E1 & Q1). destruct (IH (step st x)) as (a2 & E2 & Q2).
    exists (a1 ++ a2). rewrite E2, E1, app_assoc. split; [ reflexivity | ].
    apply Forall_app. split; assumption.
Qed.

Lemma push_adds (Q : DetectedIssue.t -> Prop) (st : Detector) severity category title
  description lineNumber context :
  (forall id, Q {| id := id; severity := severity; category := category; title := title;
                   description := description; lineNumber := lineNumber;
                   context := context |}) ->
  exists added,
    issues (push st severity category title description lineNumber context)
    = issues st ++ added /\ Forall Q added.
Proof.
  intros HQ. eexists. split; [ reflexivity | ]. constructor; [ apply HQ | constructor ].
Qed.

Lemma nothing_added (Q : DetectedIssue.t -> Prop) (st : Detector) :
  exists added, issues st = issues st ++ added /\ Forall Q added.
Proof. exists []. split; [ symmetry; apply app_nil_r | constructor ]. Qed.

(** What the loop over [conditionsByRule] adds: a warning for every entry
    that was evaluated three times or more and never held. *)
Lemma alwaysFalse_adds (entries : list ConditionCounts) :
  forall st,
    exists added,
      issues (fold_left alwaysFalseStep entries st) = issues st ++ added
      /\ Forall (fun issue =>
                   exists entry,
                     In entry entries
                     /\ 3 <= trueCount entry + falseCount entry
                     /\ trueCount entry = 0
                     /\ issue = alwaysFalseIssue (condition entry)
                                  (trueCount entry + falseCount entry) (id issue)) added
      /\ (forall entry,
             In entry entries -> 3 <= trueCount entry + falseCount entry ->
             trueCount entry = 0 ->
             exists id,
               In (alwaysFalseIssue (condition entry)
                     (trueCount entry + falseCount entry) id) added).
Proof.
  induction entries as [|entry entries IH]; intros st; cbn [fold_left].
  - exists []. split; [ symmetry; apply app_nil_r | ]. split; [ constructor | ].
    intros entry [].
  - destruct (IH (alwaysFalseStep st entry)) as (added & E & Hall & Hevery).
    unfold alwaysFalseStep in *. cbn zeta in *.
    destruct ((3 <=? trueCount entry + falseCount entry) && (trueCount entry =? 0)) eqn:Etest.
    + apply andb_true_iff in Etest. destruct Etest as [E3 E0].
      apply Nat.leb_le in E3. apply Nat.eqb_eq in E0.
      eexists (_ :: added). split.
      { rewrite E. unfold push. cbn [issues]. rewrite <- app_assoc. reflexivity. }
      split.
      * constructor.
        -- exists entry. split; [ left; reflexivity | ]. repeat split; assumption.
        -- eapply Forall_impl; [ | exact Hall ]. cbn beta.
           intros issue (e & He & H). exists e. split; [ right; exact He | exact H ].
      * intros e [<- | He] H3 H0.
        -- eexists. left. reflexivity.
        -- destruct (Hevery e He H3 H0) as (id & Hid). exists id. right. exact Hid.
    + exists added. split; [ exact E | ]. split.
      * eapply Forall_impl; [ | exact Hall ]. cbn beta.
        intros issue (e & He & H). exists e. split; [ right; exact He | exact H ].
      * intros e [<- | He] H3 H0.
        -- apply andb_false_iff in Etest. destruct Etest as [Et | Et].
           ++ apply Nat.leb_gt in Et. lia.
           ++ apply Nat.eqb_neq in Et. lia.
        -- apply (Hevery e He H3 H0).
Qed.

(** X30: A warning of the category logic is raised for the conditions that
    were evaluated three times or more and never held, and for no other: a
    condition is known by its ruleset, its rule number and its expression;
    the warning shows its first evaluation and the number of its
    evaluations. *)
Theorem logic_warnings_are_the_conditions_that_never_held : forall data : Data,
  let conditions := ConditionSummary.conditions (conditionTracking data) in
  (forall issue,
      In issue (IssuesSummary.issues (detectIssues data)) ->
      category issue = logic -> neverHeld conditions issue)
  /\ (forall key first,
         firstWith key conditions = Some first ->
         3 <= evaluations key conditions ->
         held key conditions = 0 ->
         exists id,
           In (alwaysFalseIssue first (evaluations key conditions) id)
              (IssuesSummary.issues (detectIssues data))).
Proof.
  intros data. cbn zeta.
  set (conditions := ConditionSummary.conditions (conditionTracking data)).
  pose proof (conditionsByRule_ok conditions) as [Hwf Hm].
  set (conditionsByRule := fold_left countCondition conditions JsMap.empty) in *.
  set (notLogic := fun issue : DetectedIssue.t => category issue <> logic).
  assert (Hsplit : exists before added after,
             issues (findIssues data) = before ++ added ++ after
             /\ Forall notLogic before /\ Forall notLogic after
             /\ Forall (fun issue =>
                          exists entry,
                            In entry (JsMap.values conditionsByRule)
                            /\ 3 <= trueCount entry + falseCount entry
                            /\ trueCount entry = 0
                            /\ issue = alwaysFalseIssue (condition entry)
                                         (trueCount entry + falseCount entry) (id issue))
                  added
             /\ (forall entry,
                    In entry (JsMap.values conditionsByRule) ->
                    3 <= trueCount entry + falseCount entry ->
                    trueCount entry = 0 ->
                    exists id,
                      In (alwaysFalseIssue (condition entry)
                            (trueCount entry + falseCount entry) id) added)).
  { unfold findIssues. fold conditions. fold conditionsByRule.
    set (st1 := fold_left hotRuleStep _ _).
    set (st2 := rollbackCheck _ st1).
    set (st3 := fold_left alwaysFalseStep _ st2).
    set (st4 := fold_left nullValueStep _ st3).
    set (st5 := fold_left unassignedStep _ st4).
    destruct (fold_adds notLogic duplicateStep
                (JsMap.entries (rollbackLoop (lines data) 0 JsMap.empty))) with (st := st5)
      as (a6 & E6 & Q6).
    { intros st [pointNum pointInfo]. unfold duplicateStep.
      destruct (1 <? pointCount pointInfo); [ | apply nothing_added ].
      apply push_adds. intros id. unfold notLogic. cbn. discriminate. }
    destruct (fold_adds notLogic unassignedStep
                (JsMap.values (VariableTrackingSummary.variables (variableTracking data))))
      with (st := st4) as (a5 & E5 & Q5).
    { intros st variable. unfold unassignedStep.
      destruct (find readUnassigned _); [ | apply nothing_added ].
      apply push_adds. intros id. unfold notLogic. cbn. discriminate. }
    destruct (fold_adds notLogic nullValueStep
                (JsMap.values
                   (fold_left firstByExpression (filter hasNullTrace conditions)
                      JsMap.empty)))
      with (st := st3) as (a4 & E4 & Q4).
    { intros st condition. apply push_adds. intros id. unfold notLogic. cbn. discriminate. }
    destruct (alwaysFalse_adds (JsMap.values conditionsByRule) st2)
      as (a3 & E3 & Q3 & Every3).
    assert (H2 : exists a2, issues st2 = issues st1 ++ a2 /\ Forall notLogic a2).
    { unfold st2, rollbackCheck.
      destruct (15 <? rollbackPoints data); [ | apply nothing_added ].
      apply push_adds. intros id. unfold notLogic. cbn. discriminate. }
    destruct H2 as (a2 & E2 & Q2).
    destruct (fold_adds notLogic hotRuleStep
                (RuleExecutionSummary.topRules (rulesSummary data)))
      with (st := {| issues := []; issueId := 0 |}) as (a1 & E1 & Q1).
    { intros st rule. unfold hotRuleStep. cbn zeta.
      destruct (50 <? _);
        [ apply push_adds; intros id; unfold notLogic; cbn; discriminate | ].
      destruct (20 <? _);
        [ apply push_adds; intros id; unfold notLogic; cbn; discriminate | ].
      destruct (10 <? _);
        [ apply push_adds; intros id; unfold notLogic; cbn; discriminate | ].
      apply nothing_added. }
    fold st1 in E1. cbn [issues app] in E1.
    exists (a1 ++ a2), a3, (a4 ++ a5 ++ a6).
    split.
    { rewrite E6. subst st5. rewrite E5. subst st4. rewrite E4. subst st3.
      rewrite E3, E2, E1. rewrite <- !app_assoc. reflexivity. }
    split; [ apply Forall_app; split; assumption | ].
    split; [ apply Forall_app; split; [ assumption | apply Forall_app; split; assumption ] | ].
    split; assumption. }
  destruct Hsplit as (before & added & after & Eissues & Qb & Qa & Hall & Hevery).
  assert (Hin : forall issue,
             In issue (IssuesSummary.issues (detectIssues data))
             <-> In issue (issues (findIssues data))).
  { intros issue. unfold detectIssues. cbn [IssuesSummary.issues]. split.
    - apply Permutation_in, RoundTripFacts.stableSort_Permutation.
    - apply Permutation_in, Permutation_sym, RoundTripFacts.stableSort_Permutation. }
  assert (Hentry : forall entry,
             In entry (JsMap.values conditionsByRule) ->
             exists key,
               firstWith key conditions = Some (condition entry)
               /\ trueCount entry = held key conditions
               /\ trueCount entry + falseCount entry = evaluations key conditions).
  { intros entry He. unfold JsMap.values in He. apply in_map_iff in He.
    destruct He as ([key e] & <- & He). exists key.
    pose proof (Hm key) as Hk. rewrite (JsMapFacts.In_get _ _ _ Hwf He) in Hk. exact Hk. }
  split.
  - intros issue Hi Hlogic. apply Hin in Hi. rewrite Eissues in Hi.
    apply in_app_or in Hi. destruct Hi as [Hi | Hi].
    { rewrite Forall_forall in Qb. exfalso. apply (Qb issue Hi). exact Hlogic. }
    apply in_app_or in Hi. destruct Hi as [Hi | Hi].
    2:{ rewrite Forall_forall in Qa. exfalso. apply (Qa issue Hi). exact Hlogic. }
    rewrite Forall_forall in Hall. destruct (Hall issue Hi) as (entry & He & H3 & H0 & Eq).
    destruct (Hentry entry He) as (key & A & B & C).
    exists key, (condition entry). rewrite <- C, <- B.
    repeat split; assumption.
  - intros key first Hfirst H3 H0.
    pose proof (Hm key) as Hk.
    destruct (JsMap.get conditionsByRule key) as [entry|] eqn:Eget; [ | congruence ].
    destruct Hk as (A & B & C).
    assert (He : In entry (JsMap.values conditionsByRule)).
    { unfold JsMap.values. apply in_map_iff. exists (key, entry).
      split; [ reflexivity | apply JsMapFacts.get_In; exact Eget ]. }
    destruct (Hevery entry He) as (id & Hid); [ lia | lia | ].
    exists id. apply Hin. rewrite Eissues. apply in_or_app. right. apply in_or_app. left.
    rewrite C in Hid. replace first with (condition entry) by congruence. exact Hid.
Qed.

End IssueFacts.
